(** * Active Harmony: the PRO and ANGEL simplex search strategies

    A shallow embedding of [build/strategies/pro.c] (Parallel Rank Ordering)
    and [src/plugins/strategies/angel.c] (multi-objective Nelder-Mead), and
    the properties of the two state machines stated in the specification.

    Modelling conventions.
    - A C [double] is a value of [double] below: an exact rational, one of
      the two infinities, or NaN.  Arithmetic on finite values is exact
      (rounding and the sign of zero are not modelled); the exceptional
      values follow IEEE 754: NaN is absorbing, every ordered comparison
      with NaN is false, inf - inf and 0 * inf are NaN.
    - A C [int] is a [Z].  Signed overflow is undefined behaviour in C, so
      the model covers the executions that stay clear of it.
    - The process-wide variables of a plugin ([static data_t* data] in
      angel.c, the file-scope variables of pro.c) are one record threaded
      through every operation.
    - A pointer into the search state ([data->next]) is a reference naming
      the slot it points to, so writes through it are seen by every alias.
    - The vertex library (libvertex), the configuration store (hcfg) and
      libc are not part of the two files.  What the specification describes
      of them is defined here; the rest is a field of an interface class. *)

From Stdlib Require Import ZArith QArith Qreduction Qabs String DecimalString.
From Stdlib Require Import List Sorted Lia Lqa Bool.
Import ListNotations.

(* ================================================================= *)
(** ** Doubles *)

Module Dbl.

Inductive double : Type :=
| NaN
| PInf
| NInf
| Fin (q : Q).

(** A finite constant, in lowest terms. *)
Definition dbl (q : Q) : double := Fin (Qred q).

Definition HUGE_VAL : double := PInf.
Definition INFINITY : double := PInf.

Definition isnan (x : double) : bool :=
  match x with NaN => true | _ => false end.

Definition isfinite (x : double) : bool :=
  match x with Fin _ => true | _ => false end.

Definition Qltb (x y : Q) : bool := if Qlt_le_dec x y then true else false.
Definition Qzerob (x : Q) : bool := Qeq_bool x 0.

Definition dneg (x : double) : double :=
  match x with
  | NaN => NaN
  | PInf => NInf
  | NInf => PInf
  | Fin q => Fin (Qred (- q))
  end.

Definition dadd (x y : double) : double :=
  match x, y with
  | NaN, _ | _, NaN => NaN
  | PInf, NInf | NInf, PInf => NaN
  | PInf, _ | _, PInf => PInf
  | NInf, _ | _, NInf => NInf
  | Fin a, Fin b => Fin (Qred (a + b))
  end.

Definition dsub (x y : double) : double := dadd x (dneg y).

(** The sign of a product or quotient with an infinity: [neg] tells whether
    the infinite result is negative. *)
Definition inf_of (neg : bool) : double := if neg then NInf else PInf.

Definition dmul (x y : double) : double :=
  match x, y with
  | NaN, _ | _, NaN => NaN
  | Fin a, Fin b => Fin (Qred (a * b))
  | Fin a, PInf | PInf, Fin a =>
      if Qzerob a then NaN else inf_of (Qltb a 0)
  | Fin a, NInf | NInf, Fin a =>
      if Qzerob a then NaN else inf_of (negb (Qltb a 0))
  | PInf, PInf | NInf, NInf => PInf
  | PInf, NInf | NInf, PInf => NInf
  end.

Definition ddiv (x y : double) : double :=
  match x, y with
  | NaN, _ | _, NaN => NaN
  | Fin a, Fin b =>
      if Qzerob b
      then (if Qzerob a then NaN else inf_of (Qltb a 0))
      else Fin (Qred (a / b))
  | Fin _, (PInf | NInf) => Fin 0
  | PInf, Fin b => inf_of (Qltb b 0)
  | NInf, Fin b => inf_of (negb (Qltb b 0))
  | (PInf | NInf), (PInf | NInf) => NaN
  end.

(** [x < y] of C: false as soon as an operand is NaN. *)
Definition dlt (x y : double) : bool :=
  match x, y with
  | NaN, _ | _, NaN => false
  | _, NInf => false
  | PInf, _ => false
  | NInf, _ => true
  | Fin _, PInf => true
  | Fin a, Fin b => Qltb a b
  end.

Definition dle (x y : double) : bool :=
  match x, y with
  | NaN, _ | _, NaN => false
  | NInf, _ => true
  | _, PInf => true
  | _, NInf => false
  | PInf, _ => false
  | Fin a, Fin b => Qle_bool a b
  end.

Definition dgt (x y : double) : bool := dlt y x.
Definition dge (x y : double) : bool := dle y x.

(** [x == 0.0] of C. *)
Definition dzerob (x : double) : bool :=
  match x with Fin q => Qzerob q | _ => false end.

(** Equality of doubles as values: finite ones as rationals. *)
Definition deq (x y : double) : Prop :=
  match x, y with
  | NaN, NaN | PInf, PInf | NInf, NInf => True
  | Fin a, Fin b => a == b
  | _, _ => False
  end.

(** [x] is a finite double, of value [q]. *)
Definition fin_val (x : double) (q : Q) : Prop :=
  exists q', x = Fin q' /\ q' == q.

End Dbl.
Export Dbl.

Declare Scope dbl_scope.
Delimit Scope dbl_scope with D.
Bind Scope dbl_scope with double.
Infix "+" := dadd : dbl_scope.
Infix "-" := dsub : dbl_scope.
Infix "*" := dmul : dbl_scope.
Infix "/" := ddiv : dbl_scope.
Notation "- x" := (dneg x) : dbl_scope.
Infix "<?" := dlt : dbl_scope.
Infix "<=?" := dle : dbl_scope.
Infix ">?" := dgt : dbl_scope.
Infix ">=?" := dge : dbl_scope.

(* ================================================================= *)
(** ** Arrays indexed by a C int, and counted loops *)

Section Arrays.
Context {A : Type}.

(** [a[i]]: reading outside the array is undefined in C; the model reads
    the default [d] there. *)
Definition zget (d : A) (l : list A) (i : Z) : A :=
  if (i <? 0)%Z then d else nth (Z.to_nat i) l d.

Fixpoint upd_nat (l : list A) (n : nat) (x : A) : list A :=
  match l, n with
  | [], _ => []
  | _ :: t, O => x :: t
  | h :: t, S n' => h :: upd_nat t n' x
  end.

(** [a[i] = x]: writing outside the array is undefined in C; the model
    leaves the array as it is. *)
Definition zset (l : list A) (i : Z) (x : A) : list A :=
  if (i <? 0)%Z then l else upd_nat l (Z.to_nat i) x.

Definition zlen (l : list A) : Z := Z.of_nat (length l).

End Arrays.

Section Loops.
Context {S : Type}.

(** [for (i = from; ...; ++i) body], run [n] times. *)
Fixpoint for_up (n : nat) (from : Z) (body : Z -> S -> S) (s : S) : S :=
  match n with
  | O => s
  | Datatypes.S n' => for_up n' (from + 1)%Z body (body from s)
  end.

(** [for (i = 0; i < hi; ++i) body]. *)
Definition for_lt (hi : Z) (body : Z -> S -> S) (s : S) : S :=
  for_up (Z.to_nat hi) 0%Z body s.

(** [for (i = from; ...; --i) body], run [n] times. *)
Fixpoint for_down (n : nat) (from : Z) (body : Z -> S -> S) (s : S) : S :=
  match n with
  | O => s
  | Datatypes.S n' => for_down n' (from - 1)%Z body (body from s)
  end.

End Loops.

(* ================================================================= *)
(** ** PRO: build/strategies/pro.c *)

Module Pro.

Inductive simplex_init : Type :=
| SIMPLEX_INIT_UNKNOWN
| SIMPLEX_INIT_RANDOM
| SIMPLEX_INIT_POINT
| SIMPLEX_INIT_POINT_FAST
| SIMPLEX_INIT_MAX.

Inductive simplex_state : Type :=
| SIMPLEX_STATE_UNKNONW
| SIMPLEX_STATE_INIT
| SIMPLEX_STATE_REFLECT
| SIMPLEX_STATE_EXPAND_ONE
| SIMPLEX_STATE_EXPAND_ALL
| SIMPLEX_STATE_SHRINK
| SIMPLEX_STATE_CONVERGED
| SIMPLEX_STATE_MAX.

Definition state_eqb (a b : simplex_state) : bool :=
  match a, b with
  | SIMPLEX_STATE_UNKNONW, SIMPLEX_STATE_UNKNONW
  | SIMPLEX_STATE_INIT, SIMPLEX_STATE_INIT
  | SIMPLEX_STATE_REFLECT, SIMPLEX_STATE_REFLECT
  | SIMPLEX_STATE_EXPAND_ONE, SIMPLEX_STATE_EXPAND_ONE
  | SIMPLEX_STATE_EXPAND_ALL, SIMPLEX_STATE_EXPAND_ALL
  | SIMPLEX_STATE_SHRINK, SIMPLEX_STATE_SHRINK
  | SIMPLEX_STATE_CONVERGED, SIMPLEX_STATE_CONVERGED
  | SIMPLEX_STATE_MAX, SIMPLEX_STATE_MAX => true
  | _, _ => false
  end.

Inductive hmesg_status : Type :=
| HMESG_STATUS_OK
| HMESG_STATUS_FAIL
| HMESG_STATUS_BUSY.

(** The configuration keys pro.c names (macros of defaults.h). *)
Inductive cfgkey : Type :=
| CFGKEY_PRO_SIMPLEX_SIZE
| CFGKEY_PREFETCH_COUNT
| CFGKEY_PREFETCH_ATOMIC
| CFGKEY_RANDOM_SEED
| CFGKEY_PRO_INIT_METHOD
| CFGKEY_PRO_INIT_PERCENT
| CFGKEY_PRO_REFLECT
| CFGKEY_PRO_EXPAND
| CFGKEY_PRO_CONTRACT
| CFGKEY_PRO_SHRINK
| CFGKEY_PRO_CONVERGE_FV
| CFGKEY_PRO_CONVERGE_SZ
| CFGKEY_STRATEGY_CONVERGED.

Definition cfgkey_eq_dec (a b : cfgkey) : {a = b} + {a <> b}.
Proof. decide equality. Defined.

(** Modelled from the spec: the configuration store [hcfg_t] (hcfg.c is not
    among the sources; hcfg.h declares [hcfg_get] and [hcfg_set]) is the
    string-keyed map of section 6; [hcfg_get] is NULL ([None]) on a key that
    is not set. *)
Definition hcfg : Type := cfgkey -> option string.

Definition hcfg_get (c : hcfg) (k : cfgkey) : option string := c k.

Definition hcfg_set (c : hcfg) (k : cfgkey) (v : string) : hcfg :=
  fun k' => if cfgkey_eq_dec k' k then Some v else c k'.

(** The text left in [mesg->data.string]; a message built around a key
    macro keeps the key. *)
Inductive errmsg : Type :=
| Msg (s : string)
| Invalid_value_for (k : cfgkey)
| Must_be_between_0_and_1 (k : cfgkey)
| Must_be_positive (k : cfgkey)
| Must_be_greater_than_1 (k : cfgkey)
| Could_not_set (k : cfgkey).

Record hpoint_t : Type := { hp_id : Z; hp_term : list double }.

(** [vertex_t] of the vertex library pro.c is built against: one scalar
    performance per vertex. *)
Record vertex_t : Type := { id : Z; perf : double; term : list double }.

Definition simplex_t : Type := list vertex_t.

Definition set_id (x : Z) (v : vertex_t) : vertex_t :=
  {| id := x; perf := perf v; term := term v |}.
Definition set_perf (x : double) (v : vertex_t) : vertex_t :=
  {| id := id v; perf := x; term := term v |}.
Definition set_term (x : list double) (v : vertex_t) : vertex_t :=
  {| id := id v; perf := perf v; term := x |}.

Definition vertex0 : vertex_t := {| id := 0; perf := Fin 0; term := [] |}.

(** [s->vertex[i]] *)
Definition vget (s : simplex_t) (i : Z) : vertex_t := zget vertex0 s i.

Record hmesg_t : Type := {
  status : hmesg_status;
  data_string : errmsg;
  fetch_cand : hpoint_t;
  fetch_best : hpoint_t;
  report_cand : hpoint_t;
  report_perf : double
}.

Definition set_status (x : hmesg_status) (m : hmesg_t) : hmesg_t :=
  Build_hmesg_t x (data_string m) (fetch_cand m) (fetch_best m)
    (report_cand m) (report_perf m).
Definition set_data_string (x : errmsg) (m : hmesg_t) : hmesg_t :=
  Build_hmesg_t (status m) x (fetch_cand m) (fetch_best m)
    (report_cand m) (report_perf m).
Definition set_fetch_cand (x : hpoint_t) (m : hmesg_t) : hmesg_t :=
  Build_hmesg_t (status m) (data_string m) x (fetch_best m)
    (report_cand m) (report_perf m).
Definition set_fetch_best (x : hpoint_t) (m : hmesg_t) : hmesg_t :=
  Build_hmesg_t (status m) (data_string m) (fetch_cand m) x
    (report_cand m) (report_perf m).

(** The file-scope variables of pro.c, with the session's configuration
    ([sess->cfg]) and the state of libc's random generator ([seed]). *)
Record pro : Type := {
  strategy_best : hpoint_t;
  strategy_best_perf : double;
  curr : hpoint_t;
  init_method : simplex_init;
  init_point : vertex_t;
  init_percent : double;
  reflect_coefficient : double;
  expand_coefficient : double;
  contract_coefficient : double;
  shrink_coefficient : double;
  converge_fv_tol : double;
  converge_sz_tol : double;
  simplex_size : Z;
  state : simplex_state;
  base : simplex_t;
  test : simplex_t;
  best_base : Z;
  best_test : Z;
  best_stash : Z;
  next_id : Z;
  send_idx : Z;
  reported : Z;
  cfg : hcfg;
  seed : Z
}.

Definition set_strategy_best (x : hpoint_t) (r : pro) : pro :=
  Build_pro x (strategy_best_perf r) (curr r) (init_method r) (init_point r)
    (init_percent r) (reflect_coefficient r) (expand_coefficient r)
    (contract_coefficient r) (shrink_coefficient r) (converge_fv_tol r)
    (converge_sz_tol r) (simplex_size r) (state r) (base r) (test r)
    (best_base r) (best_test r) (best_stash r) (next_id r) (send_idx r)
    (reported r) (cfg r) (seed r).
Definition set_strategy_best_perf (x : double) (r : pro) : pro :=
  Build_pro (strategy_best r) x (curr r) (init_method r) (init_point r)
    (init_percent r) (reflect_coefficient r) (expand_coefficient r)
    (contract_coefficient r) (shrink_coefficient r) (converge_fv_tol r)
    (converge_sz_tol r) (simplex_size r) (state r) (base r) (test r)
    (best_base r) (best_test r) (best_stash r) (next_id r) (send_idx r)
    (reported r) (cfg r) (seed r).
Definition set_curr (x : hpoint_t) (r : pro) : pro :=
  Build_pro (strategy_best r) (strategy_best_perf r) x (init_method r)
    (init_point r) (init_percent r) (reflect_coefficient r)
    (expand_coefficient r) (contract_coefficient r) (shrink_coefficient r)
    (converge_fv_tol r) (converge_sz_tol r) (simplex_size r) (state r)
    (base r) (test r) (best_base r) (best_test r) (best_stash r) (next_id r)
    (send_idx r) (reported r) (cfg r) (seed r).
Definition set_init_method (x : simplex_init) (r : pro) : pro :=
  Build_pro (strategy_best r) (strategy_best_perf r) (curr r) x
    (init_point r) (init_percent r) (reflect_coefficient r)
    (expand_coefficient r) (contract_coefficient r) (shrink_coefficient r)
    (converge_fv_tol r) (converge_sz_tol r) (simplex_size r) (state r)
    (base r) (test r) (best_base r) (best_test r) (best_stash r) (next_id r)
    (send_idx r) (reported r) (cfg r) (seed r).
Definition set_init_point (x : vertex_t) (r : pro) : pro :=
  Build_pro (strategy_best r) (strategy_best_perf r) (curr r)
    (init_method r) x (init_percent r) (reflect_coefficient r)
    (expand_coefficient r) (contract_coefficient r) (shrink_coefficient r)
    (converge_fv_tol r) (converge_sz_tol r) (simplex_size r) (state r)
    (base r) (test r) (best_base r) (best_test r) (best_stash r) (next_id r)
    (send_idx r) (reported r) (cfg r) (seed r).
Definition set_init_percent (x : double) (r : pro) : pro :=
  Build_pro (strategy_best r) (strategy_best_perf r) (curr r)
    (init_method r) (init_point r) x (reflect_coefficient r)
    (expand_coefficient r) (contract_coefficient r) (shrink_coefficient r)
    (converge_fv_tol r) (converge_sz_tol r) (simplex_size r) (state r)
    (base r) (test r) (best_base r) (best_test r) (best_stash r) (next_id r)
    (send_idx r) (reported r) (cfg r) (seed r).
Definition set_reflect_coefficient (x : double) (r : pro) : pro :=
  Build_pro (strategy_best r) (strategy_best_perf r) (curr r)
    (init_method r) (init_point r) (init_percent r) x (expand_coefficient r)
    (contract_coefficient r) (shrink_coefficient r) (converge_fv_tol r)
    (converge_sz_tol r) (simplex_size r) (state r) (base r) (test r)
    (best_base r) (best_test r) (best_stash r) (next_id r) (send_idx r)
    (reported r) (cfg r) (seed r).
Definition set_expand_coefficient (x : double) (r : pro) : pro :=
  Build_pro (strategy_best r) (strategy_best_perf r) (curr r)
    (init_method r) (init_point r) (init_percent r) (reflect_coefficient r)
    x (contract_coefficient r) (shrink_coefficient r) (converge_fv_tol r)
    (converge_sz_tol r) (simplex_size r) (state r) (base r) (test r)
    (best_base r) (best_test r) (best_stash r) (next_id r) (send_idx r)
    (reported r) (cfg r) (seed r).
Definition set_contract_coefficient (x : double) (r : pro) : pro :=
  Build_pro (strategy_best r) (strategy_best_perf r) (curr r)
    (init_method r) (init_point r) (init_percent r) (reflect_coefficient r)
    (expand_coefficient r) x (shrink_coefficient r) (converge_fv_tol r)
    (converge_sz_tol r) (simplex_size r) (state r) (base r) (test r)
    (best_base r) (best_test r) (best_stash r) (next_id r) (send_idx r)
    (reported r) (cfg r) (seed r).
Definition set_shrink_coefficient (x : double) (r : pro) : pro :=
  Build_pro (strategy_best r) (strategy_best_perf r) (curr r)
    (init_method r) (init_point r) (init_percent r) (reflect_coefficient r)
    (expand_coefficient r) (contract_coefficient r) x (converge_fv_tol r)
    (converge_sz_tol r) (simplex_size r) (state r) (base r) (test r)
    (best_base r) (best_test r) (best_stash r) (next_id r) (send_idx r)
    (reported r) (cfg r) (seed r).
Definition set_converge_fv_tol (x : double) (r : pro) : pro :=
  Build_pro (strategy_best r) (strategy_best_perf r) (curr r)
    (init_method r) (init_point r) (init_percent r) (reflect_coefficient r)
    (expand_coefficient r) (contract_coefficient r) (shrink_coefficient r) x
    (converge_sz_tol r) (simplex_size r) (state r) (base r) (test r)
    (best_base r) (best_test r) (best_stash r) (next_id r) (send_idx r)
    (reported r) (cfg r) (seed r).
Definition set_converge_sz_tol (x : double) (r : pro) : pro :=
  Build_pro (strategy_best r) (strategy_best_perf r) (curr r)
    (init_method r) (init_point r) (init_percent r) (reflect_coefficient r)
    (expand_coefficient r) (contract_coefficient r) (shrink_coefficient r)
    (converge_fv_tol r) x (simplex_size r) (state r) (base r) (test r)
    (best_base r) (best_test r) (best_stash r) (next_id r) (send_idx r)
    (reported r) (cfg r) (seed r).
Definition set_simplex_size (x : Z) (r : pro) : pro :=
  Build_pro (strategy_best r) (strategy_best_perf r) (curr r)
    (init_method r) (init_point r) (init_percent r) (reflect_coefficient r)
    (expand_coefficient r) (contract_coefficient r) (shrink_coefficient r)
    (converge_fv_tol r) (converge_sz_tol r) x (state r) (base r) (test r)
    (best_base r) (best_test r) (best_stash r) (next_id r) (send_idx r)
    (reported r) (cfg r) (seed r).
Definition set_state (x : simplex_state) (r : pro) : pro :=
  Build_pro (strategy_best r) (strategy_best_perf r) (curr r)
    (init_method r) (init_point r) (init_percent r) (reflect_coefficient r)
    (expand_coefficient r) (contract_coefficient r) (shrink_coefficient r)
    (converge_fv_tol r) (converge_sz_tol r) (simplex_size r) x (base r)
    (test r) (best_base r) (best_test r) (best_stash r) (next_id r)
    (send_idx r) (reported r) (cfg r) (seed r).
Definition set_base (x : simplex_t) (r : pro) : pro :=
  Build_pro (strategy_best r) (strategy_best_perf r) (curr r)
    (init_method r) (init_point r) (init_percent r) (reflect_coefficient r)
    (expand_coefficient r) (contract_coefficient r) (shrink_coefficient r)
    (converge_fv_tol r) (converge_sz_tol r) (simplex_size r) (state r) x
    (test r) (best_base r) (best_test r) (best_stash r) (next_id r)
    (send_idx r) (reported r) (cfg r) (seed r).
Definition set_test (x : simplex_t) (r : pro) : pro :=
  Build_pro (strategy_best r) (strategy_best_perf r) (curr r)
    (init_method r) (init_point r) (init_percent r) (reflect_coefficient r)
    (expand_coefficient r) (contract_coefficient r) (shrink_coefficient r)
    (converge_fv_tol r) (converge_sz_tol r) (simplex_size r) (state r)
    (base r) x (best_base r) (best_test r) (best_stash r) (next_id r)
    (send_idx r) (reported r) (cfg r) (seed r).
Definition set_best_base (x : Z) (r : pro) : pro :=
  Build_pro (strategy_best r) (strategy_best_perf r) (curr r)
    (init_method r) (init_point r) (init_percent r) (reflect_coefficient r)
    (expand_coefficient r) (contract_coefficient r) (shrink_coefficient r)
    (converge_fv_tol r) (converge_sz_tol r) (simplex_size r) (state r)
    (base r) (test r) x (best_test r) (best_stash r) (next_id r)
    (send_idx r) (reported r) (cfg r) (seed r).
Definition set_best_test (x : Z) (r : pro) : pro :=
  Build_pro (strategy_best r) (strategy_best_perf r) (curr r)
    (init_method r) (init_point r) (init_percent r) (reflect_coefficient r)
    (expand_coefficient r) (contract_coefficient r) (shrink_coefficient r)
    (converge_fv_tol r) (converge_sz_tol r) (simplex_size r) (state r)
    (base r) (test r) (best_base r) x (best_stash r) (next_id r)
    (send_idx r) (reported r) (cfg r) (seed r).
Definition set_best_stash (x : Z) (r : pro) : pro :=
  Build_pro (strategy_best r) (strategy_best_perf r) (curr r)
    (init_method r) (init_point r) (init_percent r) (reflect_coefficient r)
    (expand_coefficient r) (contract_coefficient r) (shrink_coefficient r)
    (converge_fv_tol r) (converge_sz_tol r) (simplex_size r) (state r)
    (base r) (test r) (best_base r) (best_test r) x (next_id r) (send_idx r)
    (reported r) (cfg r) (seed r).
Definition set_next_id (x : Z) (r : pro) : pro :=
  Build_pro (strategy_best r) (strategy_best_perf r) (curr r)
    (init_method r) (init_point r) (init_percent r) (reflect_coefficient r)
    (expand_coefficient r) (contract_coefficient r) (shrink_coefficient r)
    (converge_fv_tol r) (converge_sz_tol r) (simplex_size r) (state r)
    (base r) (test r) (best_base r) (best_test r) (best_stash r) x
    (send_idx r) (reported r) (cfg r) (seed r).
Definition set_send_idx (x : Z) (r : pro) : pro :=
  Build_pro (strategy_best r) (strategy_best_perf r) (curr r)
    (init_method r) (init_point r) (init_percent r) (reflect_coefficient r)
    (expand_coefficient r) (contract_coefficient r) (shrink_coefficient r)
    (converge_fv_tol r) (converge_sz_tol r) (simplex_size r) (state r)
    (base r) (test r) (best_base r) (best_test r) (best_stash r) (next_id r)
    x (reported r) (cfg r) (seed r).
Definition set_reported (x : Z) (r : pro) : pro :=
  Build_pro (strategy_best r) (strategy_best_perf r) (curr r)
    (init_method r) (init_point r) (init_percent r) (reflect_coefficient r)
    (expand_coefficient r) (contract_coefficient r) (shrink_coefficient r)
    (converge_fv_tol r) (converge_sz_tol r) (simplex_size r) (state r)
    (base r) (test r) (best_base r) (best_test r) (best_stash r) (next_id r)
    (send_idx r) x (cfg r) (seed r).
Definition set_cfg (x : hcfg) (r : pro) : pro :=
  Build_pro (strategy_best r) (strategy_best_perf r) (curr r)
    (init_method r) (init_point r) (init_percent r) (reflect_coefficient r)
    (expand_coefficient r) (contract_coefficient r) (shrink_coefficient r)
    (converge_fv_tol r) (converge_sz_tol r) (simplex_size r) (state r)
    (base r) (test r) (best_base r) (best_test r) (best_stash r) (next_id r)
    (send_idx r) (reported r) x (seed r).
Definition set_seed (x : Z) (r : pro) : pro :=
  Build_pro (strategy_best r) (strategy_best_perf r) (curr r)
    (init_method r) (init_point r) (init_percent r) (reflect_coefficient r)
    (expand_coefficient r) (contract_coefficient r) (shrink_coefficient r)
    (converge_fv_tol r) (converge_sz_tol r) (simplex_size r) (state r)
    (base r) (test r) (best_base r) (best_test r) (best_stash r) (next_id r)
    (send_idx r) (reported r) (cfg r) x.

(** What pro.c takes from outside the file: the session's signature, libc,
    and the vertex library it is built against (none of them among the
    sources).  A function that fills an object in place takes the object
    and returns it filled; an [int] status is returned beside it. *)
Class Env : Type := {
  range_len : Z;                         (* sess->sig.range_len *)
  atoi : string -> Z;
  strtod : string -> double * string;    (* the value, and what endp is left at *)
  strcasecmp : string -> string -> Z;
  time_now : Z;                          (* time(NULL) *)
  libvertex_init : Z;
  vertex_alloc : option vertex_t;
  simplex_alloc : Z -> option simplex_t;
  vertex_min : vertex_t -> vertex_t;
  vertex_max : vertex_t -> vertex_t;
  vertex_dist : vertex_t -> vertex_t -> double;
  vertex_rand : Z -> vertex_t -> vertex_t * Z; (* threads the generator's state *)
  vertex_center : vertex_t -> vertex_t;
  simplex_from_vertex : vertex_t -> double -> simplex_t -> Z * simplex_t;
  simplex_from_vertex_fast : vertex_t -> double -> simplex_t -> Z * simplex_t;
  vertex_to_hpoint_term : vertex_t -> Z * list double; (* status, aligned terms *)
  simplex_outofbounds : simplex_t -> Z;
  simplex_collapsed : simplex_t -> Z;
  hpoint_init : hpoint_t -> Z -> Z * hpoint_t;
  hpoint_copy : hpoint_t -> hpoint_t -> Z * hpoint_t;
  HPOINT_INITIALIZER : hpoint_t
}.

(** *** The vertex operations the specification describes *)

Fixpoint map2 {A B C : Type} (f : A -> B -> C) (l : list A) (m : list B)
  : list C :=
  match l, m with
  | a :: l', b :: m' => f a b :: map2 f l' m'
  | _, _ => []
  end.

(** Modelled from the spec: [vertex_transform] of libvertex (not among the
    sources).  Section 4.1: "vertex_transform(origin, v, c, out) -> out =
    origin + c * (v - origin)", coordinate by coordinate; the id and the
    performance of [out] are not mentioned and are left as they are. *)
Definition vertex_transform (origin v : vertex_t) (c : double) (out : vertex_t)
  : vertex_t :=
  set_term (map2 (fun o x => o + c * (x - o))%D (term origin) (term v)) out.

(** Modelled from the spec: [vertex_copy] and [simplex_copy] of libvertex
    copy the whole object. *)
Definition vertex_copy (dst src : vertex_t) : vertex_t := src.
Definition simplex_copy (dst src : simplex_t) : simplex_t := src.

(** Modelled from the spec: [simplex_transform] of libvertex.  Section 4.1:
    "simplex_transform(s, pivot, c, out): apply vertex_transform(pivot,
    s[i], c, out[i]) element-wise". *)
Definition simplex_transform (s : simplex_t) (pivot : vertex_t) (c : double)
  (out : simplex_t) : simplex_t :=
  map2 (fun si oi => vertex_transform pivot si c oi) s out.

Definition dsum (l : list double) : double := fold_left dadd l (Fin 0).

Fixpoint transpose (n : nat) (rows : list (list double))
  : list (list double) :=
  match n with
  | O => []
  | S n' => map (fun r => nth 0 r (Fin 0)) rows
            :: transpose n' (map (@tl double) rows)
  end.

(** Modelled from the spec: [simplex_centroid] of libvertex.  Section 4.1:
    "arithmetic mean of vertices whose id <> 0"; the performance of the
    centroid is the mean of theirs. *)
Definition simplex_centroid (s : simplex_t) (out : vertex_t) : vertex_t :=
  let live := filter (fun v => negb (id v =? 0)%Z) s in
  let n := Fin (inject_Z (zlen live)) in
  {| id := id out;
     perf := (dsum (map perf live) / n)%D;
     term := map (fun col => (dsum col / n)%D)
               (transpose (length (term out)) (map term live)) |}.

Section Strategy.
Context {E : Env}.

(** Modelled from the spec: [vertex_to_hpoint] of libvertex.  Section 3: "A
    vertex carries the same id as the point it represents", so the point
    made from a vertex has the vertex's id; its terms are the aligned
    coordinates the library computes. *)
Definition vertex_to_hpoint (v : vertex_t) (p : hpoint_t) : Z * hpoint_t :=
  let (rc, t) := vertex_to_hpoint_term v in
  (rc, {| hp_id := id v; hp_term := t |}).

Definition ret3 (rc : Z) (g : pro) (m : hmesg_t) : Z * pro * hmesg_t := (rc, g, m).

(** [if (f(...) != 0) return -1;] chains. *)
Definition andthen (r : Z * pro * hmesg_t)
  (k : hmesg_t -> pro -> Z * pro * hmesg_t) : Z * pro * hmesg_t :=
  let '(rc, g, m) := r in if (rc =? 0)%Z then k m g else r.

Definition nonempty (s : string) : bool :=
  match s with EmptyString => false | String _ _ => true end.

(** *** strategy_cfg, block by block *)

Definition cfg_simplex_size (g : pro) : pro :=
  let g := match hcfg_get (cfg g) CFGKEY_PRO_SIMPLEX_SIZE with
           | Some cfgval => set_simplex_size (atoi cfgval) g
           | None => g
           end in
  if (simplex_size g <? range_len + 1)%Z
  then set_simplex_size (range_len + 1)%Z g else g.

Definition cfg_prefetch_count (g : pro) : pro :=
  match hcfg_get (cfg g) CFGKEY_PREFETCH_COUNT with
  | Some cfgval =>
      let retval := atoi cfgval in
      if ((retval >? 1) || (strcasecmp cfgval "auto"%string =? 0))%Z
      then set_cfg (hcfg_set (cfg g) CFGKEY_PREFETCH_COUNT "1"%string) g
      else if (retval <? 0)%Z
      then set_cfg (hcfg_set (cfg g) CFGKEY_PREFETCH_COUNT "0"%string) g
      else g
  | None => g
  end.

Definition cfg_random_seed (g : pro) : pro :=
  match hcfg_get (cfg g) CFGKEY_RANDOM_SEED with
  | Some cfgval => set_seed (atoi cfgval) g
  | None => set_seed time_now g
  end.

Definition cfg_init_method (mesg : hmesg_t) (g : pro) : Z * pro * hmesg_t :=
  match hcfg_get (cfg g) CFGKEY_PRO_INIT_METHOD with
  | Some cfgval =>
      if (strcasecmp cfgval "random"%string =? 0)%Z
      then ret3 0 (set_init_method SIMPLEX_INIT_RANDOM g) mesg
      else if (strcasecmp cfgval "point"%string =? 0)%Z
      then ret3 0 (set_init_method SIMPLEX_INIT_POINT g) mesg
      else if (strcasecmp cfgval "point_fast"%string =? 0)%Z
      then ret3 0 (set_init_method SIMPLEX_INIT_POINT_FAST g) mesg
      else ret3 (-1) g
             (set_data_string (Invalid_value_for CFGKEY_PRO_INIT_METHOD) mesg)
  | None => ret3 0 g mesg
  end.

Definition cfg_init_percent (mesg : hmesg_t) (g : pro) : Z * pro * hmesg_t :=
  match hcfg_get (cfg g) CFGKEY_PRO_INIT_PERCENT with
  | Some cfgval =>
      let (v, endp) := strtod cfgval in
      let g := set_init_percent v g in
      if nonempty endp
      then ret3 (-1) g
             (set_data_string (Invalid_value_for CFGKEY_PRO_INIT_PERCENT) mesg)
      else if (init_percent g <=? Fin 0)%D || (init_percent g >? Fin 1)%D
      then ret3 (-1) g
             (set_data_string
                (Must_be_between_0_and_1 CFGKEY_PRO_INIT_PERCENT) mesg)
      else ret3 0 g mesg
  | None => ret3 0 g mesg
  end.

Definition cfg_reflect (mesg : hmesg_t) (g : pro) : Z * pro * hmesg_t :=
  match hcfg_get (cfg g) CFGKEY_PRO_REFLECT with
  | Some cfgval =>
      let (v, endp) := strtod cfgval in
      let g := set_reflect_coefficient v g in
      if nonempty endp
      then ret3 (-1) g
             (set_data_string (Invalid_value_for CFGKEY_PRO_REFLECT) mesg)
      else if (reflect_coefficient g <=? Fin 0)%D
      then ret3 (-1) g
             (set_data_string (Must_be_positive CFGKEY_PRO_REFLECT) mesg)
      else ret3 0 g mesg
  | None => ret3 0 g mesg
  end.

Definition cfg_expand (mesg : hmesg_t) (g : pro) : Z * pro * hmesg_t :=
  match hcfg_get (cfg g) CFGKEY_PRO_EXPAND with
  | Some cfgval =>
      let (v, endp) := strtod cfgval in
      let g := set_expand_coefficient v g in
      if nonempty endp
      then ret3 (-1) g
             (set_data_string (Invalid_value_for CFGKEY_PRO_EXPAND) mesg)
      else if (reflect_coefficient g <=? Fin 1)%D
      then ret3 (-1) g
             (set_data_string (Must_be_greater_than_1 CFGKEY_PRO_EXPAND) mesg)
      else ret3 0 g mesg
  | None => ret3 0 g mesg
  end.

Definition cfg_contract (mesg : hmesg_t) (g : pro) : Z * pro * hmesg_t :=
  match hcfg_get (cfg g) CFGKEY_PRO_CONTRACT with
  | Some cfgval =>
      let (v, endp) := strtod cfgval in
      let g := set_contract_coefficient v g in
      if nonempty endp
      then ret3 (-1) g
             (set_data_string (Invalid_value_for CFGKEY_PRO_CONTRACT) mesg)
      else if (reflect_coefficient g <=? Fin 0)%D
              || (reflect_coefficient g >=? Fin 1)%D
      then ret3 (-1) g
             (set_data_string
                (Must_be_between_0_and_1 CFGKEY_PRO_CONTRACT) mesg)
      else ret3 0 g mesg
  | None => ret3 0 g mesg
  end.

Definition cfg_shrink (mesg : hmesg_t) (g : pro) : Z * pro * hmesg_t :=
  match hcfg_get (cfg g) CFGKEY_PRO_SHRINK with
  | Some cfgval =>
      let (v, endp) := strtod cfgval in
      let g := set_shrink_coefficient v g in
      if nonempty endp
      then ret3 (-1) g
             (set_data_string (Invalid_value_for CFGKEY_PRO_SHRINK) mesg)
      else if (reflect_coefficient g <=? Fin 0)%D
              || (reflect_coefficient g >=? Fin 1)%D
      then ret3 (-1) g
             (set_data_string
                (Must_be_between_0_and_1 CFGKEY_PRO_SHRINK) mesg)
      else ret3 0 g mesg
  | None => ret3 0 g mesg
  end.

Definition cfg_converge_fv (mesg : hmesg_t) (g : pro) : Z * pro * hmesg_t :=
  match hcfg_get (cfg g) CFGKEY_PRO_CONVERGE_FV with
  | Some cfgval =>
      let (v, endp) := strtod cfgval in
      let g := set_converge_fv_tol v g in
      if nonempty endp
      then ret3 (-1) g
             (set_data_string (Invalid_value_for CFGKEY_PRO_CONVERGE_FV) mesg)
      else ret3 0 g mesg
  | None => ret3 0 g mesg
  end.

Definition cfg_converge_sz (mesg : hmesg_t) (g : pro) : Z * pro * hmesg_t :=
  match hcfg_get (cfg g) CFGKEY_PRO_CONVERGE_SZ with
  | Some cfgval =>
      let (v, endp) := strtod cfgval in
      let g := set_converge_sz_tol v g in
      if nonempty endp
      then ret3 (-1) g
             (set_data_string (Invalid_value_for CFGKEY_PRO_CONVERGE_SZ) mesg)
      else ret3 0 g mesg
  | None => ret3 0 g mesg
  end.

Definition strategy_cfg (mesg : hmesg_t) (g : pro) : Z * pro * hmesg_t :=
  let g := cfg_random_seed (cfg_prefetch_count (cfg_simplex_size g)) in
  andthen (cfg_init_method mesg g) (fun mesg g =>
  andthen (cfg_init_percent mesg g) (fun mesg g =>
  andthen (cfg_reflect mesg g) (fun mesg g =>
  andthen (cfg_expand mesg g) (fun mesg g =>
  andthen (cfg_contract mesg g) (fun mesg g =>
  andthen (cfg_shrink mesg g) (fun mesg g =>
  andthen (cfg_converge_fv mesg g) (fun mesg g =>
  cfg_converge_sz mesg g))))))).


(** *** Initial simplex *)

Definition init_by_random (g : pro) : Z * pro :=
  (0%Z,
   for_lt (simplex_size g)
     (fun i g =>
        let (v, sd) := vertex_rand (seed g) (vget (base g) i) in
        set_seed sd (set_base (zset (base g) i v) g))
     g).

Definition init_by_point (fast : Z) (g : pro) : Z * pro :=
  let g := if (id (init_point g) =? -1)%Z
           then set_init_point (vertex_center (init_point g)) g else g in
  let (rc, b) :=
    if negb (fast =? 0)%Z
    then simplex_from_vertex_fast (init_point g) (init_percent g) (base g)
    else simplex_from_vertex (init_point g) (init_percent g) (base g) in
  (rc, set_base b g).

(** *** The state machine *)

Definition pro_next_state (input : simplex_t) (best_in : Z) (g : pro)
  : Z * pro :=
  match state g with
  | SIMPLEX_STATE_INIT
  | SIMPLEX_STATE_SHRINK =>
      (* Simply accept the candidate simplex and prepare to reflect. *)
      let g := set_base (simplex_copy (base g) input) g in
      let g := set_best_base best_in g in
      (0%Z, set_state SIMPLEX_STATE_REFLECT g)
  | SIMPLEX_STATE_REFLECT =>
      if (perf (vget input best_in) <? perf (vget (base g) (best_base g)))%D
      then
        let g := set_base (simplex_copy (base g) input) g in
        let g := set_best_stash (best_test g) g in
        (0%Z, set_state SIMPLEX_STATE_EXPAND_ONE g)
      else (0%Z, set_state SIMPLEX_STATE_SHRINK g)
  | SIMPLEX_STATE_EXPAND_ONE =>
      if (perf (vget input 0) <? perf (vget (base g) (best_base g)))%D
      then (0%Z, set_state SIMPLEX_STATE_EXPAND_ALL g)
      else
        let g := set_best_base best_in g in
        (0%Z, set_state SIMPLEX_STATE_REFLECT g)
  | SIMPLEX_STATE_EXPAND_ALL =>
      let g :=
        if (perf (vget input best_in) <? perf (vget (base g) (best_base g)))%D
        then set_best_base best_in (set_base (simplex_copy (base g) input) g)
        else g in
      (0%Z, set_state SIMPLEX_STATE_REFLECT g)
  | _ => ((-1)%Z, g)
  end.

(** [pro_next_simplex(output)]: the new contents of [output].  Both call
    sites pass [test], which the EXPAND_ONE case also reads. *)
Definition pro_next_simplex (output : simplex_t) (g : pro) : Z * simplex_t :=
  match state g with
  | SIMPLEX_STATE_INIT =>
      (0%Z, simplex_copy output (base g))
  | SIMPLEX_STATE_REFLECT =>
      (0%Z, simplex_transform (base g) (vget (base g) (best_base g))
              (- reflect_coefficient g)%D output)
  | SIMPLEX_STATE_EXPAND_ONE =>
      let out0 := vertex_transform (vget (test g) (best_test g))
                    (vget (base g) (best_base g))
                    (expand_coefficient g) (vget output 0) in
      let output := zset output 0 out0 in
      (0%Z,
       for_up (Z.to_nat (simplex_size g - 1)) 1%Z
         (fun i out =>
            zset out i (vertex_copy (vget out i) (vget (base g) (best_base g))))
         output)
  | SIMPLEX_STATE_EXPAND_ALL =>
      (0%Z, simplex_transform (base g) (vget (base g) (best_base g))
              (expand_coefficient g) output)
  | SIMPLEX_STATE_SHRINK =>
      (0%Z, simplex_transform (base g) (vget (base g) (best_base g))
              (shrink_coefficient g) output)
  | SIMPLEX_STATE_CONVERGED => (0%Z, output)
  | _ => ((-1)%Z, output)
  end.

Definition converged (g : pro) : pro :=
  set_cfg (hcfg_set (cfg g) CFGKEY_STRATEGY_CONVERGED "1"%string)
    (set_state SIMPLEX_STATE_CONVERGED g).

Definition check_convergence (g : pro) : pro :=
  if (simplex_collapsed (base g) =? 1)%Z then converged g
  else
    let centroid :=
      simplex_centroid (base g)
        (match vertex_alloc with Some v => v | None => vertex0 end) in
    let fv_err :=
      for_lt (simplex_size g)
        (fun i fv_err =>
           (fv_err + (perf (vget (base g) i) - perf centroid)
                     * (perf (vget (base g) i) - perf centroid))%D)
        (Fin 0) in
    let fv_err := (fv_err / Fin (inject_Z (simplex_size g)))%D in
    let sz_max :=
      for_lt (simplex_size g)
        (fun i sz_max =>
           let dist := vertex_dist (vget (base g) i) centroid in
           if (sz_max <? dist)%D then dist else sz_max)
        (Fin 0) in
    if (fv_err <? converge_fv_tol g)%D && (sz_max <? converge_sz_tol g)%D
    then converged g else g.

(** One turn of the do-while loop of [pro_algorithm]. *)
Definition pro_step (g : pro) : Z * pro :=
  let (rc, g) := pro_next_state (test g) (best_test g) g in
  if negb (rc =? 0)%Z then ((-1)%Z, g)
  else
    let g := if state_eqb (state g) SIMPLEX_STATE_REFLECT
             then check_convergence g else g in
    let (rc, out) := pro_next_simplex (test g) g in
    let g := set_test out g in
    if negb (rc =? 0)%Z then ((-1)%Z, g) else (0%Z, g).

(** The do-while loop of [pro_algorithm]; [None] when [fuel] turns did not
    reach its end. *)
Fixpoint pro_algorithm (fuel : nat) (g : pro) : option (Z * pro) :=
  match fuel with
  | O => None
  | S fuel' =>
      if state_eqb (state g) SIMPLEX_STATE_CONVERGED then Some (0%Z, g)
      else
        let (rc, g) := pro_step g in
        if negb (rc =? 0)%Z then Some ((-1)%Z, g)
        else if negb (simplex_outofbounds (test g) =? 0)%Z
        then pro_algorithm fuel' g
        else Some (0%Z, g)
  end.

(** *** The strategy interface *)

Definition strategy_fetch (mesg : hmesg_t) (g : pro) : Z * pro * hmesg_t :=
  if (send_idx g =? simplex_size g)%Z
  then ret3 0 g (set_status HMESG_STATUS_BUSY mesg)
  else
    (* v is the vertex test->vertex[send_idx] points to, after the write *)
    let v := set_id (next_id g) (vget (test g) (send_idx g)) in
    let g := set_test (zset (test g) (send_idx g) v) g in
    let (rc, cand) := vertex_to_hpoint v (fetch_cand mesg) in
    let mesg := set_fetch_cand cand mesg in
    if (rc <? 0)%Z then ret3 (-1) g (set_status HMESG_STATUS_FAIL mesg)
    else
      let g := set_next_id (next_id g + 1)%Z g in
      let g := set_send_idx (send_idx g + 1)%Z g in
      (* Send best point information, if needed. *)
      if (hp_id (fetch_best mesg) <? hp_id (strategy_best g))%Z
      then
        let (rc, b) := hpoint_copy HPOINT_INITIALIZER (strategy_best g) in
        let mesg := set_fetch_best b mesg in
        if (rc <? 0)%Z then ret3 (-1) g (set_status HMESG_STATUS_FAIL mesg)
        else ret3 0 g (set_status HMESG_STATUS_OK mesg)
      else
        ret3 0 g
          (set_status HMESG_STATUS_OK (set_fetch_best HPOINT_INITIALIZER mesg)).

(** The search loop of [strategy_report]: the first [i] whose vertex has
    the reported id, or the index the loop ends at. *)
Fixpoint find_id (n : nat) (i : Z) (cand_id : Z) (s : simplex_t) : Z :=
  match n with
  | O => i
  | S n' => if (cand_id =? id (vget s i))%Z then i
            else find_id n' (i + 1)%Z cand_id s
  end.

(** The end of [strategy_report]: "Update the best performing point, if
    necessary." *)
Definition report_best (mesg : hmesg_t) (g : pro) : Z * pro * hmesg_t :=
  if (strategy_best_perf g >? report_perf mesg)%D
  then
    let g := set_strategy_best_perf (report_perf mesg) g in
    let (rc, b) := hpoint_copy (strategy_best g) (report_cand mesg) in
    let g := set_strategy_best b g in
    if (rc <? 0)%Z
    then ret3 (-1) g
           (set_data_string (Msg "strerror(errno)")
              (set_status HMESG_STATUS_FAIL mesg))
    else ret3 0 g (set_status HMESG_STATUS_OK mesg)
  else ret3 0 g (set_status HMESG_STATUS_OK mesg).

Definition strategy_report (fuel : nat) (mesg : hmesg_t) (g : pro)
  : option (Z * pro * hmesg_t) :=
  let i := find_id (Z.to_nat (simplex_size g)) 0
             (hp_id (report_cand mesg)) (test g) in
  if (i =? simplex_size g)%Z
  then (* Ignore rouge vertex reports. *)
    Some (ret3 0 g (set_status HMESG_STATUS_OK mesg))
  else
    let g := set_reported (reported g + 1)%Z g in
    let g := set_test (zset (test g) i
                         (set_perf (report_perf mesg) (vget (test g) i))) g in
    let g := if (perf (vget (test g) i) <? perf (vget (test g) (best_test g)))%D
             then set_best_test i g else g in
    if (reported g =? simplex_size g)%Z
    then
      match pro_algorithm fuel g with
      | None => None
      | Some (rc, g) =>
          if negb (rc =? 0)%Z
          then Some (ret3 (-1) g
                       (set_data_string
                          (Msg "Internal error: PRO algorithm failure.")
                          (set_status HMESG_STATUS_FAIL mesg)))
          else Some (report_best mesg (set_send_idx 0 (set_reported 0 g)))
      end
    else Some (report_best mesg g).

Definition init_simplex (mesg : hmesg_t) (g : pro) : Z * pro * hmesg_t :=
  match init_method g with
  | SIMPLEX_INIT_RANDOM => ret3 0 (snd (init_by_random g)) mesg
  | SIMPLEX_INIT_POINT => ret3 0 (snd (init_by_point 0 g)) mesg
  | SIMPLEX_INIT_POINT_FAST => ret3 0 (snd (init_by_point 1 g)) mesg
  | _ => ret3 (-1) g
           (set_data_string (Msg "Invalid initial search method.") mesg)
  end.

Definition strategy_init (mesg : hmesg_t) (g : pro) : Z * pro * hmesg_t :=
  if negb (libvertex_init =? 0)%Z
  then ret3 (-1) g
         (set_data_string (Msg "Could not initialize vertex library.") mesg)
  else
  match vertex_alloc with
  | None =>
      ret3 (-1) g
        (set_data_string
           (Msg "Could not allocate memory for initial point.") mesg)
  | Some v =>
  andthen (strategy_cfg mesg (set_init_point v g)) (fun mesg g =>
  let g := set_strategy_best HPOINT_INITIALIZER g in
  let g := set_strategy_best_perf INFINITY g in
  let (rc, c) := hpoint_init (curr g) range_len in
  let g := set_curr c g in
  if (rc <? 0)%Z then ret3 (-1) g mesg else
  match simplex_alloc (simplex_size g) with
  | None =>
      ret3 (-1) g
        (set_data_string
           (Msg "Could not allocate memory for candidate simplex.") mesg)
  | Some t =>
  let g := set_test t g in
  match simplex_alloc (simplex_size g) with
  | None =>
      ret3 (-1) g
        (set_data_string
           (Msg "Could not allocate memory for reference simplex.") mesg)
  | Some b =>
  let g := set_base b g in
  (* Default stopping criteria: 0.5% of dist(vertex_min, vertex_max). *)
  let g :=
    if dzerob (converge_sz_tol g)
    then
      let g := set_base (zset (base g) 0 (vertex_min (vget (base g) 0))) g in
      let g := set_base (zset (base g) 1 (vertex_max (vget (base g) 1))) g in
      set_converge_sz_tol
        (vertex_dist (vget (base g) 0) (vget (base g) 1) * dbl 0.005)%D g
    else g in
  andthen (init_simplex mesg g) (fun mesg g =>
  let g := set_next_id 1 g in
  let g := set_state SIMPLEX_STATE_INIT g in
  let g := set_cfg (hcfg_set (cfg g) CFGKEY_STRATEGY_CONVERGED "0"%string) g in
  (* PRO algorithm requires an atomic prefetch queue. *)
  let g := set_cfg (hcfg_set (cfg g) CFGKEY_PREFETCH_ATOMIC "1"%string) g in
  let (rc, out) := pro_next_simplex (test g) g in
  let g := set_test out g in
  if negb (rc =? 0)%Z
  then ret3 (-1) g
         (set_data_string (Msg "Could not initiate the simplex.") mesg)
  else ret3 0 g mesg)
  end end)
  end.

(** The variables of pro.c as the loader leaves them: the initialisers of
    the file, zero for the rest. *)
Definition pro_start (c : hcfg) : pro :=
  {| strategy_best := {| hp_id := 0; hp_term := [] |};
     strategy_best_perf := Fin 0;
     curr := {| hp_id := 0; hp_term := [] |};
     init_method := SIMPLEX_INIT_POINT;
     init_point := vertex0;
     init_percent := dbl 0.35;
     reflect_coefficient := dbl 1.0;
     expand_coefficient := dbl 2.0;
     contract_coefficient := dbl 0.5;
     shrink_coefficient := dbl 0.5;
     converge_fv_tol := dbl 0.0001;
     converge_sz_tol := Fin 0;
     simplex_size := 0;
     state := SIMPLEX_STATE_UNKNONW;
     base := [];
     test := [];
     best_base := 0;
     best_test := 0;
     best_stash := 0;
     next_id := 0;
     send_idx := 0;
     reported := 0;
     cfg := c;
     seed := 0 |}.

(** *** Notions used to state the properties *)

(** The variables [pro_algorithm] never writes: the counters of the
    interface functions, the best point reported and the options. *)
Definition kept (g : pro) :=
  (simplex_size g, send_idx g, reported g, next_id g, best_test g,
   (strategy_best g, strategy_best_perf g, curr g),
   (init_method g, init_point g, init_percent g),
   (reflect_coefficient g, expand_coefficient g, contract_coefficient g,
    shrink_coefficient g),
   (converge_fv_tol g, converge_sz_tol g), seed g).

(** The states [strategy_init] and the state machine set: every value of
    the enumeration but UNKNOWN and MAX. *)
Definition initialised (s : simplex_state) : bool :=
  match s with
  | SIMPLEX_STATE_UNKNONW | SIMPLEX_STATE_MAX => false
  | _ => true
  end.

(** The state machine says CONVERGED exactly when the session's
    configuration does. *)
Definition converged_flag (g : pro) : Prop :=
  state g = SIMPLEX_STATE_CONVERGED
  <-> hcfg_get (cfg g) CFGKEY_STRATEGY_CONVERGED = Some "1"%string.

(** *** Runs of the strategy *)

(** A call the session makes. *)
Inductive op : Type :=
| Fetch (mesg : hmesg_t)
| Report (mesg : hmesg_t).

Definition status_ok (m : hmesg_t) : bool :=
  match status m with HMESG_STATUS_OK => true | _ => false end.

(** The ids of the candidates a sequence of calls emits, in order: a fetch
    emits the candidate in [mesg->data.fetch.cand] when it returns 0 with
    status OK.  [None] when a call did not return within [fuel]. *)
Fixpoint run (fuel : nat) (ops : list op) (g : pro) : option (list Z * pro) :=
  match ops with
  | [] => Some ([], g)
  | Fetch mesg :: ops' =>
      let '(rc, g, m) := strategy_fetch mesg g in
      match run fuel ops' g with
      | None => None
      | Some (ids, g') =>
          Some ((if (rc =? 0)%Z && status_ok m
                 then [hp_id (fetch_cand m)] else []) ++ ids, g')
      end
  | Report mesg :: ops' =>
      match strategy_report fuel mesg g with
      | None => None
      | Some (_, g, _) => run fuel ops' g
      end
  end.

End Strategy.
End Pro.

(* ================================================================= *)
(** ** ANGEL: src/plugins/strategies/angel.c *)

Module Angel.

(** [hperf_t]: [len] objectives [obj[0] .. obj[len-1]]. *)
Definition hperf_t : Type := list double.

(** [p->obj[i]] *)
Definition obj (p : hperf_t) (i : Z) : double := zget NaN p i.

Record span_t : Type := { min : double; max : double }.

Definition span0 : span_t := {| min := Fin 0; max := Fin 0 |}.

Inductive reject_method : Type :=
| REJECT_METHOD_UNKNOWN
| REJECT_METHOD_PENALTY
| REJECT_METHOD_RANDOM
| REJECT_METHOD_MAX.

Inductive simplex_state : Type :=
| SIMPLEX_STATE_UNKNONW
| SIMPLEX_STATE_INIT
| SIMPLEX_STATE_REFLECT
| SIMPLEX_STATE_EXPAND
| SIMPLEX_STATE_CONTRACT
| SIMPLEX_STATE_SHRINK
| SIMPLEX_STATE_CONVERGED
| SIMPLEX_STATE_MAX.

Definition state_eqb (a b : simplex_state) : bool :=
  match a, b with
  | SIMPLEX_STATE_UNKNONW, SIMPLEX_STATE_UNKNONW
  | SIMPLEX_STATE_INIT, SIMPLEX_STATE_INIT
  | SIMPLEX_STATE_REFLECT, SIMPLEX_STATE_REFLECT
  | SIMPLEX_STATE_EXPAND, SIMPLEX_STATE_EXPAND
  | SIMPLEX_STATE_CONTRACT, SIMPLEX_STATE_CONTRACT
  | SIMPLEX_STATE_SHRINK, SIMPLEX_STATE_SHRINK
  | SIMPLEX_STATE_CONVERGED, SIMPLEX_STATE_CONVERGED
  | SIMPLEX_STATE_MAX, SIMPLEX_STATE_MAX => true
  | _, _ => false
  end.

Inductive hflow_status : Type :=
| HFLOW_ACCEPT
| HFLOW_WAIT.

(** The configuration keys angel.c names. *)
Inductive cfgkey : Type :=
| CFGKEY_INIT_POINT
| CFGKEY_INIT_RADIUS
| CFGKEY_REJECT_METHOD
| CFGKEY_REFLECT
| CFGKEY_EXPAND
| CFGKEY_CONTRACT
| CFGKEY_SHRINK
| CFGKEY_FVAL_TOL
| CFGKEY_SIZE_TOL
| CFGKEY_DIST_TOL
| CFGKEY_TOL_CNT
| CFGKEY_ANGEL_LOOSE
| CFGKEY_ANGEL_MULT
| CFGKEY_ANGEL_ANCHOR
| CFGKEY_ANGEL_SAMESIMPLEX
| CFGKEY_ANGEL_LEEWAY
| CFGKEY_PERF_COUNT
| CFGKEY_CONVERGED
| CFGKEY_ANGEL_PHASE.

Definition cfgkey_eq_dec (a b : cfgkey) : {a = b} + {a <> b}.
Proof. decide equality. Defined.

(** Modelled from the spec: the configuration store behind [session_cfg]
    (hcfg.c and session-core are not among the sources) is the string-keyed
    map of section 6; [hcfg_get] is NULL ([None]) on a key with no value,
    [session_setcfg] sets a key. *)
Definition hcfg : Type := cfgkey -> option string.

Definition hcfg_get (c : hcfg) (k : cfgkey) : option string := c k.

Definition session_setcfg (c : hcfg) (k : cfgkey) (v : string) : hcfg :=
  fun k' => if cfgkey_eq_dec k' k then Some v else c k'.

(** [plugin_keyinfo]: the keys the plugin registers, with their defaults. *)
Definition plugin_keyinfo : list (cfgkey * option string) :=
  [ (CFGKEY_INIT_POINT, None);
    (CFGKEY_INIT_RADIUS, Some "0.50"%string);
    (CFGKEY_REJECT_METHOD, Some "penalty"%string);
    (CFGKEY_REFLECT, Some "1.0"%string);
    (CFGKEY_EXPAND, Some "2.0"%string);
    (CFGKEY_CONTRACT, Some "0.5"%string);
    (CFGKEY_SHRINK, Some "0.5"%string);
    (CFGKEY_FVAL_TOL, Some "0.0001"%string);
    (CFGKEY_SIZE_TOL, Some "0.005"%string);
    (CFGKEY_DIST_TOL, None);
    (CFGKEY_TOL_CNT, Some "3"%string);
    (CFGKEY_ANGEL_LOOSE, Some "False"%string);
    (CFGKEY_ANGEL_MULT, Some "1.0"%string);
    (CFGKEY_ANGEL_ANCHOR, Some "True"%string);
    (CFGKEY_ANGEL_SAMESIMPLEX, Some "True"%string);
    (CFGKEY_ANGEL_LEEWAY, None) ].

Record hpoint_t : Type := { hp_id : Z; hp_term : list double }.

Record vertex_t : Type := { id : Z; term : list double; perf : hperf_t }.

Definition simplex_t : Type := list vertex_t.

Definition set_id (x : Z) (v : vertex_t) : vertex_t :=
  {| id := x; term := term v; perf := perf v |}.
Definition set_term (x : list double) (v : vertex_t) : vertex_t :=
  {| id := id v; term := x; perf := perf v |}.
Definition set_perf (x : hperf_t) (v : vertex_t) : vertex_t :=
  {| id := id v; term := term v; perf := x |}.

Definition vertex0 : vertex_t := {| id := 0; term := []; perf := [] |}.
Definition hpoint0 : hpoint_t := {| hp_id := 0; hp_term := [] |}.

(** [s->vertex[i]] *)
Definition vget (s : simplex_t) (i : Z) : vertex_t := zget vertex0 s i.

Record hflow_t : Type := { status : hflow_status; point : hpoint_t }.

Record htrial_t : Type := { trial_point : hpoint_t; trial_perf : hperf_t }.

(** What [data->next] points to. *)
Inductive vref : Type :=
| NULL
| Simplex_vertex (i : Z)
| Reflect
| Expand
| Contract.

(** What angel.c takes from outside the file: the search space handed to
    [strategy_init], the typed readers of the configuration store, libm's
    [log], and the vertex library (none of them among the sources).  A
    function that fills an object in place takes the object and returns it
    filled, beside its [int] status. *)
Class Env : Type := {
  space_len : Z;                                    (* data->space->len *)
  hcfg_bool : hcfg -> cfgkey -> bool;
  hcfg_int : hcfg -> cfgkey -> Z;
  hcfg_real : hcfg -> cfgkey -> double;
  hcfg_arr_len : hcfg -> cfgkey -> Z;
  hcfg_arr_real : hcfg -> cfgkey -> Z -> double;
  log : double -> double;
  simplex_init : simplex_t -> Z -> Z * simplex_t;
  vertex_init : vertex_t -> Z -> Z * vertex_t;
  hperf_init : hperf_t -> Z -> Z * hperf_t;
  hpoint_init : hpoint_t -> Z -> Z * hpoint_t;
  realloc_real : list double -> Z -> option (list double);
  realloc_span : list span_t -> Z -> option (list span_t);
  vertex_minimum : vertex_t -> Z * vertex_t;
  vertex_maximum : vertex_t -> Z * vertex_t;
  vertex_center : vertex_t -> Z * vertex_t;
  vertex_parse : vertex_t -> string -> Z * vertex_t;
  vertex_random : Z -> vertex_t -> double -> Z * vertex_t * Z;
  vertex_set : vertex_t -> hpoint_t -> Z * vertex_t;
  vertex_point_term : vertex_t -> Z * list double;  (* status, aligned terms *)
  vertex_norm : vertex_t -> vertex_t -> double;       (* VERTEX_NORM_L2 *)
  vertex_inbounds : vertex_t -> bool;
  simplex_set : simplex_t -> vertex_t -> double -> Z * simplex_t;
  simplex_collapsed : simplex_t -> bool
}.

(** *** The vertex operations the specification describes *)

(** Modelled from the spec: [hperf_reset] of hperf_t.c (not among the
    sources).  Section 4.4: "set the vertex's performance to +inf across
    all objectives (via hperf_reset)". *)
Definition hperf_reset (p : hperf_t) : hperf_t := map (fun _ => PInf) p.

(** Modelled from the spec: the copy functions [hperf_copy], [hpoint_copy],
    [vertex_copy] and [simplex_copy] copy the whole source; they fail only
    when memory runs out, which is not modelled. *)
Definition hperf_copy (dst src : hperf_t) : Z * hperf_t := (0%Z, src).
Definition hpoint_copy (dst src : hpoint_t) : Z * hpoint_t := (0%Z, src).
Definition vertex_copy (dst src : vertex_t) : Z * vertex_t := (0%Z, src).
Definition simplex_copy (dst src : simplex_t) : Z * simplex_t := (0%Z, src).

(** Modelled from the spec: [vertex_transform] of libvertex (not among the
    sources).  Section 4.1: "vertex_transform(origin, v, c, out) -> out =
    origin + c * (v - origin)", coordinate by coordinate; the id and the
    performance of [out] are not mentioned and are left as they are. *)
Definition vertex_transform (origin v : vertex_t) (c : double) (out : vertex_t)
  : Z * vertex_t :=
  (0%Z,
   set_term (Pro.map2 (fun o x => o + c * (x - o))%D (term origin) (term v))
     out).

(** Modelled from the spec: [simplex_transform] of libvertex.  Section 4.1:
    "simplex_transform(s, pivot, c, out): apply vertex_transform(pivot,
    s[i], c, out[i]) element-wise". *)
Definition simplex_transform (s : simplex_t) (pivot : vertex_t) (c : double)
  (out : simplex_t) : Z * simplex_t :=
  (0%Z, Pro.map2 (fun si oi => snd (vertex_transform pivot si c oi)) s out).

(** Modelled from the spec: [simplex_centroid] of libvertex.  Section 4.1:
    "arithmetic mean of vertices whose id <> 0 (skipping sentinels)"; the
    performance of the centroid is the mean of theirs, objective by
    objective. *)
Definition simplex_centroid (s : simplex_t) (out : vertex_t) : Z * vertex_t :=
  let live := filter (fun v => negb (id v =? 0)%Z) s in
  let n := Fin (inject_Z (zlen live)) in
  let mean := fun col => (Pro.dsum col / n)%D in
  (0%Z,
   {| id := id out;
      term := map mean (Pro.transpose (length (term out)) (map term live));
      perf := map mean (Pro.transpose (length (perf out)) (map perf live)) |}).

(** [data_t], with the two [static] counters of [check_convergence], the
    session's configuration and the state of the random generator. *)
Record data_t : Type := {
  best : hpoint_t;
  best_perf : hperf_t;
  init_point : vertex_t;
  init_radius : double;
  reject_type : reject_method;
  reflect_val : double;
  expand_val : double;
  contract_val : double;
  shrink_val : double;
  fval_tol : double;
  size_tol : double;
  dist_tol : double;
  move_len : double;
  space_size : double;
  tol_cnt : Z;
  leeway : list double;
  mult : double;
  anchor : bool;
  loose : bool;
  samesimplex : bool;
  state : simplex_state;
  centroid : vertex_t;
  reflect : vertex_t;
  expand : vertex_t;
  contract : vertex_t;
  init_simplex : simplex_t;
  simplex : simplex_t;
  next : vref;
  index_best : Z;
  index_worst : Z;
  index_curr : Z;
  next_id : Z;
  phase : Z;
  perf_n : Z;
  thresh : list double;
  span : list span_t;
  flat_cnt : Z;
  cnt : Z;
  session_cfg : hcfg;
  seed : Z
}.

Definition set_best (x : hpoint_t) (r : data_t) : data_t :=
  Build_data_t x (best_perf r) (init_point r) (init_radius r) (reject_type r)
    (reflect_val r) (expand_val r) (contract_val r) (shrink_val r)
    (fval_tol r) (size_tol r) (dist_tol r) (move_len r) (space_size r)
    (tol_cnt r) (leeway r) (mult r) (anchor r) (loose r) (samesimplex r)
    (state r) (centroid r) (reflect r) (expand r) (contract r)
    (init_simplex r) (simplex r) (next r) (index_best r) (index_worst r)
    (index_curr r) (next_id r) (phase r) (perf_n r) (thresh r) (span r)
    (flat_cnt r) (cnt r) (session_cfg r) (seed r).
Definition set_best_perf (x : hperf_t) (r : data_t) : data_t :=
  Build_data_t (best r) x (init_point r) (init_radius r) (reject_type r)
    (reflect_val r) (expand_val r) (contract_val r) (shrink_val r)
    (fval_tol r) (size_tol r) (dist_tol r) (move_len r) (space_size r)
    (tol_cnt r) (leeway r) (mult r) (anchor r) (loose r) (samesimplex r)
    (state r) (centroid r) (reflect r) (expand r) (contract r)
    (init_simplex r) (simplex r) (next r) (index_best r) (index_worst r)
    (index_curr r) (next_id r) (phase r) (perf_n r) (thresh r) (span r)
    (flat_cnt r) (cnt r) (session_cfg r) (seed r).
Definition set_init_point (x : vertex_t) (r : data_t) : data_t :=
  Build_data_t (best r) (best_perf r) x (init_radius r) (reject_type r)
    (reflect_val r) (expand_val r) (contract_val r) (shrink_val r)
    (fval_tol r) (size_tol r) (dist_tol r) (move_len r) (space_size r)
    (tol_cnt r) (leeway r) (mult r) (anchor r) (loose r) (samesimplex r)
    (state r) (centroid r) (reflect r) (expand r) (contract r)
    (init_simplex r) (simplex r) (next r) (index_best r) (index_worst r)
    (index_curr r) (next_id r) (phase r) (perf_n r) (thresh r) (span r)
    (flat_cnt r) (cnt r) (session_cfg r) (seed r).
Definition set_init_radius (x : double) (r : data_t) : data_t :=
  Build_data_t (best r) (best_perf r) (init_point r) x (reject_type r)
    (reflect_val r) (expand_val r) (contract_val r) (shrink_val r)
    (fval_tol r) (size_tol r) (dist_tol r) (move_len r) (space_size r)
    (tol_cnt r) (leeway r) (mult r) (anchor r) (loose r) (samesimplex r)
    (state r) (centroid r) (reflect r) (expand r) (contract r)
    (init_simplex r) (simplex r) (next r) (index_best r) (index_worst r)
    (index_curr r) (next_id r) (phase r) (perf_n r) (thresh r) (span r)
    (flat_cnt r) (cnt r) (session_cfg r) (seed r).
Definition set_reject_type (x : reject_method) (r : data_t) : data_t :=
  Build_data_t (best r) (best_perf r) (init_point r) (init_radius r) x
    (reflect_val r) (expand_val r) (contract_val r) (shrink_val r)
    (fval_tol r) (size_tol r) (dist_tol r) (move_len r) (space_size r)
    (tol_cnt r) (leeway r) (mult r) (anchor r) (loose r) (samesimplex r)
    (state r) (centroid r) (reflect r) (expand r) (contract r)
    (init_simplex r) (simplex r) (next r) (index_best r) (index_worst r)
    (index_curr r) (next_id r) (phase r) (perf_n r) (thresh r) (span r)
    (flat_cnt r) (cnt r) (session_cfg r) (seed r).
Definition set_reflect_val (x : double) (r : data_t) : data_t :=
  Build_data_t (best r) (best_perf r) (init_point r) (init_radius r)
    (reject_type r) x (expand_val r) (contract_val r) (shrink_val r)
    (fval_tol r) (size_tol r) (dist_tol r) (move_len r) (space_size r)
    (tol_cnt r) (leeway r) (mult r) (anchor r) (loose r) (samesimplex r)
    (state r) (centroid r) (reflect r) (expand r) (contract r)
    (init_simplex r) (simplex r) (next r) (index_best r) (index_worst r)
    (index_curr r) (next_id r) (phase r) (perf_n r) (thresh r) (span r)
    (flat_cnt r) (cnt r) (session_cfg r) (seed r).
Definition set_expand_val (x : double) (r : data_t) : data_t :=
  Build_data_t (best r) (best_perf r) (init_point r) (init_radius r)
    (reject_type r) (reflect_val r) x (contract_val r) (shrink_val r)
    (fval_tol r) (size_tol r) (dist_tol r) (move_len r) (space_size r)
    (tol_cnt r) (leeway r) (mult r) (anchor r) (loose r) (samesimplex r)
    (state r) (centroid r) (reflect r) (expand r) (contract r)
    (init_simplex r) (simplex r) (next r) (index_best r) (index_worst r)
    (index_curr r) (next_id r) (phase r) (perf_n r) (thresh r) (span r)
    (flat_cnt r) (cnt r) (session_cfg r) (seed r).
Definition set_contract_val (x : double) (r : data_t) : data_t :=
  Build_data_t (best r) (best_perf r) (init_point r) (init_radius r)
    (reject_type r) (reflect_val r) (expand_val r) x (shrink_val r)
    (fval_tol r) (size_tol r) (dist_tol r) (move_len r) (space_size r)
    (tol_cnt r) (leeway r) (mult r) (anchor r) (loose r) (samesimplex r)
    (state r) (centroid r) (reflect r) (expand r) (contract r)
    (init_simplex r) (simplex r) (next r) (index_best r) (index_worst r)
    (index_curr r) (next_id r) (phase r) (perf_n r) (thresh r) (span r)
    (flat_cnt r) (cnt r) (session_cfg r) (seed r).
Definition set_shrink_val (x : double) (r : data_t) : data_t :=
  Build_data_t (best r) (best_perf r) (init_point r) (init_radius r)
    (reject_type r) (reflect_val r) (expand_val r) (contract_val r) x
    (fval_tol r) (size_tol r) (dist_tol r) (move_len r) (space_size r)
    (tol_cnt r) (leeway r) (mult r) (anchor r) (loose r) (samesimplex r)
    (state r) (centroid r) (reflect r) (expand r) (contract r)
    (init_simplex r) (simplex r) (next r) (index_best r) (index_worst r)
    (index_curr r) (next_id r) (phase r) (perf_n r) (thresh r) (span r)
    (flat_cnt r) (cnt r) (session_cfg r) (seed r).
Definition set_fval_tol (x : double) (r : data_t) : data_t :=
  Build_data_t (best r) (best_perf r) (init_point r) (init_radius r)
    (reject_type r) (reflect_val r) (expand_val r) (contract_val r)
    (shrink_val r) x (size_tol r) (dist_tol r) (move_len r) (space_size r)
    (tol_cnt r) (leeway r) (mult r) (anchor r) (loose r) (samesimplex r)
    (state r) (centroid r) (reflect r) (expand r) (contract r)
    (init_simplex r) (simplex r) (next r) (index_best r) (index_worst r)
    (index_curr r) (next_id r) (phase r) (perf_n r) (thresh r) (span r)
    (flat_cnt r) (cnt r) (session_cfg r) (seed r).
Definition set_size_tol (x : double) (r : data_t) : data_t :=
  Build_data_t (best r) (best_perf r) (init_point r) (init_radius r)
    (reject_type r) (reflect_val r) (expand_val r) (contract_val r)
    (shrink_val r) (fval_tol r) x (dist_tol r) (move_len r) (space_size r)
    (tol_cnt r) (leeway r) (mult r) (anchor r) (loose r) (samesimplex r)
    (state r) (centroid r) (reflect r) (expand r) (contract r)
    (init_simplex r) (simplex r) (next r) (index_best r) (index_worst r)
    (index_curr r) (next_id r) (phase r) (perf_n r) (thresh r) (span r)
    (flat_cnt r) (cnt r) (session_cfg r) (seed r).
Definition set_dist_tol (x : double) (r : data_t) : data_t :=
  Build_data_t (best r) (best_perf r) (init_point r) (init_radius r)
    (reject_type r) (reflect_val r) (expand_val r) (contract_val r)
    (shrink_val r) (fval_tol r) (size_tol r) x (move_len r) (space_size r)
    (tol_cnt r) (leeway r) (mult r) (anchor r) (loose r) (samesimplex r)
    (state r) (centroid r) (reflect r) (expand r) (contract r)
    (init_simplex r) (simplex r) (next r) (index_best r) (index_worst r)
    (index_curr r) (next_id r) (phase r) (perf_n r) (thresh r) (span r)
    (flat_cnt r) (cnt r) (session_cfg r) (seed r).
Definition set_move_len (x : double) (r : data_t) : data_t :=
  Build_data_t (best r) (best_perf r) (init_point r) (init_radius r)
    (reject_type r) (reflect_val r) (expand_val r) (contract_val r)
    (shrink_val r) (fval_tol r) (size_tol r) (dist_tol r) x (space_size r)
    (tol_cnt r) (leeway r) (mult r) (anchor r) (loose r) (samesimplex r)
    (state r) (centroid r) (reflect r) (expand r) (contract r)
    (init_simplex r) (simplex r) (next r) (index_best r) (index_worst r)
    (index_curr r) (next_id r) (phase r) (perf_n r) (thresh r) (span r)
    (flat_cnt r) (cnt r) (session_cfg r) (seed r).
Definition set_space_size (x : double) (r : data_t) : data_t :=
  Build_data_t (best r) (best_perf r) (init_point r) (init_radius r)
    (reject_type r) (reflect_val r) (expand_val r) (contract_val r)
    (shrink_val r) (fval_tol r) (size_tol r) (dist_tol r) (move_len r) x
    (tol_cnt r) (leeway r) (mult r) (anchor r) (loose r) (samesimplex r)
    (state r) (centroid r) (reflect r) (expand r) (contract r)
    (init_simplex r) (simplex r) (next r) (index_best r) (index_worst r)
    (index_curr r) (next_id r) (phase r) (perf_n r) (thresh r) (span r)
    (flat_cnt r) (cnt r) (session_cfg r) (seed r).
Definition set_tol_cnt (x : Z) (r : data_t) : data_t :=
  Build_data_t (best r) (best_perf r) (init_point r) (init_radius r)
    (reject_type r) (reflect_val r) (expand_val r) (contract_val r)
    (shrink_val r) (fval_tol r) (size_tol r) (dist_tol r) (move_len r)
    (space_size r) x (leeway r) (mult r) (anchor r) (loose r)
    (samesimplex r) (state r) (centroid r) (reflect r) (expand r)
    (contract r) (init_simplex r) (simplex r) (next r) (index_best r)
    (index_worst r) (index_curr r) (next_id r) (phase r) (perf_n r)
    (thresh r) (span r) (flat_cnt r) (cnt r) (session_cfg r) (seed r).
Definition set_leeway (x : list double) (r : data_t) : data_t :=
  Build_data_t (best r) (best_perf r) (init_point r) (init_radius r)
    (reject_type r) (reflect_val r) (expand_val r) (contract_val r)
    (shrink_val r) (fval_tol r) (size_tol r) (dist_tol r) (move_len r)
    (space_size r) (tol_cnt r) x (mult r) (anchor r) (loose r)
    (samesimplex r) (state r) (centroid r) (reflect r) (expand r)
    (contract r) (init_simplex r) (simplex r) (next r) (index_best r)
    (index_worst r) (index_curr r) (next_id r) (phase r) (perf_n r)
    (thresh r) (span r) (flat_cnt r) (cnt r) (session_cfg r) (seed r).
Definition set_mult (x : double) (r : data_t) : data_t :=
  Build_data_t (best r) (best_perf r) (init_point r) (init_radius r)
    (reject_type r) (reflect_val r) (expand_val r) (contract_val r)
    (shrink_val r) (fval_tol r) (size_tol r) (dist_tol r) (move_len r)
    (space_size r) (tol_cnt r) (leeway r) x (anchor r) (loose r)
    (samesimplex r) (state r) (centroid r) (reflect r) (expand r)
    (contract r) (init_simplex r) (simplex r) (next r) (index_best r)
    (index_worst r) (index_curr r) (next_id r) (phase r) (perf_n r)
    (thresh r) (span r) (flat_cnt r) (cnt r) (session_cfg r) (seed r).
Definition set_anchor (x : bool) (r : data_t) : data_t :=
  Build_data_t (best r) (best_perf r) (init_point r) (init_radius r)
    (reject_type r) (reflect_val r) (expand_val r) (contract_val r)
    (shrink_val r) (fval_tol r) (size_tol r) (dist_tol r) (move_len r)
    (space_size r) (tol_cnt r) (leeway r) (mult r) x (loose r)
    (samesimplex r) (state r) (centroid r) (reflect r) (expand r)
    (contract r) (init_simplex r) (simplex r) (next r) (index_best r)
    (index_worst r) (index_curr r) (next_id r) (phase r) (perf_n r)
    (thresh r) (span r) (flat_cnt r) (cnt r) (session_cfg r) (seed r).
Definition set_loose (x : bool) (r : data_t) : data_t :=
  Build_data_t (best r) (best_perf r) (init_point r) (init_radius r)
    (reject_type r) (reflect_val r) (expand_val r) (contract_val r)
    (shrink_val r) (fval_tol r) (size_tol r) (dist_tol r) (move_len r)
    (space_size r) (tol_cnt r) (leeway r) (mult r) (anchor r) x
    (samesimplex r) (state r) (centroid r) (reflect r) (expand r)
    (contract r) (init_simplex r) (simplex r) (next r) (index_best r)
    (index_worst r) (index_curr r) (next_id r) (phase r) (perf_n r)
    (thresh r) (span r) (flat_cnt r) (cnt r) (session_cfg r) (seed r).
Definition set_samesimplex (x : bool) (r : data_t) : data_t :=
  Build_data_t (best r) (best_perf r) (init_point r) (init_radius r)
    (reject_type r) (reflect_val r) (expand_val r) (contract_val r)
    (shrink_val r) (fval_tol r) (size_tol r) (dist_tol r) (move_len r)
    (space_size r) (tol_cnt r) (leeway r) (mult r) (anchor r) (loose r) x
    (state r) (centroid r) (reflect r) (expand r) (contract r)
    (init_simplex r) (simplex r) (next r) (index_best r) (index_worst r)
    (index_curr r) (next_id r) (phase r) (perf_n r) (thresh r) (span r)
    (flat_cnt r) (cnt r) (session_cfg r) (seed r).
Definition set_state (x : simplex_state) (r : data_t) : data_t :=
  Build_data_t (best r) (best_perf r) (init_point r) (init_radius r)
    (reject_type r) (reflect_val r) (expand_val r) (contract_val r)
    (shrink_val r) (fval_tol r) (size_tol r) (dist_tol r) (move_len r)
    (space_size r) (tol_cnt r) (leeway r) (mult r) (anchor r) (loose r)
    (samesimplex r) x (centroid r) (reflect r) (expand r) (contract r)
    (init_simplex r) (simplex r) (next r) (index_best r) (index_worst r)
    (index_curr r) (next_id r) (phase r) (perf_n r) (thresh r) (span r)
    (flat_cnt r) (cnt r) (session_cfg r) (seed r).
Definition set_centroid (x : vertex_t) (r : data_t) : data_t :=
  Build_data_t (best r) (best_perf r) (init_point r) (init_radius r)
    (reject_type r) (reflect_val r) (expand_val r) (contract_val r)
    (shrink_val r) (fval_tol r) (size_tol r) (dist_tol r) (move_len r)
    (space_size r) (tol_cnt r) (leeway r) (mult r) (anchor r) (loose r)
    (samesimplex r) (state r) x (reflect r) (expand r) (contract r)
    (init_simplex r) (simplex r) (next r) (index_best r) (index_worst r)
    (index_curr r) (next_id r) (phase r) (perf_n r) (thresh r) (span r)
    (flat_cnt r) (cnt r) (session_cfg r) (seed r).
Definition set_reflect (x : vertex_t) (r : data_t) : data_t :=
  Build_data_t (best r) (best_perf r) (init_point r) (init_radius r)
    (reject_type r) (reflect_val r) (expand_val r) (contract_val r)
    (shrink_val r) (fval_tol r) (size_tol r) (dist_tol r) (move_len r)
    (space_size r) (tol_cnt r) (leeway r) (mult r) (anchor r) (loose r)
    (samesimplex r) (state r) (centroid r) x (expand r) (contract r)
    (init_simplex r) (simplex r) (next r) (index_best r) (index_worst r)
    (index_curr r) (next_id r) (phase r) (perf_n r) (thresh r) (span r)
    (flat_cnt r) (cnt r) (session_cfg r) (seed r).
Definition set_expand (x : vertex_t) (r : data_t) : data_t :=
  Build_data_t (best r) (best_perf r) (init_point r) (init_radius r)
    (reject_type r) (reflect_val r) (expand_val r) (contract_val r)
    (shrink_val r) (fval_tol r) (size_tol r) (dist_tol r) (move_len r)
    (space_size r) (tol_cnt r) (leeway r) (mult r) (anchor r) (loose r)
    (samesimplex r) (state r) (centroid r) (reflect r) x (contract r)
    (init_simplex r) (simplex r) (next r) (index_best r) (index_worst r)
    (index_curr r) (next_id r) (phase r) (perf_n r) (thresh r) (span r)
    (flat_cnt r) (cnt r) (session_cfg r) (seed r).
Definition set_contract (x : vertex_t) (r : data_t) : data_t :=
  Build_data_t (best r) (best_perf r) (init_point r) (init_radius r)
    (reject_type r) (reflect_val r) (expand_val r) (contract_val r)
    (shrink_val r) (fval_tol r) (size_tol r) (dist_tol r) (move_len r)
    (space_size r) (tol_cnt r) (leeway r) (mult r) (anchor r) (loose r)
    (samesimplex r) (state r) (centroid r) (reflect r) (expand r) x
    (init_simplex r) (simplex r) (next r) (index_best r) (index_worst r)
    (index_curr r) (next_id r) (phase r) (perf_n r) (thresh r) (span r)
    (flat_cnt r) (cnt r) (session_cfg r) (seed r).
Definition set_init_simplex (x : simplex_t) (r : data_t) : data_t :=
  Build_data_t (best r) (best_perf r) (init_point r) (init_radius r)
    (reject_type r) (reflect_val r) (expand_val r) (contract_val r)
    (shrink_val r) (fval_tol r) (size_tol r) (dist_tol r) (move_len r)
    (space_size r) (tol_cnt r) (leeway r) (mult r) (anchor r) (loose r)
    (samesimplex r) (state r) (centroid r) (reflect r) (expand r)
    (contract r) x (simplex r) (next r) (index_best r) (index_worst r)
    (index_curr r) (next_id r) (phase r) (perf_n r) (thresh r) (span r)
    (flat_cnt r) (cnt r) (session_cfg r) (seed r).
Definition set_simplex (x : simplex_t) (r : data_t) : data_t :=
  Build_data_t (best r) (best_perf r) (init_point r) (init_radius r)
    (reject_type r) (reflect_val r) (expand_val r) (contract_val r)
    (shrink_val r) (fval_tol r) (size_tol r) (dist_tol r) (move_len r)
    (space_size r) (tol_cnt r) (leeway r) (mult r) (anchor r) (loose r)
    (samesimplex r) (state r) (centroid r) (reflect r) (expand r)
    (contract r) (init_simplex r) x (next r) (index_best r) (index_worst r)
    (index_curr r) (next_id r) (phase r) (perf_n r) (thresh r) (span r)
    (flat_cnt r) (cnt r) (session_cfg r) (seed r).
Definition set_next (x : vref) (r : data_t) : data_t :=
  Build_data_t (best r) (best_perf r) (init_point r) (init_radius r)
    (reject_type r) (reflect_val r) (expand_val r) (contract_val r)
    (shrink_val r) (fval_tol r) (size_tol r) (dist_tol r) (move_len r)
    (space_size r) (tol_cnt r) (leeway r) (mult r) (anchor r) (loose r)
    (samesimplex r) (state r) (centroid r) (reflect r) (expand r)
    (contract r) (init_simplex r) (simplex r) x (index_best r)
    (index_worst r) (index_curr r) (next_id r) (phase r) (perf_n r)
    (thresh r) (span r) (flat_cnt r) (cnt r) (session_cfg r) (seed r).
Definition set_index_best (x : Z) (r : data_t) : data_t :=
  Build_data_t (best r) (best_perf r) (init_point r) (init_radius r)
    (reject_type r) (reflect_val r) (expand_val r) (contract_val r)
    (shrink_val r) (fval_tol r) (size_tol r) (dist_tol r) (move_len r)
    (space_size r) (tol_cnt r) (leeway r) (mult r) (anchor r) (loose r)
    (samesimplex r) (state r) (centroid r) (reflect r) (expand r)
    (contract r) (init_simplex r) (simplex r) (next r) x (index_worst r)
    (index_curr r) (next_id r) (phase r) (perf_n r) (thresh r) (span r)
    (flat_cnt r) (cnt r) (session_cfg r) (seed r).
Definition set_index_worst (x : Z) (r : data_t) : data_t :=
  Build_data_t (best r) (best_perf r) (init_point r) (init_radius r)
    (reject_type r) (reflect_val r) (expand_val r) (contract_val r)
    (shrink_val r) (fval_tol r) (size_tol r) (dist_tol r) (move_len r)
    (space_size r) (tol_cnt r) (leeway r) (mult r) (anchor r) (loose r)
    (samesimplex r) (state r) (centroid r) (reflect r) (expand r)
    (contract r) (init_simplex r) (simplex r) (next r) (index_best r) x
    (index_curr r) (next_id r) (phase r) (perf_n r) (thresh r) (span r)
    (flat_cnt r) (cnt r) (session_cfg r) (seed r).
Definition set_index_curr (x : Z) (r : data_t) : data_t :=
  Build_data_t (best r) (best_perf r) (init_point r) (init_radius r)
    (reject_type r) (reflect_val r) (expand_val r) (contract_val r)
    (shrink_val r) (fval_tol r) (size_tol r) (dist_tol r) (move_len r)
    (space_size r) (tol_cnt r) (leeway r) (mult r) (anchor r) (loose r)
    (samesimplex r) (state r) (centroid r) (reflect r) (expand r)
    (contract r) (init_simplex r) (simplex r) (next r) (index_best r)
    (index_worst r) x (next_id r) (phase r) (perf_n r) (thresh r) (span r)
    (flat_cnt r) (cnt r) (session_cfg r) (seed r).
Definition set_next_id (x : Z) (r : data_t) : data_t :=
  Build_data_t (best r) (best_perf r) (init_point r) (init_radius r)
    (reject_type r) (reflect_val r) (expand_val r) (contract_val r)
    (shrink_val r) (fval_tol r) (size_tol r) (dist_tol r) (move_len r)
    (space_size r) (tol_cnt r) (leeway r) (mult r) (anchor r) (loose r)
    (samesimplex r) (state r) (centroid r) (reflect r) (expand r)
    (contract r) (init_simplex r) (simplex r) (next r) (index_best r)
    (index_worst r) (index_curr r) x (phase r) (perf_n r) (thresh r)
    (span r) (flat_cnt r) (cnt r) (session_cfg r) (seed r).
Definition set_phase (x : Z) (r : data_t) : data_t :=
  Build_data_t (best r) (best_perf r) (init_point r) (init_radius r)
    (reject_type r) (reflect_val r) (expand_val r) (contract_val r)
    (shrink_val r) (fval_tol r) (size_tol r) (dist_tol r) (move_len r)
    (space_size r) (tol_cnt r) (leeway r) (mult r) (anchor r) (loose r)
    (samesimplex r) (state r) (centroid r) (reflect r) (expand r)
    (contract r) (init_simplex r) (simplex r) (next r) (index_best r)
    (index_worst r) (index_curr r) (next_id r) x (perf_n r) (thresh r)
    (span r) (flat_cnt r) (cnt r) (session_cfg r) (seed r).
Definition set_perf_n (x : Z) (r : data_t) : data_t :=
  Build_data_t (best r) (best_perf r) (init_point r) (init_radius r)
    (reject_type r) (reflect_val r) (expand_val r) (contract_val r)
    (shrink_val r) (fval_tol r) (size_tol r) (dist_tol r) (move_len r)
    (space_size r) (tol_cnt r) (leeway r) (mult r) (anchor r) (loose r)
    (samesimplex r) (state r) (centroid r) (reflect r) (expand r)
    (contract r) (init_simplex r) (simplex r) (next r) (index_best r)
    (index_worst r) (index_curr r) (next_id r) (phase r) x (thresh r)
    (span r) (flat_cnt r) (cnt r) (session_cfg r) (seed r).
Definition set_thresh (x : list double) (r : data_t) : data_t :=
  Build_data_t (best r) (best_perf r) (init_point r) (init_radius r)
    (reject_type r) (reflect_val r) (expand_val r) (contract_val r)
    (shrink_val r) (fval_tol r) (size_tol r) (dist_tol r) (move_len r)
    (space_size r) (tol_cnt r) (leeway r) (mult r) (anchor r) (loose r)
    (samesimplex r) (state r) (centroid r) (reflect r) (expand r)
    (contract r) (init_simplex r) (simplex r) (next r) (index_best r)
    (index_worst r) (index_curr r) (next_id r) (phase r) (perf_n r) x
    (span r) (flat_cnt r) (cnt r) (session_cfg r) (seed r).
Definition set_span (x : list span_t) (r : data_t) : data_t :=
  Build_data_t (best r) (best_perf r) (init_point r) (init_radius r)
    (reject_type r) (reflect_val r) (expand_val r) (contract_val r)
    (shrink_val r) (fval_tol r) (size_tol r) (dist_tol r) (move_len r)
    (space_size r) (tol_cnt r) (leeway r) (mult r) (anchor r) (loose r)
    (samesimplex r) (state r) (centroid r) (reflect r) (expand r)
    (contract r) (init_simplex r) (simplex r) (next r) (index_best r)
    (index_worst r) (index_curr r) (next_id r) (phase r) (perf_n r)
    (thresh r) x (flat_cnt r) (cnt r) (session_cfg r) (seed r).
Definition set_flat_cnt (x : Z) (r : data_t) : data_t :=
  Build_data_t (best r) (best_perf r) (init_point r) (init_radius r)
    (reject_type r) (reflect_val r) (expand_val r) (contract_val r)
    (shrink_val r) (fval_tol r) (size_tol r) (dist_tol r) (move_len r)
    (space_size r) (tol_cnt r) (leeway r) (mult r) (anchor r) (loose r)
    (samesimplex r) (state r) (centroid r) (reflect r) (expand r)
    (contract r) (init_simplex r) (simplex r) (next r) (index_best r)
    (index_worst r) (index_curr r) (next_id r) (phase r) (perf_n r)
    (thresh r) (span r) x (cnt r) (session_cfg r) (seed r).
Definition set_cnt (x : Z) (r : data_t) : data_t :=
  Build_data_t (best r) (best_perf r) (init_point r) (init_radius r)
    (reject_type r) (reflect_val r) (expand_val r) (contract_val r)
    (shrink_val r) (fval_tol r) (size_tol r) (dist_tol r) (move_len r)
    (space_size r) (tol_cnt r) (leeway r) (mult r) (anchor r) (loose r)
    (samesimplex r) (state r) (centroid r) (reflect r) (expand r)
    (contract r) (init_simplex r) (simplex r) (next r) (index_best r)
    (index_worst r) (index_curr r) (next_id r) (phase r) (perf_n r)
    (thresh r) (span r) (flat_cnt r) x (session_cfg r) (seed r).
Definition set_session_cfg (x : hcfg) (r : data_t) : data_t :=
  Build_data_t (best r) (best_perf r) (init_point r) (init_radius r)
    (reject_type r) (reflect_val r) (expand_val r) (contract_val r)
    (shrink_val r) (fval_tol r) (size_tol r) (dist_tol r) (move_len r)
    (space_size r) (tol_cnt r) (leeway r) (mult r) (anchor r) (loose r)
    (samesimplex r) (state r) (centroid r) (reflect r) (expand r)
    (contract r) (init_simplex r) (simplex r) (next r) (index_best r)
    (index_worst r) (index_curr r) (next_id r) (phase r) (perf_n r)
    (thresh r) (span r) (flat_cnt r) (cnt r) x (seed r).
Definition set_seed (x : Z) (r : data_t) : data_t :=
  Build_data_t (best r) (best_perf r) (init_point r) (init_radius r)
    (reject_type r) (reflect_val r) (expand_val r) (contract_val r)
    (shrink_val r) (fval_tol r) (size_tol r) (dist_tol r) (move_len r)
    (space_size r) (tol_cnt r) (leeway r) (mult r) (anchor r) (loose r)
    (samesimplex r) (state r) (centroid r) (reflect r) (expand r)
    (contract r) (init_simplex r) (simplex r) (next r) (index_best r)
    (index_worst r) (index_curr r) (next_id r) (phase r) (perf_n r)
    (thresh r) (span r) (flat_cnt r) (cnt r) (session_cfg r) x.


Section Strategy.
Context {E : Env}.

(** Modelled from the spec: [vertex_point] of libvertex.  Section 3: "A
    vertex carries the same id as the point it represents", so the point
    made from a vertex has the vertex's id; its terms are the aligned
    coordinates the library computes. *)
Definition vertex_point (v : vertex_t) (point : hpoint_t) : Z * hpoint_t :=
  let (rc, t) := vertex_point_term v in
  (rc, {| hp_id := id v; hp_term := t |}).

(** [*r]; a NULL pointer reads as an empty vertex. *)
Definition deref (d : data_t) (r : vref) : vertex_t :=
  match r with
  | NULL => vertex0
  | Simplex_vertex i => vget (simplex d) i
  | Reflect => reflect d
  | Expand => expand d
  | Contract => contract d
  end.

(** [*r = v] *)
Definition assign (r : vref) (v : vertex_t) (d : data_t) : data_t :=
  match r with
  | NULL => d
  | Simplex_vertex i => set_simplex (zset (simplex d) i v) d
  | Reflect => set_reflect v d
  | Expand => set_expand v d
  | Contract => set_contract v d
  end.

(** [if (f(...) != 0) return -1;] chains. *)
Definition andthen (r : Z * data_t) (k : data_t -> Z * data_t) : Z * data_t :=
  let (rc, d) := r in if (rc =? 0)%Z then k d else ((-1)%Z, d).

(** A counted loop whose body may return -1 from the function. *)
Fixpoint for_up_rc (n : nat) (from : Z) (body : Z -> data_t -> Z * data_t)
  (d : data_t) : Z * data_t :=
  match n with
  | O => (0%Z, d)
  | S n' => andthen (body from d) (for_up_rc n' (from + 1)%Z body)
  end.

(** *** strategy_alloc *)

(** [calloc] zeroes the structure; [c] is the session's configuration. *)
Definition strategy_alloc (c : hcfg) : data_t :=
  {| best := hpoint0;
     best_perf := [];
     init_point := vertex0;
     init_radius := Fin 0;
     reject_type := REJECT_METHOD_UNKNOWN;
     reflect_val := Fin 0;
     expand_val := Fin 0;
     contract_val := Fin 0;
     shrink_val := Fin 0;
     fval_tol := Fin 0;
     size_tol := Fin 0;
     dist_tol := Fin 0;
     move_len := Fin 0;
     space_size := Fin 0;
     tol_cnt := 0;
     leeway := [];
     mult := Fin 0;
     anchor := false;
     loose := false;
     samesimplex := false;
     state := SIMPLEX_STATE_UNKNONW;
     centroid := vertex0;
     reflect := vertex0;
     expand := vertex0;
     contract := vertex0;
     init_simplex := [];
     simplex := [];
     next := NULL;
     index_best := 0;
     index_worst := 0;
     index_curr := 0;
     next_id := 1;
     phase := -1;
     perf_n := 0;
     thresh := [];
     span := [];
     flat_cnt := 0;
     cnt := 0;
     session_cfg := c;
     seed := 0 |}.

(** *** Internal helpers *)

Definition init_simplex_perfs (d : data_t) : Z * data_t :=
  for_up_rc (length (init_simplex d)) 0
    (fun i d =>
       let v := vget (init_simplex d) i in
       let (rc, p) := hperf_init (perf v) (perf_n d) in
       (rc, set_init_simplex (zset (init_simplex d) i (set_perf p v)) d))
    d.

Definition simplex_perfs (d : data_t) : Z * data_t :=
  for_up_rc (length (simplex d)) 0
    (fun i d =>
       let v := vget (simplex d) i in
       let (rc, p) := hperf_init (perf v) (perf_n d) in
       (rc, set_simplex (zset (simplex d) i (set_perf p v)) d))
    d.

(** [vertex_init(&v, len) != 0 || hperf_init(&v.perf, perf_n) != 0] *)
Definition scratch_init (d : data_t) (v : vertex_t) : Z * vertex_t :=
  let (rc, v) := vertex_init v space_len in
  if negb (rc =? 0)%Z then ((-1)%Z, v)
  else let (rc, p) := hperf_init (perf v) (perf_n d) in (rc, set_perf p v).

Definition allocate_structures (d : data_t) : Z * data_t :=
  andthen (let (rc, s) := simplex_init (init_simplex d) space_len in
           (rc, set_init_simplex s d)) (fun d =>
  andthen (init_simplex_perfs d) (fun d =>
  andthen (let (rc, s) := simplex_init (simplex d) space_len in
           (rc, set_simplex s d)) (fun d =>
  andthen (simplex_perfs d) (fun d =>
  andthen (let (rc, b) := hpoint_init (best d) space_len in
           (rc, set_best b d)) (fun d =>
  andthen (let (rc, p) := hperf_init (best_perf d) (perf_n d) in
           (rc, set_best_perf p d)) (fun d =>
  andthen (let (rc, v) := scratch_init d (reflect d) in
           (rc, set_reflect v d)) (fun d =>
  andthen (let (rc, v) := scratch_init d (expand d) in
           (rc, set_expand v d)) (fun d =>
  andthen (let (rc, v) := scratch_init d (contract d) in
           (rc, set_contract v d)) (fun d =>
  match realloc_real (leeway d) (perf_n d - 1) with
  | None => ((-1)%Z, d)
  | Some l =>
  let d := set_leeway l d in
  match realloc_span (span d) (perf_n d) with
  | None => ((-1)%Z, d)
  | Some sp =>
  let d := set_span sp d in
  match realloc_real (thresh d) (perf_n d - 1) with
  | None => ((-1)%Z, d)
  | Some t => (0%Z, set_thresh t d)
  end end end))))))))).

Definition cfg_tolerances (d : data_t) : Z * data_t :=
  let cfgval := hcfg_real (session_cfg d) CFGKEY_DIST_TOL in
  if negb (isnan cfgval)
  then
    if (cfgval <=? Fin 0)%D || (cfgval >=? Fin 1)%D then ((-1)%Z, d)
    else
      let d := set_dist_tol (cfgval * space_size d)%D d in
      let d := set_tol_cnt (hcfg_int (session_cfg d) CFGKEY_TOL_CNT) d in
      if (tol_cnt d <? 1)%Z then ((-1)%Z, d) else (0%Z, d)
  else
    (* CFGKEY_DIST_TOL is not defined.  Use the size/fval method. *)
    let d := set_fval_tol (hcfg_real (session_cfg d) CFGKEY_FVAL_TOL) d in
    if isnan (fval_tol d) then ((-1)%Z, d)
    else
      let cfgval := hcfg_real (session_cfg d) CFGKEY_SIZE_TOL in
      if isnan cfgval || (cfgval <=? Fin 0)%D || (cfgval >=? Fin 1)%D
      then ((-1)%Z, d)
      else (0%Z, set_size_tol (cfgval * space_size d)%D d).

Definition cfg_leeway (d : data_t) : Z * data_t :=
  match hcfg_get (session_cfg d) CFGKEY_ANGEL_LEEWAY with
  | Some _ =>
      if negb (hcfg_arr_len (session_cfg d) CFGKEY_ANGEL_LEEWAY
               =? perf_n d - 1)%Z
      then ((-1)%Z, d)
      else
        for_up_rc (Z.to_nat (perf_n d - 1)) 0
          (fun i d =>
             let d := set_leeway
                        (zset (leeway d) i
                           (hcfg_arr_real (session_cfg d)
                              CFGKEY_ANGEL_LEEWAY i)) d in
             if isnan (zget NaN (leeway d) i) then ((-1)%Z, d) else (0%Z, d))
          d
  | None => ((-1)%Z, d)
  end.

(** [config_strategy], block by block. *)

Definition cfg_flags (d : data_t) : Z * data_t :=
  let d := set_loose (hcfg_bool (session_cfg d) CFGKEY_ANGEL_LOOSE) d in
  let d := set_anchor (hcfg_bool (session_cfg d) CFGKEY_ANGEL_ANCHOR) d in
  let d := set_samesimplex
             (hcfg_bool (session_cfg d) CFGKEY_ANGEL_SAMESIMPLEX) d in
  let cfgval := hcfg_real (session_cfg d) CFGKEY_ANGEL_MULT in
  if isnan cfgval then ((-1)%Z, d) else (0%Z, set_mult cfgval d).

Definition cfg_init_radius (d : data_t) : Z * data_t :=
  let cfgval := hcfg_real (session_cfg d) CFGKEY_INIT_RADIUS in
  if (cfgval <=? Fin 0)%D || (cfgval >? Fin 1)%D then ((-1)%Z, d)
  else (0%Z, set_init_radius cfgval d).

Definition cfg_reject_method (d : data_t) : Z * data_t :=
  match hcfg_get (session_cfg d) CFGKEY_REJECT_METHOD with
  | Some cfgstr =>
      if String.eqb cfgstr "penalty"
      then (0%Z, set_reject_type REJECT_METHOD_PENALTY d)
      else if String.eqb cfgstr "random"
      then (0%Z, set_reject_type REJECT_METHOD_RANDOM d)
      else ((-1)%Z, d)
  | None => (0%Z, d)
  end.

Definition cfg_reflect (d : data_t) : Z * data_t :=
  let cfgval := hcfg_real (session_cfg d) CFGKEY_REFLECT in
  if isnan cfgval || (cfgval <=? Fin 0)%D then ((-1)%Z, d)
  else (0%Z, set_reflect_val (hcfg_real (session_cfg d) CFGKEY_REFLECT) d).

Definition cfg_expand (d : data_t) : Z * data_t :=
  let cfgval := hcfg_real (session_cfg d) CFGKEY_EXPAND in
  if isnan cfgval || (cfgval <=? reflect_val d)%D then ((-1)%Z, d)
  else (0%Z, set_expand_val cfgval d).

Definition cfg_contract (d : data_t) : Z * data_t :=
  let cfgval := hcfg_real (session_cfg d) CFGKEY_CONTRACT in
  if isnan cfgval || (cfgval <=? Fin 0)%D || (cfgval >=? Fin 1)%D
  then ((-1)%Z, d)
  else (0%Z, set_contract_val cfgval d).

Definition cfg_shrink (d : data_t) : Z * data_t :=
  let cfgval := hcfg_real (session_cfg d) CFGKEY_SHRINK in
  if isnan cfgval || (cfgval <=? Fin 0)%D || (cfgval >=? Fin 1)%D
  then ((-1)%Z, d)
  else (0%Z, set_shrink_val cfgval d).

Definition cfg_perf_count (d : data_t) : Z * data_t :=
  let d := set_perf_n (hcfg_int (session_cfg d) CFGKEY_PERF_COUNT) d in
  if (perf_n d <? 1)%Z then ((-1)%Z, d) else (0%Z, d).

(** "Use the expand and reflect vertex variables as temporaries to
    calculate the size tolerance." *)
Definition cfg_space_size (d : data_t) : Z * data_t :=
  andthen (let (rc, v) := vertex_minimum (expand d) in
           (rc, set_expand v d)) (fun d =>
  andthen (let (rc, v) := vertex_maximum (reflect d) in
           (rc, set_reflect v d)) (fun d =>
  (0%Z, set_space_size (vertex_norm (expand d) (reflect d)) d))).

Definition cfg_span (d : data_t) : Z * data_t :=
  (0%Z,
   for_lt (perf_n d)
     (fun i d =>
        set_span (zset (span d) i {| min := HUGE_VAL; max := (- HUGE_VAL)%D |})
          d)
     d).

Definition config_strategy (d : data_t) : Z * data_t :=
  andthen (cfg_flags d) (fun d =>
  andthen (cfg_init_radius d) (fun d =>
  andthen (cfg_reject_method d) (fun d =>
  andthen (cfg_reflect d) (fun d =>
  andthen (cfg_expand d) (fun d =>
  andthen (cfg_contract d) (fun d =>
  andthen (cfg_shrink d) (fun d =>
  andthen (cfg_perf_count d) (fun d =>
  andthen (allocate_structures d) (fun d =>
  andthen (cfg_space_size d) (fun d =>
  andthen (cfg_tolerances d) (fun d =>
  andthen (cfg_leeway d) cfg_span))))))))))).

Definition make_initial_simplex (d : data_t) : Z * data_t :=
  andthen
    (match hcfg_get (session_cfg d) CFGKEY_INIT_POINT with
     | Some cfgval =>
         let (rc, v) := vertex_parse (init_point d) cfgval in
         (rc, set_init_point v d)
     | None =>
         let (rc, v) := vertex_center (init_point d) in
         (rc, set_init_point v d)
     end) (fun d =>
  let (rc, s) := simplex_set (init_simplex d) (init_point d) (init_radius d) in
  let d := set_init_simplex s d in
  if negb (rc =? 0)%Z then ((-1)%Z, d) else (0%Z, d)).

(** The loop of [update_centroid]: the indices of the best and of the
    worst vertex on [obj[phase]]. *)
Definition update_indices (d : data_t) : data_t :=
  let d := set_index_worst 0 (set_index_best 0 d) in
  for_up (length (simplex d) - 1) 1
    (fun i d =>
       let d :=
         if (obj (perf (vget (simplex d) i)) (phase d)
             <? obj (perf (vget (simplex d) (index_best d))) (phase d))%D
         then set_index_best i d else d in
       if (obj (perf (vget (simplex d) i)) (phase d)
           >? obj (perf (vget (simplex d) (index_worst d))) (phase d))%D
       then set_index_worst i d else d)
    d.

Definition update_centroid (d : data_t) : Z * data_t :=
  let d := update_indices d in
  let worst := vget (simplex d) (index_worst d) in
  let stashed_id := id worst in
  let d := set_simplex (zset (simplex d) (index_worst d) (set_id 0 worst)) d in
  let (rc, c) := simplex_centroid (simplex d) (centroid d) in
  let d := set_centroid c d in
  if negb (rc =? 0)%Z then ((-1)%Z, d)
  else
    let worst := vget (simplex d) (index_worst d) in
    (0%Z,
     set_simplex (zset (simplex d) (index_worst d) (set_id stashed_id worst))
       d).

(** The anchor search of [increment_phase]: the index of the simplex
    vertex closest to the centroid, -1 when none is closer than HUGE_VAL. *)
Definition closest_to_centroid (d : data_t) : Z :=
  snd (for_lt (zlen (simplex d))
         (fun i (acc : double * Z) =>
            let (min_dist, idx) := acc in
            let curr_dist := vertex_norm (centroid d) (vget (simplex d) i) in
            if (min_dist >? curr_dist)%D then (curr_dist, i) else acc)
         (HUGE_VAL, (-1)%Z)).

Definition string_of_Z (z : Z) : string :=
  DecimalString.NilZero.string_of_int (Z.to_int z).

(** [increment_phase], block by block. *)

(** "Calculate the threshold for the previous phase." *)
Definition phase_threshold (d : data_t) : data_t :=
  if (phase d >=? 0)%Z
  then
    let sp := zget span0 (span d) (phase d) in
    let tval := (max sp - min sp)%D in
    let tval := (tval * zget NaN (leeway d) (phase d))%D in
    let tval := (tval + min sp)%D in
    set_thresh (zset (thresh d) (phase d) tval) d
  else d.

(** [++data->phase], its publication under ANGEL_PHASE, and "Use the
    centroid to store the previous phase's best vertex." *)
Definition phase_begin (d : data_t) : data_t :=
  let d := set_phase (phase d + 1)%Z d in
  let d := set_session_cfg
             (session_setcfg (session_cfg d) CFGKEY_ANGEL_PHASE
                (string_of_Z (phase d))) d in
  set_centroid
    (snd (vertex_copy (centroid d) (vget (simplex d) (index_best d)))) d.

(** The copy of the initial simplex and the anchor. *)
Definition phase_anchor (d : data_t) : data_t :=
  let d := set_simplex (snd (simplex_copy (simplex d) (init_simplex d))) d in
  if (hp_id (best d) >? 0)%Z && anchor d
  then
    let idx := closest_to_centroid d in
    set_simplex
      (zset (simplex d) idx
         (snd (vertex_copy (vget (simplex d) idx) (centroid d)))) d
  else d.

(** [hperf_reset(&data->best_perf); data->best.id = 0;] and the state. *)
Definition phase_reset_best (d : data_t) : data_t :=
  let d := set_best_perf (hperf_reset (best_perf d)) d in
  let d := set_best {| hp_id := 0; hp_term := hp_term (best d) |} d in
  set_state SIMPLEX_STATE_INIT d.

Definition increment_phase (d : data_t) : Z * data_t :=
  let d := phase_begin (phase_threshold d) in
  andthen (if negb (samesimplex d) then make_initial_simplex d else (0%Z, d))
    (fun d => (0%Z, phase_reset_best (phase_anchor d))).

(** [fval_err] of [check_convergence]: the mean over the simplex of the
    squared distance of [obj[phase]] to that of the centroid. *)
Definition fval_err (d : data_t) : double :=
  let base_val := obj (perf (centroid d)) (phase d) in
  let fval_err :=
    for_lt (zlen (simplex d))
      (fun i fval_err =>
         let fval := obj (perf (vget (simplex d) i)) (phase d) in
         (fval_err + (fval - base_val) * (fval - base_val))%D)
      (Fin 0) in
  (fval_err / Fin (inject_Z (zlen (simplex d))))%D.

(** [size_max] of [check_convergence]: the largest distance of a vertex of
    the simplex to the centroid. *)
Definition size_max (d : data_t) : double :=
  for_lt (zlen (simplex d))
    (fun i size_max =>
       let dist := vertex_norm (vget (simplex d) i) (centroid d) in
       if (size_max <? dist)%D then dist else size_max)
    (Fin 0).

(** The first test of [check_convergence]: all simplex objective values
    are the same. *)
Definition flat (d : data_t) : bool :=
  let perf_0 := obj (perf (vget (simplex d) 0)) (phase d) in
  negb (existsb
          (fun v =>
             let perf_i := obj (perf v) (phase d) in
             (perf_i <? perf_0)%D || (perf_0 <? perf_i)%D)
          (tl (simplex d))).

(** The tests of [check_convergence], up to the [converged] label: the
    state with its counters updated, and whether control reaches the
    label. *)
Definition convergence_tests (d : data_t) : data_t * bool :=
  (* Converge if all simplex objective values remain the same after 3 moves. *)
  let flat := flat d in
  let d := if flat then set_flat_cnt (flat_cnt d + 1)%Z d
           else set_flat_cnt 0 d in
  if flat && (flat_cnt d >=? 3)%Z then (set_flat_cnt 0 d, true)
  (* Converge if all simplex verticies map to the same underlying hpoint. *)
  else if simplex_collapsed (simplex d) then (d, true)
  (* Converge if the simplex moves via reflection below a distance
     tolerance. *)
  else if negb (isnan (dist_tol d))
  then
    if (move_len d <? dist_tol d)%D
    then
      let d := set_cnt (cnt d + 1)%Z d in
      if (cnt d >=? tol_cnt d)%Z then (set_cnt 0 d, true) else (d, false)
    else (set_cnt 0 d, false)
  (* If a dist_tol is not set, converge based on simplex size and
     flatness. *)
  else (d, (fval_err d <? fval_tol d)%D && (size_max d <? size_tol d)%D).

Definition check_convergence (d : data_t) : data_t :=
  let (d, conv) := convergence_tests d in
  if conv
  then
    if (phase d =? perf_n d - 1)%Z
    then
      let d := set_state SIMPLEX_STATE_CONVERGED d in
      set_session_cfg (session_setcfg (session_cfg d) CFGKEY_CONVERGED "1") d
    else snd (increment_phase d)
  else d.

Definition nm_state_transition (d : data_t) : Z * data_t :=
  let p := phase d in
  match state d with
  | SIMPLEX_STATE_INIT
  | SIMPLEX_STATE_SHRINK =>
      (* Simplex vertex performance value. *)
      let d := set_index_curr (index_curr d + 1)%Z d in
      if (index_curr d =? space_len + 1)%Z
      then
        let d := snd (update_centroid d) in
        let d := set_state SIMPLEX_STATE_REFLECT d in
        (0%Z, set_index_curr 0 d)
      else (0%Z, d)
  | SIMPLEX_STATE_REFLECT =>
      if (obj (perf (reflect d)) p
          <? obj (perf (vget (simplex d) (index_best d))) p)%D
      then (0%Z, set_state SIMPLEX_STATE_EXPAND d)
      else if (obj (perf (reflect d)) p
               <? obj (perf (vget (simplex d) (index_worst d))) p)%D
      then
        let (rc, v) :=
          vertex_copy (vget (simplex d) (index_worst d)) (reflect d) in
        let d := set_simplex (zset (simplex d) (index_worst d) v) d in
        if negb (rc =? 0)%Z then ((-1)%Z, d)
        else (0%Z, snd (update_centroid d))
      else (0%Z, set_state SIMPLEX_STATE_CONTRACT d)
  | SIMPLEX_STATE_EXPAND =>
      let src :=
        if (obj (perf (expand d)) p
            <? obj (perf (vget (simplex d) (index_best d))) p)%D
        then expand d else reflect d in
      let (rc, v) := vertex_copy (vget (simplex d) (index_worst d)) src in
      let d := set_simplex (zset (simplex d) (index_worst d) v) d in
      if negb (rc =? 0)%Z then ((-1)%Z, d)
      else
        let d := snd (update_centroid d) in
        (0%Z, set_state SIMPLEX_STATE_REFLECT d)
  | SIMPLEX_STATE_CONTRACT =>
      if (obj (perf (contract d)) p
          <? obj (perf (vget (simplex d) (index_worst d))) p)%D
      then
        let (rc, v) :=
          vertex_copy (vget (simplex d) (index_worst d)) (contract d) in
        let d := set_simplex (zset (simplex d) (index_worst d) v) d in
        if negb (rc =? 0)%Z then ((-1)%Z, d)
        else
          let d := snd (update_centroid d) in
          (0%Z, set_state SIMPLEX_STATE_REFLECT d)
      else
        (* Indicates the beginning of SHRINK. *)
        let d := set_index_curr (-1) d in
        (0%Z, set_state SIMPLEX_STATE_SHRINK d)
  | _ => ((-1)%Z, d)
  end.

(** The last statement of [nm_next_vertex]: [hperf_reset(&data->next->perf)]. *)
Definition reset_next_perf (d : data_t) : data_t :=
  let v := deref d (next d) in
  assign (next d) (set_perf (hperf_reset (perf v)) v) d.

Definition nm_next_vertex (d : data_t) : Z * data_t :=
  match state d with
  | SIMPLEX_STATE_INIT =>
      (* Test individual vertices of the initial simplex. *)
      let d := set_next (Simplex_vertex (index_curr d)) d in
      (0%Z, reset_next_perf d)
  | SIMPLEX_STATE_REFLECT =>
      (* Test a vertex reflected from the worst performing vertex
         through the centroid point. *)
      let (rc, v) :=
        vertex_transform (centroid d) (vget (simplex d) (index_worst d))
          (reflect_val d) (reflect d) in
      let d := set_reflect v d in
      if negb (rc =? 0)%Z then ((-1)%Z, d)
      else
        let d := set_move_len
                   (vertex_norm (vget (simplex d) (index_worst d)) (reflect d))
                   d in
        let d := set_move_len (move_len d / space_size d)%D d in
        let d := set_next Reflect d in
        (0%Z, reset_next_perf d)
  | SIMPLEX_STATE_EXPAND =>
      (* Test a vertex that expands the reflected vertex even
         further from the the centroid point. *)
      let (rc, v) :=
        vertex_transform (centroid d) (vget (simplex d) (index_worst d))
          (expand_val d) (expand d) in
      let d := set_expand v d in
      if negb (rc =? 0)%Z then ((-1)%Z, d)
      else
        let d := set_next Expand d in
        (0%Z, reset_next_perf d)
  | SIMPLEX_STATE_CONTRACT =>
      (* Test a vertex contracted from the worst performing vertex
         towards the centroid point. *)
      let (rc, v) :=
        vertex_transform (vget (simplex d) (index_worst d)) (centroid d)
          (- contract_val d)%D (contract d) in
      let d := set_contract v d in
      if negb (rc =? 0)%Z then ((-1)%Z, d)
      else
        let d := set_next Contract d in
        (0%Z, reset_next_perf d)
  | SIMPLEX_STATE_SHRINK =>
      andthen
        (if (index_curr d =? -1)%Z
         then
           (* Shrink the entire simplex towards the best known vertex
              thus far. *)
           let (rc, s) :=
             simplex_transform (simplex d) (vget (simplex d) (index_best d))
               (- shrink_val d)%D (simplex d) in
           let d := set_simplex s d in
           if negb (rc =? 0)%Z then ((-1)%Z, d)
           else (0%Z, set_index_curr 0 d)
         else (0%Z, d)) (fun d =>
      (* Test individual vertices of the initial simplex. *)
      let d := set_next (Simplex_vertex (index_curr d)) d in
      (0%Z, reset_next_perf d))
  | SIMPLEX_STATE_CONVERGED =>
      (* Simplex has converged.  Nothing to do. *)
      let d := set_next (Simplex_vertex (index_best d)) d in
      (0%Z, reset_next_perf d)
  | _ => ((-1)%Z, d)
  end.

(** One turn of the do-while loop of [nm_algorithm]. *)
Definition nm_step (d : data_t) : Z * data_t :=
  andthen (nm_state_transition d) (fun d =>
  andthen (if state_eqb (state d) SIMPLEX_STATE_REFLECT
           then andthen (update_centroid d)
                  (fun d => (0%Z, check_convergence d))
           else (0%Z, d))
    nm_next_vertex).

(** The do-while loop of [nm_algorithm]; [None] when [fuel] turns did not
    reach its end. *)
Fixpoint nm_algorithm (fuel : nat) (d : data_t) : option (Z * data_t) :=
  match fuel with
  | O => None
  | S fuel' =>
      if state_eqb (state d) SIMPLEX_STATE_CONVERGED then Some (0%Z, d)
      else
        let (rc, d) := nm_step d in
        if negb (rc =? 0)%Z then Some ((-1)%Z, d)
        else if negb (vertex_inbounds (deref d (next d)))
        then nm_algorithm fuel' d
        else Some (0%Z, d)
  end.

(** *** The strategy interface *)

Definition strategy_init (d : data_t) : Z * data_t :=
  andthen (config_strategy d) (fun d =>
  andthen (make_initial_simplex d) (fun d =>
  let d := set_session_cfg
             (session_setcfg (session_cfg d) CFGKEY_CONVERGED "0") d in
  let d := set_next_id 1 d in
  andthen (increment_phase d) (fun d =>
  andthen (nm_next_vertex d) (fun d => (0%Z, d))))).

Definition strategy_generate (flow : hflow_t) (point : hpoint_t) (d : data_t)
  : Z * data_t * hflow_t * hpoint_t :=
  if (id (deref d (next d)) =? next_id d)%Z
  then (0%Z, d, {| status := HFLOW_WAIT; point := Angel.point flow |}, point)
  else
    (* v is the vertex data->next points to, after the write *)
    let v := set_id (next_id d) (deref d (next d)) in
    let d := assign (next d) v d in
    let (rc, point) := vertex_point v point in
    if negb (rc =? 0)%Z then ((-1)%Z, d, flow, point)
    else
      (0%Z, d, {| status := HFLOW_ACCEPT; point := Angel.point flow |}, point).

Definition strategy_rejected (fuel : nat) (flow : hflow_t) (point : hpoint_t)
  (d : data_t) : option (Z * data_t * hflow_t * hpoint_t) :=
  let accept (flow : hflow_t) :=
    {| status := HFLOW_ACCEPT; point := Angel.point flow |} in
  if negb (hp_id (Angel.point flow) =? 0)%Z
  then
    (* Update our state to include the hint point. *)
    let hint := {| hp_id := hp_id point;
                   hp_term := hp_term (Angel.point flow) |} in
    let flow := {| status := status flow; point := hint |} in
    let (rc, v) := vertex_set (deref d (next d)) hint in
    let d := assign (next d) v d in
    if negb (rc =? 0)%Z then Some ((-1)%Z, d, flow, point)
    else
      let (rc, point) := hpoint_copy point hint in
      if negb (rc =? 0)%Z then Some ((-1)%Z, d, flow, point)
      else Some (0%Z, d, accept flow, point)
  else
    match reject_type d with
    | REJECT_METHOD_PENALTY =>
        (* Apply an infinite penalty to the rejected point. *)
        let d := reset_next_perf d in
        (* Allow the algorithm to choose the next point. *)
        match nm_algorithm fuel d with
        | None => None
        | Some (rc, d) =>
            if negb (rc =? 0)%Z then Some ((-1)%Z, d, flow, point)
            else
              let v := set_id (next_id d) (deref d (next d)) in
              let d := assign (next d) v d in
              let (rc, point) := vertex_point v point in
              if negb (rc =? 0)%Z then Some ((-1)%Z, d, flow, point)
              else Some (0%Z, d, accept flow, point)
        end
    | REJECT_METHOD_RANDOM =>
        (* Replace the rejected point with a random point. *)
        let '(rc, v, sd) := vertex_random (seed d) (deref d (next d)) (Fin 1) in
        let d := set_seed sd (assign (next d) v d) in
        if negb (rc =? 0)%Z then Some ((-1)%Z, d, flow, point)
        else
          let v := set_id (next_id d) (deref d (next d)) in
          let d := assign (next d) v d in
          let (rc, point) := vertex_point v point in
          if negb (rc =? 0)%Z then Some ((-1)%Z, d, flow, point)
          else Some (0%Z, d, accept flow, point)
    | _ => Some (0%Z, d, accept flow, point)
    end.

(** [strategy_analyze], block by block. *)

(** [hperf_copy(&data->next->perf, &trial->perf)] *)
Definition analyze_store (trial : htrial_t) (d : data_t) : data_t :=
  let v := deref d (next d) in
  assign (next d) (set_perf (snd (hperf_copy (perf v) (trial_perf trial))) v) d.

(** One step of "Update the observed value ranges". *)
Definition span_step (x : double) (sp : span_t) : span_t :=
  let sp := if (min sp >? x)%D then {| min := x; max := max sp |} else sp in
  if (max sp <? x)%D && (x <? HUGE_VAL)%D
  then {| min := min sp; max := x |} else sp.

Definition analyze_span (d : data_t) : data_t :=
  for_lt (perf_n d)
    (fun i d =>
       set_span
         (zset (span d) i
            (span_step (obj (perf (deref d (next d))) i)
               (zget span0 (span d) i))) d)
    d.

(** One turn of the penalty loop on objective [i]: the pair
    [(penalty, penalty_base)]. *)
Definition penalty_step (d : data_t) (i : Z) (acc : double * double)
  : double * double :=
  let (penalty, penalty_base) := acc in
  let x := obj (perf (deref d (next d))) i in
  let t := zget NaN (thresh d) i in
  let penalty :=
    if (x >? t)%D
    then
      let penalty := if negb (loose d) then (penalty + penalty_base)%D
                     else penalty in
      let fraction := ((x - t) / (max (zget span0 (span d) i) - t))%D in
      (penalty + Fin 1 / (Fin 1 - log fraction))%D
    else penalty in
  (penalty, (penalty_base * Fin 2)%D).

Definition penalty_loop (d : data_t) : double :=
  fst (for_down (Z.to_nat (phase d)) (phase d - 1) (penalty_step d)
         (Fin 0, Fin 1)).

Definition analyze_penalty (d : data_t) : data_t :=
  let penalty := penalty_loop d in
  if (penalty >? Fin 0)%D
  then
    let penalty := if loose d then (penalty + Fin 1)%D else penalty in
    let sp := zget span0 (span d) (phase d) in
    let span := (max sp - min sp)%D in
    let v := deref d (next d) in
    assign (next d)
      (set_perf
         (zset (perf v) (phase d)
            (obj (perf v) (phase d) + penalty * span * mult d)%D) v) d
  else d.

(** "Update the best performing point, if necessary." *)
Definition analyze_best (trial : htrial_t) (d : data_t) : Z * data_t :=
  if (zlen (best_perf d) =? 0)%Z
     || (obj (best_perf d) (phase d)
         >? obj (perf (deref d (next d))) (phase d))%D
  then
    let (rc, p) := hperf_copy (best_perf d) (perf (deref d (next d))) in
    let d := set_best_perf p d in
    if negb (rc =? 0)%Z then ((-1)%Z, d)
    else
      let (rc, b) := hpoint_copy (best d) (trial_point trial) in
      let d := set_best b d in
      if negb (rc =? 0)%Z then ((-1)%Z, d) else (0%Z, d)
  else (0%Z, d).

(** The state once the trial is stored, the ranges are updated and the
    penalty is applied. *)
Definition measured (trial : htrial_t) (d : data_t) : data_t :=
  analyze_penalty (analyze_span (analyze_store trial d)).

Definition strategy_analyze (fuel : nat) (trial : htrial_t) (d : data_t)
  : option (Z * data_t) :=
  if negb (hp_id (trial_point trial) =? id (deref d (next d)))%Z
  then Some ((-1)%Z, d)
  else
    let d := measured trial d in
    let (rc, d) := analyze_best trial d in
    if negb (rc =? 0)%Z then Some ((-1)%Z, d)
    else
      match nm_algorithm fuel d with
      | None => None
      | Some (rc, d) =>
          if negb (rc =? 0)%Z then Some ((-1)%Z, d)
          else if negb (state_eqb (state d) SIMPLEX_STATE_CONVERGED)
          then Some (0%Z, set_next_id (next_id d + 1)%Z d)
          else Some (0%Z, d)
      end.

Definition strategy_best (point : hpoint_t) (d : data_t) : Z * hpoint_t :=
  hpoint_copy point (best d).

(** *** Notions used to state the properties *)

(** The search options: written by [config_strategy] only. *)
Definition opts (d : data_t) :=
  (perf_n d,
   (dist_tol d, fval_tol d, size_tol d, tol_cnt d, space_size d),
   (loose d, mult d, leeway d, anchor d, samesimplex d),
   (init_radius d, reject_type d),
   (reflect_val d, expand_val d, contract_val d, shrink_val d)).

(** The fields [nm_algorithm] never writes: the options, the observed
    spans, the id counter and the random generator. *)
Definition core (d : data_t) := (next_id d, span d, seed d, opts d).

(** The best point tracked and the phase it belongs to. *)
Definition tracked (d : data_t) := (phase d, best d, best_perf d).

(** [best.perf.obj[phase]]: the value of the best point on the objective
    of the phase. *)
Definition best_value (d : data_t) : double := obj (best_perf d) (phase d).

(** The value a trial is analysed at: its [obj[phase]] after the penalty. *)
Definition analysed_value (trial : htrial_t) (d : data_t) : double :=
  let m := measured trial d in obj (perf (deref m (next m))) (phase d).

(** Re-making the initial simplex at a phase change cannot fail: it is not
    re-made (SAMESIMPLEX), or its construction always succeeds. *)
Definition reinit_ok (d : data_t) : Prop :=
  samesimplex d = true \/ forall d1, fst (make_initial_simplex d1) = 0%Z.

(** From [d] to [d']: nothing tracked has changed, or the phase has moved on
    and the best point has been reset. *)
Definition phase_rel (d d' : data_t) : Prop :=
  tracked d' = tracked d
  \/ ((phase d < phase d')%Z
      /\ best_perf d' = hperf_reset (best_perf d)
      /\ hp_id (best d') = 0%Z).

(** A pointer that points to a vertex of the state. *)
Definition valid_ref (d : data_t) (r : vref) : Prop :=
  match r with
  | NULL => False
  | Simplex_vertex i => (0 <= i < zlen (simplex d))%Z
  | Reflect | Expand | Contract => True
  end.

(** *** The formulas of the specification *)

(** The REFLECT candidate as section 4.3 states it:
    "r = centroid + rho * (centroid - worst)". *)
Definition reflect_candidate_spec (d : data_t) : list double :=
  Pro.map2 (fun c w => c + reflect_val d * (c - w))%D
    (term (centroid d)) (term (vget (simplex d) (index_worst d))).

(** The penalty as section 4.3 states it, for the vertex [data->next]
    points to, in phase [p = phase d]. *)

(** Objective [k] is violated: the measured [obj[k]] exceeds [thresh[k]]. *)
Definition violated (d : data_t) (k : Z) : bool :=
  (obj (perf (deref d (next d))) k >? zget NaN (thresh d) k)%D.

(** "soft component per violated k:
    1 / (1 - log((obj[k] - thresh[k]) / (span[k].max - thresh[k])))" *)
Definition soft (d : data_t) (k : Z) : double :=
  let x := obj (perf (deref d (next d))) k in
  let t := zget NaN (thresh d) k in
  (Fin 1 / (Fin 1 - log ((x - t) / (max (zget span0 (span d) k) - t))))%D.

(** "in strict mode each lower-priority violation is scaled by
    2^(p-1-k)": the base 1.0 of objective [k], scaled. *)
Definition base_weight (p k : Z) : double :=
  Fin (inject_Z (2 ^ (p - 1 - k))).

(** [from, from - 1, ...], [n] of them. *)
Fixpoint countdown (n : nat) (from : Z) : list Z :=
  match n with
  | O => []
  | S n' => from :: countdown n' (from - 1)%Z
  end.

(** The objectives of higher priority than the phase's: [p-1, ..., 0]. *)
Definition priorities (p : Z) : list Z := countdown (Z.to_nat p) (p - 1)%Z.

(** What objective [k] adds to the penalty. *)
Definition penalty_term (d : data_t) (k : Z) : double :=
  if violated d k
  then (soft d k + (if loose d then Fin 0 else base_weight (phase d) k))%D
  else Fin 0.

Definition any_violated (d : data_t) : bool :=
  existsb (violated d) (priorities (phase d)).

(** The penalty: the sum over the violated objectives, and in loose mode
    the extra 1.0, added once. *)
Definition penalty_spec (d : data_t) : double :=
  (Pro.dsum (map (penalty_term d) (priorities (phase d)))
   + (if loose d then Fin 1 else Fin 0))%D.

(** "final: obj[p] += penalty * (span[p].max - span[p].min) * mult", when
    some objective is violated. *)
Definition penalised_spec (d : data_t) : double :=
  let x := obj (perf (deref d (next d))) (phase d) in
  let sp := zget span0 (span d) (phase d) in
  if any_violated d
  then (x + penalty_spec d * (max sp - min sp) * mult d)%D
  else x.

(** [dist_tol] is still the zero of [strategy_alloc], and the configuration
    is [c]. *)
Definition untouched (c : hcfg) (d : data_t) : Prop :=
  dist_tol d = Fin 0 /\ session_cfg d = c.

(** [d'] has the state, the outstanding vertex (where [data->next] points
    and the id there) and the id counter of [d]. *)
Definition same_outstanding (d d' : data_t) : Prop :=
  state d' = state d
  /\ next d' = next d
  /\ next_id d' = next_id d
  /\ zlen (simplex d') = zlen (simplex d)
  /\ id (deref d' (next d')) = id (deref d (next d)).

(** Objective [k] is penalised on finite data: the measured value, the
    threshold and the upper end of the observed range are finite, and the
    range covers the measured value. *)
Definition regular (d : data_t) (k : Z) : Prop :=
  exists x t M : Q,
    obj (perf (deref d (next d))) k = Fin x
    /\ zget NaN (thresh d) k = Fin t
    /\ max (zget span0 (span d) k) = Fin M
    /\ x <= M.

(** What a session sees of the search from outside: the phase and the
    number of objectives, the state of the machine, and the configuration
    the search publishes to. *)
Definition published (d : data_t) :=
  (phase d, perf_n d, state d, session_cfg d).

(** From [d] to [d'], as seen from outside: the search goes on in the same
    phase, or it converges, in the last phase, and says so under CONVERGED,
    or it moves on to the next phase and says so under ANGEL_PHASE. *)
Definition moves (d d' : data_t) : Prop :=
  perf_n d' = perf_n d
  /\ ((phase d' = phase d
       /\ session_cfg d' = session_cfg d
       /\ state d' <> SIMPLEX_STATE_CONVERGED)
      \/ (phase d' = phase d
          /\ phase d = (perf_n d - 1)%Z
          /\ state d' = SIMPLEX_STATE_CONVERGED
          /\ session_cfg d'
             = session_setcfg (session_cfg d) CFGKEY_CONVERGED "1")
      \/ (phase d' = (phase d + 1)%Z
          /\ phase d <> (perf_n d - 1)%Z
          /\ state d' <> SIMPLEX_STATE_CONVERGED
          /\ session_cfg d'
             = session_setcfg (session_cfg d) CFGKEY_ANGEL_PHASE
                 (string_of_Z (phase d + 1)))).

(** The options [config_strategy] checks one by one. *)
Definition checked (d : data_t) :=
  (perf_n d,
   (loose d, anchor d, samesimplex d, mult d),
   (init_radius d, reject_type d),
   (reflect_val d, expand_val d, contract_val d, shrink_val d)).

(** *** Runs of the strategy *)

(** A call the session makes. *)
Inductive op : Type :=
| Generate (flow : hflow_t) (point : hpoint_t)
| Analyze (trial : htrial_t).

(** What a call answers: a generate that returns 0 with status ACCEPT emits
    [point] ([Emit], with the state the machine is in), one that returns 0
    with status WAIT emits nothing. *)
Inductive event : Type :=
| Emit (point : hpoint_t) (st : simplex_state)
| Wait
| Failed
| Analyzed (rc : Z).

Definition generate_event (rc : Z) (flow : hflow_t) (point : hpoint_t)
  (d : data_t) : event :=
  if negb (rc =? 0)%Z then Failed
  else match status flow with
       | HFLOW_ACCEPT => Emit point (state d)
       | HFLOW_WAIT => Wait
       end.

(** [None] when a call did not return within [fuel]. *)
Fixpoint run (fuel : nat) (ops : list op) (d : data_t)
  : option (list event * data_t) :=
  match ops with
  | [] => Some ([], d)
  | Generate flow point :: ops' =>
      let '(rc, d, flow, point) := strategy_generate flow point d in
      match run fuel ops' d with
      | None => None
      | Some (evs, d') => Some (generate_event rc flow point d :: evs, d')
      end
  | Analyze trial :: ops' =>
      match strategy_analyze fuel trial d with
      | None => None
      | Some (rc, d) =>
          match run fuel ops' d with
          | None => None
          | Some (evs, d') => Some (Analyzed rc :: evs, d')
          end
      end
  end.

(** The values analysed along a run: one per trial that matched the
    outstanding candidate. *)
Fixpoint analysed (fuel : nat) (ops : list op) (d : data_t) : list double :=
  match ops with
  | [] => []
  | Generate flow point :: ops' =>
      let '(_, d, _, _) := strategy_generate flow point d in
      analysed fuel ops' d
  | Analyze trial :: ops' =>
      match strategy_analyze fuel trial d with
      | None => []
      | Some (_, d') =>
          (if (hp_id (trial_point trial) =? id (deref d (next d)))%Z
           then [analysed_value trial d] else [])
          ++ analysed fuel ops' d'
      end
  end.

(** The ids of the candidates emitted, in order. *)
Fixpoint emitted (evs : list event) : list Z :=
  match evs with
  | [] => []
  | Emit p _ :: evs' => hp_id p :: emitted evs'
  | _ :: evs' => emitted evs'
  end.

(** The states a session goes through: one before each call, and the
    last. *)
Fixpoint states (fuel : nat) (ops : list op) (d : data_t) : list data_t :=
  d :: match ops with
       | [] => []
       | Generate flow point :: ops' =>
           let '(_, d', _, _) := strategy_generate flow point d in
           states fuel ops' d'
       | Analyze trial :: ops' =>
           match strategy_analyze fuel trial d with
           | Some (_, d') => states fuel ops' d'
           | None => []
           end
       end.

(** A session that goes on searching: [data->next] points to a vertex and
    the machine has not converged, in every state, and every analysis
    returned 0. *)
Definition searching (fuel : nat) (ops : list op) (d : data_t)
  (evs : list event) : Prop :=
  Forall (fun s => valid_ref s (next s)
                   /\ state s <> SIMPLEX_STATE_CONVERGED)
    (states fuel ops d)
  /\ Forall (fun e => match e with Analyzed rc => rc = 0%Z | _ => True end)
       evs.

End Strategy.
End Angel.

(* ================================================================= *)
(** ** A concrete session: one continuous dimension, [0, 10]

    The smallest search space, with the library functions the two
    strategies take from outside written out for it.  The examples and the
    witnesses of the theorems below run the strategies in this session. *)

Module Line.

Definition lo : double := Fin 0.
Definition hi : double := Fin 10.
Definition diameter : double := Fin 10.

Definition in_range (x : double) : bool := (lo <=? x)%D && (x <=? hi)%D.

(** The Euclidean distance of two points of the line. *)
Definition dist1 (a b : list double) : double :=
  match a, b with
  | [Fin x], [Fin y] => Fin (Qred (Qabs (x - y)))
  | _, _ => NaN
  end.

Definition same1 (a b : list double) : bool :=
  match a, b with
  | [Fin x], [Fin y] => Qeq_bool x y
  | _, _ => false
  end.

(** An array of [n] cells: the cells of [l] it has, [x] in the others. *)
Definition resize {A : Type} (x : A) (l : list A) (n : Z) : list A :=
  firstn (Z.to_nat n) l ++ repeat x (Z.to_nat n - length l).

(** The decimal literals the example configurations use. *)
Definition real_of_string (s : string) : option Q :=
  if String.eqb s "0.50" then Some 0.5
  else if String.eqb s "0.5" then Some 0.5
  else if String.eqb s "1.0" then Some 1
  else if String.eqb s "2.0" then Some 2
  else if String.eqb s "5" then Some 5
  else if String.eqb s "0.9" then Some 0.9
  else if String.eqb s "0.0001" then Some 0.0001
  else if String.eqb s "0.005" then Some 0.005
  else None.

Definition int_of_string (s : string) : Z :=
  if String.eqb s "1" then 1
  else if String.eqb s "2" then 2
  else if String.eqb s "3" then 3
  else 0.

(** *** The session of pro.c *)

Definition pro_vertex (x : double) (v : Pro.vertex_t) : Pro.vertex_t :=
  Pro.set_term [x] v.

Definition pro_fresh : Pro.vertex_t :=
  {| Pro.id := -1; Pro.perf := Fin 0; Pro.term := [Fin 0] |}.

Definition pro_from_vertex (c : Pro.vertex_t) (pct : double)
  (s : Pro.simplex_t) : Z * Pro.simplex_t :=
  match Pro.term c with
  | [x] => (0%Z, [ pro_vertex (x - pct * diameter)%D (Pro.vget s 0);
                   pro_vertex (x + pct * diameter)%D (Pro.vget s 1) ])
  | _ => ((-1)%Z, s)
  end.

#[export] Instance pro_env : Pro.Env := {|
  Pro.range_len := 1;
  Pro.atoi := int_of_string;
  Pro.strtod := fun s =>
    match real_of_string s with
    | Some q => (dbl q, ""%string)
    | None => (Fin 0, s)
    end;
  Pro.strcasecmp := fun a b => if String.eqb a b then 0%Z else 1%Z;
  Pro.time_now := 0;
  Pro.libvertex_init := 0;
  Pro.vertex_alloc := Some pro_fresh;
  Pro.simplex_alloc := fun n => Some (repeat pro_fresh (Z.to_nat n));
  Pro.vertex_min := pro_vertex lo;
  Pro.vertex_max := pro_vertex hi;
  Pro.vertex_dist := fun a b => dist1 (Pro.term a) (Pro.term b);
  Pro.vertex_rand := fun sd v =>
    (pro_vertex (Fin (inject_Z (sd mod 11))) v, (sd + 1)%Z);
  Pro.vertex_center := fun v => Pro.set_id 0 (pro_vertex (Fin 5) v);
  Pro.simplex_from_vertex := pro_from_vertex;
  Pro.simplex_from_vertex_fast := pro_from_vertex;
  Pro.vertex_to_hpoint_term := fun v => (0%Z, Pro.term v);
  Pro.simplex_outofbounds := fun s =>
    if forallb (fun v => negb (forallb in_range (Pro.term v))) s
    then 1%Z else 0%Z;
  Pro.simplex_collapsed := fun s =>
    match s with
    | [] => 1%Z
    | v :: t =>
        if forallb (fun w => same1 (Pro.term v) (Pro.term w)) t
        then 1%Z else 0%Z
    end;
  Pro.hpoint_init := fun p n =>
    (0%Z, {| Pro.hp_id := Pro.hp_id p;
             Pro.hp_term := resize (Fin 0) (Pro.hp_term p) n |});
  Pro.hpoint_copy := fun dst src => (0%Z, src);
  Pro.HPOINT_INITIALIZER := {| Pro.hp_id := 0; Pro.hp_term := [] |}
|}.

Definition pro_mesg : Pro.hmesg_t :=
  {| Pro.status := Pro.HMESG_STATUS_OK;
     Pro.data_string := Pro.Msg "";
     Pro.fetch_cand := {| Pro.hp_id := 0; Pro.hp_term := [] |};
     Pro.fetch_best := {| Pro.hp_id := 0; Pro.hp_term := [] |};
     Pro.report_cand := {| Pro.hp_id := 0; Pro.hp_term := [] |};
     Pro.report_perf := Fin 0 |}.

(** A report of performance [x] for the candidate [i]. *)
Definition pro_report (i : Z) (x : Q) : Pro.hmesg_t :=
  {| Pro.status := Pro.HMESG_STATUS_OK;
     Pro.data_string := Pro.Msg "";
     Pro.fetch_cand := {| Pro.hp_id := 0; Pro.hp_term := [] |};
     Pro.fetch_best := {| Pro.hp_id := 0; Pro.hp_term := [] |};
     Pro.report_cand := {| Pro.hp_id := i; Pro.hp_term := [] |};
     Pro.report_perf := dbl x |}.

Definition pro_cfg_none : Pro.hcfg := fun _ => None.

(** PRO_EXPAND = 2.0, every other key unset (so the reflect coefficient
    keeps its initial value 1.0). *)
Definition pro_cfg_expand : Pro.hcfg :=
  fun k => match k with
           | Pro.CFGKEY_PRO_EXPAND => Some "2.0"%string
           | _ => None
           end.

(** PRO_REFLECT = 0.5 and PRO_CONTRACT = 5. *)
Definition pro_cfg_contract : Pro.hcfg :=
  fun k => match k with
           | Pro.CFGKEY_PRO_REFLECT => Some "0.5"%string
           | Pro.CFGKEY_PRO_CONTRACT => Some "5"%string
           | _ => None
           end.

(** PRO after [strategy_init] with no key set. *)
Definition pro_booted : Pro.pro :=
  snd (fst (Pro.strategy_init pro_mesg (Pro.pro_start pro_cfg_none))).

Definition pro_F : Pro.op := Pro.Fetch pro_mesg.
Definition pro_R (i : Z) (x : Q) : Pro.op := Pro.Report (pro_report i x).

(** Three rounds: the initial simplex (candidates 1, 2), its reflection
    (3, 4), accepted, and the trial expansion (5, 6), which fails. *)
Definition pro_three_rounds : list Pro.op :=
  [ pro_F; pro_F; pro_R 1 3; pro_R 2 5;
    pro_F; pro_F; pro_R 3 2; pro_R 4 1;
    pro_F; pro_F; pro_R 6 9; pro_R 5 4 ].

(** The state [ops] lead to, from [pro_booted]. *)
Definition pro_state (ops : list Pro.op) : Pro.pro :=
  match Pro.run 5 ops pro_booted with
  | Some (_, g) => g
  | None => pro_booted
  end.

(** PRO_REFLECT = 0.5, every other key unset. *)
Definition pro_cfg_reflect : Pro.hcfg :=
  fun k => match k with
           | Pro.CFGKEY_PRO_REFLECT => Some "0.5"%string
           | _ => None
           end.

(** PRO_INIT_PERCENT = 0.0001: a small initial simplex. *)
Definition pro_cfg_small : Pro.hcfg :=
  fun k => match k with
           | Pro.CFGKEY_PRO_INIT_PERCENT => Some "0.0001"%string
           | _ => None
           end.

(** PRO after [strategy_init] in the session configured by [c]. *)
Definition pro_boot (c : Pro.hcfg) : Pro.pro :=
  snd (fst (Pro.strategy_init pro_mesg (Pro.pro_start c))).

(** The ids [ops] emit and the state they lead to, from [g]. *)
Definition pro_run_from (g : Pro.pro) (ops : list Pro.op)
  : list Z * Pro.pro :=
  match Pro.run 5 ops g with
  | Some r => r
  | None => ([], g)
  end.

(** The state and the message a report leads to. *)
Definition pro_reported (m : Pro.hmesg_t) (g : Pro.pro)
  : Pro.pro * Pro.hmesg_t :=
  match Pro.strategy_report 5 m g with
  | Some (_, g', m') => (g', m')
  | None => (g, m)
  end.

(** *** The session of angel.c *)

Definition angel_vertex (x : double) (v : Angel.vertex_t) : Angel.vertex_t :=
  Angel.set_term [x] v.

Definition angel_fresh : Angel.vertex_t :=
  {| Angel.id := 0; Angel.term := [Fin 0]; Angel.perf := [] |}.

#[export] Instance angel_env : Angel.Env := {|
  Angel.space_len := 1;
  Angel.hcfg_bool := fun c k =>
    match c k with Some s => String.eqb s "True" | None => false end;
  Angel.hcfg_int := fun c k =>
    match c k with Some s => int_of_string s | None => 0%Z end;
  Angel.hcfg_real := fun c k =>
    match c k with
    | Some s => match real_of_string s with Some q => dbl q | None => NaN end
    | None => NaN
    end;
  (* an array value holds no entry when empty, one entry otherwise *)
  Angel.hcfg_arr_len := fun c k =>
    match c k with
    | Some s => if String.eqb s "" then 0%Z else 1%Z
    | None => 0%Z
    end;
  Angel.hcfg_arr_real := fun c k i =>
    match c k with
    | Some s => match real_of_string s with Some q => dbl q | None => NaN end
    | None => NaN
    end;
  (* ln x <= x - 1: a rational stand-in with the sign of ln on (0, 1] *)
  Angel.log := fun x => (x - Fin 1)%D;
  Angel.simplex_init := fun s n => (0%Z, resize angel_fresh s (n + 1));
  Angel.vertex_init := fun v n =>
    (0%Z, Angel.set_term (resize (Fin 0) (Angel.term v) n) v);
  Angel.hperf_init := fun p n => (0%Z, resize NaN p n);
  Angel.hpoint_init := fun p n =>
    (0%Z, {| Angel.hp_id := Angel.hp_id p;
             Angel.hp_term := resize (Fin 0) (Angel.hp_term p) n |});
  Angel.realloc_real := fun l n => Some (resize (Fin 0) l n);
  Angel.realloc_span := fun l n => Some (resize Angel.span0 l n);
  Angel.vertex_minimum := fun v => (0%Z, angel_vertex lo v);
  Angel.vertex_maximum := fun v => (0%Z, angel_vertex hi v);
  Angel.vertex_center := fun v => (0%Z, angel_vertex (Fin 5) v);
  Angel.vertex_parse := fun v s =>
    match real_of_string s with
    | Some q => (0%Z, angel_vertex (dbl q) v)
    | None => ((-1)%Z, v)
    end;
  Angel.vertex_random := fun sd v c =>
    (0%Z, angel_vertex (Fin (inject_Z (sd mod 11))) v, (sd + 1)%Z);
  Angel.vertex_set := fun v h =>
    (0%Z, {| Angel.id := Angel.hp_id h; Angel.term := Angel.hp_term h;
             Angel.perf := Angel.perf v |});
  Angel.vertex_point_term := fun v => (0%Z, Angel.term v);
  Angel.vertex_norm := fun a b => dist1 (Angel.term a) (Angel.term b);
  Angel.vertex_inbounds := fun v => forallb in_range (Angel.term v);
  Angel.simplex_set := fun s c r =>
    let x := nth 0 (Angel.term c) NaN in
    (0%Z, [ angel_vertex (x - r * diameter)%D (Angel.vget s 0);
            angel_vertex (x + r * diameter)%D (Angel.vget s 1) ]);
  Angel.simplex_collapsed := fun s =>
    match s with
    | [] => true
    | v :: t => forallb (fun w => same1 (Angel.term v) (Angel.term w)) t
    end
|}.

(** The configuration after session-core has registered [plugin_keyinfo]:
    the user's value of a key, else the key's default. *)
Definition registered (user : Angel.hcfg) : Angel.hcfg :=
  fun k =>
    match user k with
    | Some s => Some s
    | None =>
        match find (fun kv => if Angel.cfgkey_eq_dec (fst kv) k
                              then true else false) Angel.plugin_keyinfo with
        | Some (_, v) => v
        | None => None
        end
    end.

(** Nothing set by the user: every key at its registered default. *)
Definition angel_unset : Angel.hcfg := registered (fun _ => None).

(** One objective, every key at its default. *)
Definition angel_defaults : Angel.hcfg :=
  registered (fun k =>
    match k with
    | Angel.CFGKEY_PERF_COUNT => Some "1"%string
    | Angel.CFGKEY_ANGEL_LEEWAY => Some ""%string
    | _ => None
    end).

(** One objective, the distance test with DIST_TOL = 0.9, TOL_CNT = 1. *)
Definition angel_dist_tol : Angel.hcfg :=
  registered (fun k =>
    match k with
    | Angel.CFGKEY_PERF_COUNT => Some "1"%string
    | Angel.CFGKEY_ANGEL_LEEWAY => Some ""%string
    | Angel.CFGKEY_DIST_TOL => Some "0.9"%string
    | Angel.CFGKEY_TOL_CNT => Some "1"%string
    | _ => None
    end).

(** Two objectives with leeway 0.5 on the first, and the distance test
    with DIST_TOL = 0.9, TOL_CNT = 1. *)
Definition angel_two : Angel.hcfg :=
  registered (fun k =>
    match k with
    | Angel.CFGKEY_PERF_COUNT => Some "2"%string
    | Angel.CFGKEY_ANGEL_LEEWAY => Some "0.5"%string
    | Angel.CFGKEY_DIST_TOL => Some "0.9"%string
    | Angel.CFGKEY_TOL_CNT => Some "1"%string
    | _ => None
    end).

(** Two objectives with leeway 0.5 on the first, DIST_TOL not set. *)
Definition angel_two_size : Angel.hcfg :=
  registered (fun k =>
    match k with
    | Angel.CFGKEY_PERF_COUNT => Some "2"%string
    | Angel.CFGKEY_ANGEL_LEEWAY => Some "0.5"%string
    | _ => None
    end).

(** One objective, DIST_TOL not set, FVAL_TOL and SIZE_TOL at their
    defaults 0.0001 and 0.005, and a small initial simplex:
    INIT_RADIUS = 0.0001. *)
Definition angel_small : Angel.hcfg :=
  registered (fun k =>
    match k with
    | Angel.CFGKEY_PERF_COUNT => Some "1"%string
    | Angel.CFGKEY_ANGEL_LEEWAY => Some ""%string
    | Angel.CFGKEY_INIT_RADIUS => Some "0.0001"%string
    | _ => None
    end).

Definition angel_flow : Angel.hflow_t :=
  {| Angel.status := Angel.HFLOW_WAIT; Angel.point := Angel.hpoint0 |}.

(** A trial: the candidate [i] measured at [x]. *)
Definition angel_trial (i : Z) (x : list double) : Angel.htrial_t :=
  {| Angel.trial_point := {| Angel.hp_id := i; Angel.hp_term := [] |};
     Angel.trial_perf := x |}.

(** ANGEL after [strategy_alloc] and [strategy_init]. *)
Definition angel_boot (c : Angel.hcfg) : Angel.data_t :=
  snd (Angel.strategy_init (Angel.strategy_alloc c)).

Definition angel_G : Angel.op := Angel.Generate angel_flow Angel.hpoint0.
Definition angel_A (i : Z) (x : Q) : Angel.op :=
  Angel.Analyze (angel_trial i [dbl x]).

Definition angel_A2 (i : Z) (x y : Q) : Angel.op :=
  Angel.Analyze (angel_trial i [dbl x; dbl y]).

(** The state [ops] lead to, from the session configured by [c]. *)
Definition angel_state (c : Angel.hcfg) (ops : list Angel.op) : Angel.data_t :=
  match Angel.run 5 ops (angel_boot c) with
  | Some (_, d) => d
  | None => angel_boot c
  end.

(** The events and the state [ops] lead to from [d]. *)
Definition angel_run_from (d : Angel.data_t) (ops : list Angel.op)
  : list Angel.event * Angel.data_t :=
  match Angel.run 5 ops d with
  | Some r => r
  | None => ([], d)
  end.

(** The state a trial leads to. *)
Definition angel_analyzed (trial : Angel.htrial_t) (d : Angel.data_t)
  : Angel.data_t :=
  match Angel.strategy_analyze 5 trial d with
  | Some (_, d') => d'
  | None => d
  end.

(** The state [check_convergence] is called on when the small simplex
    enters REFLECT: its two vertices measured at 1 and at 1.01, the
    transition taken and the centroid updated, as [nm_algorithm] does. *)
Definition angel_reflect_entry : Angel.data_t :=
  let d := angel_state angel_small [angel_G; angel_A 1 1; angel_G] in
  let trial := angel_trial 2 [Fin (101 # 100)] in
  let d := snd (Angel.analyze_best trial (Angel.measured trial d)) in
  snd (Angel.update_centroid (snd (Angel.nm_state_transition d))).

(** What a rejection answers, and the state it leads to. *)
Definition angel_rejected (flow : Angel.hflow_t) (p : Angel.hpoint_t)
  (d : Angel.data_t) : Z * Angel.data_t * Angel.hflow_t * Angel.hpoint_t :=
  match Angel.strategy_rejected 5 flow p d with
  | Some r => r
  | None => ((-1)%Z, d, flow, p)
  end.

(** The two vertices of the initial simplex, measured at 1 and at 5, and
    the generate that follows. *)
Definition angel_first_reflect : list Angel.op :=
  [ angel_G; angel_A 1 1; angel_G; angel_A 2 5; angel_G ].

End Line.

(* ================================================================= *)
(** * Properties *)

(** ** Facts about doubles *)

Section DblFacts.

Lemma Qltb_true (x y : Q) : Qltb x y = true <-> x < y.
Proof.
  unfold Qltb. destruct (Qlt_le_dec x y) as [H|H]; split; intros H'.
  - exact H.
  - reflexivity.
  - discriminate.
  - exfalso. apply (Qlt_not_le _ _ H'). exact H.
Qed.

Lemma Qltb_false (x y : Q) : Qltb x y = false <-> y <= x.
Proof.
  unfold Qltb. destruct (Qlt_le_dec x y) as [H|H]; split; intros H'.
  - discriminate.
  - exfalso. apply (Qlt_not_le _ _ H). exact H'.
  - exact H.
  - reflexivity.
Qed.

Lemma dlt_irrefl (x : double) : dlt x x = false.
Proof.
  destruct x; simpl; auto. apply Qltb_false. lra.
Qed.

Lemma dlt_dle (x y : double) : dlt x y = true -> dle x y = true.
Proof.
  destruct x, y; simpl; auto; try discriminate.
  intros H. apply Qltb_true in H. apply Qle_bool_iff. lra.
Qed.

Lemma dle_refl (x : double) : isnan x = false -> dle x x = true.
Proof.
  destruct x; simpl; auto. intros _. apply Qle_bool_iff. lra.
Qed.

Lemma dle_trans (x y z : double) :
  dle x y = true -> dle y z = true -> dle x z = true.
Proof.
  destruct x, y, z; simpl; auto; try discriminate.
  rewrite !Qle_bool_iff. intros. lra.
Qed.

Lemma dlt_notnan_l (x y : double) : dlt x y = true -> isnan x = false.
Proof. destruct x, y; simpl; auto; discriminate. Qed.

Lemma dlt_notnan_r (x y : double) : dlt x y = true -> isnan y = false.
Proof. destruct x, y; simpl; auto; discriminate. Qed.

Lemma dlt_asym (x y : double) : dlt x y = true -> dlt y x = false.
Proof.
  destruct x, y; simpl; auto; try discriminate.
  rewrite Qltb_true, Qltb_false. intros. lra.
Qed.

End DblFacts.

(** ** Facts about arrays and loops *)

Section ArrayFacts.
Context {A : Type}.

Lemma upd_nat_length (l : list A) (n : nat) (x : A) :
  length (upd_nat l n x) = length l.
Proof.
  revert n; induction l as [|h t IH]; intros [|n]; simpl; auto.
Qed.

Lemma nth_upd_nat_same (d : A) (l : list A) (n : nat) (x : A) :
  (n < length l)%nat -> nth n (upd_nat l n x) d = x.
Proof.
  revert n; induction l as [|h t IH]; intros [|n]; simpl; intros; try lia; auto.
  apply IH. lia.
Qed.

Lemma nth_upd_nat_other (d : A) (l : list A) (n m : nat) (x : A) :
  n <> m -> nth m (upd_nat l n x) d = nth m l d.
Proof.
  revert n m; induction l as [|h t IH]; intros [|n] [|m]; simpl; intros;
    try lia; auto.
Qed.

Lemma zlen_zset (l : list A) (i : Z) (x : A) : zlen (zset l i x) = zlen l.
Proof.
  unfold zlen, zset. destruct (i <? 0)%Z; auto. now rewrite upd_nat_length.
Qed.

Lemma length_zset (l : list A) (i : Z) (x : A) :
  length (zset l i x) = length l.
Proof.
  unfold zset. destruct (i <? 0)%Z; auto. apply upd_nat_length.
Qed.

Lemma zget_zset_same (d : A) (l : list A) (i : Z) (x : A) :
  (0 <= i < zlen l)%Z -> zget d (zset l i x) i = x.
Proof.
  unfold zget, zset, zlen. intros H.
  destruct (i <? 0)%Z eqn:E; [lia|]. apply nth_upd_nat_same. lia.
Qed.

Lemma zget_zset_other (d : A) (l : list A) (i j : Z) (x : A) :
  i <> j -> zget d (zset l i x) j = zget d l j.
Proof.
  unfold zget, zset. intros H.
  destruct (j <? 0)%Z eqn:Ej; auto.
  destruct (i <? 0)%Z eqn:Ei; auto.
  apply nth_upd_nat_other. lia.
Qed.

End ArrayFacts.

Section LoopFacts.
Context {S : Type}.

(** An invariant of the body is an invariant of the loop. *)
Lemma for_up_inv (P : S -> Prop) (body : Z -> S -> S) :
  (forall i s, P s -> P (body i s)) ->
  forall n from s, P s -> P (for_up n from body s).
Proof.
  intros Hb. induction n as [|n IH]; simpl; intros; auto.
Qed.

Lemma for_lt_inv (P : S -> Prop) (body : Z -> S -> S) (hi : Z) (s : S) :
  (forall i s, P s -> P (body i s)) -> P s -> P (for_lt hi body s).
Proof. intros. unfold for_lt. now apply for_up_inv. Qed.

Lemma for_down_inv (P : S -> Prop) (body : Z -> S -> S) :
  (forall i s, P s -> P (body i s)) ->
  forall n from s, P s -> P (for_down n from body s).
Proof.
  intros Hb. induction n as [|n IH]; simpl; intros; auto.
Qed.

End LoopFacts.

(** ** Rogue reports (C5) *)

Section Rogue.
Import Pro.

Lemma find_id_none (cand_id : Z) (s : simplex_t) :
  forall (n : nat) (i : Z),
  (forall j, (i <= j < i + Z.of_nat n)%Z -> id (vget s j) <> cand_id) ->
  find_id n i cand_id s = (i + Z.of_nat n)%Z.
Proof.
  induction n as [|n IH]; intros i H; simpl find_id.
  - lia.
  - destruct (cand_id =? id (vget s i))%Z eqn:E.
    + apply Z.eqb_eq in E. exfalso. apply (H i); [lia | now symmetry].
    + rewrite IH; [lia|]. intros j Hj. apply H. lia.
Qed.

End Rogue.

(** C5.  A report whose id matches no vertex of the candidate simplex
    leaves every variable of PRO as it was and answers status OK with
    return value 0; a trial whose id is not the id of the vertex
    [data->next] points to makes ANGEL's strategy_analyze return -1 (and
    leaves its state as it was). *)
Theorem C5_rogue_ids
  (EP : Pro.Env) (EA : Angel.Env)
  (fuel : nat) (mesg : Pro.hmesg_t) (g : Pro.pro)
  (trial : Angel.htrial_t) (d : Angel.data_t)
  (Hsize : (0 <= Pro.simplex_size g)%Z)
  (Hrogue : forall i, (0 <= i < Pro.simplex_size g)%Z ->
              Pro.id (Pro.vget (Pro.test g) i)
              <> Pro.hp_id (Pro.report_cand mesg))
  (Hmismatch : Angel.hp_id (Angel.trial_point trial)
               <> Angel.id (Angel.deref d (Angel.next d))) :
  Pro.strategy_report fuel mesg g
  = Some (0%Z, g, Pro.set_status Pro.HMESG_STATUS_OK mesg)
  /\ Angel.strategy_analyze fuel trial d = Some ((-1)%Z, d).
Proof.
  split.
  - unfold Pro.strategy_report.
    rewrite find_id_none.
    + replace (0 + Z.of_nat (Z.to_nat (Pro.simplex_size g)))%Z
        with (Pro.simplex_size g) by lia.
      now rewrite Z.eqb_refl.
    + intros j Hj. apply Hrogue. lia.
  - unfold Angel.strategy_analyze.
    apply Z.eqb_neq in Hmismatch. now rewrite Hmismatch.
Qed.

Section OnTheLineC5.
Import Line.

(** The two hypotheses of C5 hold in the one-dimensional session: after two
    fetches the candidate simplex holds the ids 1 and 2, so a report for
    candidate 7 is rogue; ANGEL's first vertex has not been given an id
    yet, so a trial for candidate 5 is rogue. *)
Lemma C5_rogue_ids_witness :
  Pro.strategy_report 5 (Line.pro_report 7 1)
    (snd (fst (Pro.strategy_fetch Line.pro_mesg
                 (snd (fst (Pro.strategy_fetch Line.pro_mesg
                              Line.pro_booted))))))
  = Some (0%Z,
          snd (fst (Pro.strategy_fetch Line.pro_mesg
                      (snd (fst (Pro.strategy_fetch Line.pro_mesg
                                   Line.pro_booted))))),
          Pro.set_status Pro.HMESG_STATUS_OK (Line.pro_report 7 1))
  /\ Angel.strategy_analyze 5 (Line.angel_trial 5 [Fin 1])
       (Line.angel_boot Line.angel_defaults)
     = Some ((-1)%Z, Line.angel_boot Line.angel_defaults).
Proof.
  apply (@C5_rogue_ids Line.pro_env Line.angel_env).
  - vm_compute. discriminate.
  - intros i Hi. assert (i = 0 \/ i = 1)%Z as [-> | ->].
    { revert Hi. vm_compute. intros [H1 H2].
      destruct i as [|p|p]; auto.
      - destruct p; auto; exfalso; destruct p; discriminate.
      - exfalso. apply H1. reflexivity. }
    + vm_compute. discriminate.
    + vm_compute. discriminate.
  - vm_compute. discriminate.
Defined.

End OnTheLineC5.

(** ** PRO's coefficient checks (C3) *)

(** C3.  PRO_EXPAND = 2.0 is inside its range (greater than 1.0), yet
    strategy_cfg returns -1 with the message of the PRO_EXPAND range: the
    test reads reflect_coefficient, 1.0 here.  And PRO_CONTRACT = 5, outside
    (0,1), is accepted once PRO_REFLECT = 0.5 is inside (0,1). *)
Theorem C3_checks_read_reflect :
  (let '(rc, g, m) :=
     Pro.strategy_cfg (E := Line.pro_env) Line.pro_mesg
       (Pro.pro_start Line.pro_cfg_expand) in
   rc = (-1)%Z
   /\ Pro.data_string m = Pro.Must_be_greater_than_1 Pro.CFGKEY_PRO_EXPAND
   /\ Pro.expand_coefficient g = Fin 2
   /\ Pro.reflect_coefficient g = Fin 1)
  /\
  (let '(rc, g, m) :=
     Pro.strategy_cfg (E := Line.pro_env) Line.pro_mesg
       (Pro.pro_start Line.pro_cfg_contract) in
   rc = 0%Z
   /\ Pro.contract_coefficient g = Fin 5
   /\ Pro.reflect_coefficient g = Fin (1 # 2)).
Proof. vm_compute. repeat split. Qed.

(** ** PRO's trial expansion (C4) *)

(** In EXPAND_ONE, a trial expansion that does not improve sends the
    machine back to REFLECT with [best_base] set to [best_in]. *)
Lemma expand_one_revert (E : Pro.Env) (input : Pro.simplex_t) (best_in : Z)
  (g : Pro.pro) :
  Pro.state g = Pro.SIMPLEX_STATE_EXPAND_ONE ->
  dlt (Pro.perf (Pro.vget input 0))
      (Pro.perf (Pro.vget (Pro.base g) (Pro.best_base g))) = false ->
  Pro.pro_next_state input best_in g
  = (0%Z, Pro.set_state Pro.SIMPLEX_STATE_REFLECT
            (Pro.set_best_base best_in g)).
Proof.
  intros Hs Hp. unfold Pro.pro_next_state. now rewrite Hs, Hp.
Qed.

(** C4.  The run of three rounds: the reflection (candidates 3, 4) is
    accepted with its best at index 1, stashed in [best_stash]; the trial
    expansion (candidates 5, 6) does not improve.  The machine is back in
    REFLECT, but [best_base] is 0, the best index of the trial simplex, not
    the stashed 1, although vertex 1 of the reference simplex is the better
    one. *)
Theorem C4_revert_uses_trial_best :
  exists g,
    Pro.run (E := Line.pro_env) 5 Line.pro_three_rounds Line.pro_booted
    = Some ([1; 2; 3; 4; 5; 6]%Z, g)
    /\ Pro.state g = Pro.SIMPLEX_STATE_REFLECT
    /\ Pro.best_stash g = 1%Z
    /\ Pro.best_base g = 0%Z
    /\ dlt (Pro.perf (Pro.vget (Pro.base g) 1))
           (Pro.perf (Pro.vget (Pro.base g) 0)) = true.
Proof.
  eexists. split; [vm_compute; reflexivity|]. vm_compute. repeat split.
Qed.

(** ** ANGEL's reflection (C1) *)

(** In REFLECT, [nm_next_vertex] makes [data->next] point to the reflect
    vertex, whose coordinates are what vertex_transform computes from the
    centroid and the worst vertex. *)
Lemma reflect_candidate (E : Angel.Env) (d d' : Angel.data_t) :
  Angel.state d = Angel.SIMPLEX_STATE_REFLECT ->
  Angel.nm_next_vertex d = (0%Z, d') ->
  Angel.next d' = Angel.Reflect
  /\ Angel.term (Angel.deref d' (Angel.next d'))
     = Pro.map2 (fun c w => c + Angel.reflect_val d * (w - c))%D
         (Angel.term (Angel.centroid d))
         (Angel.term (Angel.vget (Angel.simplex d) (Angel.index_worst d))).
Proof.
  intros Hs. unfold Angel.nm_next_vertex. rewrite Hs. cbn.
  intros H. injection H as <-. cbn. split; reflexivity.
Qed.


(** ** What the Nelder-Mead step leaves alone *)

(** Splits the goal on the next [if] or [match] of the function at hand. *)
Ltac break :=
  match goal with
  | |- context [match ?x with _ => _ end] =>
      lazymatch x with
      | context [match _ with _ => _ end] => fail
      | _ => destruct x eqn:?
      end
  end.

Section Frame.
Import Angel.
Context {E : Env}.

(** Drops the writes to other fields from under [core].  Each step is a
    fact about an arbitrary state, used by rewriting. *)
Ltac core_strip :=
  repeat match goal with
         | |- context [core (?f ?v ?Y)] =>
             let H := fresh "H" in
             assert (H : forall y, core (f v y) = core y)
               by (intro; reflexivity);
             rewrite (H Y); clear H
         end.

#[local] Arguments assign : simpl never.
#[local] Arguments reset_next_perf : simpl never.
#[local] Arguments update_indices : simpl never.
#[local] Arguments update_centroid : simpl never.
#[local] Arguments make_initial_simplex : simpl never.
#[local] Arguments increment_phase : simpl never.
#[local] Arguments convergence_tests : simpl never.
#[local] Arguments check_convergence : simpl never.
#[local] Arguments nm_state_transition : simpl never.
#[local] Arguments nm_next_vertex : simpl never.
#[local] Arguments nm_step : simpl never.

Lemma core_assign (r : vref) (v : vertex_t) (d : data_t) :
  core (assign r v d) = core d.
Proof. destruct r; reflexivity. Qed.

Lemma core_reset_next_perf (d : data_t) : core (reset_next_perf d) = core d.
Proof. unfold reset_next_perf. apply core_assign. Qed.

Lemma core_update_indices (d : data_t) : core (update_indices d) = core d.
Proof.
  unfold update_indices.
  apply (for_up_inv (fun s => core s = core d)); [|reflexivity].
  intros i s Hs. repeat break; cbn; exact Hs.
Qed.

Lemma core_update_centroid (d : data_t) :
  core (snd (update_centroid d)) = core d.
Proof.
  unfold update_centroid. cbn. apply core_update_indices.
Qed.

Lemma core_make_initial_simplex (d : data_t) :
  core (snd (make_initial_simplex d)) = core d.
Proof.
  unfold make_initial_simplex, andthen. repeat break; cbn; reflexivity.
Qed.

Lemma core_increment_phase (d : data_t) :
  core (snd (increment_phase d)) = core d.
Proof.
  unfold increment_phase, andthen.
  assert (H1 : core (phase_begin (phase_threshold d)) = core d).
  { unfold phase_begin, phase_threshold. break; reflexivity. }
  set (d1 := phase_begin (phase_threshold d)) in *.
  assert (H2 : forall d2, core (phase_reset_best (phase_anchor d2)) = core d2).
  { intros d2. unfold phase_reset_best, phase_anchor. break; reflexivity. }
  destruct (negb (samesimplex d1)).
  - pose proof (core_make_initial_simplex d1) as H3.
    destruct (make_initial_simplex d1) as [rc d2]. cbn in H3.
    destruct (rc =? 0)%Z; cbn; [rewrite H2|]; congruence.
  - cbn. rewrite H2. exact H1.
Qed.

Lemma core_convergence_tests (d : data_t) :
  core (fst (convergence_tests d)) = core d.
Proof.
  unfold convergence_tests. repeat break; cbn; reflexivity.
Qed.

Lemma core_check_convergence (d : data_t) :
  core (check_convergence d) = core d.
Proof.
  unfold check_convergence.
  pose proof (core_convergence_tests d) as H.
  destruct (convergence_tests d) as [d1 conv]. cbn in H.
  destruct conv; [|exact H].
  break; cbn; [exact H|]. now rewrite core_increment_phase.
Qed.

Lemma core_nm_state_transition (d : data_t) :
  core (snd (nm_state_transition d)) = core d.
Proof.
  unfold nm_state_transition.
  repeat break; cbn; core_strip; rewrite ?core_update_centroid; reflexivity.
Qed.

Lemma core_nm_next_vertex (d : data_t) :
  core (snd (nm_next_vertex d)) = core d.
Proof.
  unfold nm_next_vertex, andthen.
  repeat break; cbn; rewrite ?core_reset_next_perf; core_strip; reflexivity.
Qed.

Lemma core_andthen (r : Z * data_t) (k : data_t -> Z * data_t) (d0 : data_t) :
  core (snd r) = core d0 ->
  (forall d, core (snd (k d)) = core d) ->
  core (snd (andthen r k)) = core d0.
Proof.
  intros Hr Hk. unfold andthen. destruct r as [rc d]. cbn in Hr.
  destruct (rc =? 0)%Z; cbn; [rewrite Hk|]; exact Hr.
Qed.

Lemma core_nm_step (d : data_t) : core (snd (nm_step d)) = core d.
Proof.
  unfold nm_step.
  apply core_andthen; [apply core_nm_state_transition|]. intros d1.
  apply core_andthen; [|apply core_nm_next_vertex].
  destruct (state_eqb (state d1) SIMPLEX_STATE_REFLECT); [|reflexivity].
  apply core_andthen; [apply core_update_centroid|]. intros d2.
  cbn. apply core_check_convergence.
Qed.

Lemma core_nm_algorithm (fuel : nat) :
  forall (d : data_t) (rc : Z) (d' : data_t),
  nm_algorithm fuel d = Some (rc, d') -> core d' = core d.
Proof.
  induction fuel as [|fuel IH]; intros d rc d'; simpl; [discriminate|].
  destruct (state_eqb (state d) SIMPLEX_STATE_CONVERGED).
  { intros H; injection H as _ <-. reflexivity. }
  pose proof (core_nm_step d) as H1.
  destruct (nm_step d) as [rc1 d1]. cbn in H1.
  destruct (negb (rc1 =? 0)%Z).
  { intros H; injection H as _ <-. exact H1. }
  destruct (negb (vertex_inbounds (deref d1 (next d1)))).
  - intros H. apply IH in H. congruence.
  - intros H; injection H as _ <-. exact H1.
Qed.

End Frame.

(** ** The blocks of strategy_analyze *)

(** Boolean comparisons of integers as propositions. *)
Ltac zb :=
  rewrite ?andb_true_iff, ?andb_false_iff, ?Z.leb_le, ?Z.ltb_lt, ?Z.leb_gt,
    ?Z.ltb_ge, ?Z.eqb_eq, ?Z.eqb_neq in *.

Section Analyze.
Import Angel.
Context {E : Env}.

#[local] Arguments assign : simpl never.

Lemma deref_assign (d : data_t) (r : vref) (v : vertex_t) :
  valid_ref d r -> deref (assign r v d) r = v.
Proof.
  destruct r; unfold assign; cbn; try tauto; try reflexivity.
  intros H. unfold vget. now apply zget_zset_same.
Qed.

Lemma next_assign (r : vref) (v : vertex_t) (d : data_t) :
  next (assign r v d) = next d.
Proof. destruct r; reflexivity. Qed.

Lemma span_assign (r : vref) (v : vertex_t) (d : data_t) :
  span (assign r v d) = span d.
Proof. destruct r; reflexivity. Qed.

Lemma perf_n_assign (r : vref) (v : vertex_t) (d : data_t) :
  perf_n (assign r v d) = perf_n d.
Proof. destruct r; reflexivity. Qed.

Lemma valid_ref_assign (r r' : vref) (v : vertex_t) (d : data_t) :
  valid_ref d r' -> valid_ref (assign r v d) r'.
Proof.
  destruct r, r'; unfold assign; cbn; auto. now rewrite zlen_zset.
Qed.

(** The measured performance is what [data->next] holds after the copy. *)
Lemma analyze_store_perf (trial : htrial_t) (d : data_t) :
  valid_ref d (next d) ->
  perf (deref (analyze_store trial d) (next (analyze_store trial d)))
  = trial_perf trial.
Proof.
  intros H. unfold analyze_store. rewrite next_assign, deref_assign by exact H.
  reflexivity.
Qed.

Lemma deref_set_span (sp : list span_t) (d : data_t) (r : vref) :
  deref (set_span sp d) r = deref d r.
Proof. destruct r; reflexivity. Qed.

(** The range loop, one objective at a time: the loop started at [from]
    for [n] turns applies [span_step] to the cells [from .. from + n - 1]
    and leaves the others. *)
Lemma span_loop (d0 : data_t) (k : Z) :
  (0 <= k < zlen (span d0))%Z ->
  forall (n : nat) (from : Z) (d : data_t),
  (0 <= from)%Z ->
  deref d (next d) = deref d0 (next d0) ->
  zlen (span d) = zlen (span d0) ->
  let d' :=
    for_up n from
      (fun i d =>
         set_span
           (zset (span d) i
              (span_step (obj (perf (deref d (next d))) i)
                 (zget span0 (span d) i))) d) d in
  zget span0 (span d') k
  = if ((from <=? k) && (k <? from + Z.of_nat n))%Z
    then span_step (obj (perf (deref d0 (next d0))) k) (zget span0 (span d) k)
    else zget span0 (span d) k.
Proof.
  intros Hk. induction n as [|n IH]; intros from d Hfrom Hd Hlen; cbn zeta.
  - simpl for_up.
    destruct ((from <=? k) && (k <? from + Z.of_nat 0))%Z eqn:Hc; auto.
    exfalso. zb. lia.
  - simpl for_up.
    set (d1 := set_span _ d).
    assert (Hd1 : deref d1 (next d1) = deref d0 (next d0)).
    { subst d1. rewrite deref_set_span. exact Hd. }
    assert (Hlen1 : zlen (span d1) = zlen (span d0)).
    { subst d1. cbn. now rewrite zlen_zset. }
    specialize (IH (from + 1)%Z d1 ltac:(lia) Hd1 Hlen1). cbn zeta in IH.
    rewrite IH. clear IH.
    destruct (Z.eq_dec k from) as [->|Hne].
    + replace ((from + 1 <=? from) && (from <? from + 1 + Z.of_nat n))%Z
        with false by (symmetry; zb; lia).
      replace ((from <=? from) && (from <? from + Z.of_nat (S n)))%Z
        with true by (symmetry; zb; lia).
      subst d1. cbn. rewrite zget_zset_same by lia. now rewrite Hd.
    + assert (Hget : zget span0 (span d1) k = zget span0 (span d) k).
      { subst d1. cbn. now rewrite zget_zset_other by lia. }
      rewrite Hget.
      replace ((from + 1 <=? k) && (k <? from + 1 + Z.of_nat n))%Z
        with ((from <=? k) && (k <? from + Z.of_nat (S n)))%Z; [reflexivity|].
      apply eq_true_iff_eq. zb. lia.
Qed.

Lemma analyze_span_at (d : data_t) (k : Z) :
  (0 <= k < perf_n d)%Z -> (k < zlen (span d))%Z ->
  zget span0 (span (analyze_span d)) k
  = span_step (obj (perf (deref d (next d))) k) (zget span0 (span d) k).
Proof.
  intros Hk Hl. unfold analyze_span, for_lt.
  rewrite (span_loop d k ltac:(lia) (Z.to_nat (perf_n d)) 0 d);
    try reflexivity; try lia.
  replace ((0 <=? k) && (k <? 0 + Z.of_nat (Z.to_nat (perf_n d))))%Z
    with true; [reflexivity|].
  symmetry. zb. lia.
Qed.

Lemma span_analyze_penalty (d : data_t) :
  span (analyze_penalty d) = span d.
Proof.
  unfold analyze_penalty. break; [apply span_assign | reflexivity].
Qed.

Lemma span_analyze_best (trial : htrial_t) (d : data_t) :
  span (snd (analyze_best trial d)) = span d.
Proof. unfold analyze_best. break; reflexivity. Qed.

(** After a matched trial, the spans are those the range loop computed. *)
Lemma strategy_analyze_span (fuel : nat) (trial : htrial_t)
  (d d' : data_t) (rc : Z) :
  hp_id (trial_point trial) = id (deref d (next d)) ->
  strategy_analyze fuel trial d = Some (rc, d') ->
  span d' = span (analyze_span (analyze_store trial d)).
Proof.
  intros Hid. unfold strategy_analyze.
  apply Z.eqb_eq in Hid. rewrite Hid. cbn [negb].
  pose proof (span_analyze_best trial
                (analyze_penalty (analyze_span (analyze_store trial d)))) as Hb.
  rewrite span_analyze_penalty in Hb.
  destruct (analyze_best trial _) as [rcb db]. cbn [snd] in Hb.
  destruct (negb (rcb =? 0)%Z).
  { intros H; injection H as _ <-. exact Hb. }
  destruct (nm_algorithm fuel db) as [[rca da]|] eqn:Ha; [|discriminate].
  apply core_nm_algorithm in Ha.
  assert (Hs : span da = span db) by (unfold core in Ha; congruence).
  destruct (negb (rca =? 0)%Z).
  { intros H; injection H as _ <-. congruence. }
  destruct (negb (state_eqb (state da) SIMPLEX_STATE_CONVERGED));
    intros H; injection H as _ <-; cbn; congruence.
Qed.

(** What one step does to the bounds. *)
Lemma span_step_min (x : double) (sp : span_t) :
  min (span_step x sp) = if (x <? min sp)%D then x else min sp.
Proof.
  unfold span_step, dgt. destruct (x <? min sp)%D; cbn; break; reflexivity.
Qed.

Lemma span_step_max (x : double) (sp : span_t) :
  max (span_step x sp)
  = if (max sp <? x)%D && (x <? HUGE_VAL)%D then x else max sp.
Proof.
  unfold span_step, dgt. destruct (x <? min sp)%D; cbn; break; reflexivity.
Qed.

End Analyze.

(** ** The observed spans (C10) *)

(** C10.  After strategy_analyze has taken a trial, the span of every
    objective k is the old one with min lowered to the measured value when
    that is below it, and max raised to the measured value only when that
    is above it and strictly below HUGE_VAL; a measurement of HUGE_VAL
    leaves max as it was. *)
Theorem C10_span_update
  (E : Angel.Env) (fuel : nat) (trial : Angel.htrial_t)
  (d d' : Angel.data_t) (rc k : Z)
  (Hid : Angel.hp_id (Angel.trial_point trial)
         = Angel.id (Angel.deref d (Angel.next d)))
  (Hnext : Angel.valid_ref d (Angel.next d))
  (Hk : (0 <= k < Angel.perf_n d)%Z)
  (Hlen : (k < zlen (Angel.span d))%Z)
  (Hrun : Angel.strategy_analyze fuel trial d = Some (rc, d')) :
  let x := Angel.obj (Angel.trial_perf trial) k in
  let sp := zget Angel.span0 (Angel.span d) k in
  let sp' := zget Angel.span0 (Angel.span d') k in
  Angel.min sp' = (if (x <? Angel.min sp)%D then x else Angel.min sp)
  /\ Angel.max sp'
     = (if (Angel.max sp <? x)%D && (x <? HUGE_VAL)%D
        then x else Angel.max sp)
  /\ (x = HUGE_VAL -> Angel.max sp' = Angel.max sp).
Proof.
  cbn zeta.
  rewrite (strategy_analyze_span fuel trial d d' rc Hid Hrun).
  assert (Hn : Angel.next (Angel.analyze_store trial d) = Angel.next d).
  { unfold Angel.analyze_store. apply next_assign. }
  rewrite analyze_span_at.
  - rewrite analyze_store_perf by exact Hnext.
    assert (Hsp : Angel.span (Angel.analyze_store trial d) = Angel.span d).
    { unfold Angel.analyze_store. apply span_assign. }
    rewrite Hsp, span_step_min, span_step_max.
    repeat split. intros ->. cbn.
    now rewrite andb_false_r.
  - unfold Angel.analyze_store. now rewrite perf_n_assign.
  - unfold Angel.analyze_store. now rewrite span_assign.
Qed.

Section OnTheLineC10.
Import Line.

(** The hypotheses of C10 hold in the one-dimensional session: the second
    vertex of the initial simplex, candidate 2, comes back measured at
    HUGE_VAL after the first was measured at 1. *)
Lemma C10_span_update_witness :
  let d := angel_state angel_defaults [angel_G; angel_A 1 1; angel_G] in
  let trial := angel_trial 2 [HUGE_VAL] in
  let d' := angel_analyzed trial d in
  let x := Angel.obj (Angel.trial_perf trial) 0 in
  let sp := zget Angel.span0 (Angel.span d) 0 in
  let sp' := zget Angel.span0 (Angel.span d') 0 in
  Angel.min sp' = (if (x <? Angel.min sp)%D then x else Angel.min sp)
  /\ Angel.max sp'
     = (if (Angel.max sp <? x)%D && (x <? HUGE_VAL)%D
        then x else Angel.max sp)
  /\ (x = HUGE_VAL -> Angel.max sp' = Angel.max sp).
Proof.
  cbv zeta.
  apply (@C10_span_update angel_env 5 (angel_trial 2 [HUGE_VAL])
           (angel_state angel_defaults [angel_G; angel_A 1 1; angel_G])
           (angel_analyzed (angel_trial 2 [HUGE_VAL])
              (angel_state angel_defaults [angel_G; angel_A 1 1; angel_G]))
           0%Z 0%Z).
  - vm_compute. reflexivity.
  - vm_compute. split; congruence.
  - vm_compute. split; congruence.
  - vm_compute. reflexivity.
  - vm_compute. reflexivity.
Defined.

End OnTheLineC10.

(** ** The best point and the phase *)

Section Tracked.
Import Angel.
Context {E : Env}.

#[local] Arguments assign : simpl never.
#[local] Arguments reset_next_perf : simpl never.
#[local] Arguments update_indices : simpl never.
#[local] Arguments update_centroid : simpl never.
#[local] Arguments make_initial_simplex : simpl never.
#[local] Arguments increment_phase : simpl never.
#[local] Arguments convergence_tests : simpl never.
#[local] Arguments check_convergence : simpl never.
#[local] Arguments nm_state_transition : simpl never.
#[local] Arguments nm_next_vertex : simpl never.
#[local] Arguments nm_step : simpl never.
#[local] Arguments phase_threshold : simpl never.
#[local] Arguments phase_begin : simpl never.
#[local] Arguments phase_anchor : simpl never.
#[local] Arguments phase_reset_best : simpl never.

(** Drops the writes to other fields from under [tracked]. *)
Ltac tracked_strip :=
  repeat match goal with
         | |- context [tracked (?f ?v ?Y)] =>
             let H := fresh "H" in
             assert (H : forall y, tracked (f v y) = tracked y)
               by (intro; reflexivity);
             rewrite (H Y); clear H
         end.

Lemma tracked_assign (r : vref) (v : vertex_t) (d : data_t) :
  tracked (assign r v d) = tracked d.
Proof. destruct r; reflexivity. Qed.

Lemma tracked_reset_next_perf (d : data_t) :
  tracked (reset_next_perf d) = tracked d.
Proof. unfold reset_next_perf. apply tracked_assign. Qed.

Lemma tracked_update_indices (d : data_t) :
  tracked (update_indices d) = tracked d.
Proof.
  unfold update_indices.
  apply (for_up_inv (fun s => tracked s = tracked d)); [|reflexivity].
  intros i s Hs. repeat break; cbn; exact Hs.
Qed.

Lemma tracked_update_centroid (d : data_t) :
  tracked (snd (update_centroid d)) = tracked d.
Proof. unfold update_centroid. cbn. apply tracked_update_indices. Qed.

Lemma tracked_make_initial_simplex (d : data_t) :
  tracked (snd (make_initial_simplex d)) = tracked d.
Proof.
  unfold make_initial_simplex, andthen. repeat break; cbn; reflexivity.
Qed.

Lemma tracked_convergence_tests (d : data_t) :
  tracked (fst (convergence_tests d)) = tracked d.
Proof. unfold convergence_tests. repeat break; cbn; reflexivity. Qed.

Lemma tracked_nm_state_transition (d : data_t) :
  tracked (snd (nm_state_transition d)) = tracked d.
Proof.
  unfold nm_state_transition.
  repeat break; cbn; tracked_strip; rewrite ?tracked_update_centroid;
    tracked_strip; reflexivity.
Qed.

Lemma tracked_nm_next_vertex (d : data_t) :
  tracked (snd (nm_next_vertex d)) = tracked d.
Proof.
  unfold nm_next_vertex, andthen.
  repeat break; cbn; rewrite ?tracked_reset_next_perf; tracked_strip;
    reflexivity.
Qed.

(** *** The relation between the states before and after *)

Lemma hperf_reset_idem (p : hperf_t) : hperf_reset (hperf_reset p) = hperf_reset p.
Proof. unfold hperf_reset. rewrite map_map. reflexivity. Qed.

Lemma phase_rel_refl (d : data_t) : phase_rel d d.
Proof. left. reflexivity. Qed.

Lemma phase_rel_trans (d1 d2 d3 : data_t) :
  phase_rel d1 d2 -> phase_rel d2 d3 -> phase_rel d1 d3.
Proof.
  unfold phase_rel, tracked.
  intros [H12 | (Hp12 & Hb12 & Hi12)] [H23 | (Hp23 & Hb23 & Hi23)].
  - left. congruence.
  - right. injection H12 as Hp Hb Hbp. rewrite <- Hp, <- Hbp. auto.
  - right. injection H23 as Hp Hb Hbp. rewrite Hp, Hbp, Hb. auto.
  - right. repeat split; [lia | | exact Hi23].
    rewrite Hb23, Hb12. apply hperf_reset_idem.
Qed.

Lemma phase_rel_tracked (d d' : data_t) :
  tracked d' = tracked d -> phase_rel d d'.
Proof. intros H. left. exact H. Qed.

Lemma reinit_ok_core (d d' : data_t) :
  core d' = core d -> reinit_ok d -> reinit_ok d'.
Proof.
  unfold core, opts, reinit_ok. intros H [Hs | Hm]; [left | right; exact Hm].
  congruence.
Qed.

Lemma increment_phase_rel (d : data_t) :
  reinit_ok d -> phase_rel d (snd (increment_phase d)).
Proof.
  intros Hre. unfold increment_phase, andthen.
  assert (H1 : tracked (phase_begin (phase_threshold d))
               = ((phase d + 1)%Z, best d, best_perf d)).
  { unfold phase_begin, phase_threshold. break; reflexivity. }
  assert (Hs : samesimplex (phase_begin (phase_threshold d)) = samesimplex d).
  { unfold phase_begin, phase_threshold. break; reflexivity. }
  set (d1 := phase_begin (phase_threshold d)) in *.
  assert (H2 : forall d2,
            phase (phase_reset_best (phase_anchor d2)) = phase d2
            /\ best_perf (phase_reset_best (phase_anchor d2))
               = hperf_reset (best_perf d2)
            /\ hp_id (best (phase_reset_best (phase_anchor d2))) = 0%Z).
  { intros d2. unfold phase_reset_best, phase_anchor.
    break; repeat split; reflexivity. }
  assert (Hfin : forall d2, tracked d2 = tracked d1 ->
                 phase_rel d (phase_reset_best (phase_anchor d2))).
  { intros d2 H. right. destruct (H2 d2) as (Hp2 & Hb2 & Hi2).
    rewrite Hp2, Hb2, Hi2.
    unfold tracked in H, H1. rewrite H1 in H.
    injection H as Hp Hb Hbp. rewrite Hp, Hbp. repeat split. lia. }
  destruct (negb (samesimplex d1)) eqn:Hss.
  - pose proof (tracked_make_initial_simplex d1) as H3.
    assert (Hrc : fst (make_initial_simplex d1) = 0%Z).
    { destruct Hre as [Ht | Hm]; [|apply Hm].
      rewrite Hs, Ht in Hss. discriminate. }
    destruct (make_initial_simplex d1) as [rc d2]. cbn in H3, Hrc. subst rc.
    cbn. apply Hfin. exact H3.
  - cbn. apply Hfin. reflexivity.
Qed.

Lemma check_convergence_rel (d : data_t) :
  reinit_ok d -> phase_rel d (check_convergence d).
Proof.
  intros Hre. unfold check_convergence.
  pose proof (tracked_convergence_tests d) as H.
  pose proof (core_convergence_tests d) as Hc.
  destruct (convergence_tests d) as [d1 conv]. cbn in H, Hc.
  destruct conv; [|left; exact H].
  break.
  - left. cbn. tracked_strip. exact H.
  - apply phase_rel_trans with d1; [left; exact H|].
    apply increment_phase_rel. now apply (reinit_ok_core d).
Qed.

Lemma phase_rel_andthen (r : Z * data_t) (k : data_t -> Z * data_t)
  (d0 : data_t) :
  reinit_ok d0 ->
  core (snd r) = core d0 -> phase_rel d0 (snd r) ->
  (forall d, core (snd (k d)) = core d) ->
  (forall d, reinit_ok d -> phase_rel d (snd (k d))) ->
  core (snd (andthen r k)) = core d0 /\ phase_rel d0 (snd (andthen r k)).
Proof.
  intros Hre Hc Hr Hkc Hk. unfold andthen. destruct r as [rc d]. cbn in Hc, Hr.
  destruct (rc =? 0)%Z; cbn; [|auto].
  split; [rewrite Hkc; exact Hc|].
  apply phase_rel_trans with d; [exact Hr|].
  apply Hk. now apply (reinit_ok_core d0).
Qed.

Lemma nm_step_rel (d : data_t) :
  reinit_ok d -> phase_rel d (snd (nm_step d)).
Proof.
  intros Hre. unfold nm_step.
  apply phase_rel_andthen; auto.
  - apply core_nm_state_transition.
  - left. apply tracked_nm_state_transition.
  - intros d1. apply core_andthen; [|apply core_nm_next_vertex].
    destruct (state_eqb (state d1) SIMPLEX_STATE_REFLECT); [|reflexivity].
    apply core_andthen; [apply core_update_centroid|].
    intros d2. cbn. apply core_check_convergence.
  - intros d1 Hre1. apply phase_rel_andthen; auto.
    + destruct (state_eqb (state d1) SIMPLEX_STATE_REFLECT); [|reflexivity].
      apply core_andthen; [apply core_update_centroid|].
      intros d2. cbn. apply core_check_convergence.
    + destruct (state_eqb (state d1) SIMPLEX_STATE_REFLECT);
        [|apply phase_rel_refl].
      apply phase_rel_andthen; auto.
      * apply core_update_centroid.
      * left. apply tracked_update_centroid.
      * intros d2. cbn. apply core_check_convergence.
      * intros d2 Hre2. cbn. now apply check_convergence_rel.
    + apply core_nm_next_vertex.
    + intros d2 _. left. apply tracked_nm_next_vertex.
Qed.

Lemma nm_algorithm_rel (fuel : nat) :
  forall (d : data_t) (rc : Z) (d' : data_t),
  reinit_ok d -> nm_algorithm fuel d = Some (rc, d') -> phase_rel d d'.
Proof.
  induction fuel as [|fuel IH]; intros d rc d' Hre; simpl; [discriminate|].
  destruct (state_eqb (state d) SIMPLEX_STATE_CONVERGED).
  { intros H; injection H as _ <-. apply phase_rel_refl. }
  pose proof (nm_step_rel d Hre) as H1.
  pose proof (core_nm_step d) as Hc.
  destruct (nm_step d) as [rc1 d1]. cbn in H1, Hc.
  destruct (negb (rc1 =? 0)%Z).
  { intros H; injection H as _ <-. exact H1. }
  destruct (negb (vertex_inbounds (deref d1 (next d1)))).
  - intros H. apply IH in H; [|now apply (reinit_ok_core d)].
    now apply phase_rel_trans with d1.
  - intros H; injection H as _ <-. exact H1.
Qed.


(** *** The blocks of strategy_analyze *)

Lemma tracked_measured (trial : htrial_t) (d : data_t) :
  tracked (measured trial d) = tracked d.
Proof.
  unfold measured.
  assert (H1 : tracked (analyze_store trial d) = tracked d).
  { unfold analyze_store. apply tracked_assign. }
  assert (H2 : forall d0, tracked (analyze_span d0) = tracked d0).
  { intros d0. unfold analyze_span.
    apply (for_lt_inv (fun s => tracked s = tracked d0)); [|reflexivity].
    intros i s Hs. exact Hs. }
  assert (H3 : forall d0, tracked (analyze_penalty d0) = tracked d0).
  { intros d0. unfold analyze_penalty. break; [apply tracked_assign|reflexivity]. }
  now rewrite H3, H2.
Qed.

Lemma opts_assign (r : vref) (v : vertex_t) (d : data_t) :
  opts (assign r v d) = opts d.
Proof. destruct r; reflexivity. Qed.

Lemma opts_measured (trial : htrial_t) (d : data_t) :
  opts (measured trial d) = opts d.
Proof.
  unfold measured.
  assert (H1 : opts (analyze_store trial d) = opts d).
  { unfold analyze_store. apply opts_assign. }
  assert (H2 : forall d0, opts (analyze_span d0) = opts d0).
  { intros d0. unfold analyze_span.
    apply (for_lt_inv (fun s => opts s = opts d0)); [|reflexivity].
    intros i s Hs. exact Hs. }
  assert (H3 : forall d0, opts (analyze_penalty d0) = opts d0).
  { intros d0. unfold analyze_penalty. break; [apply opts_assign|reflexivity]. }
  now rewrite H3, H2.
Qed.

Lemma reinit_ok_opts (d d' : data_t) :
  opts d' = opts d -> reinit_ok d -> reinit_ok d'.
Proof.
  unfold opts, reinit_ok. intros H [Hs | Hm]; [left | right; exact Hm].
  congruence.
Qed.

Lemma opts_analyze_best (trial : htrial_t) (d : data_t) :
  opts (snd (analyze_best trial d)) = opts d.
Proof. unfold analyze_best. break; reflexivity. Qed.

Lemma zget_in_range (l : hperf_t) (i : Z) :
  isnan (obj l i) = false -> (0 <= i < zlen l)%Z.
Proof.
  unfold obj, zget, zlen. destruct (i <? 0)%Z eqn:Hi; [discriminate|].
  intros H. apply Z.ltb_ge in Hi.
  destruct (Nat.lt_ge_cases (Z.to_nat i) (length l)) as [Hlt | Hge]; [lia|].
  rewrite nth_overflow in H by exact Hge. discriminate.
Qed.

(** The update of the best point: with a best value that is a number, the
    new best value is no greater, is not above the value just analysed, and
    is a number again. *)
Lemma analyze_best_spec (trial : htrial_t) (m : data_t) :
  zlen (best_perf m) <> 0%Z ->
  isnan (best_value m) = false ->
  let db := snd (analyze_best trial m) in
  phase db = phase m
  /\ dle (best_value db) (best_value m) = true
  /\ dlt (obj (perf (deref m (next m))) (phase m)) (best_value db) = false
  /\ zlen (best_perf db) <> 0%Z
  /\ isnan (best_value db) = false.
Proof.
  intros Hlen Hnan. cbn zeta. unfold analyze_best, best_value in *.
  apply Z.eqb_neq in Hlen. rewrite Hlen. cbn [orb].
  destruct (obj (best_perf m) (phase m)
            >? obj (perf (deref m (next m))) (phase m))%D eqn:Hgt; cbn.
  - unfold dgt in Hgt. repeat split.
    + now apply dlt_dle.
    + apply dlt_irrefl.
    + pose proof (dlt_notnan_l _ _ Hgt) as Hx.
      apply zget_in_range in Hx. lia.
    + now apply dlt_notnan_l in Hgt.
  - unfold dgt in Hgt. repeat split; auto.
    + now apply dle_refl.
    + now apply Z.eqb_neq.
Qed.

Lemma nth_hperf_reset (p : hperf_t) :
  forall n : nat, (n < length p)%nat -> nth n (hperf_reset p) NaN = PInf.
Proof.
  induction p as [|x p IH]; intros [|n] H; simpl in *; try lia; auto.
  apply IH. lia.
Qed.

Lemma obj_hperf_reset (p : hperf_t) (k : Z) :
  (0 <= k < zlen (hperf_reset p))%Z -> obj (hperf_reset p) k = PInf.
Proof.
  unfold obj, zget, zlen. intros H.
  assert (Hl : length (hperf_reset p) = length p).
  { unfold hperf_reset. apply length_map. }
  destruct (k <? 0)%Z eqn:Hk; [lia|].
  apply nth_hperf_reset. lia.
Qed.

Lemma zlen_hperf_reset (p : hperf_t) : zlen (hperf_reset p) = zlen p.
Proof. unfold zlen, hperf_reset. now rewrite length_map. Qed.

Lemma dlt_false_dle (v b1 b2 : double) :
  dlt v b1 = false -> dle b2 b1 = true -> dlt v b2 = false.
Proof.
  destruct v, b1, b2; simpl; auto; try discriminate.
  rewrite !Qltb_false, Qle_bool_iff. intros. lra.
Qed.

(** One call of strategy_analyze on a matched trial. *)
Lemma analyze_step (fuel : nat) (trial : htrial_t) (d d' : data_t) (rc : Z) :
  hp_id (trial_point trial) = id (deref d (next d)) ->
  reinit_ok d ->
  zlen (best_perf d) <> 0%Z ->
  isnan (best_value d) = false ->
  strategy_analyze fuel trial d = Some (rc, d') ->
  (phase d' = phase d
   /\ dle (best_value d') (best_value d) = true
   /\ dlt (analysed_value trial d) (best_value d') = false
   /\ zlen (best_perf d') <> 0%Z
   /\ isnan (best_value d') = false)
  \/ ((phase d < phase d')%Z
      /\ (forall k, (0 <= k < zlen (best_perf d'))%Z ->
                    obj (best_perf d') k = PInf)
      /\ hp_id (best d') = 0%Z
      /\ zlen (best_perf d') <> 0%Z).
Proof.
  intros Hid Hre Hlen Hnan. unfold strategy_analyze.
  apply Z.eqb_eq in Hid. rewrite Hid. cbn [negb].
  pose proof (tracked_measured trial d) as Hm.
  pose proof (opts_measured trial d) as Hom.
  unfold analysed_value. cbn zeta.
  set (m := measured trial d) in *.
  assert (Hpm : phase m = phase d) by (unfold tracked in Hm; congruence).
  assert (Hbm : best_perf m = best_perf d) by (unfold tracked in Hm; congruence).
  assert (Hlm : zlen (best_perf m) <> 0%Z) by (now rewrite Hbm).
  assert (Hnm : isnan (best_value m) = false).
  { unfold best_value in *. now rewrite Hbm, Hpm. }
  pose proof (analyze_best_spec trial m Hlm Hnm) as Hb. cbn zeta in Hb.
  pose proof (opts_analyze_best trial m) as Hob.
  destruct (analyze_best trial m) as [rcb db]. cbn [snd] in Hb, Hob.
  destruct Hb as (Hp & Hle & Hlow & Hl & Hn).
  assert (Hsame : forall d1, tracked d1 = tracked db ->
            phase d1 = phase d
            /\ dle (best_value d1) (best_value d) = true
            /\ dlt (obj (perf (deref m (next m))) (phase d)) (best_value d1)
               = false
            /\ zlen (best_perf d1) <> 0%Z
            /\ isnan (best_value d1) = false).
  { intros d1 H. unfold tracked in H. injection H as H1 H2 H3.
    unfold best_value in Hle, Hlow, Hn |- *.
    rewrite Hp, Hpm in Hle, Hlow, Hn. rewrite Hbm in Hle.
    rewrite H3, H1, Hp, Hpm. repeat split; auto. }
  destruct (negb (rcb =? 0)%Z).
  { intros H; injection H as _ <-. left. now apply Hsame. }
  destruct (nm_algorithm fuel db) as [[rca da]|] eqn:Ha; [|discriminate].
  assert (Hrdb : reinit_ok db).
  { apply (reinit_ok_opts m); [exact Hob|].
    now apply (reinit_ok_opts d). }
  pose proof (nm_algorithm_rel fuel db rca da Hrdb Ha) as Hrel.
  assert (Hfin : forall d1, tracked d1 = tracked da ->
            (phase d1 = phase d
             /\ dle (best_value d1) (best_value d) = true
             /\ dlt (obj (perf (deref m (next m))) (phase d)) (best_value d1)
                = false
             /\ zlen (best_perf d1) <> 0%Z
             /\ isnan (best_value d1) = false)
            \/ ((phase d < phase d1)%Z
                /\ (forall k, (0 <= k < zlen (best_perf d1))%Z ->
                              obj (best_perf d1) k = PInf)
                /\ hp_id (best d1) = 0%Z
                /\ zlen (best_perf d1) <> 0%Z)).
  { intros d1 H1. destruct Hrel as [Ht | (Hlt & Hbp & Hi)].
    - left. apply Hsame. congruence.
    - right. unfold tracked in H1. injection H1 as H1p H1b H1bp.
      rewrite H1p, H1bp, H1b. repeat split.
      + lia.
      + intros k Hk. rewrite Hbp in *. now apply obj_hperf_reset.
      + exact Hi.
      + rewrite Hbp, zlen_hperf_reset. exact Hl. }
  destruct (negb (rca =? 0)%Z).
  { intros H; injection H as _ <-. now apply Hfin. }
  destruct (negb (state_eqb (state da) SIMPLEX_STATE_CONVERGED));
    intros H; injection H as _ <-; now apply Hfin.
Qed.

(** The phase never goes back, and re-initialisation stays possible. *)
Lemma analyze_phase_le (fuel : nat) (trial : htrial_t) (d d' : data_t)
  (rc : Z) :
  reinit_ok d ->
  strategy_analyze fuel trial d = Some (rc, d') ->
  (phase d <= phase d')%Z /\ reinit_ok d'.
Proof.
  intros Hre. unfold strategy_analyze.
  destruct (negb (hp_id (trial_point trial) =? id (deref d (next d)))%Z).
  { intros H; injection H as _ <-. split; [lia | exact Hre]. }
  pose proof (tracked_measured trial d) as Hm.
  pose proof (opts_measured trial d) as Hom.
  set (m := measured trial d) in *.
  assert (Hb : tracked (snd (analyze_best trial m))
               = (phase m, best (snd (analyze_best trial m)),
                  best_perf (snd (analyze_best trial m)))).
  { unfold analyze_best. break; reflexivity. }
  pose proof (opts_analyze_best trial m) as Hob.
  destruct (analyze_best trial m) as [rcb db]. cbn [snd] in Hb, Hob.
  assert (Hpb : phase db = phase d).
  { unfold tracked in Hb, Hm. congruence. }
  assert (Hrdb : reinit_ok db).
  { apply (reinit_ok_opts m); [exact Hob|]. now apply (reinit_ok_opts d). }
  destruct (negb (rcb =? 0)%Z).
  { intros H; injection H as _ <-. split; [lia | exact Hrdb]. }
  destruct (nm_algorithm fuel db) as [[rca da]|] eqn:Ha; [|discriminate].
  pose proof (nm_algorithm_rel fuel db rca da Hrdb Ha) as Hrel.
  pose proof (core_nm_algorithm fuel db rca da Ha) as Hc.
  assert (Hpa : (phase d <= phase da)%Z).
  { destruct Hrel as [Ht | (Hlt & _)]; [unfold tracked in Ht|]; [|lia].
    injection Ht as Ht _ _. lia. }
  assert (Hra : reinit_ok da) by (now apply (reinit_ok_core db)).
  destruct (negb (rca =? 0)%Z).
  { intros H; injection H as _ <-. auto. }
  destruct (negb (state_eqb (state da) SIMPLEX_STATE_CONVERGED));
    intros H; injection H as _ <-; auto.
Qed.

Lemma generate_tracked (flow : hflow_t) (point : hpoint_t) (d : data_t) :
  let '(_, d', _, _) := strategy_generate flow point d in
  tracked d' = tracked d /\ opts d' = opts d.
Proof.
  unfold strategy_generate.
  destruct (id (deref d (next d)) =? next_id d)%Z; [auto|].
  destruct (vertex_point _ point) as [rc p].
  destruct (negb (rc =? 0)%Z); split;
    first [apply tracked_assign | apply opts_assign].
Qed.

Lemma run_phase_le (fuel : nat) (ops : list op) :
  forall (d d' : data_t) (evs : list event),
  reinit_ok d -> run fuel ops d = Some (evs, d') ->
  (phase d <= phase d')%Z /\ reinit_ok d'.
Proof.
  induction ops as [|o ops IH]; intros d d' evs Hre; simpl.
  { intros H; injection H as _ <-. split; [lia | exact Hre]. }
  destruct o as [flow point | trial].
  - pose proof (generate_tracked flow point d) as Hg.
    destruct (strategy_generate flow point d) as [[[rc d1] f1] p1].
    destruct Hg as [Ht Ho].
    destruct (run fuel ops d1) as [[evs1 d2]|] eqn:Hr; [|discriminate].
    intros H; injection H as _ <-.
    apply IH in Hr; [|now apply (reinit_ok_opts d)]. destruct Hr as [Hr1 Hr2].
    unfold tracked in Ht. injection Ht as Hp _ _. split; [lia | exact Hr2].
  - destruct (strategy_analyze fuel trial d) as [[rc d1]|] eqn:Ha;
      [|discriminate].
    apply analyze_phase_le in Ha; [|exact Hre]. destruct Ha as [Hp Hre1].
    destruct (run fuel ops d1) as [[evs1 d2]|] eqn:Hr; [|discriminate].
    intros H; injection H as _ <-.
    apply IH in Hr; [|exact Hre1]. destruct Hr as [Hr1 Hr2].
    split; [lia | exact Hr2].
Qed.

(** Along a run that stays in one phase, the best value never goes up and
    ends not above any value analysed. *)
Lemma run_best (fuel : nat) (ops : list op) :
  forall (d d' : data_t) (evs : list event),
  reinit_ok d ->
  zlen (best_perf d) <> 0%Z ->
  isnan (best_value d) = false ->
  run fuel ops d = Some (evs, d') ->
  phase d' = phase d ->
  dle (best_value d') (best_value d) = true
  /\ isnan (best_value d') = false
  /\ Forall (fun v => dlt v (best_value d') = false) (analysed fuel ops d).
Proof.
  induction ops as [|o ops IH]; intros d d' evs Hre Hlen Hnan; simpl.
  { intros H _; injection H as _ <-. repeat split; auto.
    now apply dle_refl. }
  destruct o as [flow point | trial].
  - pose proof (generate_tracked flow point d) as Hg.
    destruct (strategy_generate flow point d) as [[[rc d1] f1] p1].
    destruct Hg as [Ht Ho].
    unfold tracked in Ht. injection Ht as Hp Hb Hbp.
    destruct (run fuel ops d1) as [[evs1 d2]|] eqn:Hr; [|discriminate].
    intros H Hph; injection H as _ <-.
    assert (Hbv : best_value d1 = best_value d).
    { unfold best_value. now rewrite Hbp, Hp. }
    rewrite <- Hbv.
    apply (IH d1 d2 evs1); auto.
    + now apply (reinit_ok_opts d).
    + now rewrite Hbp.
    + now rewrite Hbv.
    + congruence.
  - destruct (strategy_analyze fuel trial d) as [[rc d1]|] eqn:Ha;
      [|discriminate].
    destruct (run fuel ops d1) as [[evs1 d2]|] eqn:Hr; [|discriminate].
    intros H Hph; injection H as _ <-.
    pose proof (analyze_phase_le fuel trial d d1 rc Hre Ha) as [Hp1 Hre1].
    pose proof (run_phase_le fuel ops d1 d2 evs1 Hre1 Hr) as [Hp2 _].
    destruct (hp_id (trial_point trial) =? id (deref d (next d)))%Z eqn:Hid.
    + apply Z.eqb_eq in Hid.
      destruct (analyze_step fuel trial d d1 rc Hid Hre Hlen Hnan Ha)
        as [(Hp & Hle & Hlow & Hl & Hn) | (Hlt & _)]; [|lia].
      destruct (IH d1 d2 evs1 Hre1 Hl Hn Hr ltac:(congruence))
        as (Hle2 & Hn2 & Hall).
      repeat split; auto.
      * now apply dle_trans with (best_value d1).
      * cbn. constructor; [|exact Hall].
        now apply dlt_false_dle with (best_value d1).
    + assert (Hd1 : d1 = d).
      { unfold strategy_analyze in Ha. rewrite Hid in Ha. cbn in Ha.
        now injection Ha as _ <-. }
      subst d1. cbn. apply (IH d d2 evs1); auto.
Qed.

End Tracked.

(** ** The best point of a phase (C7) *)


Section OnTheLineC7.
Import Line.


End OnTheLineC7.

(** ** The penalty (C2) *)

Section FiniteDoubles.

Lemma fin_val_Fin (q : Q) : fin_val (Fin q) q.
Proof. exists q. split; [reflexivity | apply Qeq_refl]. Qed.

Lemma fin_val_ext (x : double) (a b : Q) :
  fin_val x a -> a == b -> fin_val x b.
Proof.
  intros (q & -> & Hq) Hab. exists q. split; [reflexivity|].
  now rewrite Hq.
Qed.

Lemma fin_val_add (x y : double) (a b : Q) :
  fin_val x a -> fin_val y b -> fin_val (x + y)%D (a + b).
Proof.
  intros (p & -> & Hp) (q & -> & Hq). exists (Qred (p + q)).
  split; [reflexivity|]. now rewrite Qred_correct, Hp, Hq.
Qed.

Lemma fin_val_sub (x y : double) (a b : Q) :
  fin_val x a -> fin_val y b -> fin_val (x - y)%D (a - b).
Proof.
  intros (p & -> & Hp) (q & -> & Hq). exists (Qred (p + Qred (- q))).
  split; [reflexivity|]. rewrite !Qred_correct, Hp, Hq. reflexivity.
Qed.

Lemma fin_val_mul (x y : double) (a b : Q) :
  fin_val x a -> fin_val y b -> fin_val (x * y)%D (a * b).
Proof.
  intros (p & -> & Hp) (q & -> & Hq). exists (Qred (p * q)).
  split; [reflexivity|]. now rewrite Qred_correct, Hp, Hq.
Qed.

Lemma fin_val_div (x y : double) (a b : Q) :
  fin_val x a -> fin_val y b -> ~ b == 0 -> fin_val (x / y)%D (a / b).
Proof.
  intros (p & -> & Hp) (q & -> & Hq) Hb. exists (Qred (p / q)).
  split.
  - simpl. unfold Qzerob. destruct (Qeq_bool q 0) eqn:Hz; [|reflexivity].
    apply Qeq_bool_iff in Hz. exfalso. apply Hb. now rewrite <- Hq.
  - now rewrite Qred_correct, Hp, Hq.
Qed.

Lemma fin_val_gt (x y : double) (a b : Q) :
  fin_val x a -> fin_val y b -> ((x >? y)%D = true <-> b < a).
Proof.
  intros (p & -> & Hp) (q & -> & Hq). unfold dgt. simpl.
  rewrite Qltb_true, Hp, Hq. reflexivity.
Qed.

(** Two finite doubles of the same value give the same product. *)
Lemma dmul_fin_val (x y z : double) (a : Q) :
  fin_val x a -> fin_val y a -> (x * z)%D = (y * z)%D.
Proof.
  intros (p & -> & Hp) (q & -> & Hq).
  assert (Hpq : p == q) by now rewrite Hp, Hq.
  destruct z as [| | |r]; cbn [dmul]; try reflexivity.
  - unfold Qzerob.
    replace (Qeq_bool q 0) with (Qeq_bool p 0).
    2:{ apply eq_true_iff_eq. rewrite !Qeq_bool_iff, Hpq. reflexivity. }
    replace (Qltb q 0) with (Qltb p 0); [reflexivity|].
    apply eq_true_iff_eq. rewrite !Qltb_true, Hpq. reflexivity.
  - unfold Qzerob.
    replace (Qeq_bool q 0) with (Qeq_bool p 0).
    2:{ apply eq_true_iff_eq. rewrite !Qeq_bool_iff, Hpq. reflexivity. }
    replace (Qltb q 0) with (Qltb p 0); [reflexivity|].
    apply eq_true_iff_eq. rewrite !Qltb_true, Hpq. reflexivity.
  - unfold dmul. f_equal. apply Qred_complete. now rewrite Hpq.
Qed.

End FiniteDoubles.

Section Penalty.
Import Angel.
Context {E : Env}.

(** The logarithm of a value in (0, 1] is finite and not positive. *)
Hypothesis log_unit :
  forall q : Q, 0 < q -> q <= 1 -> exists r : Q, log (Fin q) = Fin r /\ r <= 0.

Lemma penalty_step_eq (d : data_t) (i : Z) (pen base : double) :
  penalty_step d i (pen, base)
  = (if violated d i
     then ((if negb (loose d) then pen + base else pen) + soft d i)%D
     else pen,
     (base * Fin 2)%D).
Proof. reflexivity. Qed.

(** The soft component of a violated objective is finite and positive. *)
Lemma soft_pos (d : data_t) (k : Z) :
  violated d k = true -> regular d k ->
  exists s : Q, fin_val (soft d k) s /\ 0 < s.
Proof.
  intros Hv (x & t & M & Hx & Ht & HM & Hle).
  unfold violated in Hv. rewrite Hx, Ht in Hv.
  apply (fin_val_gt (Fin x) (Fin t) x t (fin_val_Fin x) (fin_val_Fin t)) in Hv.
  unfold soft. cbv zeta. rewrite Hx, Ht, HM.
  assert (Hne : ~ M - t == 0) by (intros H0; lra).
  destruct (fin_val_div (Fin x - Fin t)%D (Fin M - Fin t)%D (x - t) (M - t)
              (fin_val_sub _ _ _ _ (fin_val_Fin x) (fin_val_Fin t))
              (fin_val_sub _ _ _ _ (fin_val_Fin M) (fin_val_Fin t)) Hne)
    as (f & Hf & Hfq).
  rewrite Hf.
  assert (Hf0 : 0 < f).
  { rewrite Hfq. apply Qlt_shift_div_l; lra. }
  assert (Hf1 : f <= 1).
  { rewrite Hfq. apply Qle_shift_div_r; lra. }
  destruct (log_unit f Hf0 Hf1) as (r & Hr & Hr0). rewrite Hr.
  assert (Hne1 : ~ 1 - r == 0) by (intros H0; lra).
  exists (1 / (1 - r)). split.
  - apply fin_val_div; [apply fin_val_Fin | | exact Hne1].
    apply fin_val_sub; apply fin_val_Fin.
  - apply Qlt_shift_div_l; lra.
Qed.


Lemma pow2_step (j : Z) :
  (0 <= j)%Z -> inject_Z (2 ^ j) * 2 == inject_Z (2 ^ (j + 1)).
Proof.
  intros Hj. rewrite Z.pow_add_r by lia. change (2 ^ 1)%Z with 2%Z.
  rewrite inject_Z_mult. reflexivity.
Qed.

(** The loop of the code and the sum of the formula, turn by turn: both
    hold the same finite value, positive as soon as an objective is
    violated. *)
Lemma penalty_fold (d : data_t) :
  (forall k, (0 <= k < phase d)%Z -> violated d k = true -> regular d k) ->
  forall (n : nat) (from : Z) (pen base acc : double) (a : Q),
    Z.of_nat n = (from + 1)%Z ->
    (from < phase d)%Z ->
    fin_val pen a -> fin_val acc a -> 0 <= a ->
    fin_val base (inject_Z (2 ^ (phase d - 1 - from))) ->
    exists b : Q,
      fin_val (fst (for_down n from (penalty_step d) (pen, base))) b
      /\ fin_val (fold_left dadd (map (penalty_term d) (countdown n from)) acc) b
      /\ a <= b
      /\ (existsb (violated d) (countdown n from) = true -> 0 < b)
      /\ (existsb (violated d) (countdown n from) = false -> b == a).
Proof.
  intros Hreg. induction n as [|n IH];
    intros from pen base acc a Hn Hfrom Hpen Hacc Ha Hbase.
  - exists a. simpl. repeat split; auto; try lra; try discriminate.
  - cbn [for_down countdown map fold_left existsb].
    rewrite penalty_step_eq.
    assert (Hbase' : fin_val (base * Fin 2)%D
                       (inject_Z (2 ^ (phase d - 1 - (from - 1))))).
    { replace (phase d - 1 - (from - 1))%Z with (phase d - 1 - from + 1)%Z
        by lia.
      apply (fin_val_ext _ (inject_Z (2 ^ (phase d - 1 - from)) * 2)).
      - apply fin_val_mul; [exact Hbase | apply fin_val_Fin].
      - apply pow2_step. lia. }
    assert (Hterm : penalty_term d from
                    = if violated d from
                      then (soft d from
                            + (if loose d then Fin 0
                               else base_weight (phase d) from))%D
                      else Fin 0) by reflexivity.
    rewrite Hterm. clear Hterm.
    destruct (violated d from) eqn:Hv.
    + destruct (soft_pos d from Hv (Hreg from ltac:(lia) Hv)) as (s & Hs & Hs0).
      destruct (loose d) eqn:Hl; cbn [negb].
      * destruct (IH (from - 1)%Z (pen + soft d from)%D (base * Fin 2)%D
                    (acc + (soft d from + Fin 0))%D (a + s)
                    ltac:(lia) ltac:(lia))
          as (b & Hb1 & Hb2 & Hb3 & Hb4 & Hb5); auto.
        -- now apply fin_val_add.
        -- apply (fin_val_ext _ (a + (s + 0))); [|ring].
           apply fin_val_add; [exact Hacc|].
           apply fin_val_add; [exact Hs | apply fin_val_Fin].
        -- lra.
        -- exists b. repeat split; auto; try lra; try discriminate.
      * set (w := inject_Z (2 ^ (phase d - 1 - from))) in *.
        assert (Hw : 0 <= w).
        { subst w. change 0 with (inject_Z 0). rewrite <- Zle_Qle.
          apply Z.pow_nonneg. lia. }
        destruct (IH (from - 1)%Z (pen + base + soft d from)%D
                    (base * Fin 2)%D
                    (acc + (soft d from + base_weight (phase d) from))%D
                    (a + w + s) ltac:(lia) ltac:(lia))
          as (b & Hb1 & Hb2 & Hb3 & Hb4 & Hb5); auto.
        -- apply fin_val_add; [|exact Hs]. now apply fin_val_add.
        -- apply (fin_val_ext _ (a + (s + w))); [|ring].
           apply fin_val_add; [exact Hacc|].
           apply fin_val_add; [exact Hs | apply fin_val_Fin].
        -- lra.
        -- exists b. repeat split; auto; try lra; try discriminate.
    + destruct (IH (from - 1)%Z pen (base * Fin 2)%D (acc + Fin 0)%D a
                  ltac:(lia) ltac:(lia))
        as (b & Hb1 & Hb2 & Hb3 & Hb4 & Hb5); auto.
      * apply (fin_val_ext _ (a + 0)); [|ring].
        apply fin_val_add; [exact Hacc | apply fin_val_Fin].
      * exists b. repeat split; auto.
Qed.

(** The loop computes the sum of the penalty terms; it is positive exactly
    when an objective of higher priority is violated. *)
Lemma penalty_loop_spec (d : data_t) :
  (0 <= phase d)%Z ->
  (forall k, (0 <= k < phase d)%Z -> violated d k = true -> regular d k) ->
  exists b : Q,
    fin_val (penalty_loop d) b
    /\ fin_val (Pro.dsum (map (penalty_term d) (priorities (phase d)))) b
    /\ ((penalty_loop d >? Fin 0)%D = any_violated d).
Proof.
  intros Hp Hreg.
  destruct (penalty_fold d Hreg (Z.to_nat (phase d)) (phase d - 1)
              (Fin 0) (Fin 1) (Fin 0) 0)
    as (b & Hb1 & Hb2 & Hb3 & Hb4 & Hb5);
    try apply fin_val_Fin; try lia; try lra.
  { replace (phase d - 1 - (phase d - 1))%Z with 0%Z by lia.
    apply fin_val_Fin. }
  exists b. split; [exact Hb1|]. split; [exact Hb2|].
  unfold any_violated, priorities.
  apply eq_true_iff_eq.
  rewrite (fin_val_gt _ _ b 0 Hb1 (fin_val_Fin 0)).
  destruct (existsb (violated d) (countdown (Z.to_nat (phase d)) (phase d - 1))).
  - split; auto.
  - split; [|discriminate]. intros H. specialize (Hb5 eq_refl). lra.
Qed.


#[local] Arguments assign : simpl never.

(** What [analyze_penalty] leaves in [obj[phase]] of the measured vertex. *)
Lemma analyze_penalty_spec (d : data_t) :
  valid_ref d (next d) ->
  (0 <= phase d < zlen (perf (deref d (next d))))%Z ->
  (forall k, (0 <= k < phase d)%Z -> violated d k = true -> regular d k) ->
  obj (perf (deref (analyze_penalty d) (next (analyze_penalty d)))) (phase d)
  = penalised_spec d.
Proof.
  intros Hnext Hp Hreg.
  destruct (penalty_loop_spec d ltac:(lia) Hreg) as (b & Hb1 & Hb2 & Hgt).
  unfold analyze_penalty, penalised_spec. cbv zeta. rewrite Hgt.
  destruct (any_violated d); [|reflexivity].
  rewrite next_assign, deref_assign by exact Hnext.
  cbn [perf set_perf]. unfold obj at 1. rewrite zget_zset_same by exact Hp.
  f_equal. f_equal. unfold penalty_spec.
  destruct (loose d).
  - apply (dmul_fin_val _ _ _ (b + 1));
      (apply fin_val_add; [assumption | apply fin_val_Fin]).
  - apply (dmul_fin_val _ _ _ b); [exact Hb1|].
    apply (fin_val_ext _ (b + 0)); [|ring].
    apply fin_val_add; [exact Hb2 | apply fin_val_Fin].
Qed.

(** The range loop writes the spans only. *)
Lemma analyze_span_frame (d : data_t) :
  next (analyze_span d) = next d
  /\ (forall r, deref (analyze_span d) r = deref d r)
  /\ thresh (analyze_span d) = thresh d
  /\ phase (analyze_span d) = phase d
  /\ simplex (analyze_span d) = simplex d.
Proof.
  unfold analyze_span.
  apply (for_lt_inv
           (fun s => next s = next d
                     /\ (forall r, deref s r = deref d r)
                     /\ thresh s = thresh d
                     /\ phase s = phase d
                     /\ simplex s = simplex d)).
  - intros i s (H1 & H2 & H3 & H4 & H5). repeat split; try assumption;
      intros r; rewrite deref_set_span; apply H2.
  - repeat split.
Qed.

Lemma analyze_store_frame (trial : htrial_t) (d : data_t) :
  thresh (analyze_store trial d) = thresh d
  /\ phase (analyze_store trial d) = phase d
  /\ span (analyze_store trial d) = span d
  /\ perf_n (analyze_store trial d) = perf_n d.
Proof.
  unfold analyze_store. destruct (next d); repeat split.
Qed.

(** Once the trial is stored and the ranges are updated, the objectives
    the trial violates are penalised on finite data. *)
Lemma measured_regular (trial : htrial_t) (d : data_t) (k : Z) :
  valid_ref d (next d) ->
  (0 <= k < perf_n d)%Z -> (k < zlen (span d))%Z ->
  isfinite (obj (trial_perf trial) k) = true ->
  isfinite (zget NaN (thresh d) k) = true ->
  (max (zget span0 (span d) k) <? HUGE_VAL)%D = true ->
  regular (analyze_span (analyze_store trial d)) k.
Proof.
  intros Hnext Hk Hlen Hx Ht HM.
  destruct (analyze_span_frame (analyze_store trial d))
    as (Hn & Hd & Hth & _ & _).
  destruct (analyze_store_frame trial d) as (Hth' & _ & Hsp & Hpn).
  unfold regular.
  rewrite Hn, Hd, analyze_store_perf, Hth, Hth' by exact Hnext.
  rewrite analyze_span_at by (rewrite ?Hpn, ?Hsp; lia).
  rewrite analyze_store_perf, Hsp, span_step_max by exact Hnext.
  destruct (obj (trial_perf trial) k) as [| | |x]; try discriminate.
  destruct (zget NaN (thresh d) k) as [| | |t]; try discriminate.
  destruct (max (zget span0 (span d) k)) as [| | |M]; try discriminate.
  - exists x, t, x. cbn. repeat split. lra.
  - cbn. rewrite andb_true_r. destruct (Qltb M x) eqn:HMx.
    + exists x, t, x. repeat split. lra.
    + exists x, t, M. repeat split. now apply Qltb_false.
Qed.

End Penalty.


Section OnTheLineC2.
Import Line.


End OnTheLineC2.

(** ** The convergence tests (C6) *)

Section Tolerances.
Import Angel.
Context {E : Env}.

#[local] Arguments assign : simpl never.

Lemma andthen_inv (P : data_t -> Prop) (r : Z * data_t)
  (k : data_t -> Z * data_t) :
  P (snd r) -> (forall d, P d -> P (snd (k d))) -> P (snd (andthen r k)).
Proof.
  intros Hr Hk. unfold andthen. destruct r as [rc d]. cbn in Hr.
  destruct (rc =? 0)%Z; cbn; auto.
Qed.

Lemma for_up_rc_inv (P : data_t -> Prop) (body : Z -> data_t -> Z * data_t) :
  (forall i d, P d -> P (snd (body i d))) ->
  forall n from d, P d -> P (snd (for_up_rc n from body d)).
Proof.
  intros Hb. induction n as [|n IH]; intros from d Hd; simpl; auto.
  apply andthen_inv; auto.
Qed.

(** A block that writes neither field. *)
Ltac frame_block :=
  let H1 := fresh "H" in
  let H2 := fresh "H" in
  intros [H1 H2]; unfold andthen; repeat break; cbn; split; assumption.

Lemma untouched_cfg_flags (c : hcfg) (d : data_t) :
  untouched c d -> untouched c (snd (cfg_flags d)).
Proof. unfold cfg_flags. frame_block. Qed.

Lemma untouched_cfg_init_radius (c : hcfg) (d : data_t) :
  untouched c d -> untouched c (snd (cfg_init_radius d)).
Proof. unfold cfg_init_radius. frame_block. Qed.

Lemma untouched_cfg_reject_method (c : hcfg) (d : data_t) :
  untouched c d -> untouched c (snd (cfg_reject_method d)).
Proof. unfold cfg_reject_method. frame_block. Qed.

Lemma untouched_cfg_reflect (c : hcfg) (d : data_t) :
  untouched c d -> untouched c (snd (cfg_reflect d)).
Proof. unfold cfg_reflect. frame_block. Qed.

Lemma untouched_cfg_expand (c : hcfg) (d : data_t) :
  untouched c d -> untouched c (snd (cfg_expand d)).
Proof. unfold cfg_expand. frame_block. Qed.

Lemma untouched_cfg_contract (c : hcfg) (d : data_t) :
  untouched c d -> untouched c (snd (cfg_contract d)).
Proof. unfold cfg_contract. frame_block. Qed.

Lemma untouched_cfg_shrink (c : hcfg) (d : data_t) :
  untouched c d -> untouched c (snd (cfg_shrink d)).
Proof. unfold cfg_shrink. frame_block. Qed.

Lemma untouched_cfg_perf_count (c : hcfg) (d : data_t) :
  untouched c d -> untouched c (snd (cfg_perf_count d)).
Proof. unfold cfg_perf_count. frame_block. Qed.

Lemma untouched_cfg_space_size (c : hcfg) (d : data_t) :
  untouched c d -> untouched c (snd (cfg_space_size d)).
Proof. unfold cfg_space_size. frame_block. Qed.


Lemma untouched_init_simplex_perfs (c : hcfg) (d : data_t) :
  untouched c d -> untouched c (snd (init_simplex_perfs d)).
Proof.
  unfold init_simplex_perfs. apply for_up_rc_inv. intros i s. frame_block.
Qed.

Lemma untouched_simplex_perfs (c : hcfg) (d : data_t) :
  untouched c d -> untouched c (snd (simplex_perfs d)).
Proof.
  unfold simplex_perfs. apply for_up_rc_inv. intros i s. frame_block.
Qed.

Lemma untouched_allocate_structures (c : hcfg) (d : data_t) :
  untouched c d -> untouched c (snd (allocate_structures d)).
Proof.
  intros H. unfold allocate_structures.
  apply andthen_inv; [revert H; frame_block|]. clear d H. intros d H.
  apply andthen_inv; [now apply untouched_init_simplex_perfs|].
  clear d H. intros d H.
  apply andthen_inv; [revert H; frame_block|]. clear d H. intros d H.
  apply andthen_inv; [now apply untouched_simplex_perfs|].
  clear d H. intros d H.
  apply andthen_inv; [revert H; frame_block|]. clear d H. intros d H.
  apply andthen_inv; [revert H; frame_block|]. clear d H. intros d H.
  apply andthen_inv; [revert H; frame_block|]. clear d H. intros d H.
  apply andthen_inv; [revert H; frame_block|]. clear d H. intros d H.
  apply andthen_inv; [revert H; frame_block|]. clear d H. intros d H.
  revert H. frame_block.
Qed.

(** With DIST_TOL not set, [config_strategy] takes the size/fval branch,
    which does not write [dist_tol]. *)
Lemma untouched_cfg_tolerances (c : hcfg) (d : data_t) :
  isnan (hcfg_real c CFGKEY_DIST_TOL) = true ->
  untouched c d -> untouched c (snd (cfg_tolerances d)).
Proof.
  intros Hnan [H1 H2]. unfold cfg_tolerances. rewrite H2, Hnan. cbn [negb].
  repeat break; cbn; split; assumption.
Qed.

Lemma untouched_cfg_leeway (c : hcfg) (d : data_t) :
  untouched c d -> untouched c (snd (cfg_leeway d)).
Proof.
  intros H. unfold cfg_leeway. repeat break; try exact H.
  apply for_up_rc_inv; [|exact H]. intros i d'. frame_block.
Qed.

Lemma untouched_cfg_span (c : hcfg) (d : data_t) :
  untouched c d -> untouched c (snd (cfg_span d)).
Proof.
  intros H. unfold cfg_span. cbn [snd].
  apply (for_lt_inv (untouched c)); [|exact H].
  intros i s Hs. exact Hs.
Qed.

Lemma untouched_config_strategy (c : hcfg) (d : data_t) :
  isnan (hcfg_real c CFGKEY_DIST_TOL) = true ->
  untouched c d -> untouched c (snd (config_strategy d)).
Proof.
  intros Hnan H. unfold config_strategy.
  apply andthen_inv; [now apply untouched_cfg_flags|]. clear d H. intros d H.
  apply andthen_inv; [now apply untouched_cfg_init_radius|].
  clear d H. intros d H.
  apply andthen_inv; [now apply untouched_cfg_reject_method|].
  clear d H. intros d H.
  apply andthen_inv; [now apply untouched_cfg_reflect|]. clear d H. intros d H.
  apply andthen_inv; [now apply untouched_cfg_expand|]. clear d H. intros d H.
  apply andthen_inv; [now apply untouched_cfg_contract|].
  clear d H. intros d H.
  apply andthen_inv; [now apply untouched_cfg_shrink|]. clear d H. intros d H.
  apply andthen_inv; [now apply untouched_cfg_perf_count|].
  clear d H. intros d H.
  apply andthen_inv; [now apply untouched_allocate_structures|].
  clear d H. intros d H.
  apply andthen_inv; [now apply untouched_cfg_space_size|].
  clear d H. intros d H.
  apply andthen_inv; [now apply untouched_cfg_tolerances|].
  clear d H. intros d H.
  apply andthen_inv; [now apply untouched_cfg_leeway|].
  clear d H. intros d H.
  now apply untouched_cfg_span.
Qed.

(** With DIST_TOL not set, [dist_tol] is 0.0 after [strategy_init]. *)
Lemma dist_tol_unset (c : hcfg) :
  isnan (hcfg_real c CFGKEY_DIST_TOL) = true ->
  dist_tol (snd (strategy_init (strategy_alloc c))) = Fin 0.
Proof.
  intros Hnan. unfold strategy_init.
  apply (andthen_inv (fun d => dist_tol d = Fin 0)).
  { apply (untouched_config_strategy c); [exact Hnan|]. split; reflexivity. }
  intros d H.
  assert (Hopts : forall d', opts d' = opts d -> dist_tol d' = Fin 0).
  { intros d' Hd'. unfold opts in Hd'. congruence. }
  apply Hopts. clear Hopts H.
  assert (Hcore : forall d1 d2, core d1 = core d2 -> opts d1 = opts d2).
  { intros d1 d2 Hc. unfold core in Hc. congruence. }
  apply (andthen_inv (fun d' => opts d' = opts d)).
  { apply Hcore, core_make_initial_simplex. }
  intros d1 H1.
  apply (andthen_inv (fun d' => opts d' = opts d)).
  { rewrite (Hcore _ _ (core_increment_phase _)).
    assert (Hset : forall x y d', opts (set_next_id x (set_session_cfg y d'))
                                  = opts d') by (intros; reflexivity).
    rewrite Hset. exact H1. }
  intros d2 H2.
  apply (andthen_inv (fun d' => opts d' = opts d)).
  { rewrite (Hcore _ _ (core_nm_next_vertex _)). exact H2. }
  intros d3 H3. exact H3.
Qed.

(** A session never writes the options after [strategy_init]. *)
Lemma opts_strategy_analyze (fuel : nat) (trial : htrial_t)
  (d d' : data_t) (rc : Z) :
  strategy_analyze fuel trial d = Some (rc, d') -> opts d' = opts d.
Proof.
  unfold strategy_analyze.
  destruct (negb (hp_id (trial_point trial) =? id (deref d (next d)))%Z).
  { intros H; injection H as _ <-. reflexivity. }
  pose proof (opts_measured trial d) as Hm.
  pose proof (opts_analyze_best trial (measured trial d)) as Hb.
  destruct (analyze_best trial (measured trial d)) as [rcb db].
  cbn [snd] in Hb.
  destruct (negb (rcb =? 0)%Z).
  { intros H; injection H as _ <-. congruence. }
  destruct (nm_algorithm fuel db) as [[rca da]|] eqn:Ha; [|discriminate].
  apply core_nm_algorithm in Ha.
  assert (Ho : opts da = opts db) by (unfold core in Ha; congruence).
  assert (Hs : forall x y, opts (set_next_id x y) = opts y)
    by (intros; reflexivity).
  destruct (negb (rca =? 0)%Z).
  { intros H; injection H as _ <-. congruence. }
  destruct (negb (state_eqb (state da) SIMPLEX_STATE_CONVERGED));
    intros H; injection H as _ <-; rewrite ?Hs; congruence.
Qed.

Lemma opts_run (fuel : nat) (ops : list op) :
  forall (d d' : data_t) (evs : list event),
  run fuel ops d = Some (evs, d') -> opts d' = opts d.
Proof.
  induction ops as [|o ops IH]; intros d d' evs; simpl.
  { intros H; injection H as _ <-. reflexivity. }
  destruct o as [flow point | trial].
  - pose proof (generate_tracked flow point d) as Hg.
    destruct (strategy_generate flow point d) as [[[rc d1] f1] p1].
    destruct Hg as [_ Ho].
    destruct (run fuel ops d1) as [[evs1 d2]|] eqn:Hr; [|discriminate].
    intros H; injection H as _ <-. apply IH in Hr. congruence.
  - destruct (strategy_analyze fuel trial d) as [[rc d1]|] eqn:Ha;
      [|discriminate].
    apply opts_strategy_analyze in Ha.
    destruct (run fuel ops d1) as [[evs1 d2]|] eqn:Hr; [|discriminate].
    intros H; injection H as _ <-. apply IH in Hr. congruence.
Qed.

(** When [dist_tol] is not NaN, the outcome of the tests is that of the
    flatness, collapse and distance tests: [fval_err] and [size_max] are
    not looked at. *)
Lemma convergence_tests_dist (d : data_t) :
  isnan (dist_tol d) = false ->
  snd (convergence_tests d)
  = (flat d && (flat_cnt d + 1 >=? 3)%Z)
    || simplex_collapsed (simplex d)
    || ((move_len d <? dist_tol d)%D && (cnt d + 1 >=? tol_cnt d)%Z).
Proof.
  intros Hnan. unfold convergence_tests. cbv zeta.
  destruct (flat d); cbn.
  - destruct (flat_cnt d + 1 >=? 3)%Z; cbn; [reflexivity|].
    destruct (simplex_collapsed (simplex d)); cbn; [reflexivity|].
    rewrite Hnan. cbn.
    destruct (move_len d <? dist_tol d)%D; cbn; [|reflexivity].
    destruct (cnt d + 1 >=? tol_cnt d)%Z; reflexivity.
  - destruct (simplex_collapsed (simplex d)); cbn; [reflexivity|].
    rewrite Hnan. cbn.
    destruct (move_len d <? dist_tol d)%D; cbn; [|reflexivity].
    destruct (cnt d + 1 >=? tol_cnt d)%Z; reflexivity.
Qed.

(** With DIST_TOL not set, in every state of the session's options the
    size/fval test is never reached: a simplex that is neither flat nor
    collapsed does not converge. *)
Lemma size_test_unreachable (c : hcfg) (fuel : nat) (ops : list op)
  (evs : list event) (d d' : data_t) :
  isnan (hcfg_real c CFGKEY_DIST_TOL) = true ->
  run fuel ops (snd (strategy_init (strategy_alloc c))) = Some (evs, d) ->
  opts d' = opts d ->
  flat d' = false ->
  simplex_collapsed (simplex d') = false ->
  (move_len d' <? Fin 0)%D = false ->
  snd (convergence_tests d') = false.
Proof.
  intros Hnan Hrun Ho Hflat Hcol Hmove.
  apply opts_run in Hrun.
  pose proof (dist_tol_unset c Hnan) as H0.
  assert (Hd : dist_tol d' = Fin 0).
  { unfold opts in Ho, Hrun. congruence. }
  rewrite convergence_tests_dist by (rewrite Hd; reflexivity).
  rewrite Hflat, Hcol, Hd, Hmove. reflexivity.
Qed.


Lemma convergence_tests_state (d : data_t) :
  state (fst (convergence_tests d)) = state d
  /\ phase (fst (convergence_tests d)) = phase d.
Proof.
  unfold convergence_tests. repeat break; cbn; split; reflexivity.
Qed.

End Tolerances.

(** C6.  With DIST_TOL not set, in any state of a session whose simplex is
    neither flat nor collapsed, [check_convergence] does not converge the
    phase although fval_err < fval_tol and size_max < size_tol: dist_tol
    is 0.0, not NaN, and the size/fval test is not reached. *)
Theorem C6_size_test_unreachable
  (E : Angel.Env) (c : Angel.hcfg) (fuel : nat) (ops : list Angel.op)
  (evs : list Angel.event) (d d' : Angel.data_t)
  (Hunset : isnan (Angel.hcfg_real c Angel.CFGKEY_DIST_TOL) = true)
  (Hrun : Angel.run fuel ops (snd (Angel.strategy_init (Angel.strategy_alloc c)))
          = Some (evs, d))
  (Hopts : Angel.opts d' = Angel.opts d)
  (Hflat : Angel.flat d' = false)
  (Hcol : Angel.simplex_collapsed (Angel.simplex d') = false)
  (Hmove : (Angel.move_len d' <? Fin 0)%D = false)
  (Hfval : (Angel.fval_err d' <? Angel.fval_tol d')%D = true)
  (Hsize : (Angel.size_max d' <? Angel.size_tol d')%D = true) :
  isnan (Angel.dist_tol d') = false
  /\ snd (Angel.convergence_tests d') = false
  /\ Angel.state (Angel.check_convergence d') = Angel.state d'
  /\ Angel.phase (Angel.check_convergence d') = Angel.phase d'.
Proof.
  pose proof (size_test_unreachable c fuel ops evs d d' Hunset Hrun Hopts
                Hflat Hcol Hmove) as Hconv.
  split.
  { apply opts_run in Hrun. pose proof (dist_tol_unset c Hunset) as H0.
    assert (Hd : Angel.dist_tol d' = Fin 0).
    { unfold Angel.opts in Hopts, Hrun. congruence. }
    now rewrite Hd. }
  split; [exact Hconv|].
  unfold Angel.check_convergence.
  destruct (convergence_tests_state d') as [Hs Hp].
  destruct (Angel.convergence_tests d') as [d2 conv]. cbn [fst snd] in *.
  subst conv. auto.
Qed.

Section OnTheLineC6.
Import Line.

(** The hypotheses of C6 hold in the one-dimensional session with a small
    initial simplex and the default tolerances: on entry into REFLECT,
    fval_err = 0.00005 < 0.0001 and size_max = 0.002 < 0.05. *)
Lemma C6_size_test_unreachable_witness :
  (Angel.fval_err angel_reflect_entry
   <? Angel.fval_tol angel_reflect_entry)%D = true
  /\ (Angel.size_max angel_reflect_entry
      <? Angel.size_tol angel_reflect_entry)%D = true
  /\ isnan (Angel.dist_tol angel_reflect_entry) = false
  /\ snd (Angel.convergence_tests angel_reflect_entry) = false
  /\ Angel.state (Angel.check_convergence angel_reflect_entry)
     = Angel.state angel_reflect_entry
  /\ Angel.phase (Angel.check_convergence angel_reflect_entry)
     = Angel.phase angel_reflect_entry.
Proof.
  split; [vm_compute; reflexivity|]. split; [vm_compute; reflexivity|].
  apply (@C6_size_test_unreachable angel_env angel_small 5
           [angel_G; angel_A 1 1; angel_G]
           (fst (angel_run_from (angel_boot angel_small)
                   [angel_G; angel_A 1 1; angel_G]))
           (angel_state angel_small [angel_G; angel_A 1 1; angel_G])
           angel_reflect_entry).
  - vm_compute. reflexivity.
  - vm_compute. reflexivity.
  - vm_compute. reflexivity.
  - vm_compute. reflexivity.
  - vm_compute. reflexivity.
  - vm_compute. reflexivity.
  - vm_compute. reflexivity.
  - vm_compute. reflexivity.
Defined.

End OnTheLineC6.

(** ** After convergence (C9) *)

Section Converged.
Import Angel.
Context {E : Env}.

#[local] Arguments assign : simpl never.

Lemma same_outstanding_refl (d : data_t) : same_outstanding d d.
Proof. repeat split. Qed.

Lemma same_outstanding_trans (d1 d2 d3 : data_t) :
  same_outstanding d1 d2 -> same_outstanding d2 d3 -> same_outstanding d1 d3.
Proof.
  unfold same_outstanding. intros (A1 & A2 & A3 & A4 & A5) (B1 & B2 & B3 & B4 & B5).
  repeat split; congruence.
Qed.

Lemma valid_ref_same (d d' : data_t) :
  same_outstanding d d' -> valid_ref d (next d) -> valid_ref d' (next d').
Proof.
  intros (_ & H2 & _ & H4 & _). rewrite H2.
  destruct (next d); cbn; auto. now rewrite H4.
Qed.

(** Writing the performance of the outstanding vertex. *)
Lemma same_outstanding_perf (d : data_t) (p : hperf_t) :
  valid_ref d (next d) ->
  same_outstanding d
    (assign (next d) (set_perf p (deref d (next d))) d).
Proof.
  intros Hv. unfold same_outstanding.
  rewrite next_assign, deref_assign by exact Hv.
  repeat split; destruct (next d); unfold assign; cbn;
    rewrite ?zlen_zset; reflexivity.
Qed.

Lemma same_outstanding_span (d : data_t) :
  same_outstanding d (analyze_span d).
Proof.
  unfold analyze_span.
  apply (for_lt_inv (same_outstanding d)); [|apply same_outstanding_refl].
  intros i s (H1 & H2 & H3 & H4 & H5). unfold same_outstanding.
  rewrite deref_set_span. cbn. repeat split; assumption.
Qed.

Lemma same_outstanding_measured (trial : htrial_t) (d : data_t) :
  valid_ref d (next d) -> same_outstanding d (measured trial d).
Proof.
  intros Hv. unfold measured.
  assert (H1 : same_outstanding d (analyze_store trial d)).
  { unfold analyze_store. now apply same_outstanding_perf. }
  assert (H2 : same_outstanding d (analyze_span (analyze_store trial d))).
  { eapply same_outstanding_trans; [exact H1|apply same_outstanding_span]. }
  eapply same_outstanding_trans; [exact H2|].
  set (d2 := analyze_span (analyze_store trial d)) in *.
  unfold analyze_penalty. break; [|apply same_outstanding_refl].
  apply same_outstanding_perf. now apply (valid_ref_same d).
Qed.

Lemma same_outstanding_best (trial : htrial_t) (d : data_t) :
  same_outstanding d (snd (analyze_best trial d)).
Proof.
  unfold analyze_best, same_outstanding.
  repeat break; cbn; repeat split; destruct (next d); reflexivity.
Qed.


(** In CONVERGED, a trial is stored and nothing else happens: the loop of
    [nm_algorithm] is left at once, and [next_id] is not incremented. *)
Lemma converged_analyze (fuel : nat) (trial : htrial_t) (d : data_t) :
  fuel <> 0%nat ->
  state d = SIMPLEX_STATE_CONVERGED ->
  valid_ref d (next d) ->
  exists rc d',
    strategy_analyze fuel trial d = Some (rc, d') /\ same_outstanding d d'.
Proof.
  intros Hfuel Hst Hv. unfold strategy_analyze.
  destruct (negb (hp_id (trial_point trial) =? id (deref d (next d)))%Z).
  { exists (-1)%Z, d. split; [reflexivity | apply same_outstanding_refl]. }
  pose proof (same_outstanding_measured trial d Hv) as Hm.
  pose proof (same_outstanding_best trial (measured trial d)) as Hb.
  destruct (analyze_best trial (measured trial d)) as [rcb db].
  cbn [snd] in Hb.
  pose proof (same_outstanding_trans _ _ _ Hm Hb) as Hdb.
  destruct (negb (rcb =? 0)%Z).
  { exists (-1)%Z, db. split; [reflexivity | exact Hdb]. }
  assert (Hsb : state db = SIMPLEX_STATE_CONVERGED).
  { destruct Hdb as (H1 & _). congruence. }
  destruct fuel as [|fuel]; [contradiction|].
  cbn [nm_algorithm]. rewrite Hsb. cbn. rewrite Hsb. cbn.
  exists 0%Z, db. split; [reflexivity | exact Hdb].
Qed.

(** A generate tags the outstanding vertex with [next_id]; when it is
    tagged already, the call returns WAIT and writes nothing. *)
Lemma converged_generate (flow : hflow_t) (point : hpoint_t) (d : data_t) :
  valid_ref d (next d) ->
  let '(rc, d', flow', point') := strategy_generate flow point d in
  state d' = state d
  /\ next d' = next d
  /\ next_id d' = next_id d
  /\ zlen (simplex d') = zlen (simplex d)
  /\ id (deref d' (next d')) = next_id d
  /\ (emitted [generate_event rc flow' point' d'] = []
      \/ emitted [generate_event rc flow' point' d'] = [next_id d])
  /\ (id (deref d (next d)) = next_id d ->
      generate_event rc flow' point' d' = Wait).
Proof.
  intros Hv. unfold strategy_generate.
  destruct (id (deref d (next d)) =? next_id d)%Z eqn:Hid.
  { apply Z.eqb_eq in Hid. repeat split; auto. }
  apply Z.eqb_neq in Hid.
  unfold vertex_point.
  destruct (vertex_point_term (set_id (next_id d) (deref d (next d))))
    as [rc t].
  assert (Hfacts :
    forall d', d' = assign (next d) (set_id (next_id d) (deref d (next d))) d ->
    state d' = state d /\ next d' = next d /\ next_id d' = next_id d
    /\ zlen (simplex d') = zlen (simplex d)
    /\ id (deref d' (next d')) = next_id d).
  { intros d' ->. rewrite next_assign, deref_assign by exact Hv.
    repeat split; destruct (next d); unfold assign; cbn;
      rewrite ?zlen_zset; reflexivity. }
  destruct (negb (rc =? 0)%Z) eqn:Hrc;
    destruct (Hfacts _ eq_refl) as (H1 & H2 & H3 & H4 & H5);
    (split; [exact H1|]); (split; [exact H2|]); (split; [exact H3|]);
    (split; [exact H4|]); (split; [exact H5|]);
    (split; [|intros; contradiction]).
  - left. reflexivity.
  - right. reflexivity.
Qed.


Lemma emitted_cons (e : event) (evs : list event) :
  emitted (e :: evs) = emitted [e] ++ emitted evs.
Proof. destruct e; reflexivity. Qed.

(** A session continued from CONVERGED. *)
Lemma converged_run (fuel : nat) (Hfuel : fuel <> 0%nat) :
  forall (ops : list op) (d : data_t),
  state d = SIMPLEX_STATE_CONVERGED ->
  valid_ref d (next d) ->
  exists evs d',
    run fuel ops d = Some (evs, d')
    /\ state d' = SIMPLEX_STATE_CONVERGED
    /\ next_id d' = next_id d
    /\ (emitted evs = [] \/ emitted evs = [next_id d])
    /\ (id (deref d (next d)) = next_id d ->
        emitted evs = []
        /\ forall j f p, nth_error ops j = Some (Generate f p) ->
                         nth_error evs j = Some Wait)
    /\ (forall i j f p f' p',
          (i < j)%nat ->
          nth_error ops i = Some (Generate f p) ->
          nth_error ops j = Some (Generate f' p') ->
          nth_error evs j = Some Wait).
Proof.
  induction ops as [|o ops IH]; intros d Hst Hv.
  { exists [], d. cbn.
    split; [reflexivity|]. split; [exact Hst|]. split; [reflexivity|].
    split; [now left|]. split.
    - intros _. split; [reflexivity|].
      intros j f p Hj. destruct j; discriminate.
    - intros i j f p f' p' _ Hi. destruct i; discriminate. }
  destruct o as [flow point | trial].
  - cbn [run].
    pose proof (converged_generate flow point d Hv) as Hg.
    destruct (strategy_generate flow point d) as [[[rc d1] f1] p1].
    destruct Hg as (G1 & G2 & G3 & G4 & G5 & G6 & G7).
    assert (Hv1 : valid_ref d1 (next d1)).
    { rewrite G2. destruct (next d); cbn in *; auto. now rewrite G4. }
    destruct (IH d1 ltac:(congruence) Hv1)
      as (evs & d2 & Hrun & R1 & R2 & R3 & R4 & R5).
    rewrite Hrun.
    exists (generate_event rc f1 p1 d1 :: evs), d2.
    destruct (R4 ltac:(congruence)) as [R4a R4b].
    split; [reflexivity|]. split; [exact R1|]. split; [congruence|].
    split; [|split].
    + rewrite emitted_cons, R4a, app_nil_r. exact G6.
    + intros Hid. specialize (G7 Hid). split.
      * rewrite emitted_cons, R4a, app_nil_r, G7. reflexivity.
      * intros j f p Hj. destruct j as [|j]; cbn in *.
        -- now rewrite G7.
        -- now apply (R4b j f p).
    + intros i j f p f' p' Hij Hi Hj.
      destruct j as [|j]; [lia|]. cbn in Hj |- *.
      destruct i as [|i].
      * now apply (R4b j f' p').
      * cbn in Hi. apply (R5 i j f p f' p'); auto. lia.
  - cbn [run].
    destruct (converged_analyze fuel trial d Hfuel Hst Hv)
      as (rc & d1 & Ha & Hso).
    rewrite Ha.
    pose proof (valid_ref_same d d1 Hso Hv) as Hv1.
    destruct Hso as (S1 & S2 & S3 & S4 & S5).
    destruct (IH d1 ltac:(congruence) Hv1)
      as (evs & d2 & Hrun & R1 & R2 & R3 & R4 & R5).
    rewrite Hrun.
    exists (Analyzed rc :: evs), d2.
    split; [reflexivity|]. split; [exact R1|]. split; [congruence|].
    split; [|split].
    + cbn [emitted]. rewrite <- S3. exact R3.
    + intros Hid. destruct (R4 ltac:(congruence)) as [R4a R4b].
      split; [exact R4a|].
      intros j f p Hj. destruct j as [|j]; [discriminate|].
      cbn in *. now apply (R4b j f p).
    + intros i j f p f' p' Hij Hi Hj.
      destruct i as [|i]; [discriminate|].
      destruct j as [|j]; [lia|]. cbn in *.
      apply (R5 i j f p f' p'); auto. lia.
Qed.

End Converged.

(** C9.  Once the machine is CONVERGED, [nm_next_vertex] makes data->next
    point to the best simplex vertex, and every session of generate and
    analyze calls returns, stays CONVERGED and leaves next_id as it is.
    It emits at most one candidate, tagged with the current next_id, and
    after the first generate call every generate call returns WAIT. *)
Theorem C9_converged_waits
  (E : Angel.Env) (fuel : nat) (ops : list Angel.op) (d : Angel.data_t)
  (Hfuel : fuel <> 0%nat)
  (Hconv : Angel.state d = Angel.SIMPLEX_STATE_CONVERGED)
  (Hnext : Angel.valid_ref d (Angel.next d)) :
  Angel.nm_next_vertex d
  = (0%Z, Angel.reset_next_perf
            (Angel.set_next (Angel.Simplex_vertex (Angel.index_best d)) d))
  /\ exists evs d',
       Angel.run fuel ops d = Some (evs, d')
       /\ Angel.state d' = Angel.SIMPLEX_STATE_CONVERGED
       /\ Angel.next_id d' = Angel.next_id d
       /\ (Angel.emitted evs = [] \/ Angel.emitted evs = [Angel.next_id d])
       /\ (forall i j f p f' p',
             (i < j)%nat ->
             nth_error ops i = Some (Angel.Generate f p) ->
             nth_error ops j = Some (Angel.Generate f' p') ->
             nth_error evs j = Some Angel.Wait).
Proof.
  split.
  { unfold Angel.nm_next_vertex. rewrite Hconv. reflexivity. }
  destruct (converged_run fuel Hfuel ops d Hconv Hnext)
    as (evs & d' & Hrun & R1 & R2 & R3 & _ & R5).
  exists evs, d'. repeat split; assumption.
Qed.

Section OnTheLineC9.
Import Line.

(** The hypotheses of C9 hold in the one-dimensional session with the
    distance test: the two vertices of the initial simplex measured, the
    machine is CONVERGED with next_id = 2. *)
Lemma C9_converged_waits_witness :
  let d := angel_state angel_dist_tol
             [angel_G; angel_A 1 1; angel_G; angel_A 2 2] in
  let ops := [angel_G; angel_A 2 3; angel_G; angel_G] in
  Angel.nm_next_vertex d
  = (0%Z, Angel.reset_next_perf
            (Angel.set_next (Angel.Simplex_vertex (Angel.index_best d)) d))
  /\ exists evs d',
       Angel.run 5 ops d = Some (evs, d')
       /\ Angel.state d' = Angel.SIMPLEX_STATE_CONVERGED
       /\ Angel.next_id d' = Angel.next_id d
       /\ (Angel.emitted evs = [] \/ Angel.emitted evs = [Angel.next_id d])
       /\ (forall i j f p f' p',
             (i < j)%nat ->
             nth_error ops i = Some (Angel.Generate f p) ->
             nth_error ops j = Some (Angel.Generate f' p') ->
             nth_error evs j = Some Angel.Wait).
Proof.
  cbv zeta.
  apply (@C9_converged_waits angel_env 5
           [angel_G; angel_A 2 3; angel_G; angel_G]
           (angel_state angel_dist_tol
              [angel_G; angel_A 1 1; angel_G; angel_A 2 2])).
  - discriminate.
  - vm_compute. reflexivity.
  - vm_compute. split; congruence.
Defined.

End OnTheLineC9.

(** ** The ids of the candidates (C8) *)

Section ProIds.
Import Pro.
Context {E : Env}.

#[local] Arguments pro_next_state : simpl never.
#[local] Arguments pro_next_simplex : simpl never.
#[local] Arguments check_convergence : simpl never.
#[local] Arguments pro_step : simpl never.

Lemma next_id_pro_next_state (input : simplex_t) (best_in : Z) (g : pro) :
  next_id (snd (pro_next_state input best_in g)) = next_id g.
Proof. unfold pro_next_state. repeat break; reflexivity. Qed.

Lemma next_id_check_convergence (g : pro) :
  next_id (check_convergence g) = next_id g.
Proof.
  unfold check_convergence, converged.
  destruct (simplex_collapsed (base g) =? 1)%Z; [reflexivity|]. cbv zeta.
  match goal with
  | |- next_id (if ?c then _ else _) = _ => destruct c
  end; reflexivity.
Qed.

Lemma next_id_pro_step (g : pro) : next_id (snd (pro_step g)) = next_id g.
Proof.
  unfold pro_step.
  pose proof (next_id_pro_next_state (test g) (best_test g) g) as H1.
  destruct (pro_next_state (test g) (best_test g) g) as [rc g1].
  cbn [snd] in H1.
  destruct (negb (rc =? 0)%Z); [exact H1|].
  assert (H2 : next_id (if state_eqb (state g1) SIMPLEX_STATE_REFLECT
                        then check_convergence g1 else g1) = next_id g).
  { destruct (state_eqb (state g1) SIMPLEX_STATE_REFLECT);
      [rewrite next_id_check_convergence|]; exact H1. }
  set (g2 := if state_eqb (state g1) SIMPLEX_STATE_REFLECT
             then check_convergence g1 else g1) in *.
  destruct (pro_next_simplex (test g2) g2) as [rc2 out].
  destruct (negb (rc2 =? 0)%Z); exact H2.
Qed.

Lemma next_id_pro_algorithm (fuel : nat) :
  forall (g g' : pro) (rc : Z),
  pro_algorithm fuel g = Some (rc, g') -> next_id g' = next_id g.
Proof.
  induction fuel as [|fuel IH]; intros g g' rc; [discriminate|].
  cbn [pro_algorithm].
  destruct (state_eqb (state g) SIMPLEX_STATE_CONVERGED).
  { intros H; injection H as _ <-. reflexivity. }
  pose proof (next_id_pro_step g) as Hs.
  destruct (pro_step g) as [rc1 g1]. cbn [snd] in Hs.
  destruct (negb (rc1 =? 0)%Z).
  { intros H; injection H as _ <-. exact Hs. }
  destruct (negb (simplex_outofbounds (test g1) =? 0)%Z).
  - intros H. apply IH in H. congruence.
  - intros H; injection H as _ <-. exact Hs.
Qed.

Lemma next_id_report_best (mesg : hmesg_t) (g : pro) :
  next_id (snd (fst (report_best mesg g))) = next_id g.
Proof. unfold report_best, ret3. repeat break; reflexivity. Qed.

(** A report never writes the id counter. *)
Lemma next_id_strategy_report (fuel : nat) (mesg : hmesg_t) (g g' : pro)
  (rc : Z) (m : hmesg_t) :
  strategy_report fuel mesg g = Some (rc, g', m) -> next_id g' = next_id g.
Proof.
  unfold strategy_report, ret3. cbv zeta.
  destruct (_ =? simplex_size g)%Z.
  { intros H; injection H as _ <- _. reflexivity. }
  set (g1 := if (_ <? _)%D then _ else _).
  assert (H1 : next_id g1 = next_id g).
  { subst g1. break; reflexivity. }
  clearbody g1.
  destruct (reported g1 =? simplex_size g1)%Z.
  - destruct (pro_algorithm fuel g1) as [[rca ga]|] eqn:Ha; [|discriminate].
    apply next_id_pro_algorithm in Ha.
    destruct (negb (rca =? 0)%Z).
    + intros H; injection H as _ <- _. congruence.
    + pose proof (next_id_report_best mesg (set_send_idx 0 (set_reported 0 ga)))
        as Hb.
      destruct (report_best mesg _) as [[rcb gb] mb]. cbn in Hb.
      intros H; injection H as _ <- _. congruence.
  - pose proof (next_id_report_best mesg g1) as Hb.
    destruct (report_best mesg g1) as [[rcb gb] mb]. cbn in Hb.
    intros H; injection H as _ <- _. congruence.
Qed.

(** A fetch that emits a candidate gives it the id [next_id] and increments
    the counter; no fetch decrements it. *)
Lemma fetch_emits_next_id (mesg : hmesg_t) (g : pro) :
  let '(rc, g', m) := strategy_fetch mesg g in
  if (rc =? 0)%Z && status_ok m
  then hp_id (fetch_cand m) = next_id g /\ next_id g' = (next_id g + 1)%Z
  else (next_id g <= next_id g')%Z.
Proof.
  unfold strategy_fetch, ret3, vertex_to_hpoint.
  destruct (send_idx g =? simplex_size g)%Z; [cbn; lia|].
  destruct (vertex_to_hpoint_term _) as [rc t].
  destruct (rc <? 0)%Z; [cbn; lia|].
  cbn.
  destruct (hp_id (fetch_best mesg) <? hp_id (strategy_best g))%Z; cbn.
  - destruct (hpoint_copy HPOINT_INITIALIZER (strategy_best g)) as [rc2 b].
    destruct (rc2 <? 0)%Z; cbn; [lia | split; reflexivity].
  - split; reflexivity.
Qed.

(** The candidates of a session carry the values the counter goes through,
    each once. *)
Lemma run_ids (fuel : nat) (ops : list op) :
  forall (g g' : pro) (ids : list Z),
  run fuel ops g = Some (ids, g') ->
  (next_id g <= next_id g')%Z
  /\ Forall (fun i => (next_id g <= i < next_id g')%Z) ids
  /\ StronglySorted Z.lt ids.
Proof.
  induction ops as [|o ops IH]; intros g g' ids; cbn [run].
  { intros H; injection H as <- <-. repeat split; try lia; constructor. }
  destruct o as [mesg | mesg].
  - pose proof (fetch_emits_next_id mesg g) as Hf.
    destruct (strategy_fetch mesg g) as [[rc g1] m].
    destruct (run fuel ops g1) as [[ids1 g2]|] eqn:Hr; [|discriminate].
    apply IH in Hr. destruct Hr as (R1 & R2 & R3).
    intros H; injection H as <- <-.
    destruct ((rc =? 0)%Z && status_ok m).
    + destruct Hf as [Hid Hn]. rewrite Hid. cbn [app].
      split; [lia|]. split.
      * constructor; [lia|].
        eapply Forall_impl; [|exact R2]. cbn. intros; lia.
      * constructor; [exact R3|].
        eapply Forall_impl; [|exact R2]. cbn. intros; lia.
    + cbn [app]. split; [lia|]. split; [|exact R3].
      eapply Forall_impl; [|exact R2]. cbn. intros; lia.
  - destruct (strategy_report fuel mesg g) as [[[rc g1] m]|] eqn:Hrep;
      [|discriminate].
    apply next_id_strategy_report in Hrep.
    intros Hr. apply IH in Hr. rewrite Hrep in Hr. exact Hr.
Qed.

End ProIds.

Section AngelIds.
Import Angel.
Context {E : Env}.

#[local] Arguments assign : simpl never.

Lemma next_id_assign (r : vref) (v : vertex_t) (d : data_t) :
  next_id (assign r v d) = next_id d.
Proof. destruct r; reflexivity. Qed.

Lemma next_id_measured (trial : htrial_t) (d : data_t) :
  next_id (measured trial d) = next_id d.
Proof.
  unfold measured.
  assert (H1 : next_id (analyze_store trial d) = next_id d).
  { unfold analyze_store. apply next_id_assign. }
  assert (H2 : forall d0, next_id (analyze_span d0) = next_id d0).
  { intros d0. unfold analyze_span.
    apply (for_lt_inv (fun s => next_id s = next_id d0)); [|reflexivity].
    intros i s Hs. exact Hs. }
  assert (H3 : forall d0, next_id (analyze_penalty d0) = next_id d0).
  { intros d0. unfold analyze_penalty.
    break; [apply next_id_assign | reflexivity]. }
  now rewrite H3, H2.
Qed.

Lemma next_id_analyze_best (trial : htrial_t) (d : data_t) :
  next_id (snd (analyze_best trial d)) = next_id d.
Proof. unfold analyze_best. repeat break; reflexivity. Qed.

(** [strategy_analyze] increments the id counter when the trial matched,
    the algorithm succeeded and the machine has not converged; it leaves
    it alone otherwise. *)
Lemma analyze_next_id (fuel : nat) (trial : htrial_t) (d d' : data_t)
  (rc : Z) :
  strategy_analyze fuel trial d = Some (rc, d') ->
  next_id d'
  = if (hp_id (trial_point trial) =? id (deref d (next d)))%Z
       && (rc =? 0)%Z
       && negb (state_eqb (state d') SIMPLEX_STATE_CONVERGED)
    then (next_id d + 1)%Z else next_id d.
Proof.
  unfold strategy_analyze.
  destruct (hp_id (trial_point trial) =? id (deref d (next d)))%Z;
    cbn [negb andb].
  2:{ intros H; injection H as _ <-. reflexivity. }
  pose proof (next_id_measured trial d) as Hm.
  pose proof (next_id_analyze_best trial (measured trial d)) as Hb.
  destruct (analyze_best trial (measured trial d)) as [rcb db].
  cbn [snd] in Hb.
  destruct (negb (rcb =? 0)%Z).
  { intros H; injection H as <- <-. cbn. congruence. }
  destruct (nm_algorithm fuel db) as [[rca da]|] eqn:Ha; [|discriminate].
  apply core_nm_algorithm in Ha.
  assert (Hn : next_id da = next_id d) by (unfold core in Ha; congruence).
  destruct (negb (rca =? 0)%Z).
  { intros H; injection H as <- <-. cbn. exact Hn. }
  destruct (negb (state_eqb (state da) SIMPLEX_STATE_CONVERGED)) eqn:Hst;
    intros H; injection H as <- <-; cbn.
  - rewrite Hst. cbn. lia.
  - rewrite Hst. exact Hn.
Qed.

(** A generate that emits a candidate gives it the id [next_id], and never
    writes the counter. *)
Lemma generate_emits_next_id (flow : hflow_t) (point : hpoint_t)
  (d : data_t) :
  let '(rc, d', flow', point') := strategy_generate flow point d in
  next_id d' = next_id d
  /\ (emitted [generate_event rc flow' point' d'] = []
      \/ emitted [generate_event rc flow' point' d'] = [next_id d]).
Proof.
  unfold strategy_generate.
  destruct (id (deref d (next d)) =? next_id d)%Z; [split; auto|].
  unfold vertex_point.
  destruct (vertex_point_term _) as [rc t].
  destruct (negb (rc =? 0)%Z); (split; [apply next_id_assign|]).
  - left. reflexivity.
  - right. reflexivity.
Qed.

(** The candidates of a session carry values the counter goes through, in
    order. *)
Lemma run_emitted (fuel : nat) (ops : list op) :
  forall (d d' : data_t) (evs : list event),
  run fuel ops d = Some (evs, d') ->
  (next_id d <= next_id d')%Z
  /\ Forall (fun i => (next_id d <= i <= next_id d')%Z) (emitted evs)
  /\ StronglySorted Z.le (emitted evs).
Proof.
  induction ops as [|o ops IH]; intros d d' evs; cbn [run].
  { intros H; injection H as <- <-. repeat split; try lia; constructor. }
  destruct o as [flow point | trial].
  - pose proof (generate_emits_next_id flow point d) as Hg.
    destruct (strategy_generate flow point d) as [[[rc d1] f1] p1].
    destruct Hg as [Hn He].
    destruct (run fuel ops d1) as [[evs1 d2]|] eqn:Hr; [|discriminate].
    apply IH in Hr. destruct Hr as (R1 & R2 & R3).
    intros H; injection H as <- <-.
    rewrite emitted_cons. rewrite Hn in *.
    destruct He as [-> | ->]; cbn [app].
    + repeat split; assumption.
    + split; [lia|]. split.
      * constructor; [lia | exact R2].
      * constructor; [exact R3|].
        eapply Forall_impl; [|exact R2]. cbn. intros; lia.
  - destruct (strategy_analyze fuel trial d) as [[rc d1]|] eqn:Ha;
      [|discriminate].
    apply analyze_next_id in Ha.
    assert (Hle : (next_id d <= next_id d1)%Z).
    { rewrite Ha. destruct (_ && _ && _); lia. }
    destruct (run fuel ops d1) as [[evs1 d2]|] eqn:Hr; [|discriminate].
    apply IH in Hr. destruct Hr as (R1 & R2 & R3).
    intros H; injection H as <- <-. cbn [emitted].
    split; [lia|]. split; [|exact R3].
    eapply Forall_impl; [|exact R2]. cbn. intros; lia.
Qed.

(** While the session goes on searching, no id is emitted twice: the
    vertex emitted stays tagged with [next_id] until an analysis increments
    the counter. *)
Lemma run_searching (fuel : nat) (ops : list op) :
  forall (d d' : data_t) (evs : list event),
  run fuel ops d = Some (evs, d') ->
  searching fuel ops d evs ->
  StronglySorted Z.lt (emitted evs)
  /\ (id (deref d (next d)) = next_id d ->
      Forall (fun i => (next_id d < i)%Z) (emitted evs)).
Proof.
  induction ops as [|o ops IH]; intros d d' evs; cbn [run].
  { intros H _; injection H as <- <-. split; [constructor|]. constructor. }
  destruct o as [flow point | trial].
  - unfold searching. cbn [states].
    pose proof (generate_emits_next_id flow point d) as Hg.
    pose proof (converged_generate flow point d) as Hc.
    destruct (strategy_generate flow point d) as [[[rc d1] f1] p1].
    destruct Hg as [Hn He].
    destruct (run fuel ops d1) as [[evs1 d2]|] eqn:Hr; [|discriminate].
    intros H [Hst Hev]; injection H as <- <-.
    inversion Hst as [|s l [Hv _] Hst1]; subst.
    inversion Hev as [|e l Hrc Hev1]; subst.
    destruct (Hc Hv) as (_ & _ & _ & _ & Htag & _ & Hwait).
    destruct (IH d1 d2 evs1 Hr (conj Hst1 Hev1)) as [R1 R2].
    pose proof (run_emitted fuel ops d1 d2 evs1 Hr) as (_ & R3 & _).
    specialize (R2 ltac:(congruence)).
    rewrite emitted_cons. rewrite Hn in *. split.
    + destruct He as [-> | ->]; cbn [app]; [exact R1|].
      constructor; assumption.
    + intros Hid. rewrite (Hwait Hid). cbn [emitted app]. exact R2.
  - unfold searching. cbn [states].
    destruct (strategy_analyze fuel trial d) as [[rc d1]|] eqn:Ha;
      [|discriminate].
    destruct (run fuel ops d1) as [[evs1 d2]|] eqn:Hr; [|discriminate].
    intros H [Hst Hev]; injection H as <- <-.
    inversion Hst as [|s l _ Hst1]; subst.
    inversion Hev as [|e l Hrc Hev1]; subst.
    destruct (IH d1 d2 evs1 Hr (conj Hst1 Hev1)) as [R1 _].
    pose proof (run_emitted fuel ops d1 d2 evs1 Hr) as (_ & R3 & _).
    cbn [emitted]. split; [exact R1|]. intros _.
    assert (Hs1 : state d1 <> SIMPLEX_STATE_CONVERGED).
    { destruct ops as [|o ops]; cbn [states] in Hst1;
        inversion Hst1 as [|s l [_ Hs] _]; exact Hs. }
    assert (Hmatch : (hp_id (trial_point trial) =? id (deref d (next d)))%Z
                     = true).
    { revert Ha. unfold strategy_analyze.
      destruct (hp_id (trial_point trial) =? id (deref d (next d)))%Z;
        [reflexivity|].
      cbn. discriminate. }
    apply analyze_next_id in Ha. rewrite Hmatch in Ha.
    replace (state_eqb (state d1) SIMPLEX_STATE_CONVERGED) with false in Ha
      by (destruct (state d1); try reflexivity; contradiction).
    cbn in Ha.
    eapply Forall_impl; [|exact R3]. cbn. intros; lia.
Qed.

End AngelIds.


Section OnTheLineC8.
Import Line.



End OnTheLineC8.

(* ================================================================= *)
(** * Further properties of pro.c *)

Section ProFrame.
Import Pro.
Context {E : Env}.

#[local] Arguments pro_next_state : simpl never.
#[local] Arguments pro_next_simplex : simpl never.
#[local] Arguments check_convergence : simpl never.
#[local] Arguments pro_step : simpl never.

Lemma kept_pro_next_state (input : simplex_t) (best_in : Z) (g : pro) :
  kept (snd (pro_next_state input best_in g)) = kept g.
Proof. unfold pro_next_state. repeat break; reflexivity. Qed.

Lemma kept_check_convergence (g : pro) : kept (check_convergence g) = kept g.
Proof.
  unfold check_convergence, converged.
  destruct (simplex_collapsed (base g) =? 1)%Z; [reflexivity|]. cbv zeta.
  match goal with
  | |- kept (if ?c then _ else _) = _ => destruct c
  end; reflexivity.
Qed.

Lemma kept_pro_step (g : pro) : kept (snd (pro_step g)) = kept g.
Proof.
  unfold pro_step.
  pose proof (kept_pro_next_state (test g) (best_test g) g) as H1.
  destruct (pro_next_state (test g) (best_test g) g) as [rc g1].
  cbn [snd] in H1.
  destruct (negb (rc =? 0)%Z); [exact H1|].
  assert (H2 : kept (if state_eqb (state g1) SIMPLEX_STATE_REFLECT
                     then check_convergence g1 else g1) = kept g).
  { destruct (state_eqb (state g1) SIMPLEX_STATE_REFLECT);
      [rewrite kept_check_convergence|]; exact H1. }
  set (g2 := if state_eqb (state g1) SIMPLEX_STATE_REFLECT
             then check_convergence g1 else g1) in *.
  destruct (pro_next_simplex (test g2) g2) as [rc2 out].
  assert (Hs : forall x y, kept (set_test x y) = kept y)
    by (intros; reflexivity).
  destruct (negb (rc2 =? 0)%Z); cbn [snd]; rewrite Hs; exact H2.
Qed.

Lemma kept_pro_algorithm (fuel : nat) :
  forall (g g' : pro) (rc : Z),
  pro_algorithm fuel g = Some (rc, g') -> kept g' = kept g.
Proof.
  induction fuel as [|fuel IH]; intros g g' rc; [discriminate|].
  cbn [pro_algorithm].
  destruct (state_eqb (state g) SIMPLEX_STATE_CONVERGED).
  { intros H; injection H as _ <-. reflexivity. }
  pose proof (kept_pro_step g) as Hs.
  destruct (pro_step g) as [rc1 g1]. cbn [snd] in Hs.
  destruct (negb (rc1 =? 0)%Z).
  { intros H; injection H as _ <-. exact Hs. }
  destruct (negb (simplex_outofbounds (test g1) =? 0)%Z).
  - intros H. apply IH in H. congruence.
  - intros H; injection H as _ <-. exact Hs.
Qed.

End ProFrame.

Section ProCounters.
Import Pro.
Context {E : Env}.

(** A fetch either answers BUSY and writes nothing, or moves [send_idx]
    by at most one, by exactly one when it emits a candidate. *)
Lemma fetch_send_idx (mesg : hmesg_t) (g : pro) :
  let '(rc, g', m) := strategy_fetch mesg g in
  simplex_size g' = simplex_size g
  /\ (send_idx g = simplex_size g -> send_idx g' = send_idx g)
  /\ (send_idx g <> simplex_size g ->
      (send_idx g <= send_idx g' <= send_idx g + 1)%Z)
  /\ ((rc =? 0)%Z && status_ok m = true ->
      send_idx g' = (send_idx g + 1)%Z).
Proof.
  unfold strategy_fetch, ret3, vertex_to_hpoint.
  destruct (send_idx g =? simplex_size g)%Z eqn:Hs.
  { apply Z.eqb_eq in Hs. cbn. repeat split; auto; try lia; discriminate. }
  apply Z.eqb_neq in Hs.
  destruct (vertex_to_hpoint_term _) as [rc t].
  destruct (rc <? 0)%Z.
  { cbn. repeat split; auto; try lia; discriminate. }
  cbn.
  destruct (hp_id (fetch_best mesg) <? hp_id (strategy_best g))%Z; cbn.
  - destruct (hpoint_copy HPOINT_INITIALIZER (strategy_best g)) as [rc2 b].
    destruct (rc2 <? 0)%Z; cbn; repeat split; auto; try lia; discriminate.
  - repeat split; auto; lia.
Qed.

Lemma kept_report_best (mesg : hmesg_t) (g : pro) :
  let g' := snd (fst (report_best mesg g)) in
  simplex_size g' = simplex_size g /\ send_idx g' = send_idx g
  /\ reported g' = reported g /\ state g' = state g /\ cfg g' = cfg g
  /\ base g' = base g /\ test g' = test g.
Proof. unfold report_best, ret3. repeat break; cbn; repeat split. Qed.

(** A report leaves [send_idx] alone or, when it completes the round, sets
    it to 0. *)
Lemma report_send_idx (fuel : nat) (mesg : hmesg_t) (g g' : pro) (rc : Z)
  (m : hmesg_t) :
  strategy_report fuel mesg g = Some (rc, g', m) ->
  simplex_size g' = simplex_size g
  /\ (send_idx g' = send_idx g \/ send_idx g' = 0%Z).
Proof.
  unfold strategy_report, ret3. cbv zeta.
  destruct (_ =? simplex_size g)%Z.
  { intros H; injection H as _ <- _. auto. }
  set (g1 := if (_ <? _)%D then _ else _).
  assert (Hsz : simplex_size g1 = simplex_size g /\ send_idx g1 = send_idx g).
  { subst g1. break; split; reflexivity. }
  clearbody g1. destruct Hsz as [Hsz Hsi].
  destruct (reported g1 =? simplex_size g1)%Z.
  - destruct (pro_algorithm fuel g1) as [[rca ga]|] eqn:Ha; [|discriminate].
    apply kept_pro_algorithm in Ha.
    assert (Hka : simplex_size ga = simplex_size g1
                  /\ send_idx ga = send_idx g1).
    { unfold kept in Ha. split; congruence. }
    destruct Hka as [Ha1 Ha2].
    destruct (negb (rca =? 0)%Z).
    + intros H; injection H as _ <- _. split; [|left]; congruence.
    + pose proof (kept_report_best mesg (set_send_idx 0 (set_reported 0 ga)))
        as Hb.
      destruct (report_best mesg _) as [[rcb gb] mb]. cbn in Hb.
      destruct Hb as (B1 & B2 & _).
      intros H; injection H as _ <- _. split; [congruence | right; exact B2].
  - pose proof (kept_report_best mesg g1) as Hb.
    destruct (report_best mesg g1) as [[rcb gb] mb]. cbn in Hb.
    destruct Hb as (B1 & B2 & _).
    intros H; injection H as _ <- _. split; [|left]; congruence.
Qed.

Lemma run_send_idx (fuel : nat) (ops : list op) :
  forall (g g' : pro) (ids : list Z),
  (0 <= send_idx g <= simplex_size g)%Z ->
  run fuel ops g = Some (ids, g') ->
  simplex_size g' = simplex_size g
  /\ (0 <= send_idx g' <= simplex_size g')%Z
  /\ ((forall o, In o ops -> exists m, o = Fetch m) ->
      (Z.of_nat (length ids) <= send_idx g' - send_idx g)%Z).
Proof.
  induction ops as [|o ops IH]; intros g g' ids Hinv; cbn [run].
  { intros H; injection H as <- <-. cbn. repeat split; lia. }
  destruct o as [mesg | mesg].
  - pose proof (fetch_send_idx mesg g) as Hf.
    destruct (strategy_fetch mesg g) as [[rc g1] m].
    destruct Hf as (F1 & F2 & F3 & F4).
    destruct (run fuel ops g1) as [[ids1 g2]|] eqn:Hr; [|discriminate].
    assert (Hinv1 : (0 <= send_idx g1 <= simplex_size g1)%Z).
    { rewrite F1. destruct (Z.eq_dec (send_idx g) (simplex_size g)) as [e|n].
      - rewrite (F2 e). lia.
      - specialize (F3 n). lia. }
    destruct (IH g1 g2 ids1 Hinv1 Hr) as (R1 & R2 & R3).
    intros H; injection H as <- <-.
    split; [congruence|]. split; [exact R2|].
    intros Hall.
    assert (Hall1 : forall o, In o ops -> exists m, o = Fetch m).
    { intros o Ho. apply Hall. now right. }
    specialize (R3 Hall1).
    destruct ((rc =? 0)%Z && status_ok m).
    + specialize (F4 eq_refl). cbn [app length]. lia.
    + cbn [app].
      destruct (Z.eq_dec (send_idx g) (simplex_size g)) as [e|n].
      * rewrite (F2 e) in R3. lia.
      * specialize (F3 n). lia.
  - destruct (strategy_report fuel mesg g) as [[[rc g1] m]|] eqn:Hrep;
      [|discriminate].
    apply report_send_idx in Hrep. destruct Hrep as [S1 S2].
    intros Hr.
    assert (Hinv1 : (0 <= send_idx g1 <= simplex_size g1)%Z).
    { rewrite S1. destruct S2 as [-> | ->]; lia. }
    destruct (IH g1 g' ids Hinv1 Hr) as (R1 & R2 & R3).
    split; [congruence|]. split; [exact R2|].
    intros Hall. exfalso.
    destruct (Hall (Report mesg) (or_introl eq_refl)) as [m' Hm'].
    discriminate.
Qed.

End ProCounters.

(** X4.  PRO hands out one simplex at a time.  In a session started with
    0 <= send_idx <= simplex_size, [send_idx] stays within these bounds and
    [simplex_size] is never written; fetches alone emit no more than
    simplex_size - send_idx candidates; and once send_idx = simplex_size a
    fetch answers BUSY with return value 0 and writes nothing. *)
Theorem X4_fetch_budget
  (E : Pro.Env) (fuel : nat) (ops : list Pro.op) (g g' : Pro.pro)
  (ids : list Z)
  (Hinv : (0 <= Pro.send_idx g <= Pro.simplex_size g)%Z)
  (Hrun : Pro.run fuel ops g = Some (ids, g')) :
  Pro.simplex_size g' = Pro.simplex_size g
  /\ (0 <= Pro.send_idx g' <= Pro.simplex_size g')%Z
  /\ ((forall o, In o ops -> exists m, o = Pro.Fetch m) ->
      (Z.of_nat (length ids) <= Pro.simplex_size g - Pro.send_idx g)%Z)
  /\ (Pro.send_idx g' = Pro.simplex_size g' ->
      forall mesg,
        Pro.strategy_fetch mesg g'
        = (0%Z, g', Pro.set_status Pro.HMESG_STATUS_BUSY mesg)).
Proof.
  destruct (run_send_idx fuel ops g g' ids Hinv Hrun) as (R1 & R2 & R3).
  split; [exact R1|]. split; [exact R2|]. split.
  - intros Hall. specialize (R3 Hall). lia.
  - intros Hfull mesg. unfold Pro.strategy_fetch.
    apply Z.eqb_eq in Hfull. rewrite Hfull. reflexivity.
Qed.

Section OnTheLineX4.
Import Line.

(** The hypotheses of X4 hold in the one-dimensional session: three
    fetches after [strategy_init] emit the two candidates of the
    simplex. *)
Lemma X4_fetch_budget_witness :
  let g' := pro_state [pro_F; pro_F; pro_F] in
  Pro.simplex_size g' = Pro.simplex_size pro_booted
  /\ (0 <= Pro.send_idx g' <= Pro.simplex_size g')%Z
  /\ ((forall o, In o [pro_F; pro_F; pro_F] -> exists m, o = Pro.Fetch m) ->
      (Z.of_nat (length [1; 2]%Z)
       <= Pro.simplex_size pro_booted - Pro.send_idx pro_booted)%Z)
  /\ (Pro.send_idx g' = Pro.simplex_size g' ->
      forall mesg,
        Pro.strategy_fetch mesg g'
        = (0%Z, g', Pro.set_status Pro.HMESG_STATUS_BUSY mesg)).
Proof.
  cbv zeta.
  apply (@X4_fetch_budget pro_env 5 [pro_F; pro_F; pro_F] pro_booted
           (pro_state [pro_F; pro_F; pro_F]) [1; 2]%Z).
  - vm_compute. split; discriminate.
  - vm_compute. reflexivity.
Defined.

End OnTheLineX4.

Section ProBest.
Import Pro.
Context {E : Env}.

Lemma best_perf_fetch (mesg : hmesg_t) (g : pro) :
  strategy_best_perf (snd (fst (strategy_fetch mesg g)))
  = strategy_best_perf g.
Proof.
  unfold strategy_fetch, ret3, vertex_to_hpoint. repeat break; reflexivity.
Qed.

(** What [report_best] leaves in [strategy_best_perf]. *)
Lemma report_best_perf (mesg : hmesg_t) (g : pro) :
  strategy_best_perf (snd (fst (report_best mesg g)))
  = if (strategy_best_perf g >? report_perf mesg)%D
    then report_perf mesg else strategy_best_perf g.
Proof. unfold report_best, ret3. repeat break; reflexivity. Qed.

(** A report keeps the best performance or lowers it to the one
    reported. *)
Lemma report_best_perf_cases (fuel : nat) (mesg : hmesg_t) (g g' : pro)
  (rc : Z) (m : hmesg_t) :
  strategy_report fuel mesg g = Some (rc, g', m) ->
  strategy_best_perf g' = strategy_best_perf g
  \/ ((strategy_best_perf g >? report_perf mesg)%D = true
      /\ strategy_best_perf g' = report_perf mesg).
Proof.
  unfold strategy_report, ret3. cbv zeta.
  destruct (_ =? simplex_size g)%Z.
  { intros H; injection H as _ <- _. now left. }
  set (g1 := if (_ <? _)%D then _ else _).
  assert (H1 : strategy_best_perf g1 = strategy_best_perf g).
  { subst g1. break; reflexivity. }
  clearbody g1.
  assert (Hcase : forall g2, strategy_best_perf g2 = strategy_best_perf g ->
            let g3 := snd (fst (report_best mesg g2)) in
            strategy_best_perf g3 = strategy_best_perf g
            \/ ((strategy_best_perf g >? report_perf mesg)%D = true
                /\ strategy_best_perf g3 = report_perf mesg)).
  { intros g2 H2. cbv zeta. rewrite report_best_perf, H2.
    destruct (strategy_best_perf g >? report_perf mesg)%D; auto. }
  destruct (reported g1 =? simplex_size g1)%Z.
  - destruct (pro_algorithm fuel g1) as [[rca ga]|] eqn:Ha; [|discriminate].
    apply kept_pro_algorithm in Ha.
    assert (Hka : strategy_best_perf ga = strategy_best_perf g).
    { unfold kept in Ha. congruence. }
    destruct (negb (rca =? 0)%Z).
    + intros H; injection H as _ <- _. now left.
    + specialize (Hcase (set_send_idx 0 (set_reported 0 ga)) Hka).
      destruct (report_best mesg _) as [[rcb gb] mb]. cbn in Hcase.
      intros H; injection H as _ <- _. exact Hcase.
  - specialize (Hcase g1 H1).
    destruct (report_best mesg g1) as [[rcb gb] mb]. cbn in Hcase.
    intros H; injection H as _ <- _. exact Hcase.
Qed.

Lemma run_best_perf (fuel : nat) (ops : list op) :
  forall (g g' : pro) (ids : list Z),
  isnan (strategy_best_perf g) = false ->
  run fuel ops g = Some (ids, g') ->
  dle (strategy_best_perf g') (strategy_best_perf g) = true
  /\ isnan (strategy_best_perf g') = false.
Proof.
  induction ops as [|o ops IH]; intros g g' ids Hnan; cbn [run].
  { intros H; injection H as _ <-. split; [now apply dle_refl | exact Hnan]. }
  destruct o as [mesg | mesg].
  - pose proof (best_perf_fetch mesg g) as Hf.
    destruct (strategy_fetch mesg g) as [[rc g1] m]. cbn in Hf.
    destruct (run fuel ops g1) as [[ids1 g2]|] eqn:Hr; [|discriminate].
    intros H; injection H as _ <-.
    rewrite <- Hf. apply (IH g1 g2 ids1); [congruence | exact Hr].
  - destruct (strategy_report fuel mesg g) as [[[rc g1] m]|] eqn:Hrep;
      [|discriminate].
    apply report_best_perf_cases in Hrep.
    intros Hr.
    destruct Hrep as [He | [Hgt He]].
    + rewrite <- He. apply (IH g1 g' ids); [congruence | exact Hr].
    + assert (Hn1 : isnan (strategy_best_perf g1) = false).
      { rewrite He. unfold dgt in Hgt. now apply dlt_notnan_l in Hgt. }
      destruct (IH g1 g' ids Hn1 Hr) as [R1 R2]. split; [|exact R2].
      eapply dle_trans; [exact R1|]. rewrite He. now apply dlt_dle.
Qed.

(** A report that is taken (not rogue) and returns 0 leaves the smaller of
    the best performance and the one reported. *)
Lemma report_taken (fuel : nat) (mesg : hmesg_t) (g g' : pro) (m : hmesg_t) :
  find_id (Z.to_nat (simplex_size g)) 0 (hp_id (report_cand mesg)) (test g)
  <> simplex_size g ->
  strategy_report fuel mesg g = Some (0%Z, g', m) ->
  strategy_best_perf g'
  = if (strategy_best_perf g >? report_perf mesg)%D
    then report_perf mesg else strategy_best_perf g.
Proof.
  intros Hm. unfold strategy_report, ret3. cbv zeta.
  apply Z.eqb_neq in Hm. rewrite Hm.
  set (g1 := if (_ <? _)%D then _ else _).
  assert (H1 : strategy_best_perf g1 = strategy_best_perf g).
  { subst g1. break; reflexivity. }
  clearbody g1.
  destruct (reported g1 =? simplex_size g1)%Z.
  - destruct (pro_algorithm fuel g1) as [[rca ga]|] eqn:Ha; [|discriminate].
    apply kept_pro_algorithm in Ha.
    assert (Hka : strategy_best_perf ga = strategy_best_perf g).
    { unfold kept in Ha. congruence. }
    destruct (negb (rca =? 0)%Z); [discriminate|].
    pose proof (report_best_perf mesg (set_send_idx 0 (set_reported 0 ga)))
      as Hb.
    destruct (report_best mesg _) as [[rcb gb] mb]. cbn [fst snd] in Hb.
    intros H; injection H as _ <- _. rewrite Hb. cbn. now rewrite Hka.
  - pose proof (report_best_perf mesg g1) as Hb.
    destruct (report_best mesg g1) as [[rcb gb] mb]. cbn [fst snd] in Hb.
    intros H; injection H as _ <- _. rewrite Hb. now rewrite H1.
Qed.

End ProBest.

(** X5.  The best performance PRO keeps never rises along a session, and it
    is never NaN once it is a number; a report that is taken (its id is in
    the candidate simplex) and returns 0 leaves the smaller of the best
    performance so far and the one reported. *)
Theorem X5_best_never_rises
  (E : Pro.Env) (fuel : nat) (ops : list Pro.op) (g g' g'' : Pro.pro)
  (ids : list Z) (mesg m : Pro.hmesg_t)
  (Hnan : isnan (Pro.strategy_best_perf g) = false)
  (Hrun : Pro.run fuel ops g = Some (ids, g'))
  (Htaken : Pro.find_id (Z.to_nat (Pro.simplex_size g')) 0
              (Pro.hp_id (Pro.report_cand mesg)) (Pro.test g')
            <> Pro.simplex_size g')
  (Hrep : Pro.strategy_report fuel mesg g' = Some (0%Z, g'', m)) :
  dle (Pro.strategy_best_perf g') (Pro.strategy_best_perf g) = true
  /\ isnan (Pro.strategy_best_perf g') = false
  /\ Pro.strategy_best_perf g''
     = (if (Pro.strategy_best_perf g' >? Pro.report_perf mesg)%D
        then Pro.report_perf mesg else Pro.strategy_best_perf g').
Proof.
  destruct (run_best_perf fuel ops g g' ids Hnan Hrun) as [H1 H2].
  split; [exact H1|]. split; [exact H2|].
  pose proof (report_taken fuel mesg g' g'' m Htaken Hrep) as H3. exact H3.
Qed.

Section OnTheLineX5.
Import Line.

(** The hypotheses of X5 hold in the one-dimensional session: after two
    fetches and the report of candidate 1 at 3, candidate 2 is reported
    at 5. *)
Lemma X5_best_never_rises_witness :
  let g' := pro_state [pro_F; pro_F; pro_R 1 3] in
  let g'' := fst (pro_reported (pro_report 2 5) g') in
  dle (Pro.strategy_best_perf g') (Pro.strategy_best_perf pro_booted) = true
  /\ isnan (Pro.strategy_best_perf g') = false
  /\ Pro.strategy_best_perf g''
     = (if (Pro.strategy_best_perf g' >? Pro.report_perf (pro_report 2 5))%D
        then Pro.report_perf (pro_report 2 5) else Pro.strategy_best_perf g').
Proof.
  cbv zeta.
  apply (@X5_best_never_rises pro_env 5 [pro_F; pro_F; pro_R 1 3] pro_booted
           (pro_state [pro_F; pro_F; pro_R 1 3])
           (fst (pro_reported (pro_report 2 5)
                   (pro_state [pro_F; pro_F; pro_R 1 3])))
           [1; 2]%Z (pro_report 2 5)
           (snd (pro_reported (pro_report 2 5)
                   (pro_state [pro_F; pro_F; pro_R 1 3])))).
  - vm_compute. reflexivity.
  - vm_compute. reflexivity.
  - vm_compute. discriminate.
  - vm_compute. reflexivity.
Defined.

End OnTheLineX5.

Section ProMachine.
Import Pro.
Context {E : Env}.

#[local] Arguments pro_next_state : simpl never.
#[local] Arguments pro_next_simplex : simpl never.
#[local] Arguments check_convergence : simpl never.
#[local] Arguments pro_step : simpl never.

(** From a state the machine is in while searching, [pro_next_state]
    returns 0 and the state is again such a state, other than INIT. *)
Lemma pro_next_state_ok (input : simplex_t) (best_in : Z) (g : pro) :
  initialised (state g) = true ->
  state g <> SIMPLEX_STATE_CONVERGED ->
  fst (pro_next_state input best_in g) = 0%Z
  /\ initialised (state (snd (pro_next_state input best_in g))) = true
  /\ state (snd (pro_next_state input best_in g)) <> SIMPLEX_STATE_CONVERGED
  /\ cfg (snd (pro_next_state input best_in g)) = cfg g.
Proof.
  intros Hi Hc. unfold pro_next_state.
  destruct (state g); try discriminate; try contradiction;
    repeat break; cbn; repeat split; discriminate.
Qed.

Lemma pro_next_simplex_ok (output : simplex_t) (g : pro) :
  initialised (state g) = true -> fst (pro_next_simplex output g) = 0%Z.
Proof.
  intros Hi. unfold pro_next_simplex.
  destruct (state g); try discriminate; reflexivity.
Qed.

(** [check_convergence] writes the state and the configuration key
    together. *)
Lemma check_convergence_flag (g : pro) :
  state g <> SIMPLEX_STATE_CONVERGED ->
  hcfg_get (cfg g) CFGKEY_STRATEGY_CONVERGED <> Some "1"%string ->
  initialised (state g) = true ->
  converged_flag (check_convergence g)
  /\ initialised (state (check_convergence g)) = true.
Proof.
  intros Hs Hc Hi. unfold check_convergence, converged, converged_flag.
  destruct (simplex_collapsed (base g) =? 1)%Z.
  { cbn. repeat split; reflexivity. }
  cbv zeta.
  match goal with
  | |- context [if ?c then _ else _] => destruct c
  end.
  - cbn. repeat split; reflexivity.
  - split; [|exact Hi]. split; intros H; contradiction.
Qed.

Lemma pro_step_ok (g : pro) :
  initialised (state g) = true ->
  state g <> SIMPLEX_STATE_CONVERGED ->
  converged_flag g ->
  fst (pro_step g) = 0%Z
  /\ initialised (state (snd (pro_step g))) = true
  /\ converged_flag (snd (pro_step g)).
Proof.
  intros Hi Hc Hf. unfold pro_step.
  destruct (pro_next_state_ok (test g) (best_test g) g Hi Hc)
    as (N1 & N2 & N3 & N4).
  destruct (pro_next_state (test g) (best_test g) g) as [rc g1].
  cbn [fst snd] in *. subst rc. cbn [Z.eqb negb].
  assert (Hk1 : hcfg_get (cfg g1) CFGKEY_STRATEGY_CONVERGED
                <> Some "1"%string).
  { rewrite N4. intros H. apply Hc. now apply Hf. }
  assert (H2 : converged_flag
                 (if state_eqb (state g1) SIMPLEX_STATE_REFLECT
                  then check_convergence g1 else g1)
               /\ initialised
                    (state (if state_eqb (state g1) SIMPLEX_STATE_REFLECT
                            then check_convergence g1 else g1)) = true).
  { destruct (state_eqb (state g1) SIMPLEX_STATE_REFLECT).
    - now apply check_convergence_flag.
    - split; [|exact N2]. split; intros H; contradiction. }
  set (g2 := if state_eqb (state g1) SIMPLEX_STATE_REFLECT
             then check_convergence g1 else g1) in *.
  destruct H2 as [H2 H3].
  pose proof (pro_next_simplex_ok (test g2) g2 H3) as H4.
  destruct (pro_next_simplex (test g2) g2) as [rc2 out].
  cbn [fst] in H4. subst rc2. cbn [Z.eqb negb fst snd].
  split; [reflexivity|]. split; [exact H3 | exact H2].
Qed.

(** Once initialised, the search loop never fails. *)
Lemma pro_algorithm_ok (fuel : nat) :
  forall (g g' : pro) (rc : Z),
  initialised (state g) = true ->
  converged_flag g ->
  pro_algorithm fuel g = Some (rc, g') ->
  rc = 0%Z /\ initialised (state g') = true /\ converged_flag g'.
Proof.
  induction fuel as [|fuel IH]; intros g g' rc Hi Hf; [discriminate|].
  cbn [pro_algorithm].
  destruct (state_eqb (state g) SIMPLEX_STATE_CONVERGED) eqn:Hs.
  { intros H; injection H as <- <-. auto. }
  assert (Hc : state g <> SIMPLEX_STATE_CONVERGED).
  { intros H. rewrite H in Hs. discriminate. }
  destruct (pro_step_ok g Hi Hc Hf) as (S1 & S2 & S3).
  destruct (pro_step g) as [rc1 g1]. cbn [fst snd] in *. subst rc1.
  cbn [Z.eqb negb].
  destruct (negb (simplex_outofbounds (test g1) =? 0)%Z).
  - intros H. now apply (IH g1 g' rc).
  - intros H; injection H as <- <-. auto.
Qed.

Lemma report_best_answer (mesg : hmesg_t) (g : pro) :
  let '(rc, g', m) := report_best mesg g in
  (rc = 0%Z /\ status m = HMESG_STATUS_OK)
  \/ (rc = (-1)%Z /\ status m = HMESG_STATUS_FAIL
      /\ data_string m = Msg "strerror(errno)").
Proof.
  unfold report_best, ret3. repeat break; cbn; auto.
Qed.

Lemma strategy_report_ok (fuel : nat) (mesg : hmesg_t) (g g' : pro) (rc : Z)
  (m : hmesg_t) :
  initialised (state g) = true ->
  converged_flag g ->
  strategy_report fuel mesg g = Some (rc, g', m) ->
  initialised (state g') = true
  /\ converged_flag g'
  /\ ((rc = 0%Z /\ status m = HMESG_STATUS_OK)
      \/ (rc = (-1)%Z /\ status m = HMESG_STATUS_FAIL
          /\ data_string m = Msg "strerror(errno)")).
Proof.
  intros Hi Hf. unfold strategy_report, ret3. cbv zeta.
  destruct (_ =? simplex_size g)%Z.
  { intros H; injection H as <- <- <-. cbn. auto. }
  set (g1 := if (_ <? _)%D then _ else _).
  assert (H1 : state g1 = state g /\ cfg g1 = cfg g).
  { subst g1. break; split; reflexivity. }
  clearbody g1. destruct H1 as [H1 H1'].
  assert (Hi1 : initialised (state g1) = true) by congruence.
  assert (Hf1 : converged_flag g1).
  { unfold converged_flag in *. now rewrite H1, H1'. }
  assert (Hrb : forall g2, initialised (state g2) = true ->
            converged_flag g2 ->
            let '(rc, g3, m) := report_best mesg g2 in
            initialised (state g3) = true /\ converged_flag g3
            /\ ((rc = 0%Z /\ status m = HMESG_STATUS_OK)
                \/ (rc = (-1)%Z /\ status m = HMESG_STATUS_FAIL
                    /\ data_string m = Msg "strerror(errno)"))).
  { intros g2 Hi2 Hf2.
    pose proof (kept_report_best mesg g2) as Hk.
    pose proof (report_best_answer mesg g2) as Ha.
    destruct (report_best mesg g2) as [[rcb gb] mb]. cbn in Hk.
    destruct Hk as (_ & _ & _ & K1 & K2 & _).
    split; [congruence|]. split; [|exact Ha].
    unfold converged_flag in *. now rewrite K1, K2. }
  destruct (reported g1 =? simplex_size g1)%Z.
  - destruct (pro_algorithm fuel g1) as [[rca ga]|] eqn:Ha; [|discriminate].
    destruct (pro_algorithm_ok fuel g1 ga rca Hi1 Hf1 Ha) as (A1 & A2 & A3).
    subst rca. cbn [Z.eqb negb].
    specialize (Hrb (set_send_idx 0 (set_reported 0 ga)) A2 A3).
    destruct (report_best mesg _) as [[rcb gb] mb].
    intros H; injection H as <- <- <-. exact Hrb.
  - specialize (Hrb g1 Hi1 Hf1).
    destruct (report_best mesg g1) as [[rcb gb] mb].
    intros H; injection H as <- <- <-. exact Hrb.
Qed.

Lemma strategy_fetch_state (mesg : hmesg_t) (g : pro) :
  let g' := snd (fst (strategy_fetch mesg g)) in
  state g' = state g /\ cfg g' = cfg g /\ base g' = base g.
Proof.
  unfold strategy_fetch, ret3, vertex_to_hpoint.
  repeat break; cbn; repeat split.
Qed.

Lemma run_ok (fuel : nat) (ops : list op) :
  forall (g g' : pro) (ids : list Z),
  initialised (state g) = true ->
  converged_flag g ->
  run fuel ops g = Some (ids, g') ->
  initialised (state g') = true /\ converged_flag g'.
Proof.
  induction ops as [|o ops IH]; intros g g' ids Hi Hf; cbn [run].
  { intros H; injection H as _ <-. auto. }
  destruct o as [mesg | mesg].
  - pose proof (strategy_fetch_state mesg g) as Hs.
    destruct (strategy_fetch mesg g) as [[rc g1] m]. cbn in Hs.
    destruct Hs as (S1 & S2 & _).
    destruct (run fuel ops g1) as [[ids1 g2]|] eqn:Hr; [|discriminate].
    intros H; injection H as _ <-.
    apply (IH g1 g2 ids1); [congruence | | exact Hr].
    unfold converged_flag in *. now rewrite S1, S2.
  - destruct (strategy_report fuel mesg g) as [[[rc g1] m]|] eqn:Hrep;
      [|discriminate].
    destruct (strategy_report_ok fuel mesg g g1 rc m Hi Hf Hrep)
      as (R1 & R2 & _).
    intros Hr. now apply (IH g1 g' ids).
Qed.

(** A successful [strategy_init] leaves the machine in INIT, the id
    counter at 1 and the key STRATEGY_CONVERGED at "0". *)
Lemma strategy_init_ok (mesg m : hmesg_t) (g0 g : pro) :
  strategy_init mesg g0 = (0%Z, g, m) ->
  state g = SIMPLEX_STATE_INIT
  /\ next_id g = 1%Z
  /\ hcfg_get (cfg g) CFGKEY_STRATEGY_CONVERGED = Some "0"%string.
Proof.
  unfold strategy_init, ret3.
  destruct (negb (libvertex_init =? 0)%Z); [discriminate|].
  destruct vertex_alloc as [v|]; [|discriminate].
  unfold andthen.
  destruct (strategy_cfg mesg (set_init_point v g0)) as [[rc1 g1] m1].
  destruct (rc1 =? 0)%Z eqn:Hrc1.
  2:{ intros H; injection H as H1 _ _. apply Z.eqb_neq in Hrc1. lia. }
  destruct (hpoint_init _ range_len) as [rc2 c].
  destruct (rc2 <? 0)%Z; [discriminate|].
  cbn [simplex_size set_curr set_strategy_best_perf set_strategy_best].
  destruct (simplex_alloc (simplex_size g1)) as [t|]; [|discriminate].
  cbn [simplex_size set_test set_curr set_strategy_best_perf
       set_strategy_best].
  destruct (simplex_alloc (simplex_size g1)) as [b|]; [|discriminate].
  match goal with
  | |- context [init_simplex _ ?G] => generalize G; intros g2
  end.
  unfold init_simplex, ret3.
  destruct (init_method g2); try discriminate; cbn [Z.eqb];
    match goal with
    | |- context [pro_next_simplex ?T ?G] =>
        pose proof (eq_refl (state G)) as Hst;
        pose proof (eq_refl (next_id G)) as Hid;
        pose proof (eq_refl (hcfg_get (cfg G) CFGKEY_STRATEGY_CONVERGED))
          as Hcf;
        cbn in Hst, Hid, Hcf;
        destruct (pro_next_simplex T G) as [rc3 out]
    end;
    (destruct (negb (rc3 =? 0)%Z); [discriminate|]);
    intros H; injection H as <- _; cbn; repeat split.
Qed.

End ProMachine.

(** X6.  After a successful [strategy_init], whatever the session, the
    state machine stays in a state of its own (never UNKNOWN), so
    [pro_algorithm] never fails: a report returns 0 with status OK, or -1
    with status FAIL and the text of strerror when the copy of the best
    point fails, never "Internal error: PRO algorithm failure". *)
Theorem X6_no_algorithm_failure
  (E : Pro.Env) (fuel : nat) (ops : list Pro.op)
  (mesg0 m0 mesg m : Pro.hmesg_t) (g0 g g' g'' : Pro.pro)
  (ids : list Z) (rc : Z)
  (Hinit : Pro.strategy_init mesg0 g0 = (0%Z, g, m0))
  (Hrun : Pro.run fuel ops g = Some (ids, g'))
  (Hrep : Pro.strategy_report fuel mesg g' = Some (rc, g'', m)) :
  Pro.initialised (Pro.state g') = true
  /\ Pro.initialised (Pro.state g'') = true
  /\ ((rc = 0%Z /\ Pro.status m = Pro.HMESG_STATUS_OK)
      \/ (rc = (-1)%Z /\ Pro.status m = Pro.HMESG_STATUS_FAIL
          /\ Pro.data_string m = Pro.Msg "strerror(errno)")).
Proof.
  destruct (strategy_init_ok mesg0 m0 g0 g Hinit) as (I1 & _ & I3).
  assert (Hi : Pro.initialised (Pro.state g) = true) by now rewrite I1.
  assert (Hf : Pro.converged_flag g).
  { unfold Pro.converged_flag. rewrite I1, I3. split; discriminate. }
  destruct (run_ok fuel ops g g' ids Hi Hf Hrun) as [R1 R2].
  destruct (strategy_report_ok fuel mesg g' g'' rc m R1 R2 Hrep)
    as (S1 & _ & S3).
  repeat split; assumption.
Qed.

(** X7.  The session learns of convergence through its configuration:
    [strategy_init] sets STRATEGY_CONVERGED to "0", and in every state of
    the session the key is "1" exactly when the state machine is
    CONVERGED. *)
Theorem X7_converged_flag
  (E : Pro.Env) (fuel : nat) (ops : list Pro.op)
  (mesg0 m0 : Pro.hmesg_t) (g0 g g' : Pro.pro) (ids : list Z)
  (Hinit : Pro.strategy_init mesg0 g0 = (0%Z, g, m0))
  (Hrun : Pro.run fuel ops g = Some (ids, g')) :
  Pro.hcfg_get (Pro.cfg g) Pro.CFGKEY_STRATEGY_CONVERGED = Some "0"%string
  /\ (Pro.state g' = Pro.SIMPLEX_STATE_CONVERGED
      <-> Pro.hcfg_get (Pro.cfg g') Pro.CFGKEY_STRATEGY_CONVERGED
          = Some "1"%string).
Proof.
  destruct (strategy_init_ok mesg0 m0 g0 g Hinit) as (I1 & _ & I3).
  split; [exact I3|].
  assert (Hi : Pro.initialised (Pro.state g) = true) by now rewrite I1.
  assert (Hf : Pro.converged_flag g).
  { unfold Pro.converged_flag. rewrite I1, I3. split; discriminate. }
  destruct (run_ok fuel ops g g' ids Hi Hf Hrun) as [_ R2]. exact R2.
Qed.

Section OnTheLineX6.
Import Line.

(** The hypotheses of X6 hold in the one-dimensional session: the report
    that completes the first round runs the algorithm. *)
Lemma X6_no_algorithm_failure_witness :
  let g' := snd (pro_run_from pro_booted [pro_F; pro_F; pro_R 1 3]) in
  let r := pro_reported (pro_report 2 5) g' in
  Pro.initialised (Pro.state g') = true
  /\ Pro.initialised (Pro.state (fst r)) = true
  /\ ((0%Z = 0%Z /\ Pro.status (snd r) = Pro.HMESG_STATUS_OK)
      \/ (0%Z = (-1)%Z /\ Pro.status (snd r) = Pro.HMESG_STATUS_FAIL
          /\ Pro.data_string (snd r) = Pro.Msg "strerror(errno)")).
Proof.
  cbv zeta.
  apply (@X6_no_algorithm_failure pro_env 5 [pro_F; pro_F; pro_R 1 3]
           pro_mesg
           (snd (Pro.strategy_init pro_mesg (Pro.pro_start pro_cfg_none)))
           (pro_report 2 5)
           (snd (pro_reported (pro_report 2 5)
                   (snd (pro_run_from pro_booted [pro_F; pro_F; pro_R 1 3]))))
           (Pro.pro_start pro_cfg_none) pro_booted
           (snd (pro_run_from pro_booted [pro_F; pro_F; pro_R 1 3]))
           (fst (pro_reported (pro_report 2 5)
                   (snd (pro_run_from pro_booted [pro_F; pro_F; pro_R 1 3]))))
           (fst (pro_run_from pro_booted [pro_F; pro_F; pro_R 1 3]))
           0%Z).
  - vm_compute. reflexivity.
  - vm_compute. reflexivity.
  - vm_compute. reflexivity.
Defined.

(** The hypotheses of X7 hold in the session with the small initial
    simplex, which converges when its two vertices are both reported
    at 3. *)
Lemma X7_converged_flag_witness :
  let g := pro_boot pro_cfg_small in
  let g' := snd (pro_run_from g [pro_F; pro_F; pro_R 1 3; pro_R 2 3]) in
  Pro.hcfg_get (Pro.cfg g) Pro.CFGKEY_STRATEGY_CONVERGED = Some "0"%string
  /\ (Pro.state g' = Pro.SIMPLEX_STATE_CONVERGED
      <-> Pro.hcfg_get (Pro.cfg g') Pro.CFGKEY_STRATEGY_CONVERGED
          = Some "1"%string).
Proof.
  cbv zeta.
  apply (@X7_converged_flag pro_env 5 [pro_F; pro_F; pro_R 1 3; pro_R 2 3]
           pro_mesg
           (snd (Pro.strategy_init pro_mesg (Pro.pro_start pro_cfg_small)))
           (Pro.pro_start pro_cfg_small) (pro_boot pro_cfg_small)
           (snd (pro_run_from (pro_boot pro_cfg_small)
                   [pro_F; pro_F; pro_R 1 3; pro_R 2 3]))
           (fst (pro_run_from (pro_boot pro_cfg_small)
                   [pro_F; pro_F; pro_R 1 3; pro_R 2 3]))).
  - vm_compute. reflexivity.
  - vm_compute. reflexivity.
Defined.

End OnTheLineX6.

Section MapFacts.
Context {A B : Type}.

(** Writing a cell whose image under [f] is the one it had leaves the
    image of the array as it was. *)
Lemma map_upd_nat (f : A -> B) (d : A) (l : list A) (n : nat) (x : A) :
  f x = f (nth n l d) -> map f (upd_nat l n x) = map f l.
Proof.
  revert n; induction l as [|h t IH]; intros [|n]; simpl; intros H; auto.
  - now rewrite H.
  - now rewrite IH.
Qed.

Lemma map_zset (f : A -> B) (d : A) (l : list A) (i : Z) (x : A) :
  f x = f (zget d l i) -> map f (zset l i x) = map f l.
Proof.
  unfold zset, zget. destruct (i <? 0)%Z; [reflexivity|].
  apply map_upd_nat.
Qed.

End MapFacts.

Section ProConverged.
Import Pro.
Context {E : Env}.

(** A fetch writes an id in the candidate simplex, no coordinate. *)
Lemma strategy_fetch_terms (mesg : hmesg_t) (g : pro) :
  map term (test (snd (fst (strategy_fetch mesg g)))) = map term (test g).
Proof.
  unfold strategy_fetch, ret3, vertex_to_hpoint.
  repeat break; cbn; try reflexivity;
    apply (map_zset term vertex0); reflexivity.
Qed.

(** In CONVERGED a report stores the performance and nothing else
    moves. *)
Lemma converged_report (fuel : nat) (mesg : hmesg_t) (g : pro) :
  fuel <> 0%nat ->
  state g = SIMPLEX_STATE_CONVERGED ->
  exists rc g' m,
    strategy_report fuel mesg g = Some (rc, g', m)
    /\ state g' = state g /\ base g' = base g /\ cfg g' = cfg g
    /\ map term (test g') = map term (test g).
Proof.
  intros Hfuel Hs. unfold strategy_report, ret3. cbv zeta.
  destruct (_ =? simplex_size g)%Z.
  { do 3 eexists. split; [reflexivity|]. repeat split. }
  set (g1 := if (_ <? _)%D then _ else _).
  assert (H1 : state g1 = state g /\ base g1 = base g /\ cfg g1 = cfg g
               /\ map term (test g1) = map term (test g)).
  { subst g1. break; cbn; repeat split;
      apply (map_zset term vertex0); reflexivity. }
  clearbody g1. destruct H1 as (S1 & S2 & S3 & S4).
  assert (Hrb : forall g2,
            state g2 = state g -> base g2 = base g -> cfg g2 = cfg g ->
            map term (test g2) = map term (test g) ->
            exists rc g' m,
              Some (report_best mesg g2) = Some (rc, g', m)
              /\ state g' = state g /\ base g' = base g /\ cfg g' = cfg g
              /\ map term (test g') = map term (test g)).
  { intros g2 T1 T2 T3 T4.
    pose proof (kept_report_best mesg g2) as Hk.
    destruct (report_best mesg g2) as [[rcb gb] mb]. cbn in Hk.
    destruct Hk as (_ & _ & _ & K1 & K2 & K3 & K4).
    exists rcb, gb, mb. split; [reflexivity|].
    repeat split; congruence. }
  destruct (reported g1 =? simplex_size g1)%Z.
  - destruct fuel as [|fuel]; [contradiction|].
    assert (Hc1 : state_eqb (state g1) SIMPLEX_STATE_CONVERGED = true)
      by (rewrite S1, Hs; reflexivity).
    cbn [pro_algorithm]. rewrite Hc1. cbn [Z.eqb negb].
    apply Hrb; cbn; assumption.
  - apply Hrb; assumption.
Qed.

Lemma converged_run_pro (fuel : nat) (Hfuel : fuel <> 0%nat) :
  forall (ops : list op) (g : pro),
  state g = SIMPLEX_STATE_CONVERGED ->
  exists ids g',
    run fuel ops g = Some (ids, g')
    /\ state g' = SIMPLEX_STATE_CONVERGED
    /\ base g' = base g /\ cfg g' = cfg g
    /\ map term (test g') = map term (test g).
Proof.
  induction ops as [|o ops IH]; intros g Hs; cbn [run].
  { exists [], g. repeat split. exact Hs. }
  destruct o as [mesg | mesg].
  - pose proof (strategy_fetch_state mesg g) as Hf.
    pose proof (strategy_fetch_terms mesg g) as Ht.
    destruct (strategy_fetch mesg g) as [[rc g1] m]. cbn in Hf, Ht.
    destruct Hf as (F1 & F2 & F3).
    destruct (IH g1 ltac:(congruence)) as (ids & g2 & Hr & R1 & R2 & R3 & R4).
    rewrite Hr. do 2 eexists. split; [reflexivity|].
    repeat split; congruence.
  - destruct (converged_report fuel mesg g Hfuel Hs)
      as (rc & g1 & m & Hrep & S1 & S2 & S3 & S4).
    rewrite Hrep.
    destruct (IH g1 ltac:(congruence)) as (ids & g2 & Hr & R1 & R2 & R3 & R4).
    exists ids, g2. split; [exact Hr|]. repeat split; congruence.
Qed.

End ProConverged.

(** X8.  CONVERGED is final for PRO.  From a CONVERGED state every session
    of fetches and reports returns, the state stays CONVERGED, and the
    reference simplex, the configuration and the coordinates of the
    candidate simplex are never written again: the strategy keeps handing
    out the points of its last simplex. *)
Theorem X8_converged_is_final
  (E : Pro.Env) (fuel : nat) (ops : list Pro.op) (g : Pro.pro)
  (Hfuel : fuel <> 0%nat)
  (Hconv : Pro.state g = Pro.SIMPLEX_STATE_CONVERGED) :
  exists ids g',
    Pro.run fuel ops g = Some (ids, g')
    /\ Pro.state g' = Pro.SIMPLEX_STATE_CONVERGED
    /\ Pro.base g' = Pro.base g
    /\ Pro.cfg g' = Pro.cfg g
    /\ map Pro.term (Pro.test g') = map Pro.term (Pro.test g).
Proof. exact (converged_run_pro fuel Hfuel ops g Hconv). Qed.

Section OnTheLineX8.
Import Line.

(** The hypotheses of X8 hold in the session with the small initial
    simplex, once it has converged. *)
Lemma X8_converged_is_final_witness :
  let g := snd (pro_run_from (pro_boot pro_cfg_small)
                  [pro_F; pro_F; pro_R 1 3; pro_R 2 3]) in
  exists ids g',
    Pro.run 5 [pro_F; pro_F; pro_R 3 1; pro_R 4 2; pro_F] g = Some (ids, g')
    /\ Pro.state g' = Pro.SIMPLEX_STATE_CONVERGED
    /\ Pro.base g' = Pro.base g
    /\ Pro.cfg g' = Pro.cfg g
    /\ map Pro.term (Pro.test g') = map Pro.term (Pro.test g).
Proof.
  cbv zeta.
  apply (@X8_converged_is_final pro_env 5
           [pro_F; pro_F; pro_R 3 1; pro_R 4 2; pro_F]
           (snd (pro_run_from (pro_boot pro_cfg_small)
                   [pro_F; pro_F; pro_R 1 3; pro_R 2 3]))).
  - discriminate.
  - vm_compute. reflexivity.
Defined.

End OnTheLineX8.

Section ProConfig.
Import Pro.
Context {E : Env}.

Lemma andthen_inv_pro (P : pro -> Prop) (r : Z * pro * hmesg_t)
  (k : hmesg_t -> pro -> Z * pro * hmesg_t) :
  P (snd (fst r)) -> (forall m g, P g -> P (snd (fst (k m g)))) ->
  P (snd (fst (andthen r k))).
Proof.
  intros Hr Hk. unfold andthen. destruct r as [[rc g] m]. cbn in Hr.
  destruct (rc =? 0)%Z; cbn; auto.
Qed.

(** The checks of the coefficients never write [simplex_size]. *)
Lemma simplex_size_checks (mesg : hmesg_t) (g : pro) :
  simplex_size
    (snd (fst
       (andthen (cfg_init_method mesg g) (fun mesg g =>
        andthen (cfg_init_percent mesg g) (fun mesg g =>
        andthen (cfg_reflect mesg g) (fun mesg g =>
        andthen (cfg_expand mesg g) (fun mesg g =>
        andthen (cfg_contract mesg g) (fun mesg g =>
        andthen (cfg_shrink mesg g) (fun mesg g =>
        andthen (cfg_converge_fv mesg g) (fun mesg g =>
        cfg_converge_sz mesg g))))))))))
  = simplex_size g.
Proof.
  apply (andthen_inv_pro (fun g' => simplex_size g' = simplex_size g)).
  { unfold cfg_init_method, ret3. repeat break; reflexivity. }
  intros m1 g1 H1.
  apply (andthen_inv_pro (fun g' => simplex_size g' = simplex_size g)).
  { unfold cfg_init_percent, ret3. repeat break; exact H1. }
  intros m2 g2 H2.
  apply (andthen_inv_pro (fun g' => simplex_size g' = simplex_size g)).
  { unfold cfg_reflect, ret3. repeat break; exact H2. }
  intros m3 g3 H3.
  apply (andthen_inv_pro (fun g' => simplex_size g' = simplex_size g)).
  { unfold cfg_expand, ret3. repeat break; exact H3. }
  intros m4 g4 H4.
  apply (andthen_inv_pro (fun g' => simplex_size g' = simplex_size g)).
  { unfold cfg_contract, ret3. repeat break; exact H4. }
  intros m5 g5 H5.
  apply (andthen_inv_pro (fun g' => simplex_size g' = simplex_size g)).
  { unfold cfg_shrink, ret3. repeat break; exact H5. }
  intros m6 g6 H6.
  apply (andthen_inv_pro (fun g' => simplex_size g' = simplex_size g)).
  { unfold cfg_converge_fv, ret3. repeat break; exact H6. }
  intros m7 g7 H7.
  unfold cfg_converge_sz, ret3. repeat break; exact H7.
Qed.

End ProConfig.

(** X1.  "Make sure the simplex size is N+1 or greater": whatever the
    configuration holds and whether [strategy_cfg] succeeds or not,
    afterwards [simplex_size] is the larger of range_len + 1 and the value
    read from PRO_SIMPLEX_SIZE (the value it had, when the key is not
    set). *)
Theorem X1_simplex_size_floor
  (E : Pro.Env) (mesg : Pro.hmesg_t) (g : Pro.pro) :
  Pro.simplex_size (snd (fst (Pro.strategy_cfg mesg g)))
  = Z.max (match Pro.hcfg_get (Pro.cfg g) Pro.CFGKEY_PRO_SIMPLEX_SIZE with
           | Some cfgval => Pro.atoi cfgval
           | None => Pro.simplex_size g
           end)
      (Pro.range_len + 1).
Proof.
  unfold Pro.strategy_cfg. cbv zeta. rewrite simplex_size_checks.
  assert (H1 : forall g1, Pro.simplex_size (Pro.cfg_random_seed g1)
                          = Pro.simplex_size g1).
  { intros g1. unfold Pro.cfg_random_seed. break; reflexivity. }
  assert (H2 : forall g1, Pro.simplex_size (Pro.cfg_prefetch_count g1)
                          = Pro.simplex_size g1).
  { intros g1. unfold Pro.cfg_prefetch_count. repeat break; reflexivity. }
  rewrite H1, H2. unfold Pro.cfg_simplex_size.
  destruct (Pro.hcfg_get (Pro.cfg g) Pro.CFGKEY_PRO_SIMPLEX_SIZE) as [v|];
    cbv zeta;
    match goal with
    | |- context [(?a <? ?b)%Z] => destruct (Z.ltb_spec a b)
    end; cbn in *; lia.
Qed.

(** X2.  With no key set, [strategy_cfg] returns 0, writes no message and
    leaves every option at the value it had: it only raises
    [simplex_size] to range_len + 1 and seeds the generator with the
    time. *)
Theorem X2_unset_keys_keep_defaults
  (E : Pro.Env) (mesg : Pro.hmesg_t) (g : Pro.pro)
  (Hnone : forall k, Pro.hcfg_get (Pro.cfg g) k = None) :
  Pro.strategy_cfg mesg g
  = (0%Z,
     Pro.set_seed Pro.time_now
       (if (Pro.simplex_size g <? Pro.range_len + 1)%Z
        then Pro.set_simplex_size (Pro.range_len + 1) g else g),
     mesg).
Proof.
  unfold Pro.hcfg_get in Hnone.
  unfold Pro.strategy_cfg, Pro.cfg_simplex_size, Pro.hcfg_get.
  rewrite Hnone. cbv zeta.
  set (g1 := if (_ <? _)%Z then _ else _).
  assert (Hc : Pro.cfg g1 = Pro.cfg g) by (subst g1; break; reflexivity).
  clearbody g1.
  unfold Pro.cfg_prefetch_count, Pro.hcfg_get. rewrite Hc, Hnone.
  unfold Pro.cfg_random_seed, Pro.hcfg_get. rewrite Hc, Hnone.
  unfold Pro.cfg_init_method, Pro.cfg_init_percent, Pro.cfg_reflect,
    Pro.cfg_expand, Pro.cfg_contract, Pro.cfg_shrink, Pro.cfg_converge_fv,
    Pro.cfg_converge_sz, Pro.andthen, Pro.ret3, Pro.hcfg_get.
  repeat (progress (cbn; rewrite ?Hc, ?Hnone)). reflexivity.
Qed.

Section OnTheLineX2.
Import Line.

(** The hypothesis of X2 holds in the session with no key set. *)
Lemma X2_unset_keys_keep_defaults_witness :
  Pro.strategy_cfg pro_mesg (Pro.pro_start pro_cfg_none)
  = (0%Z,
     Pro.set_seed Pro.time_now
       (if (Pro.simplex_size (Pro.pro_start pro_cfg_none)
            <? Pro.range_len + 1)%Z
        then Pro.set_simplex_size (Pro.range_len + 1)
               (Pro.pro_start pro_cfg_none)
        else Pro.pro_start pro_cfg_none),
     pro_mesg).
Proof.
  apply (@X2_unset_keys_keep_defaults pro_env pro_mesg
           (Pro.pro_start pro_cfg_none)).
  intros k. reflexivity.
Defined.

End OnTheLineX2.

(** X3.  PRO_REFLECT is stored before it is checked.  With PRO_REFLECT the
    only key set, [strategy_cfg] leaves in [reflect_coefficient] the number
    strtod reads, also when it rejects it; it returns -1 with "Invalid
    value" when text follows the number, -1 with "must be positive" when
    the number is <= 0, and 0 otherwise, which includes a value that is
    not a number. *)
Theorem X3_reflect_stored_then_checked
  (E : Pro.Env) (mesg : Pro.hmesg_t) (g : Pro.pro) (s : string)
  (Hkeys : forall k, k <> Pro.CFGKEY_PRO_REFLECT ->
                     Pro.hcfg_get (Pro.cfg g) k = None)
  (Hrefl : Pro.hcfg_get (Pro.cfg g) Pro.CFGKEY_PRO_REFLECT = Some s) :
  let '(rc, g', m) := Pro.strategy_cfg mesg g in
  let v := fst (Pro.strtod s) in
  let endp := snd (Pro.strtod s) in
  Pro.reflect_coefficient g' = v
  /\ (if Pro.nonempty endp
      then rc = (-1)%Z
           /\ Pro.data_string m
              = Pro.Invalid_value_for Pro.CFGKEY_PRO_REFLECT
      else if (v <=? Fin 0)%D
      then rc = (-1)%Z
           /\ Pro.data_string m = Pro.Must_be_positive Pro.CFGKEY_PRO_REFLECT
      else rc = 0%Z /\ m = mesg)
  /\ (Pro.nonempty endp = false -> isnan v = true -> rc = 0%Z).
Proof.
  unfold Pro.hcfg_get in Hkeys, Hrefl.
  assert (K1 := Hkeys Pro.CFGKEY_PRO_SIMPLEX_SIZE ltac:(discriminate)).
  assert (K2 := Hkeys Pro.CFGKEY_PREFETCH_COUNT ltac:(discriminate)).
  assert (K3 := Hkeys Pro.CFGKEY_RANDOM_SEED ltac:(discriminate)).
  assert (K4 := Hkeys Pro.CFGKEY_PRO_INIT_METHOD ltac:(discriminate)).
  assert (K5 := Hkeys Pro.CFGKEY_PRO_INIT_PERCENT ltac:(discriminate)).
  assert (K6 := Hkeys Pro.CFGKEY_PRO_EXPAND ltac:(discriminate)).
  assert (K7 := Hkeys Pro.CFGKEY_PRO_CONTRACT ltac:(discriminate)).
  assert (K8 := Hkeys Pro.CFGKEY_PRO_SHRINK ltac:(discriminate)).
  assert (K9 := Hkeys Pro.CFGKEY_PRO_CONVERGE_FV ltac:(discriminate)).
  assert (K10 := Hkeys Pro.CFGKEY_PRO_CONVERGE_SZ ltac:(discriminate)).
  unfold Pro.strategy_cfg, Pro.cfg_simplex_size, Pro.hcfg_get.
  rewrite K1. cbv zeta.
  set (g1 := if (_ <? _)%Z then _ else _).
  assert (Hc : Pro.cfg g1 = Pro.cfg g) by (subst g1; break; reflexivity).
  clearbody g1.
  unfold Pro.cfg_prefetch_count, Pro.hcfg_get. rewrite Hc, K2.
  unfold Pro.cfg_random_seed, Pro.hcfg_get. rewrite Hc, K3.
  unfold Pro.cfg_init_method, Pro.cfg_init_percent, Pro.cfg_reflect,
    Pro.cfg_expand, Pro.cfg_contract, Pro.cfg_shrink, Pro.cfg_converge_fv,
    Pro.cfg_converge_sz, Pro.andthen, Pro.ret3, Pro.hcfg_get.
  repeat (progress (cbn; rewrite ?Hc, ?K4, ?K5)).
  rewrite Hrefl.
  destruct (Pro.strtod s) as [v endp]. cbn [fst snd].
  destruct (Pro.nonempty endp).
  { cbn. repeat split; discriminate. }
  cbn [Pro.reflect_coefficient Pro.set_reflect_coefficient].
  destruct (v <=? Fin 0)%D eqn:Hv.
  { cbn. repeat split. intros _ Hn. destruct v; discriminate. }
  repeat (progress (cbn; rewrite ?Hc, ?K6, ?K7, ?K8, ?K9, ?K10)).
  repeat split.
Qed.

Section OnTheLineX3.
Import Line.

(** The hypotheses of X3 hold in the session where PRO_REFLECT = 0.5 is
    the only key set. *)
Lemma X3_reflect_stored_then_checked_witness :
  let '(rc, g', m) :=
    Pro.strategy_cfg pro_mesg (Pro.pro_start pro_cfg_reflect) in
  let v := fst (Pro.strtod "0.5"%string) in
  let endp := snd (Pro.strtod "0.5"%string) in
  Pro.reflect_coefficient g' = v
  /\ (if Pro.nonempty endp
      then rc = (-1)%Z
           /\ Pro.data_string m
              = Pro.Invalid_value_for Pro.CFGKEY_PRO_REFLECT
      else if (v <=? Fin 0)%D
      then rc = (-1)%Z
           /\ Pro.data_string m = Pro.Must_be_positive Pro.CFGKEY_PRO_REFLECT
      else rc = 0%Z /\ m = pro_mesg)
  /\ (Pro.nonempty endp = false -> isnan v = true -> rc = 0%Z).
Proof.
  apply (@X3_reflect_stored_then_checked pro_env pro_mesg
           (Pro.pro_start pro_cfg_reflect) "0.5"%string).
  - intros k Hk. destruct k; try reflexivity. contradiction.
  - reflexivity.
Defined.

End OnTheLineX3.

Section ProTaken.
Import Pro.
Context {E : Env}.

(** The search loop stops at or before a vertex that carries the id. *)
Lemma find_id_le (cand_id : Z) (s : simplex_t) (j : Z) :
  id (vget s j) = cand_id ->
  forall (n : nat) (i : Z),
  (i <= j < i + Z.of_nat n)%Z ->
  (i <= find_id n i cand_id s <= j)%Z.
Proof.
  intros Hj. induction n as [|n IH]; intros i Hi; [lia|].
  cbn [find_id].
  destruct (cand_id =? id (vget s i))%Z eqn:Hc; [lia|].
  apply Z.eqb_neq in Hc.
  assert (i <> j) by (intros ->; congruence).
  specialize (IH (i + 1)%Z ltac:(lia)). lia.
Qed.

End ProTaken.

(** X9.  A candidate that [strategy_fetch] has just emitted is not a rogue
    one: the vertex at [send_idx] carries its id, so the search loop of
    [strategy_report] stops at an index of the candidate simplex, at or
    before that vertex. *)
Theorem X9_fetched_is_taken
  (E : Pro.Env) (mesg m : Pro.hmesg_t) (g g1 : Pro.pro)
  (Hidx : (0 <= Pro.send_idx g < zlen (Pro.test g))%Z)
  (Hsize : (Pro.send_idx g < Pro.simplex_size g)%Z)
  (Hfetch : Pro.strategy_fetch mesg g = (0%Z, g1, m))
  (Hok : Pro.status_ok m = true) :
  Pro.hp_id (Pro.fetch_cand m) = Pro.next_id g
  /\ (0 <= Pro.find_id (Z.to_nat (Pro.simplex_size g1)) 0
             (Pro.hp_id (Pro.fetch_cand m)) (Pro.test g1)
      <= Pro.send_idx g)%Z
  /\ Pro.find_id (Z.to_nat (Pro.simplex_size g1)) 0
       (Pro.hp_id (Pro.fetch_cand m)) (Pro.test g1)
     <> Pro.simplex_size g1.
Proof.
  assert (Hfacts :
    Pro.hp_id (Pro.fetch_cand m) = Pro.next_id g
    /\ Pro.simplex_size g1 = Pro.simplex_size g
    /\ Pro.id (Pro.vget (Pro.test g1) (Pro.send_idx g)) = Pro.next_id g).
  { revert Hfetch. unfold Pro.strategy_fetch, Pro.ret3, Pro.vertex_to_hpoint.
    destruct (Pro.send_idx g =? Pro.simplex_size g)%Z eqn:Hs.
    { apply Z.eqb_eq in Hs. lia. }
    destruct (Pro.vertex_to_hpoint_term _) as [rc t].
    destruct (rc <? 0)%Z; [discriminate|].
    assert (Hv : Pro.id (Pro.vget
                   (zset (Pro.test g) (Pro.send_idx g)
                      (Pro.set_id (Pro.next_id g)
                         (Pro.vget (Pro.test g) (Pro.send_idx g))))
                   (Pro.send_idx g)) = Pro.next_id g).
    { unfold Pro.vget at 1. now rewrite zget_zset_same. }
    cbn.
    destruct (Pro.hp_id (Pro.fetch_best mesg)
              <? Pro.hp_id (Pro.strategy_best g))%Z; cbn.
    - destruct (Pro.hpoint_copy Pro.HPOINT_INITIALIZER (Pro.strategy_best g))
        as [rc2 b].
      destruct (rc2 <? 0)%Z; [discriminate|].
      intros H; injection H as <- <-. cbn. repeat split. exact Hv.
    - intros H; injection H as <- <-. cbn. repeat split. exact Hv. }
  destruct Hfacts as (F1 & F2 & F3).
  split; [exact F1|].
  assert (Hle := find_id_le (Pro.hp_id (Pro.fetch_cand m)) (Pro.test g1)
                   (Pro.send_idx g) ltac:(congruence)
                   (Z.to_nat (Pro.simplex_size g1)) 0%Z ltac:(lia)).
  split; [exact Hle | lia].
Qed.

Section OnTheLineX9.
Import Line.

(** The hypotheses of X9 hold at the first fetch of the one-dimensional
    session. *)
Lemma X9_fetched_is_taken_witness :
  let r := Pro.strategy_fetch pro_mesg pro_booted in
  Pro.hp_id (Pro.fetch_cand (snd r)) = Pro.next_id pro_booted
  /\ (0 <= Pro.find_id (Z.to_nat (Pro.simplex_size (snd (fst r)))) 0
             (Pro.hp_id (Pro.fetch_cand (snd r))) (Pro.test (snd (fst r)))
      <= Pro.send_idx pro_booted)%Z
  /\ Pro.find_id (Z.to_nat (Pro.simplex_size (snd (fst r)))) 0
       (Pro.hp_id (Pro.fetch_cand (snd r))) (Pro.test (snd (fst r)))
     <> Pro.simplex_size (snd (fst r)).
Proof.
  cbv zeta.
  apply (@X9_fetched_is_taken pro_env pro_mesg
           (snd (Pro.strategy_fetch pro_mesg pro_booted)) pro_booted
           (snd (fst (Pro.strategy_fetch pro_mesg pro_booted)))).
  - vm_compute. split; [discriminate | reflexivity].
  - vm_compute. reflexivity.
  - vm_compute. reflexivity.
  - vm_compute. reflexivity.
Defined.

End OnTheLineX9.

(* ================================================================= *)
(** * Further properties of angel.c *)

(** X17.  A generate is not repeated.  Whatever the first call returns,
    also -1 when no point could be made from the vertex, it has tagged the
    vertex [data->next] points to with next_id, so every generate that
    follows answers WAIT with return value 0 and writes nothing, until a
    trial is analysed. *)
Theorem X17_generate_then_wait
  (E : Angel.Env) (flow flow' : Angel.hflow_t) (point point' : Angel.hpoint_t)
  (d : Angel.data_t)
  (Hnext : Angel.valid_ref d (Angel.next d)) :
  let d1 := snd (fst (fst (Angel.strategy_generate flow point d))) in
  Angel.strategy_generate flow' point' d1
  = (0%Z, d1,
     {| Angel.status := Angel.HFLOW_WAIT; Angel.point := Angel.point flow' |},
     point').
Proof.
  cbv zeta.
  pose proof (converged_generate flow point d Hnext) as Hg.
  destruct (Angel.strategy_generate flow point d) as [[[rc d1] f1] p1].
  cbn [fst snd].
  destruct Hg as (_ & _ & G3 & _ & G5 & _).
  unfold Angel.strategy_generate.
  replace (Angel.id (Angel.deref d1 (Angel.next d1)) =? Angel.next_id d1)%Z
    with true by (symmetry; apply Z.eqb_eq; congruence).
  reflexivity.
Qed.

Section OnTheLineX17.
Import Line.

(** The hypothesis of X17 holds after [strategy_init] in the
    one-dimensional session. *)
Lemma X17_generate_then_wait_witness :
  let d := angel_boot angel_defaults in
  let d1 := snd (fst (fst (Angel.strategy_generate angel_flow Angel.hpoint0
                             d))) in
  Angel.strategy_generate angel_flow Angel.hpoint0 d1
  = (0%Z, d1,
     {| Angel.status := Angel.HFLOW_WAIT;
        Angel.point := Angel.point angel_flow |},
     Angel.hpoint0).
Proof.
  cbv zeta.
  apply (@X17_generate_then_wait angel_env angel_flow angel_flow
           Angel.hpoint0 Angel.hpoint0 (angel_boot angel_defaults)).
  vm_compute. split; congruence.
Defined.

End OnTheLineX17.

Section Rejected.
Import Angel.
Context {E : Env}.

#[local] Arguments assign : simpl never.
#[local] Arguments reset_next_perf : simpl never.

Lemma opts_reset_next_perf (d : data_t) : opts (reset_next_perf d) = opts d.
Proof. unfold reset_next_perf. apply opts_assign. Qed.

Lemma next_id_reset_next_perf (d : data_t) :
  next_id (reset_next_perf d) = next_id d.
Proof. unfold reset_next_perf. apply next_id_assign. Qed.

(** What [strategy_rejected] does to the id counter and the options, and
    the id it answers with. *)
Lemma rejected_facts (fuel : nat) (flow flow' : hflow_t)
  (point point' : hpoint_t) (d d' : data_t) (rc : Z) :
  strategy_rejected fuel flow point d = Some (rc, d', flow', point') ->
  next_id d' = next_id d
  /\ opts d' = opts d
  /\ (rc = 0%Z ->
      status flow' = HFLOW_ACCEPT
      /\ hp_id point'
         = if negb (hp_id (Angel.point flow) =? 0)%Z then hp_id point
           else match reject_type d with
                | REJECT_METHOD_PENALTY | REJECT_METHOD_RANDOM => next_id d
                | _ => hp_id point
                end).
Proof.
  unfold strategy_rejected. cbv zeta.
  destruct (negb (hp_id (Angel.point flow) =? 0)%Z).
  { destruct (vertex_set _ _) as [rc1 v].
    destruct (negb (rc1 =? 0)%Z).
    { intros H; injection H as <- <- _ _.
      rewrite next_id_assign, opts_assign. repeat split; auto; try congruence. }
    unfold hpoint_copy. cbn [negb Z.eqb].
    intros H; injection H as <- <- <- <-.
    rewrite next_id_assign, opts_assign. repeat split. }
  destruct (reject_type d) eqn:Hrt.
  - intros H; injection H as <- <- <- <-. repeat split.
  - destruct (nm_algorithm fuel (reset_next_perf d)) as [[rca da]|] eqn:Ha;
      [|discriminate].
    apply core_nm_algorithm in Ha.
    assert (Hn : next_id da = next_id d).
    { unfold core in Ha. rewrite <- (next_id_reset_next_perf d). congruence. }
    assert (Ho : opts da = opts d).
    { unfold core in Ha. rewrite <- (opts_reset_next_perf d). congruence. }
    destruct (negb (rca =? 0)%Z).
    { intros H; injection H as <- <- _ _. repeat split; auto; try congruence. }
    unfold vertex_point.
    destruct (vertex_point_term _) as [rcp t].
    destruct (negb (rcp =? 0)%Z);
      intros H; injection H as <- <- <- <-;
      rewrite next_id_assign, opts_assign; repeat split; auto;
      try congruence.
  - destruct (vertex_random _ _ _) as [[rc1 v] sd].
    assert (Hs : forall x y, next_id (set_seed x y) = next_id y
                             /\ opts (set_seed x y) = opts y
                             /\ deref (set_seed x y) (next (set_seed x y))
                                = deref y (next y)
                             /\ next (set_seed x y) = next y).
    { intros x y. repeat split; destruct (next y); reflexivity. }
    destruct (negb (rc1 =? 0)%Z).
    { intros H; injection H as <- <- _ _.
      destruct (Hs sd (assign (next d) v d)) as (S1 & S2 & _).
      rewrite S1, S2, next_id_assign, opts_assign.
      repeat split; auto; try congruence. }
    unfold vertex_point.
    destruct (vertex_point_term _) as [rcp t].
    destruct (Hs sd (assign (next d) v d)) as (S1 & S2 & S3 & S4).
    destruct (negb (rcp =? 0)%Z);
      intros H; injection H as <- <- <- <-;
      rewrite next_id_assign, opts_assign, ?S1, ?S2, ?next_id_assign,
        ?opts_assign; repeat split; auto; try congruence.
  - intros H; injection H as <- <- <- <-. repeat split.
Qed.

End Rejected.

(** X18.  A rejection never consumes an id.  [strategy_rejected] leaves
    next_id as it is; when it returns 0 the flow is ACCEPT and the point
    handed back carries the id of the rejected point (with a hint), or
    next_id, the id of the outstanding candidate (penalty and random
    methods).  With no hint and a reject method that is neither, it
    accepts the rejected point as it is and writes nothing. *)
Theorem X18_rejected_reuses_id
  (E : Angel.Env) (fuel : nat) (flow flow' : Angel.hflow_t)
  (point point' : Angel.hpoint_t) (d d' : Angel.data_t) (rc : Z)
  (Hrej : Angel.strategy_rejected fuel flow point d
          = Some (rc, d', flow', point')) :
  Angel.next_id d' = Angel.next_id d
  /\ (rc = 0%Z ->
      Angel.status flow' = Angel.HFLOW_ACCEPT
      /\ Angel.hp_id point'
         = if negb (Angel.hp_id (Angel.point flow) =? 0)%Z
           then Angel.hp_id point
           else match Angel.reject_type d with
                | Angel.REJECT_METHOD_PENALTY
                | Angel.REJECT_METHOD_RANDOM => Angel.next_id d
                | _ => Angel.hp_id point
                end)
  /\ (Angel.hp_id (Angel.point flow) = 0%Z ->
      Angel.reject_type d <> Angel.REJECT_METHOD_PENALTY ->
      Angel.reject_type d <> Angel.REJECT_METHOD_RANDOM ->
      rc = 0%Z /\ d' = d /\ point' = point).
Proof.
  destruct (rejected_facts fuel flow flow' point point' d d' rc Hrej)
    as (F1 & _ & F3).
  split; [exact F1|]. split; [exact F3|].
  intros Hh Hp Hr. revert Hrej. unfold Angel.strategy_rejected.
  rewrite Hh. cbn [Z.eqb negb].
  destruct (Angel.reject_type d); try contradiction;
    intros H; injection H as <- <- _ <-; repeat split.
Qed.

(** X12.  The options are written by [strategy_init] only: a session of
    generate and analyze calls, and a rejection, leave the objective
    count, the tolerances, the flags, the initial radius, the reject
    method and the four coefficients as they are. *)
Theorem X12_options_frozen
  (E : Angel.Env) (fuel : nat) (ops : list Angel.op)
  (flow flow' : Angel.hflow_t) (point point' : Angel.hpoint_t)
  (d d1 d2 : Angel.data_t) (evs : list Angel.event) (rc : Z)
  (Hrun : Angel.run fuel ops d = Some (evs, d1))
  (Hrej : Angel.strategy_rejected fuel flow point d1
          = Some (rc, d2, flow', point')) :
  Angel.opts d1 = Angel.opts d /\ Angel.opts d2 = Angel.opts d.
Proof.
  pose proof (opts_run fuel ops d d1 evs Hrun) as H1.
  destruct (rejected_facts fuel flow flow' point point' d1 d2 rc Hrej)
    as (_ & F2 & _).
  split; congruence.
Qed.

Section OnTheLineX18.
Import Line.

(** The hypothesis of X18 holds in the one-dimensional session: the first
    candidate is rejected with no hint, under the penalty method. *)
Lemma X18_rejected_reuses_id_witness :
  let d := angel_state angel_defaults [angel_G] in
  let p := {| Angel.hp_id := 1; Angel.hp_term := [Fin 0] |} in
  let r := angel_rejected angel_flow p d in
  Angel.next_id (snd (fst (fst r))) = Angel.next_id d
  /\ (fst (fst (fst r)) = 0%Z ->
      Angel.status (snd (fst r)) = Angel.HFLOW_ACCEPT
      /\ Angel.hp_id (snd r)
         = if negb (Angel.hp_id (Angel.point angel_flow) =? 0)%Z
           then Angel.hp_id p
           else match Angel.reject_type d with
                | Angel.REJECT_METHOD_PENALTY
                | Angel.REJECT_METHOD_RANDOM => Angel.next_id d
                | _ => Angel.hp_id p
                end)
  /\ (Angel.hp_id (Angel.point angel_flow) = 0%Z ->
      Angel.reject_type d <> Angel.REJECT_METHOD_PENALTY ->
      Angel.reject_type d <> Angel.REJECT_METHOD_RANDOM ->
      fst (fst (fst r)) = 0%Z /\ snd (fst (fst r)) = d /\ snd r = p).
Proof.
  cbv zeta.
  apply (@X18_rejected_reuses_id angel_env 5 angel_flow).
  vm_compute. reflexivity.
Defined.

(** The hypotheses of X12 hold in the one-dimensional session: the two
    vertices of the initial simplex are measured, and the reflection is
    rejected. *)
Lemma X12_options_frozen_witness :
  let d := angel_boot angel_defaults in
  let d1 := snd (angel_run_from d angel_first_reflect) in
  let p := {| Angel.hp_id := 3; Angel.hp_term := [Fin 10] |} in
  let d2 := snd (fst (fst (angel_rejected angel_flow p d1))) in
  Angel.opts d1 = Angel.opts d /\ Angel.opts d2 = Angel.opts d.
Proof.
  cbv zeta.
  apply (@X12_options_frozen angel_env 5 angel_first_reflect
           angel_flow
           (snd (fst (angel_rejected angel_flow
                        {| Angel.hp_id := 3; Angel.hp_term := [Fin 10] |}
                        (snd (angel_run_from (angel_boot angel_defaults)
                                angel_first_reflect)))))
           {| Angel.hp_id := 3; Angel.hp_term := [Fin 10] |}
           (snd (angel_rejected angel_flow
                   {| Angel.hp_id := 3; Angel.hp_term := [Fin 10] |}
                   (snd (angel_run_from (angel_boot angel_defaults)
                           angel_first_reflect))))
           (angel_boot angel_defaults)
           (snd (angel_run_from (angel_boot angel_defaults)
                   angel_first_reflect))
           (snd (fst (fst (angel_rejected angel_flow
                             {| Angel.hp_id := 3; Angel.hp_term := [Fin 10] |}
                             (snd (angel_run_from (angel_boot angel_defaults)
                                     angel_first_reflect))))))
           (fst (angel_run_from (angel_boot angel_defaults)
                   angel_first_reflect))
           (fst (fst (fst (angel_rejected angel_flow
                             {| Angel.hp_id := 3; Angel.hp_term := [Fin 10] |}
                             (snd (angel_run_from (angel_boot angel_defaults)
                                     angel_first_reflect))))))).
  - vm_compute. reflexivity.
  - vm_compute. reflexivity.
Defined.

End OnTheLineX18.

(** ** What the session sees of the search *)

Section Published.
Import Angel.
Context {E : Env}.

Ltac pub_strip :=
  repeat match goal with
         | |- context [published (?f ?v ?Y)] =>
             let H := fresh "H" in
             assert (H : forall y, published (f v y) = published y)
               by (intro; reflexivity);
             rewrite (H Y); clear H
         end.

#[local] Arguments assign : simpl never.
#[local] Arguments reset_next_perf : simpl never.
#[local] Arguments update_indices : simpl never.
#[local] Arguments update_centroid : simpl never.
#[local] Arguments make_initial_simplex : simpl never.
#[local] Arguments increment_phase : simpl never.
#[local] Arguments convergence_tests : simpl never.
#[local] Arguments check_convergence : simpl never.
#[local] Arguments nm_state_transition : simpl never.
#[local] Arguments nm_next_vertex : simpl never.
#[local] Arguments nm_step : simpl never.
#[local] Arguments phase_threshold : simpl never.
#[local] Arguments phase_begin : simpl never.
#[local] Arguments phase_anchor : simpl never.
#[local] Arguments phase_reset_best : simpl never.

Lemma published_assign (r : vref) (v : vertex_t) (d : data_t) :
  published (assign r v d) = published d.
Proof. destruct r; reflexivity. Qed.

Lemma published_reset_next_perf (d : data_t) :
  published (reset_next_perf d) = published d.
Proof. unfold reset_next_perf. apply published_assign. Qed.

Lemma published_update_indices (d : data_t) :
  published (update_indices d) = published d.
Proof.
  unfold update_indices.
  apply (for_up_inv (fun s => published s = published d)); [|reflexivity].
  intros i s Hs. repeat break; cbn; exact Hs.
Qed.

Lemma published_update_centroid (d : data_t) :
  published (snd (update_centroid d)) = published d.
Proof.
  unfold update_centroid. cbn. apply published_update_indices.
Qed.

Lemma published_make_initial_simplex (d : data_t) :
  published (snd (make_initial_simplex d)) = published d.
Proof.
  unfold make_initial_simplex, andthen. repeat break; cbn; reflexivity.
Qed.

Lemma published_convergence_tests (d : data_t) :
  published (fst (convergence_tests d)) = published d.
Proof.
  unfold convergence_tests. repeat break; cbn; reflexivity.
Qed.

Lemma published_nm_next_vertex (d : data_t) :
  published (snd (nm_next_vertex d)) = published d.
Proof.
  unfold nm_next_vertex, andthen.
  repeat break; cbn; rewrite ?published_reset_next_perf; pub_strip;
    reflexivity.
Qed.

Lemma published_measured (trial : htrial_t) (d : data_t) :
  published (measured trial d) = published d.
Proof.
  unfold measured, analyze_penalty, analyze_store.
  assert (Hs : published (analyze_span (assign (next d)
                 (set_perf (snd (hperf_copy (perf (deref d (next d)))
                                   (trial_perf trial)))
                    (deref d (next d))) d)) = published d).
  { unfold analyze_span.
    apply (for_lt_inv (fun s => published s = published d)).
    - intros i s Hs. exact Hs.
    - apply published_assign. }
  break; [rewrite published_assign|]; exact Hs.
Qed.

Lemma published_analyze_best (trial : htrial_t) (d : data_t) :
  published (snd (analyze_best trial d)) = published d.
Proof. unfold analyze_best. repeat break; cbn; reflexivity. Qed.

Lemma published_fields (d1 d2 : data_t) :
  published d1 = published d2 ->
  phase d1 = phase d2 /\ perf_n d1 = perf_n d2
  /\ state d1 = state d2 /\ session_cfg d1 = session_cfg d2.
Proof.
  intros H. unfold published in H. injection H as -> -> -> ->. repeat split.
Qed.

(** A transition of the machine writes none of them but the state, and
    does not converge. *)
Lemma going_nm_state_transition (d : data_t) :
  state d <> SIMPLEX_STATE_CONVERGED ->
  (phase (snd (nm_state_transition d)) = phase d
   /\ perf_n (snd (nm_state_transition d)) = perf_n d
   /\ session_cfg (snd (nm_state_transition d)) = session_cfg d)
  /\ state (snd (nm_state_transition d)) <> SIMPLEX_STATE_CONVERGED.
Proof.
  intros Hs.
  pose (Q := fun y : data_t =>
               phase y = phase d /\ perf_n y = perf_n d
               /\ session_cfg y = session_cfg d).
  pose (R := fun y : data_t => Q y /\ state y <> SIMPLEX_STATE_CONVERGED).
  change (R (snd (nm_state_transition d))).
  assert (Hd : forall y, published y = published d -> R y).
  { intros y Hy. apply published_fields in Hy.
    destruct Hy as (H1 & H2 & H3 & H4). repeat split; congruence. }
  assert (RS : forall x y, R y -> x <> SIMPLEX_STATE_CONVERGED ->
                           R (set_state x y)).
  { intros x y ((H1 & H2 & H3) & _) Hx. repeat split; assumption. }
  assert (RC : forall x y, R y -> R (set_index_curr x y)).
  { intros x y H. exact H. }
  assert (RX : forall x y, R y -> R (set_simplex x y)).
  { intros x y H. exact H. }
  assert (RU : forall y, R y -> R (snd (update_centroid y))).
  { intros y ((H1 & H2 & H3) & H4).
    destruct (published_fields _ _ (published_update_centroid y))
      as (U1 & U2 & U3 & U4).
    repeat split; congruence. }
  clearbody R. clear Q.
  unfold nm_state_transition.
  repeat break; cbn [snd];
    repeat match goal with
           | |- R (set_state _ _) => apply RS; [|discriminate]
           | |- R (set_index_curr _ _) => apply RC
           | |- R (set_simplex _ _) => apply RX
           | |- R (snd (update_centroid _)) => apply RU
           | |- R d => apply Hd; reflexivity
           end.
Qed.

Lemma moves_going (d d' : data_t) :
  (phase d' = phase d /\ perf_n d' = perf_n d
   /\ session_cfg d' = session_cfg d)
  /\ state d' <> SIMPLEX_STATE_CONVERGED ->
  moves d d'.
Proof.
  intros ((H1 & H2 & H3) & H4). split; [exact H2|]. left.
  repeat split; assumption.
Qed.

(** The convergence check, seen from outside. *)
Lemma moves_check_convergence (d : data_t) :
  state d <> SIMPLEX_STATE_CONVERGED ->
  moves d (check_convergence d).
Proof.
  intros Hs. unfold check_convergence.
  destruct (published_fields _ _ (published_convergence_tests d))
    as (T1 & T2 & T3 & T4).
  destruct (convergence_tests d) as [d1 conv]. cbn [fst] in *.
  destruct conv.
  2:{ split; [exact T2|]. left. repeat split; congruence. }
  destruct (phase d1 =? perf_n d1 - 1)%Z eqn:Hp.
  - apply Z.eqb_eq in Hp. split; [exact T2|]. right. left.
    cbn [phase state session_cfg set_session_cfg set_state].
    repeat split; congruence.
  - apply Z.eqb_neq in Hp.
    unfold increment_phase, andthen.
    assert (H1 : forall y,
                 phase (phase_begin (phase_threshold y)) = (phase y + 1)%Z
                 /\ perf_n (phase_begin (phase_threshold y)) = perf_n y
                 /\ state (phase_begin (phase_threshold y)) = state y
                 /\ session_cfg (phase_begin (phase_threshold y))
                    = session_setcfg (session_cfg y) CFGKEY_ANGEL_PHASE
                        (string_of_Z (phase y + 1))).
    { intros y. unfold phase_begin, phase_threshold.
      break; repeat split. }
    assert (H2 : forall y, phase (phase_reset_best (phase_anchor y)) = phase y
                 /\ perf_n (phase_reset_best (phase_anchor y)) = perf_n y
                 /\ state (phase_reset_best (phase_anchor y))
                    = SIMPLEX_STATE_INIT
                 /\ session_cfg (phase_reset_best (phase_anchor y))
                    = session_cfg y).
    { intros y. unfold phase_reset_best, phase_anchor.
      break; repeat split. }
    destruct (H1 d1) as (P1 & P2 & P3 & P4). clear H1.
    set (d2 := phase_begin (phase_threshold d1)) in *.
    assert (Hgo : forall d', phase d' = phase d2 -> perf_n d' = perf_n d2 ->
               session_cfg d' = session_cfg d2 ->
               state d' <> SIMPLEX_STATE_CONVERGED -> moves d d').
    { intros d' Q1 Q2 Q3 Q4. split; [congruence|]. right. right.
      repeat split; try congruence. }
    destruct (negb (samesimplex d2)).
    + destruct (published_fields _ _ (published_make_initial_simplex d2))
        as (M1 & M2 & M3 & M4).
      destruct (make_initial_simplex d2) as [rc d3]. cbn [snd] in *.
      destruct (rc =? 0)%Z; cbn [snd].
      * destruct (H2 d3) as (R1 & R2 & R3 & R4).
        apply Hgo; try congruence.
      * apply Hgo; try congruence.
    + cbn [snd Z.eqb]. destruct (H2 d2) as (R1 & R2 & R3 & R4).
      apply Hgo; try congruence.
Qed.

(** The fields the session sees are those the machine's steps write:
    a property of them that holds across a step of the search holds
    across a session. *)
Section Invariant.
Variable P : data_t -> Prop.
Hypothesis Pframe : forall d d', published d' = published d -> P d -> P d'.
Hypothesis Pmoves :
  forall d d', state d <> SIMPLEX_STATE_CONVERGED -> moves d d' ->
               P d -> P d'.

Lemma inv_nm_step (d : data_t) :
  state d <> SIMPLEX_STATE_CONVERGED -> P d -> P (snd (nm_step d)).
Proof.
  intros Hs Hd. unfold nm_step.
  pose proof (going_nm_state_transition d Hs) as Hg.
  pose proof (Pmoves _ _ Hs (moves_going _ _ Hg) Hd) as H1.
  destruct Hg as [_ Hs1].
  unfold andthen at 1.
  destruct (nm_state_transition d) as [rc d1]. cbn [snd] in *.
  destruct (rc =? 0)%Z; [|exact H1].
  assert (Hn : forall y, P y -> P (snd (nm_next_vertex y))).
  { intros y Hy. exact (Pframe _ _ (published_nm_next_vertex y) Hy). }
  destruct (state_eqb (state d1) SIMPLEX_STATE_REFLECT).
  - unfold andthen.
    pose proof (published_update_centroid d1) as Hu.
    destruct (update_centroid d1) as [rc2 d2]. cbn [snd] in Hu.
    pose proof (Pframe _ _ Hu H1) as H2.
    destruct (rc2 =? 0)%Z; cbn [snd Z.eqb]; [|exact H2].
    assert (Hs2 : state d2 <> SIMPLEX_STATE_CONVERGED).
    { apply published_fields in Hu. destruct Hu as (_ & _ & Hu & _).
      congruence. }
    apply Hn. apply (Pmoves d2); [exact Hs2| |exact H2].
    apply moves_check_convergence. exact Hs2.
  - unfold andthen. cbn [Z.eqb]. apply Hn. exact H1.
Qed.

Lemma inv_nm_algorithm (fuel : nat) :
  forall (d d' : data_t) (rc : Z),
  nm_algorithm fuel d = Some (rc, d') -> P d -> P d'.
Proof.
  induction fuel as [|fuel IH]; intros d d' rc; simpl; [discriminate|].
  destruct (state_eqb (state d) SIMPLEX_STATE_CONVERGED) eqn:Hs.
  { intros H; injection H as _ <-. auto. }
  assert (Hs' : state d <> SIMPLEX_STATE_CONVERGED).
  { intros H. rewrite H in Hs. discriminate. }
  pose proof (inv_nm_step d Hs') as H1.
  destruct (nm_step d) as [rc1 d1]. cbn [snd] in H1.
  destruct (negb (rc1 =? 0)%Z).
  { intros H; injection H as _ <-. exact H1. }
  destruct (negb (vertex_inbounds (deref d1 (next d1)))).
  - intros H Hd. apply (IH _ _ _ H). auto.
  - intros H; injection H as _ <-. exact H1.
Qed.

Lemma inv_strategy_analyze (fuel : nat) (trial : htrial_t)
  (d d' : data_t) (rc : Z) :
  strategy_analyze fuel trial d = Some (rc, d') -> P d -> P d'.
Proof.
  unfold strategy_analyze. intros H Hd. revert H.
  destruct (negb (hp_id (trial_point trial) =? id (deref d (next d)))%Z).
  { intros H; injection H as _ <-. exact Hd. }
  pose proof (Pframe _ _ (published_measured trial d) Hd) as Hm.
  pose proof (published_analyze_best trial (measured trial d)) as Hb.
  destruct (analyze_best trial (measured trial d)) as [rcb db].
  cbn [snd] in Hb. pose proof (Pframe _ _ Hb Hm) as Hdb.
  destruct (negb (rcb =? 0)%Z).
  { intros H; injection H as _ <-. exact Hdb. }
  destruct (nm_algorithm fuel db) as [[rca da]|] eqn:Ha; [|discriminate].
  pose proof (inv_nm_algorithm _ _ _ _ Ha Hdb) as Hda.
  destruct (negb (rca =? 0)%Z).
  { intros H; injection H as _ <-. exact Hda. }
  destruct (negb (state_eqb (state da) SIMPLEX_STATE_CONVERGED));
    intros H; injection H as _ <-; [|exact Hda].
  apply (Pframe da); [reflexivity|exact Hda].
Qed.

Lemma inv_strategy_generate (flow : hflow_t) (point : hpoint_t)
  (d : data_t) :
  P d -> P (snd (fst (fst (strategy_generate flow point d)))).
Proof.
  intros Hd. unfold strategy_generate.
  repeat break; cbn [fst snd]; try exact Hd;
    (apply (Pframe d); [apply published_assign|exact Hd]).
Qed.

Lemma inv_strategy_rejected (fuel : nat) (flow flow' : hflow_t)
  (point point' : hpoint_t) (d d' : data_t) (rc : Z) :
  strategy_rejected fuel flow point d = Some (rc, d', flow', point') ->
  P d -> P d'.
Proof.
  intros H Hd. revert H. unfold strategy_rejected.
  assert (Ha : forall r v y, P y -> P (assign r v y)).
  { intros r v y Hy. exact (Pframe _ _ (published_assign r v y) Hy). }
  assert (Hsd : forall x y, P y -> P (set_seed x y)).
  { intros x y Hy. apply (Pframe y); [reflexivity|exact Hy]. }
  destruct (negb (hp_id (Angel.point flow) =? 0)%Z).
  { repeat break; intros H; injection H as _ <- _ _; apply Ha; exact Hd. }
  destruct (reject_type d).
  - intros H; injection H as _ <- _ _. exact Hd.
  - pose proof (Pframe _ _ (published_reset_next_perf d) Hd) as Hr.
    destruct (nm_algorithm fuel (reset_next_perf d)) as [[rca da]|] eqn:Hn;
      [|discriminate].
    pose proof (inv_nm_algorithm _ _ _ _ Hn Hr) as Hda.
    repeat break; intros H; injection H as _ <- _ _; auto.
  - repeat break; intros H; injection H as _ <- _ _; auto.
  - intros H; injection H as _ <- _ _. exact Hd.
Qed.

Lemma inv_run (fuel : nat) (ops : list op) :
  forall (d d' : data_t) (evs : list event),
  run fuel ops d = Some (evs, d') -> P d -> P d'.
Proof.
  induction ops as [|o ops IH]; intros d d' evs; simpl.
  { intros H; injection H as _ <-. auto. }
  destruct o as [flow point | trial].
  - pose proof (inv_strategy_generate flow point d) as Hg.
    destruct (strategy_generate flow point d) as [[[rc d1] f1] p1].
    cbn [fst snd] in Hg.
    destruct (run fuel ops d1) as [[evs1 d2]|] eqn:Hr; [|discriminate].
    intros H; injection H as _ <-. intros Hd. apply (IH _ _ _ Hr). auto.
  - destruct (strategy_analyze fuel trial d) as [[rc d1]|] eqn:Ha;
      [|discriminate].
    destruct (run fuel ops d1) as [[evs1 d2]|] eqn:Hr; [|discriminate].
    intros H; injection H as _ <-. intros Hd. apply (IH _ _ _ Hr).
    exact (inv_strategy_analyze _ _ _ _ _ Ha Hd).
Qed.

End Invariant.

End Published.

(** ** What a successful [strategy_init] has checked (angel.c) *)

Section AngelConfig.
Import Angel.
Context {E : Env}.

#[local] Arguments assign : simpl never.

Lemma andthen_ok (r : Z * data_t) (k : data_t -> Z * data_t) (d' : data_t) :
  andthen r k = (0%Z, d') -> fst r = 0%Z /\ k (snd r) = (0%Z, d').
Proof.
  unfold andthen. destruct r as [rc d]. cbn [fst snd].
  destruct (rc =? 0)%Z eqn:Hrc; [|discriminate].
  apply Z.eqb_eq in Hrc. auto.
Qed.

Lemma andthen_rc (r : Z * data_t) (k : data_t -> Z * data_t) :
  (forall d, fst (k d) = 0%Z \/ fst (k d) = (-1)%Z) ->
  fst (andthen r k) = 0%Z \/ fst (andthen r k) = (-1)%Z.
Proof.
  intros Hk. unfold andthen. destruct r as [rc d].
  destruct (rc =? 0)%Z; [apply Hk|right; reflexivity].
Qed.

(** The written fields of a state that differs from [d] in fields the
    checks do not look at. *)
Lemma dgt_pos (x : double) :
  isnan x = false -> (x <=? Fin 0)%D = false -> (Fin 0 <? x)%D = true.
Proof.
  destruct x as [| | |q]; cbn; try discriminate; try reflexivity.
  intros _ H. unfold Qltb. destruct (Qlt_le_dec 0 q) as [_|Hq]; [reflexivity|].
  apply Qle_bool_iff in Hq. congruence.
Qed.

Lemma dle_false_lt (x y : double) :
  isnan x = false -> isnan y = false -> (x <=? y)%D = false ->
  (y <? x)%D = true.
Proof.
  destruct x as [| | |p], y as [| | |q]; cbn; try discriminate;
    try reflexivity.
  intros _ _ H. unfold Qltb. destruct (Qlt_le_dec q p) as [_|Hq]; [reflexivity|].
  apply Qle_bool_iff in Hq. congruence.
Qed.

Lemma cfg_flags_ok (d : data_t) :
  fst (cfg_flags d) = 0%Z ->
  let c := session_cfg d in
  isnan (hcfg_real c CFGKEY_ANGEL_MULT) = false
  /\ snd (cfg_flags d)
     = set_mult (hcfg_real c CFGKEY_ANGEL_MULT)
         (set_samesimplex (hcfg_bool c CFGKEY_ANGEL_SAMESIMPLEX)
            (set_anchor (hcfg_bool c CFGKEY_ANGEL_ANCHOR)
               (set_loose (hcfg_bool c CFGKEY_ANGEL_LOOSE) d))).
Proof.
  unfold cfg_flags. cbn [session_cfg set_loose set_anchor set_samesimplex].
  destruct (isnan (hcfg_real (session_cfg d) CFGKEY_ANGEL_MULT));
    cbn [fst snd]; [discriminate|]. intros _. split; reflexivity.
Qed.

Lemma cfg_init_radius_ok (d : data_t) :
  fst (cfg_init_radius d) = 0%Z ->
  let x := hcfg_real (session_cfg d) CFGKEY_INIT_RADIUS in
  ((x <=? Fin 0)%D = false /\ (x >? Fin 1)%D = false)
  /\ snd (cfg_init_radius d) = set_init_radius x d.
Proof.
  unfold cfg_init_radius.
  destruct (hcfg_real (session_cfg d) CFGKEY_INIT_RADIUS <=? Fin 0)%D;
    cbn [orb fst snd]; [discriminate|].
  destruct (hcfg_real (session_cfg d) CFGKEY_INIT_RADIUS >? Fin 1)%D;
    cbn [fst snd]; [discriminate|]. intros _. repeat split.
Qed.

Lemma cfg_reject_method_ok (d : data_t) :
  fst (cfg_reject_method d) = 0%Z ->
  exists m,
    snd (cfg_reject_method d) = set_reject_type m d
    /\ match hcfg_get (session_cfg d) CFGKEY_REJECT_METHOD with
       | Some s => (s = "penalty"%string /\ m = REJECT_METHOD_PENALTY)
                   \/ (s = "random"%string /\ m = REJECT_METHOD_RANDOM)
       | None => m = reject_type d
       end.
Proof.
  unfold cfg_reject_method.
  destruct (hcfg_get (session_cfg d) CFGKEY_REJECT_METHOD) as [s|].
  - destruct (String.eqb s "penalty") eqn:H1.
    { apply String.eqb_eq in H1. intros _. eexists. split; [reflexivity|].
      left. auto. }
    destruct (String.eqb s "random") eqn:H2; [|discriminate].
    apply String.eqb_eq in H2. intros _. eexists. split; [reflexivity|].
    right. auto.
  - intros _. exists (reject_type d). split; [|reflexivity].
    destruct d; reflexivity.
Qed.

Lemma cfg_reflect_ok (d : data_t) :
  fst (cfg_reflect d) = 0%Z ->
  let x := hcfg_real (session_cfg d) CFGKEY_REFLECT in
  (Fin 0 <? x)%D = true /\ snd (cfg_reflect d) = set_reflect_val x d.
Proof.
  unfold cfg_reflect.
  destruct (isnan (hcfg_real (session_cfg d) CFGKEY_REFLECT)) eqn:H1;
    cbn [orb fst snd]; [discriminate|].
  destruct (hcfg_real (session_cfg d) CFGKEY_REFLECT <=? Fin 0)%D eqn:H2;
    cbn [fst snd]; [discriminate|]. intros _.
  split; [now apply dgt_pos|reflexivity].
Qed.

Lemma cfg_expand_ok (d : data_t) :
  fst (cfg_expand d) = 0%Z ->
  let x := hcfg_real (session_cfg d) CFGKEY_EXPAND in
  (isnan x = false /\ (x <=? reflect_val d)%D = false)
  /\ snd (cfg_expand d) = set_expand_val x d.
Proof.
  unfold cfg_expand.
  destruct (isnan (hcfg_real (session_cfg d) CFGKEY_EXPAND)) eqn:H1;
    cbn [orb fst snd]; [discriminate|].
  destruct (hcfg_real (session_cfg d) CFGKEY_EXPAND <=? reflect_val d)%D
    eqn:H2; cbn [fst snd]; [discriminate|]. intros _. repeat split.
Qed.

Lemma unit_open (x : double) :
  isnan x || (x <=? Fin 0)%D || (x >=? Fin 1)%D = false ->
  (Fin 0 <? x)%D = true /\ (x <? Fin 1)%D = true.
Proof.
  intros H. apply orb_false_iff in H. destruct H as [H H3].
  apply orb_false_iff in H. destruct H as [H1 H2].
  split; [now apply dgt_pos|].
  apply dle_false_lt; [reflexivity|exact H1|exact H3].
Qed.

Lemma cfg_contract_ok (d : data_t) :
  fst (cfg_contract d) = 0%Z ->
  let x := hcfg_real (session_cfg d) CFGKEY_CONTRACT in
  ((Fin 0 <? x)%D = true /\ (x <? Fin 1)%D = true)
  /\ snd (cfg_contract d) = set_contract_val x d.
Proof.
  unfold cfg_contract.
  destruct (isnan (hcfg_real (session_cfg d) CFGKEY_CONTRACT)
            || (hcfg_real (session_cfg d) CFGKEY_CONTRACT <=? Fin 0)%D
            || (hcfg_real (session_cfg d) CFGKEY_CONTRACT >=? Fin 1)%D)
    eqn:H; cbn [fst snd]; [discriminate|]. intros _.
  split; [now apply unit_open|reflexivity].
Qed.

Lemma cfg_shrink_ok (d : data_t) :
  fst (cfg_shrink d) = 0%Z ->
  let x := hcfg_real (session_cfg d) CFGKEY_SHRINK in
  ((Fin 0 <? x)%D = true /\ (x <? Fin 1)%D = true)
  /\ snd (cfg_shrink d) = set_shrink_val x d.
Proof.
  unfold cfg_shrink.
  destruct (isnan (hcfg_real (session_cfg d) CFGKEY_SHRINK)
            || (hcfg_real (session_cfg d) CFGKEY_SHRINK <=? Fin 0)%D
            || (hcfg_real (session_cfg d) CFGKEY_SHRINK >=? Fin 1)%D)
    eqn:H; cbn [fst snd]; [discriminate|]. intros _.
  split; [now apply unit_open|reflexivity].
Qed.

Lemma cfg_perf_count_ok (d : data_t) :
  fst (cfg_perf_count d) = 0%Z ->
  let n := hcfg_int (session_cfg d) CFGKEY_PERF_COUNT in
  (1 <= n)%Z /\ snd (cfg_perf_count d) = set_perf_n n d.
Proof.
  unfold cfg_perf_count. cbn [perf_n set_perf_n session_cfg].
  destruct (hcfg_int (session_cfg d) CFGKEY_PERF_COUNT <? 1)%Z eqn:H;
    cbn [fst snd]; [discriminate|]. intros _.
  apply Z.ltb_ge in H. split; [exact H|reflexivity].
Qed.

(** The blocks of [config_strategy] that follow the checks of the options
    write neither the options checked nor what the session sees. *)
Ltac keep_block :=
  let H := fresh "H" in
  intros H; unfold andthen; repeat break;
  unfold checked, published in *; cbn; exact H.

Lemma settled_for_up_rc (k0 : _) (body : Z -> data_t -> Z * data_t) :
  (forall i y, (checked y, published y) = k0 ->
               (checked (snd (body i y)), published (snd (body i y))) = k0) ->
  forall n from y, (checked y, published y) = k0 ->
  (checked (snd (for_up_rc n from body y)),
   published (snd (for_up_rc n from body y))) = k0.
Proof.
  intros Hb n from y Hy.
  apply (for_up_rc_inv (fun y => (checked y, published y) = k0)); auto.
Qed.

Lemma settled_allocate_structures (k0 : _) (d : data_t) :
  (checked d, published d) = k0 ->
  (checked (snd (allocate_structures d)),
   published (snd (allocate_structures d))) = k0.
Proof.
  intros H. unfold allocate_structures.
  apply (andthen_inv (fun y => (checked y, published y) = k0));
    [revert H; keep_block|]. clear d H. intros d H.
  apply (andthen_inv (fun y => (checked y, published y) = k0)).
  { unfold init_simplex_perfs. apply settled_for_up_rc; [|exact H].
    intros i y. keep_block. }
  clear d H. intros d H.
  apply (andthen_inv (fun y => (checked y, published y) = k0));
    [revert H; keep_block|]. clear d H. intros d H.
  apply (andthen_inv (fun y => (checked y, published y) = k0)).
  { unfold simplex_perfs. apply settled_for_up_rc; [|exact H].
    intros i y. keep_block. }
  clear d H. intros d H.
  apply (andthen_inv (fun y => (checked y, published y) = k0));
    [revert H; keep_block|]. clear d H. intros d H.
  apply (andthen_inv (fun y => (checked y, published y) = k0));
    [revert H; keep_block|]. clear d H. intros d H.
  apply (andthen_inv (fun y => (checked y, published y) = k0));
    [revert H; keep_block|]. clear d H. intros d H.
  apply (andthen_inv (fun y => (checked y, published y) = k0));
    [revert H; keep_block|]. clear d H. intros d H.
  apply (andthen_inv (fun y => (checked y, published y) = k0));
    [revert H; keep_block|]. clear d H. intros d H.
  revert H. keep_block.
Qed.

Lemma settled_cfg_space_size (k0 : _) (d : data_t) :
  (checked d, published d) = k0 ->
  (checked (snd (cfg_space_size d)), published (snd (cfg_space_size d))) = k0.
Proof. unfold cfg_space_size. keep_block. Qed.

Lemma settled_cfg_tolerances (k0 : _) (d : data_t) :
  (checked d, published d) = k0 ->
  (checked (snd (cfg_tolerances d)), published (snd (cfg_tolerances d))) = k0.
Proof. unfold cfg_tolerances. keep_block. Qed.

Lemma settled_cfg_leeway (k0 : _) (d : data_t) :
  (checked d, published d) = k0 ->
  (checked (snd (cfg_leeway d)), published (snd (cfg_leeway d))) = k0.
Proof.
  intros H. unfold cfg_leeway. repeat break; try exact H.
  apply settled_for_up_rc; [|exact H]. intros i y. keep_block.
Qed.

Lemma settled_cfg_span (k0 : _) (d : data_t) :
  (checked d, published d) = k0 ->
  (checked (snd (cfg_span d)), published (snd (cfg_span d))) = k0.
Proof.
  intros H. unfold cfg_span. cbn [snd].
  apply (for_lt_inv (fun y => (checked y, published y) = k0)); [|exact H].
  intros i y Hy. exact Hy.
Qed.

(** What the two checks of the leeways require. *)
Lemma cfg_leeway_ok (d : data_t) :
  fst (cfg_leeway d) = 0%Z ->
  hcfg_get (session_cfg d) CFGKEY_ANGEL_LEEWAY <> None
  /\ hcfg_arr_len (session_cfg d) CFGKEY_ANGEL_LEEWAY = (perf_n d - 1)%Z.
Proof.
  unfold cfg_leeway.
  destruct (hcfg_get (session_cfg d) CFGKEY_ANGEL_LEEWAY); [|discriminate].
  destruct (hcfg_arr_len (session_cfg d) CFGKEY_ANGEL_LEEWAY =? perf_n d - 1)%Z
    eqn:H; cbn [negb fst]; [|discriminate].
  apply Z.eqb_eq in H. intros _. split; [discriminate|exact H].
Qed.

Ltac next_block H Hrc :=
  apply andthen_ok in H; destruct H as [Hrc H]; cbv beta in H.

Ltac fields_in H :=
  cbn [session_cfg reflect_val perf_n
       set_mult set_samesimplex set_anchor set_loose set_init_radius
       set_reject_type set_reflect_val set_expand_val set_contract_val
       set_shrink_val set_perf_n] in H.

(** A [config_strategy] that returns 0 has found every option within its
    bounds and stored it; the leeways are set, one per objective but the
    last. *)
Lemma config_strategy_ok (d d1 : data_t) :
  config_strategy d = (0%Z, d1) ->
  let c := session_cfg d in
  (exists m,
     checked d1
     = (hcfg_int c CFGKEY_PERF_COUNT,
        (hcfg_bool c CFGKEY_ANGEL_LOOSE, hcfg_bool c CFGKEY_ANGEL_ANCHOR,
         hcfg_bool c CFGKEY_ANGEL_SAMESIMPLEX,
         hcfg_real c CFGKEY_ANGEL_MULT),
        (hcfg_real c CFGKEY_INIT_RADIUS, m),
        (hcfg_real c CFGKEY_REFLECT, hcfg_real c CFGKEY_EXPAND,
         hcfg_real c CFGKEY_CONTRACT, hcfg_real c CFGKEY_SHRINK))
     /\ match hcfg_get c CFGKEY_REJECT_METHOD with
        | Some s => (s = "penalty"%string /\ m = REJECT_METHOD_PENALTY)
                    \/ (s = "random"%string /\ m = REJECT_METHOD_RANDOM)
        | None => m = reject_type d
        end)
  /\ published d1 = (phase d, hcfg_int c CFGKEY_PERF_COUNT, state d, c)
  /\ (isnan (hcfg_real c CFGKEY_ANGEL_MULT) = false
      /\ ((hcfg_real c CFGKEY_INIT_RADIUS <=? Fin 0)%D = false
          /\ (hcfg_real c CFGKEY_INIT_RADIUS >? Fin 1)%D = false)
      /\ (Fin 0 <? hcfg_real c CFGKEY_REFLECT)%D = true
      /\ (hcfg_real c CFGKEY_REFLECT <? hcfg_real c CFGKEY_EXPAND)%D = true
      /\ ((Fin 0 <? hcfg_real c CFGKEY_CONTRACT)%D = true
          /\ (hcfg_real c CFGKEY_CONTRACT <? Fin 1)%D = true)
      /\ ((Fin 0 <? hcfg_real c CFGKEY_SHRINK)%D = true
          /\ (hcfg_real c CFGKEY_SHRINK <? Fin 1)%D = true))
  /\ ((1 <= hcfg_int c CFGKEY_PERF_COUNT)%Z
      /\ hcfg_get c CFGKEY_ANGEL_LEEWAY <> None
      /\ hcfg_arr_len c CFGKEY_ANGEL_LEEWAY
         = (hcfg_int c CFGKEY_PERF_COUNT - 1)%Z).
Proof.
  intros H. cbv zeta. unfold config_strategy in H.
  next_block H R1.
  pose proof (cfg_flags_ok _ R1) as X; cbv zeta in X.
  destruct X as [C1 E1]. rewrite E1 in H. clear E1 R1.
  next_block H R2.
  pose proof (cfg_init_radius_ok _ R2) as X; cbv zeta in X.
  destruct X as [C2 E2]. rewrite E2 in H. clear E2 R2. fields_in C2.
  fields_in H.
  next_block H R3.
  destruct (cfg_reject_method_ok _ R3) as (m & E3 & C3).
  rewrite E3 in H. clear E3 R3. fields_in C3.
  cbn [reject_type set_init_radius set_mult set_samesimplex set_anchor
       set_loose] in C3.
  next_block H R4.
  pose proof (cfg_reflect_ok _ R4) as X; cbv zeta in X.
  destruct X as [C4 E4]. rewrite E4 in H. clear E4 R4. fields_in C4.
  fields_in H.
  next_block H R5.
  pose proof (cfg_expand_ok _ R5) as X; cbv zeta in X.
  destruct X as [[C5 C5'] E5]. rewrite E5 in H. clear E5 R5.
  fields_in C5. fields_in C5'. fields_in H.
  next_block H R6.
  pose proof (cfg_contract_ok _ R6) as X; cbv zeta in X.
  destruct X as [C6 E6]. rewrite E6 in H. clear E6 R6. fields_in C6.
  fields_in H.
  next_block H R7.
  pose proof (cfg_shrink_ok _ R7) as X; cbv zeta in X.
  destruct X as [C7 E7]. rewrite E7 in H. clear E7 R7. fields_in C7.
  fields_in H.
  next_block H R8.
  pose proof (cfg_perf_count_ok _ R8) as X; cbv zeta in X.
  destruct X as [C8 E8]. rewrite E8 in H. clear E8 R8. fields_in C8.
  fields_in H.
  match type of H with
  | andthen (allocate_structures ?y) _ = _ => set (d8 := y) in *
  end.
  next_block H R9. clear R9.
  pose proof (settled_allocate_structures _ d8 eq_refl) as F.
  set (d9 := snd (allocate_structures d8)) in *.
  next_block H R10. clear R10.
  apply settled_cfg_space_size in F.
  set (d10 := snd (cfg_space_size d9)) in *.
  next_block H R11. clear R11.
  apply settled_cfg_tolerances in F.
  set (d11 := snd (cfg_tolerances d10)) in *.
  next_block H R12.
  destruct (cfg_leeway_ok _ R12) as [C12 C12'].
  apply settled_cfg_leeway in F.
  set (d12 := snd (cfg_leeway d11)) in *.
  apply settled_cfg_span in F. rewrite H in F. cbn [snd] in F.
  pose proof (f_equal fst F) as Fc. pose proof (f_equal snd F) as Fp.
  cbn [fst snd] in Fc, Fp. clear F.
  assert (Hc11 : session_cfg d11 = session_cfg d
                 /\ perf_n d11 = hcfg_int (session_cfg d) CFGKEY_PERF_COUNT).
  { pose proof (settled_cfg_tolerances _ d10
                  (settled_cfg_space_size _ d9
                     (settled_allocate_structures _ d8 eq_refl))) as G.
    fold d9 d10 d11 in G. pose proof (f_equal snd G) as Gp.
    cbn [snd] in Gp. apply published_fields in Gp. destruct Gp as (_ & G2 & _ & G4).
    split; [rewrite G4|rewrite G2]; reflexivity. }
  destruct Hc11 as [Hc Hn]. rewrite Hc in C12, C12'. rewrite Hn in C12'.
  split; [exists m; split; [rewrite Fc; reflexivity|exact C3]|].
  split; [rewrite Fp; reflexivity|].
  split.
  - repeat split; try assumption; try tauto.
    apply dle_false_lt; try assumption.
    apply (dlt_notnan_r _ _ C4).
  - repeat split; assumption.
Qed.

#[local] Arguments make_initial_simplex : simpl never.
#[local] Arguments increment_phase : simpl never.
#[local] Arguments nm_next_vertex : simpl never.
#[local] Arguments config_strategy : simpl never.
#[local] Arguments phase_threshold : simpl never.
#[local] Arguments phase_begin : simpl never.
#[local] Arguments phase_anchor : simpl never.
#[local] Arguments phase_reset_best : simpl never.

Lemma checked_core (d1 d2 : data_t) :
  core d1 = core d2 -> checked d1 = checked d2 /\ next_id d1 = next_id d2.
Proof.
  unfold core, opts, checked. intros H. split; congruence.
Qed.

(** A phase change that returns 0, seen from outside. *)
Lemma increment_phase_ok (d d' : data_t) :
  increment_phase d = (0%Z, d') ->
  published d'
  = ((phase d + 1)%Z, perf_n d, SIMPLEX_STATE_INIT,
     session_setcfg (session_cfg d) CFGKEY_ANGEL_PHASE
       (string_of_Z (phase d + 1))).
Proof.
  unfold increment_phase. cbv zeta. intros H. apply andthen_ok in H.
  destruct H as [H1 H]. cbv beta in H. injection H as <-.
  assert (Hb : published (phase_begin (phase_threshold d))
               = ((phase d + 1)%Z, perf_n d, state d,
                  session_setcfg (session_cfg d) CFGKEY_ANGEL_PHASE
                    (string_of_Z (phase d + 1)))).
  { unfold phase_begin, phase_threshold. break; reflexivity. }
  set (d1 := phase_begin (phase_threshold d)) in *.
  assert (Hr : forall y, published (phase_reset_best (phase_anchor y))
               = (phase y, perf_n y, SIMPLEX_STATE_INIT, session_cfg y)).
  { intros y. unfold phase_reset_best, phase_anchor. break; reflexivity. }
  rewrite Hr.
  assert (Hm : forall b : bool,
               published (snd (if b then make_initial_simplex d1
                               else (0%Z, d1)))
               = published d1).
  { intros [|]; [|reflexivity]. apply published_make_initial_simplex. }
  match goal with
  | |- context [snd (if ?b then _ else _)] => specialize (Hm b)
  end.
  apply published_fields in Hm. destruct Hm as (M1 & M2 & _ & M4).
  rewrite M1, M2, M4. unfold published in Hb. congruence.
Qed.

(** A [strategy_init] that returns 0: the options are those
    [config_strategy] has checked, the search starts the next phase in the
    state INIT with the id counter at 1, and CONVERGED and ANGEL_PHASE are
    published. *)
Lemma angel_init_ok (d d0 : data_t) :
  strategy_init d = (0%Z, d0) ->
  exists d1,
    config_strategy d = (0%Z, d1)
    /\ checked d0 = checked d1
    /\ next_id d0 = 1%Z
    /\ published d0
       = ((phase d1 + 1)%Z, perf_n d1, SIMPLEX_STATE_INIT,
          session_setcfg
            (session_setcfg (session_cfg d1) CFGKEY_CONVERGED "0")
            CFGKEY_ANGEL_PHASE (string_of_Z (phase d1 + 1))).
Proof.
  unfold strategy_init. intros H.
  apply andthen_ok in H. destruct H as [R1 H]. cbv beta in H.
  exists (snd (config_strategy d)).
  split. { destruct (config_strategy d) as [rc y]. cbn in *. congruence. }
  set (d1 := snd (config_strategy d)) in *.
  apply andthen_ok in H. destruct H as [R2 H]. cbv beta zeta in H.
  pose proof (core_make_initial_simplex d1) as K2.
  pose proof (published_make_initial_simplex d1) as P2.
  set (d2 := snd (make_initial_simplex d1)) in *.
  apply andthen_ok in H. destruct H as [R3 H]. cbv beta in H.
  set (d3 := set_next_id 1
               (set_session_cfg
                  (session_setcfg (session_cfg d2) CFGKEY_CONVERGED "0") d2))
    in *.
  assert (K3 : checked d3 = checked d2 /\ next_id d3 = 1%Z)
    by (split; reflexivity).
  assert (P3 : published d3
               = (phase d2, perf_n d2, state d2,
                  session_setcfg (session_cfg d2) CFGKEY_CONVERGED "0"))
    by reflexivity.
  pose proof (core_increment_phase d3) as K4.
  assert (P4 : increment_phase d3 = (0%Z, snd (increment_phase d3))).
  { destruct (increment_phase d3) as [rc y]. cbn in *. congruence. }
  apply increment_phase_ok in P4.
  set (d4 := snd (increment_phase d3)) in *.
  apply andthen_ok in H. destruct H as [R4 H]. injection H as <-.
  pose proof (core_nm_next_vertex d4) as K5.
  pose proof (published_nm_next_vertex d4) as P5.
  apply checked_core in K2, K4, K5.
  destruct K2 as [K2 _], K3 as [K3 N3], K4 as [K4 N4], K5 as [K5 N5].
  apply published_fields in P2. destruct P2 as (A1 & A2 & A3 & A4).
  split; [congruence|]. split; [congruence|].
  rewrite P5, P4. subst d3.
  cbn [phase perf_n session_cfg set_next_id set_session_cfg].
  rewrite A1, A2, A4. reflexivity.
Qed.

Lemma published_is (d : data_t) (p n : Z) (s : simplex_state) (c : hcfg) :
  published d = (p, n, s, c) ->
  phase d = p /\ perf_n d = n /\ state d = s /\ session_cfg d = c.
Proof.
  unfold published. intros H. injection H as -> -> -> ->. repeat split.
Qed.

Lemma angel_init_rc (d : data_t) :
  fst (strategy_init d) = 0%Z \/ fst (strategy_init d) = (-1)%Z.
Proof.
  unfold strategy_init.
  apply andthen_rc. intros d1. apply andthen_rc. intros d2. cbv zeta.
  apply andthen_rc. intros d3. apply andthen_rc. intros d4.
  left. reflexivity.
Qed.

(** The three properties of a state the phase counter is bound by. *)
Lemma phase_range_frame (n : Z) (d d' : data_t) :
  published d' = published d ->
  ((0 <= phase d < perf_n d)%Z /\ perf_n d = n
   /\ (state d = SIMPLEX_STATE_CONVERGED -> phase d = (perf_n d - 1)%Z)) ->
  ((0 <= phase d' < perf_n d')%Z /\ perf_n d' = n
   /\ (state d' = SIMPLEX_STATE_CONVERGED -> phase d' = (perf_n d' - 1)%Z)).
Proof.
  intros H. apply published_fields in H. destruct H as (-> & -> & -> & _).
  auto.
Qed.

Lemma phase_range_moves (n : Z) (d d' : data_t) :
  state d <> SIMPLEX_STATE_CONVERGED ->
  moves d d' ->
  ((0 <= phase d < perf_n d)%Z /\ perf_n d = n
   /\ (state d = SIMPLEX_STATE_CONVERGED -> phase d = (perf_n d - 1)%Z)) ->
  ((0 <= phase d' < perf_n d')%Z /\ perf_n d' = n
   /\ (state d' = SIMPLEX_STATE_CONVERGED -> phase d' = (perf_n d' - 1)%Z)).
Proof.
  intros _ [Hn Hm] (H1 & H2 & H3). rewrite Hn.
  destruct Hm as [(M1 & M2 & M3)|[(M1 & M2 & M3 & M4)|(M1 & M2 & M3 & M4)]];
    rewrite M1; repeat split; try lia; try tauto.
Qed.

Lemma session_setcfg_same (c : hcfg) (k : cfgkey) (v : string) :
  hcfg_get (session_setcfg c k v) k = Some v.
Proof.
  unfold hcfg_get, session_setcfg. destruct (cfgkey_eq_dec k k); congruence.
Qed.

Lemma session_setcfg_other (c : hcfg) (k k' : cfgkey) (v : string) :
  k' <> k -> hcfg_get (session_setcfg c k v) k' = hcfg_get c k'.
Proof.
  intros H. unfold hcfg_get, session_setcfg.
  destruct (cfgkey_eq_dec k' k); congruence.
Qed.

Lemma state_eqb_converged (s : simplex_state) :
  state_eqb s SIMPLEX_STATE_CONVERGED = true <-> s = SIMPLEX_STATE_CONVERGED.
Proof. destruct s; cbn; split; congruence. Qed.

Lemma keys_frame (c : hcfg) (d d' : data_t) :
  published d' = published d ->
  (hcfg_get (session_cfg d) CFGKEY_ANGEL_PHASE = Some (string_of_Z (phase d))
   /\ hcfg_get (session_cfg d) CFGKEY_CONVERGED
      = Some (if state_eqb (state d) SIMPLEX_STATE_CONVERGED
              then "1" else "0")%string
   /\ (forall k, k <> CFGKEY_ANGEL_PHASE -> k <> CFGKEY_CONVERGED ->
       hcfg_get (session_cfg d) k = hcfg_get c k)) ->
  (hcfg_get (session_cfg d') CFGKEY_ANGEL_PHASE
   = Some (string_of_Z (phase d'))
   /\ hcfg_get (session_cfg d') CFGKEY_CONVERGED
      = Some (if state_eqb (state d') SIMPLEX_STATE_CONVERGED
              then "1" else "0")%string
   /\ (forall k, k <> CFGKEY_ANGEL_PHASE -> k <> CFGKEY_CONVERGED ->
       hcfg_get (session_cfg d') k = hcfg_get c k)).
Proof.
  intros H. apply published_fields in H. destruct H as (-> & _ & -> & ->).
  auto.
Qed.

Lemma keys_moves (c : hcfg) (d d' : data_t) :
  state d <> SIMPLEX_STATE_CONVERGED ->
  moves d d' ->
  (hcfg_get (session_cfg d) CFGKEY_ANGEL_PHASE = Some (string_of_Z (phase d))
   /\ hcfg_get (session_cfg d) CFGKEY_CONVERGED
      = Some (if state_eqb (state d) SIMPLEX_STATE_CONVERGED
              then "1" else "0")%string
   /\ (forall k, k <> CFGKEY_ANGEL_PHASE -> k <> CFGKEY_CONVERGED ->
       hcfg_get (session_cfg d) k = hcfg_get c k)) ->
  (hcfg_get (session_cfg d') CFGKEY_ANGEL_PHASE
   = Some (string_of_Z (phase d'))
   /\ hcfg_get (session_cfg d') CFGKEY_CONVERGED
      = Some (if state_eqb (state d') SIMPLEX_STATE_CONVERGED
              then "1" else "0")%string
   /\ (forall k, k <> CFGKEY_ANGEL_PHASE -> k <> CFGKEY_CONVERGED ->
       hcfg_get (session_cfg d') k = hcfg_get c k)).
Proof.
  intros Hs [Hn Hm] (H1 & H2 & H3).
  assert (Hne : forall s, s <> SIMPLEX_STATE_CONVERGED ->
                  state_eqb s SIMPLEX_STATE_CONVERGED = false).
  { intros s Hs'. destruct (state_eqb s SIMPLEX_STATE_CONVERGED) eqn:He;
      [|reflexivity]. apply state_eqb_converged in He. contradiction. }
  rewrite (Hne _ Hs) in H2.
  destruct Hm as [(M1 & M2 & M3)|[(M1 & M2 & M3 & M4)|(M1 & M2 & M3 & M4)]].
  - rewrite M1, M2, (Hne _ M3). auto.
  - rewrite M1, M3, M4. cbn [state_eqb].
    split; [rewrite session_setcfg_other; [exact H1|discriminate]|].
    split; [apply session_setcfg_same|].
    intros k K1 K2. rewrite session_setcfg_other; auto.
  - rewrite M1, M4, (Hne _ M3).
    split; [apply session_setcfg_same|].
    split; [rewrite session_setcfg_other; [exact H2|discriminate]|].
    intros k K1 K2. rewrite session_setcfg_other; auto.
Qed.

End AngelConfig.

(** X10.  A [strategy_init] that returns 0 has stored the options the
    configuration holds, each within the bounds [config_strategy] checks:
    the multiplier is a number, the initial radius is neither <= 0 nor
    > 1, the reflection coefficient is positive, the expansion coefficient
    exceeds it, the contraction and shrink coefficients lie strictly
    between 0 and 1, there is at least one objective, and the reject
    method is the one named, or the one it was when none is named. *)
Theorem X10_init_checks_options
  (E : Angel.Env) (d d0 : Angel.data_t)
  (Hinit : Angel.strategy_init d = (0%Z, d0)) :
  let c := Angel.session_cfg d in
  (Angel.mult d0 = Angel.hcfg_real c Angel.CFGKEY_ANGEL_MULT
   /\ isnan (Angel.mult d0) = false)
  /\ (Angel.init_radius d0 = Angel.hcfg_real c Angel.CFGKEY_INIT_RADIUS
      /\ (Angel.init_radius d0 <=? Fin 0)%D = false
      /\ (Angel.init_radius d0 >? Fin 1)%D = false)
  /\ (Angel.reflect_val d0 = Angel.hcfg_real c Angel.CFGKEY_REFLECT
      /\ (Fin 0 <? Angel.reflect_val d0)%D = true)
  /\ (Angel.expand_val d0 = Angel.hcfg_real c Angel.CFGKEY_EXPAND
      /\ (Angel.reflect_val d0 <? Angel.expand_val d0)%D = true)
  /\ (Angel.contract_val d0 = Angel.hcfg_real c Angel.CFGKEY_CONTRACT
      /\ (Fin 0 <? Angel.contract_val d0)%D = true
      /\ (Angel.contract_val d0 <? Fin 1)%D = true)
  /\ (Angel.shrink_val d0 = Angel.hcfg_real c Angel.CFGKEY_SHRINK
      /\ (Fin 0 <? Angel.shrink_val d0)%D = true
      /\ (Angel.shrink_val d0 <? Fin 1)%D = true)
  /\ (Angel.perf_n d0 = Angel.hcfg_int c Angel.CFGKEY_PERF_COUNT
      /\ (1 <= Angel.perf_n d0)%Z)
  /\ (Angel.loose d0 = Angel.hcfg_bool c Angel.CFGKEY_ANGEL_LOOSE
      /\ Angel.anchor d0 = Angel.hcfg_bool c Angel.CFGKEY_ANGEL_ANCHOR
      /\ Angel.samesimplex d0
         = Angel.hcfg_bool c Angel.CFGKEY_ANGEL_SAMESIMPLEX)
  /\ Angel.reject_type d0
     = match Angel.hcfg_get c Angel.CFGKEY_REJECT_METHOD with
       | Some s => if String.eqb s "penalty"
                   then Angel.REJECT_METHOD_PENALTY
                   else Angel.REJECT_METHOD_RANDOM
       | None => Angel.reject_type d
       end.
Proof.
  cbv zeta.
  destruct (angel_init_ok d d0 Hinit) as (d1 & Hc & Hk & _ & _).
  pose proof (config_strategy_ok d d1 Hc) as X. cbv zeta in X.
  destruct X as ((m & Hch & Hm) & _ & (C1 & (C2 & C2') & C4 & C5 & C6 & C7)
                 & (C8 & _)).
  rewrite <- Hk in Hch. unfold Angel.checked in Hch.
  injection Hch; intros I1 I2 I3 I4 I5 I6 I7 I8 I9 I10 I11.
  destruct C6 as [C6 C6'], C7 as [C7 C7'].
  repeat split; try congruence; try lia.
  destruct (Angel.hcfg_get (Angel.session_cfg d) Angel.CFGKEY_REJECT_METHOD)
    as [s|]; [|congruence].
  destruct Hm as [[-> Hm]|[-> Hm]]; cbn; congruence.
Qed.

(** X11.  The objectives have no default: [strategy_init] returns -1 when
    ANGEL_LEEWAY has no value, when PERF_COUNT is below 1, or when the
    number of leeways is not PERF_COUNT - 1. *)
Theorem X11_init_needs_objectives
  (E : Angel.Env) (d : Angel.data_t)
  (Hbad : Angel.hcfg_get (Angel.session_cfg d) Angel.CFGKEY_ANGEL_LEEWAY
          = None
          \/ (Angel.hcfg_int (Angel.session_cfg d) Angel.CFGKEY_PERF_COUNT
              < 1)%Z
          \/ Angel.hcfg_arr_len (Angel.session_cfg d)
               Angel.CFGKEY_ANGEL_LEEWAY
             <> (Angel.hcfg_int (Angel.session_cfg d)
                   Angel.CFGKEY_PERF_COUNT - 1)%Z) :
  fst (Angel.strategy_init d) = (-1)%Z.
Proof.
  destruct (angel_init_rc d) as [H0|H1]; [|exact H1]. exfalso.
  assert (Hinit : Angel.strategy_init d
                  = (0%Z, snd (Angel.strategy_init d))).
  { destruct (Angel.strategy_init d) as [rc y]. cbn in *. congruence. }
  destruct (angel_init_ok _ _ Hinit) as (d1 & Hc & _).
  pose proof (config_strategy_ok d d1 Hc) as X. cbv zeta in X.
  destruct X as (_ & _ & _ & (C8 & C12 & C12')).
  destruct Hbad as [H|[H|H]]; [contradiction|lia|contradiction].
Qed.

(** X13.  In a session started on a fresh [strategy_alloc], the phase
    always addresses an objective: 0 <= phase < perf_n, with perf_n the
    PERF_COUNT read at [strategy_init]; and the search is in the state
    CONVERGED in the last phase only. *)
Theorem X13_phase_in_range
  (E : Angel.Env) (c : Angel.hcfg) (fuel : nat) (ops : list Angel.op)
  (d0 d' : Angel.data_t) (evs : list Angel.event)
  (Hinit : Angel.strategy_init (Angel.strategy_alloc c) = (0%Z, d0))
  (Hrun : Angel.run fuel ops d0 = Some (evs, d')) :
  (0 <= Angel.phase d' < Angel.perf_n d')%Z
  /\ Angel.perf_n d' = Angel.hcfg_int c Angel.CFGKEY_PERF_COUNT
  /\ (Angel.state d' = Angel.SIMPLEX_STATE_CONVERGED ->
      Angel.phase d' = (Angel.perf_n d' - 1)%Z).
Proof.
  destruct (angel_init_ok _ _ Hinit) as (d1 & Hc & _ & _ & Hp).
  pose proof (config_strategy_ok _ d1 Hc) as X. cbv zeta in X.
  destruct X as (_ & Hp1 & _ & (C8 & _)).
  apply published_is in Hp1. destruct Hp1 as (Q1 & Q2 & _ & Q4).
  apply published_is in Hp. destruct Hp as (P1 & P2 & P3 & _).
  change (Angel.phase (Angel.strategy_alloc c)) with (-1)%Z in Q1.
  change (Angel.session_cfg (Angel.strategy_alloc c)) with c in *.
  apply (inv_run _ (phase_range_frame _) (phase_range_moves _)
           fuel ops d0 d' evs Hrun).
  rewrite P1, P2, P3, Q1, Q2. repeat split; try lia. discriminate.
Qed.

(** X14.  What the search publishes is in step with it, all along a
    session: ANGEL_PHASE holds the phase, CONVERGED holds 1 in the state
    CONVERGED and 0 in every other, and no other key of the configuration
    is written. *)
Theorem X14_published_keys
  (E : Angel.Env) (fuel : nat) (ops : list Angel.op)
  (d d0 d' : Angel.data_t) (evs : list Angel.event)
  (Hinit : Angel.strategy_init d = (0%Z, d0))
  (Hrun : Angel.run fuel ops d0 = Some (evs, d')) :
  Angel.hcfg_get (Angel.session_cfg d') Angel.CFGKEY_ANGEL_PHASE
  = Some (Angel.string_of_Z (Angel.phase d'))
  /\ Angel.hcfg_get (Angel.session_cfg d') Angel.CFGKEY_CONVERGED
     = Some (if Angel.state_eqb (Angel.state d')
                  Angel.SIMPLEX_STATE_CONVERGED
             then "1" else "0")%string
  /\ (forall k, k <> Angel.CFGKEY_ANGEL_PHASE ->
                k <> Angel.CFGKEY_CONVERGED ->
                Angel.hcfg_get (Angel.session_cfg d') k
                = Angel.hcfg_get (Angel.session_cfg d) k).
Proof.
  destruct (angel_init_ok _ _ Hinit) as (d1 & Hc & _ & _ & Hp).
  pose proof (config_strategy_ok _ d1 Hc) as X. cbv zeta in X.
  destruct X as (_ & Hp1 & _).
  apply published_is in Hp1. destruct Hp1 as (Q1 & _ & _ & Q4).
  apply published_is in Hp. destruct Hp as (P1 & _ & P3 & P4).
  apply (inv_run _ (keys_frame (Angel.session_cfg d))
           (keys_moves (Angel.session_cfg d))
           fuel ops d0 d' evs Hrun).
  rewrite P1, P3, P4, Q4. cbn [Angel.state_eqb].
  split; [apply session_setcfg_same|].
  split.
  - rewrite session_setcfg_other; [|discriminate].
    apply session_setcfg_same.
  - intros k K1 K2. rewrite !session_setcfg_other; auto.
Qed.

Section OnTheLineInit.
Import Line.

(** The hypothesis of X10 holds in the one-dimensional session with every
    option at its default. *)
Lemma X10_init_checks_options_witness :
  let d := Angel.strategy_alloc angel_defaults in
  let d0 := angel_boot angel_defaults in
  let c := Angel.session_cfg d in
  (Angel.mult d0 = Angel.hcfg_real c Angel.CFGKEY_ANGEL_MULT
   /\ isnan (Angel.mult d0) = false)
  /\ (Angel.init_radius d0 = Angel.hcfg_real c Angel.CFGKEY_INIT_RADIUS
      /\ (Angel.init_radius d0 <=? Fin 0)%D = false
      /\ (Angel.init_radius d0 >? Fin 1)%D = false)
  /\ (Angel.reflect_val d0 = Angel.hcfg_real c Angel.CFGKEY_REFLECT
      /\ (Fin 0 <? Angel.reflect_val d0)%D = true)
  /\ (Angel.expand_val d0 = Angel.hcfg_real c Angel.CFGKEY_EXPAND
      /\ (Angel.reflect_val d0 <? Angel.expand_val d0)%D = true)
  /\ (Angel.contract_val d0 = Angel.hcfg_real c Angel.CFGKEY_CONTRACT
      /\ (Fin 0 <? Angel.contract_val d0)%D = true
      /\ (Angel.contract_val d0 <? Fin 1)%D = true)
  /\ (Angel.shrink_val d0 = Angel.hcfg_real c Angel.CFGKEY_SHRINK
      /\ (Fin 0 <? Angel.shrink_val d0)%D = true
      /\ (Angel.shrink_val d0 <? Fin 1)%D = true)
  /\ (Angel.perf_n d0 = Angel.hcfg_int c Angel.CFGKEY_PERF_COUNT
      /\ (1 <= Angel.perf_n d0)%Z)
  /\ (Angel.loose d0 = Angel.hcfg_bool c Angel.CFGKEY_ANGEL_LOOSE
      /\ Angel.anchor d0 = Angel.hcfg_bool c Angel.CFGKEY_ANGEL_ANCHOR
      /\ Angel.samesimplex d0
         = Angel.hcfg_bool c Angel.CFGKEY_ANGEL_SAMESIMPLEX)
  /\ Angel.reject_type d0
     = match Angel.hcfg_get c Angel.CFGKEY_REJECT_METHOD with
       | Some s => if String.eqb s "penalty"
                   then Angel.REJECT_METHOD_PENALTY
                   else Angel.REJECT_METHOD_RANDOM
       | None => Angel.reject_type d
       end.
Proof.
  cbv zeta.
  apply (@X10_init_checks_options angel_env
           (Angel.strategy_alloc angel_defaults) (angel_boot angel_defaults)).
  vm_compute. reflexivity.
Defined.

(** The hypothesis of X11 holds when the user sets nothing: ANGEL_LEEWAY
    has no default. *)
Lemma X11_init_needs_objectives_witness :
  fst (Angel.strategy_init (Angel.strategy_alloc angel_unset)) = (-1)%Z.
Proof.
  apply (@X11_init_needs_objectives angel_env
           (Angel.strategy_alloc angel_unset)).
  left. vm_compute. reflexivity.
Defined.

(** The hypotheses of X13 hold in the session of two objectives that
    converges on the first and moves on to the second. *)
Lemma X13_phase_in_range_witness :
  let d' := snd (angel_run_from (angel_boot angel_two)
                   [angel_G; angel_A2 1 1 1; angel_G; angel_A2 2 5 1;
                    angel_G]) in
  (0 <= Angel.phase d' < Angel.perf_n d')%Z
  /\ Angel.perf_n d' = Angel.hcfg_int angel_two Angel.CFGKEY_PERF_COUNT
  /\ (Angel.state d' = Angel.SIMPLEX_STATE_CONVERGED ->
      Angel.phase d' = (Angel.perf_n d' - 1)%Z).
Proof.
  cbv zeta.
  apply (@X13_phase_in_range angel_env angel_two 5
           [angel_G; angel_A2 1 1 1; angel_G; angel_A2 2 5 1; angel_G]
           (angel_boot angel_two)
           (snd (angel_run_from (angel_boot angel_two)
                   [angel_G; angel_A2 1 1 1; angel_G; angel_A2 2 5 1;
                    angel_G]))
           (fst (angel_run_from (angel_boot angel_two)
                   [angel_G; angel_A2 1 1 1; angel_G; angel_A2 2 5 1;
                    angel_G]))).
  - vm_compute. reflexivity.
  - vm_compute. reflexivity.
Defined.

(** The hypotheses of X14 hold in the same session. *)
Lemma X14_published_keys_witness :
  let d' := snd (angel_run_from (angel_boot angel_two)
                   [angel_G; angel_A2 1 1 1; angel_G; angel_A2 2 5 1;
                    angel_G]) in
  Angel.hcfg_get (Angel.session_cfg d') Angel.CFGKEY_ANGEL_PHASE
  = Some (Angel.string_of_Z (Angel.phase d'))
  /\ Angel.hcfg_get (Angel.session_cfg d') Angel.CFGKEY_CONVERGED
     = Some (if Angel.state_eqb (Angel.state d')
                  Angel.SIMPLEX_STATE_CONVERGED
             then "1" else "0")%string
  /\ (forall k, k <> Angel.CFGKEY_ANGEL_PHASE ->
                k <> Angel.CFGKEY_CONVERGED ->
                Angel.hcfg_get (Angel.session_cfg d') k
                = Angel.hcfg_get
                    (Angel.session_cfg (Angel.strategy_alloc angel_two)) k).
Proof.
  cbv zeta.
  apply (@X14_published_keys angel_env 5
           [angel_G; angel_A2 1 1 1; angel_G; angel_A2 2 5 1; angel_G]
           (Angel.strategy_alloc angel_two)
           (angel_boot angel_two)
           (snd (angel_run_from (angel_boot angel_two)
                   [angel_G; angel_A2 1 1 1; angel_G; angel_A2 2 5 1;
                    angel_G]))
           (fst (angel_run_from (angel_boot angel_two)
                   [angel_G; angel_A2 1 1 1; angel_G; angel_A2 2 5 1;
                    angel_G]))).
  - vm_compute. reflexivity.
  - vm_compute. reflexivity.
Defined.

End OnTheLineInit.

(** ** The best and the worst vertex (angel.c, update_centroid) *)

Section Centroid.
Import Angel.
Context {E : Env}.

Lemma dlt_trans (x y z : double) :
  dlt x y = true -> dlt y z = true -> dlt x z = true.
Proof.
  destruct x as [| | |a], y as [| | |b], z as [| | |c]; cbn;
    try discriminate; try reflexivity.
  rewrite !Qltb_true. apply Qlt_trans.
Qed.

(** A counted loop, with its counter. *)
Lemma for_up_count {S : Type} (P : Z -> S -> Prop) (body : Z -> S -> S) :
  (forall i s, P i s -> P (i + 1)%Z (body i s)) ->
  forall n from s, P from s -> P (from + Z.of_nat n)%Z (for_up n from body s).
Proof.
  intros Hb. induction n as [|n IH]; intros from s Hs.
  - cbn [for_up]. replace (from + Z.of_nat 0)%Z with from by lia. exact Hs.
  - cbn [for_up].
    replace (from + Z.of_nat (Datatypes.S n))%Z
      with ((from + 1) + Z.of_nat n)%Z by lia.
    apply IH. apply Hb. exact Hs.
Qed.

Lemma update_indices_spec (d : data_t) :
  let o := fun j => obj (perf (vget (simplex d) j)) (phase d) in
  let d' := update_indices d in
  simplex d' = simplex d
  /\ phase d' = phase d
  /\ centroid d' = centroid d
  /\ ((0 < zlen (simplex d))%Z ->
      (0 <= index_best d' < zlen (simplex d))%Z
      /\ (0 <= index_worst d' < zlen (simplex d))%Z)
  /\ (forall j, (0 <= j < zlen (simplex d))%Z ->
                (o j <? o (index_best d'))%D = false
                /\ (o (index_worst d') <? o j)%D = false).
Proof.
  cbv zeta. unfold update_indices.
  set (o := fun j => obj (perf (vget (simplex d) j)) (phase d)).
  set (d0 := set_index_worst 0 (set_index_best 0 d)).
  pose (P := fun (k : Z) (s : data_t) =>
               simplex s = simplex d /\ phase s = phase d
               /\ centroid s = centroid d
               /\ (0 <= index_best s < k)%Z /\ (0 <= index_worst s < k)%Z
               /\ forall j, (0 <= j < k)%Z ->
                            (o j <? o (index_best s))%D = false
                            /\ (o (index_worst s) <? o j)%D = false).
  assert (H0 : P 1%Z d0).
  { unfold P, d0.
    cbn [simplex phase centroid index_best index_worst set_index_worst
         set_index_best].
    split; [reflexivity|]. split; [reflexivity|]. split; [reflexivity|].
    split; [lia|]. split; [lia|].
    intros j Hj. assert (j = 0%Z) as -> by lia.
    split; apply dlt_irrefl. }
  assert (Hb : forall i s, P i s ->
             P (i + 1)%Z
               ((fun i d =>
                   let d :=
                     if (obj (perf (vget (simplex d) i)) (phase d)
                         <? obj (perf (vget (simplex d) (index_best d)))
                              (phase d))%D
                     then set_index_best i d else d in
                   if (obj (perf (vget (simplex d) i)) (phase d)
                       >? obj (perf (vget (simplex d) (index_worst d)))
                            (phase d))%D
                   then set_index_worst i d else d) i s)).
  { intros i s (S1 & S2 & S3 & S4 & S5 & S6). cbv beta zeta. unfold P.
    rewrite S1, S2. fold (o i) (o (index_best s)).
    assert (Hbest : exists s1,
               simplex s1 = simplex d /\ phase s1 = phase d
               /\ centroid s1 = centroid d
               /\ index_worst s1 = index_worst s
               /\ (0 <= index_best s1 < i + 1)%Z
               /\ (forall j, (0 <= j < i + 1)%Z ->
                             (o j <? o (index_best s1))%D = false)
               /\ (if (o i <? o (index_best s))%D
                   then set_index_best i s else s) = s1).
    { destruct (o i <? o (index_best s))%D eqn:Hlt.
      - exists (set_index_best i s).
        cbn [simplex phase centroid index_best index_worst set_index_best].
        split; [exact S1|]. split; [exact S2|]. split; [exact S3|].
        split; [reflexivity|]. split; [lia|]. split; [|reflexivity].
        intros j Hj. destruct (Z.eq_dec j i) as [->|Hne];
          [apply dlt_irrefl|].
        destruct (o j <? o i)%D eqn:Hji; [|reflexivity].
        pose proof (dlt_trans _ _ _ Hji Hlt) as Ht.
        destruct (S6 j) as [Hj1 _]; [lia|]. congruence.
      - exists s.
        split; [exact S1|]. split; [exact S2|]. split; [exact S3|].
        split; [reflexivity|]. split; [lia|]. split; [|reflexivity].
        intros j Hj. destruct (Z.eq_dec j i) as [->|Hne]; [exact Hlt|].
        apply S6. lia. }
    destruct Hbest as (s1 & T1 & T2 & T3 & T4 & T5 & T6 & ->).
    rewrite T1, T2, T4. fold (o i) (o (index_worst s)). unfold dgt.
    destruct (o (index_worst s) <? o i)%D eqn:Hgt.
    - cbn [simplex phase centroid index_best index_worst set_index_worst].
      split; [exact T1|]. split; [exact T2|]. split; [exact T3|].
      split; [lia|]. split; [lia|].
      intros j Hj. split; [apply T6; lia|].
      destruct (Z.eq_dec j i) as [->|Hne]; [apply dlt_irrefl|].
      destruct (o i <? o j)%D eqn:Hij; [|reflexivity].
      pose proof (dlt_trans _ _ _ Hgt Hij) as Ht.
      destruct (S6 j) as [_ Hj2]; [lia|]. congruence.
    - split; [exact T1|]. split; [exact T2|]. split; [exact T3|].
      split; [lia|]. split; [rewrite T4; lia|].
      intros j Hj. split; [apply T6; lia|]. rewrite T4.
      destruct (Z.eq_dec j i) as [->|Hne]; [exact Hgt|].
      apply S6. lia. }
  pose proof (for_up_count P _ Hb (length (simplex d) - 1) 1%Z d0 H0) as H.
  cbv beta in H. destruct H as (S1 & S2 & S3 & S4 & S5 & S6).
  split; [exact S1|]. split; [exact S2|]. split; [exact S3|].
  assert (Hlen : (0 < zlen (simplex d))%Z ->
                 (1 + Z.of_nat (length (simplex d) - 1))%Z
                 = zlen (simplex d)).
  { unfold zlen. lia. }
  split.
  - intros Hpos. rewrite <- (Hlen Hpos). split; assumption.
  - intros j Hj. apply S6. rewrite Hlen; lia.
Qed.

Lemma set_id_back (v : vertex_t) (x : Z) : set_id (id v) (set_id x v) = v.
Proof. destruct v; reflexivity. Qed.

Lemma upd_nat_twice {A : Type} (l : list A) (n : nat) (x y : A) :
  upd_nat (upd_nat l n x) n y = upd_nat l n y.
Proof.
  revert n; induction l as [|h t IH]; intros [|n]; simpl; auto.
  now rewrite IH.
Qed.

Lemma upd_nat_nth {A : Type} (dflt : A) (l : list A) (n : nat) :
  upd_nat l n (nth n l dflt) = l.
Proof.
  revert n; induction l as [|h t IH]; intros [|n]; simpl; auto.
  now rewrite IH.
Qed.

(** Writing a value and then the old one back leaves the array as it
    was, wherever the index lies. *)
Lemma zset_restore {A : Type} (dflt : A) (l : list A) (i : Z) (x : A)
  (f : A -> A) :
  f x = zget dflt l i ->
  zset (zset l i x) i (f (zget dflt (zset l i x) i)) = l.
Proof.
  intros Hf. unfold zset, zget in *.
  destruct (i <? 0)%Z; [reflexivity|].
  rewrite upd_nat_twice.
  destruct (Nat.lt_ge_cases (Z.to_nat i) (length l)) as [Hlt|Hge].
  - rewrite nth_upd_nat_same by exact Hlt. rewrite Hf. apply upd_nat_nth.
  - clear Hf. revert Hge. generalize (Z.to_nat i) as n.
    generalize (f (nth (Z.to_nat i) (upd_nat l (Z.to_nat i) x) dflt)) as y.
    clear. intros y n. revert n.
    induction l as [|h t IH]; intros [|n]; simpl; intros; try lia; auto.
    rewrite IH; [reflexivity|lia].
Qed.

Lemma update_centroid_simplex (d : data_t) :
  simplex (snd (update_centroid d)) = simplex (update_indices d)
  /\ index_best (snd (update_centroid d)) = index_best (update_indices d)
  /\ index_worst (snd (update_centroid d)) = index_worst (update_indices d).
Proof.
  unfold update_centroid, simplex_centroid.
  cbn [snd fst Z.eqb negb simplex index_best index_worst set_simplex
       set_centroid].
  split; [|split; reflexivity].
  set (d1 := update_indices d).
  apply (zset_restore vertex0 (simplex d1) (index_worst d1)
           (set_id 0 (vget (simplex d1) (index_worst d1)))
           (set_id (id (vget (simplex d1) (index_worst d1))))).
  apply set_id_back.
Qed.

End Centroid.

(** X15.  [update_centroid] picks the best and the worst vertex on the
    objective of the phase: no vertex of the simplex is below the one at
    index_best, none is above the one at index_worst, and both indices lie
    in the simplex when it has a vertex.  When it returns 0 the simplex
    itself is left as it was: the id of the worst vertex, zeroed for the
    centroid, is put back. *)
Theorem X15_best_and_worst (E : Angel.Env) (d : Angel.data_t) :
  let d' := snd (Angel.update_centroid d) in
  let o := fun j =>
             Angel.obj (Angel.perf (Angel.vget (Angel.simplex d) j))
               (Angel.phase d) in
  (fst (Angel.update_centroid d) = 0%Z ->
   Angel.simplex d' = Angel.simplex d)
  /\ ((0 < zlen (Angel.simplex d))%Z ->
      (0 <= Angel.index_best d' < zlen (Angel.simplex d))%Z
      /\ (0 <= Angel.index_worst d' < zlen (Angel.simplex d))%Z)
  /\ (forall j, (0 <= j < zlen (Angel.simplex d))%Z ->
                (o j <? o (Angel.index_best d'))%D = false
                /\ (o (Angel.index_worst d') <? o j)%D = false).
Proof.
  cbv zeta.
  destruct (update_centroid_simplex d) as (U1 & U2 & U3).
  pose proof (update_indices_spec d) as X. cbv zeta in X.
  destruct X as (S1 & _ & _ & S4 & S5).
  rewrite U1, U2, U3. split; [intros _; exact S1|]. split; assumption.
Qed.

(** ** The threshold a phase leaves behind (angel.c, increment_phase) *)

Section Threshold.
Import Angel.
Context {E : Env}.

#[local] Arguments make_initial_simplex : simpl never.
#[local] Arguments phase_threshold : simpl never.

Lemma thresh_increment_phase (d : data_t) :
  thresh (snd (increment_phase d)) = thresh (phase_threshold d)
  /\ (fst (increment_phase d) = 0%Z ->
      phase (snd (increment_phase d)) = (phase d + 1)%Z).
Proof.
  split.
  - unfold increment_phase, andthen.
    assert (H1 : thresh (phase_begin (phase_threshold d))
                 = thresh (phase_threshold d)) by reflexivity.
    set (d1 := phase_begin (phase_threshold d)) in *.
    assert (H2 : forall y, thresh (phase_reset_best (phase_anchor y))
                           = thresh y).
    { intros y. unfold phase_reset_best, phase_anchor. break; reflexivity. }
    assert (H3 : forall y, thresh (snd (make_initial_simplex y)) = thresh y).
    { intros y. unfold make_initial_simplex, andthen.
      repeat break; reflexivity. }
    destruct (negb (samesimplex d1)).
    + specialize (H3 d1).
      destruct (make_initial_simplex d1) as [rc d2]. cbn [snd] in H3.
      destruct (rc =? 0)%Z; cbn [snd]; [rewrite H2|]; congruence.
    + cbn [snd Z.eqb]. rewrite H2. exact H1.
  - intros H.
    assert (Hok : increment_phase d = (0%Z, snd (increment_phase d))).
    { destruct (increment_phase d) as [rc y]. cbn in *. congruence. }
    apply increment_phase_ok in Hok. apply published_is in Hok. tauto.
Qed.

Lemma phase_threshold_at (d : data_t) (m M l : Q) :
  (0 <= phase d < zlen (thresh d))%Z ->
  min (zget span0 (span d) (phase d)) = Fin m ->
  max (zget span0 (span d) (phase d)) = Fin M ->
  zget NaN (leeway d) (phase d) = Fin l ->
  fin_val (zget NaN (thresh (phase_threshold d)) (phase d))
    (m + (M - m) * l)
  /\ forall k, k <> phase d ->
       zget NaN (thresh (phase_threshold d)) k = zget NaN (thresh d) k.
Proof.
  intros Hp Hm HM Hl. unfold phase_threshold.
  destruct (phase d >=? 0)%Z eqn:Hge; [|lia].
  cbn [thresh set_thresh]. split.
  - rewrite zget_zset_same by exact Hp. rewrite Hm, HM, Hl.
    eapply fin_val_ext.
    + apply fin_val_add; [|apply fin_val_Fin].
      apply fin_val_mul; [|apply fin_val_Fin].
      apply fin_val_sub; apply fin_val_Fin.
    + ring.
  - intros k Hk. apply zget_zset_other. congruence.
Qed.

End Threshold.


Section OnTheLineX16.
Import Line.


End OnTheLineX16.
